(** * AlphaWeaver client: job expansion, polling scheduler and result watchers

    A shallow embedding of the Go client (package [main]) and the proofs of
    the properties its specification states.  Go [string]s are byte
    sequences and are modelled as [list ascii]; Go [int], [int64] and
    [time.Duration] are 64-bit and are modelled as [Z] with the wrap-around
    written out; [float64] is the kernel's binary64 type.

    The first part of the file holds the embedding, module by module in the
    order of the source files; the second part holds the proofs. *)

From Stdlib Require Import ZArith Ascii String List Bool Floats Lia Arith.
Import ListNotations.

Local Open Scope Z_scope.

(** ** Go values *)

Definition str := list ascii.

(** String literals of the source are written [L "..."]. *)
Definition L (s : string) : str := list_ascii_of_string s.

Definition MinInt64 : Z := - 2 ^ 63.
Definition MaxInt64 : Z := 2 ^ 63 - 1.

Definition in_int64 (z : Z) : bool := (MinInt64 <=? z) && (z <=? MaxInt64).

(** Two's complement wrap-around of 64-bit signed arithmetic. *)
Definition wrap64 (z : Z) : Z := (z + 2 ^ 63) mod 2 ^ 64 - 2 ^ 63.

(** Outcome of a Go call.  [Ret] is a normal return; [Panic] a run-time
    panic (slice bounds out of range); [Unspec] marks the inputs on which
    this development does not fix the result of a standard-library call
    (float syntax beyond plain decimals, calendar arithmetic outside the
    range in which package [time] is exact). *)
Inductive go (A : Type) : Type :=
| Ret (a : A)
| Panic
| Unspec.
Arguments Ret {A} a.
Arguments Panic {A}.
Arguments Unspec {A}.

Definition bind {A B} (m : go A) (k : A -> go B) : go B :=
  match m with
  | Ret a => k a
  | Panic => Panic
  | Unspec => Unspec
  end.

Notation "x <- m ;; k" := (bind m (fun x => k))
  (at level 61, m at next level, right associativity).

(** A Go result pair [(T, error)]: [Ok v] when the error is [nil]. *)
Inductive result (A : Type) : Type :=
| Ok (a : A)
| Err.
Arguments Ok {A} a.
Arguments Err {A}.

(** ** float64 *)

(** [float64(z)] for an integer [z]: rounding to nearest, ties to even. *)
Definition float64_of_Z (z : Z) : float :=
  SF2Prim (binary_normalize prec emax z 0 false).

(** The integer part of a finite float (truncation toward zero); [None] for
    infinities and NaN. *)
Definition trunc_float (f : float) : option Z :=
  match Prim2SF f with
  | S754_zero _ => Some 0
  | S754_finite s m e =>
      let a := match e with
               | Z0 => Zpos m
               | Zpos p => Zpos m * 2 ^ Zpos p
               | Zneg p => Zpos m / 2 ^ Zpos p
               end in
      Some (if s then - a else a)
  | S754_infinity _ => None
  | S754_nan => None
  end.

(** [int64(f)], [int(f)] and [time.Duration(f)].  The Go specification
    leaves the result of converting a float that the integer type cannot
    represent to the implementation (amd64 yields [MinInt64], arm64
    saturates); [impl] is that choice. *)
Definition int64_of_float (impl : float -> Z) (f : float) : Z :=
  match trunc_float f with
  | Some z => if in_int64 z then z else wrap64 (impl f)
  | None => wrap64 (impl f)
  end.

(** The conversion of the amd64 port, used for concrete evaluations. *)
Definition impl_amd64 (_ : float) : Z := MinInt64.

(** ** Packages strings, strconv and path/filepath

    The functions of the Go standard library that the client calls, on byte
    strings.  Indices are [nat]; the result [-1] of the Go search functions
    is [None]. *)

Definition code (c : ascii) : N := N_of_ascii c.

Definition nl : ascii := ascii_of_N 10.

Definition dquote : ascii := ascii_of_N 34.

(** Text literals of examples: [T "..."] reads [|] as a line feed and [']
    as a double quote. *)
Definition T (s : string) : str :=
  map (fun c => if Ascii.eqb c "|" then nl
                else if Ascii.eqb c "'" then dquote else c)
    (list_ascii_of_string s).

Fixpoint eqb_str (a b : str) : bool :=
  match a, b with
  | [], [] => true
  | x :: a', y :: b' => Ascii.eqb x y && eqb_str a' b'
  | _, _ => false
  end.

(** [s[i:j]] for [i <= j <= len(s)]. *)
Definition slice (s : str) (i j : nat) : str := firstn (j - i) (skipn i s).

Fixpoint HasPrefix (s p : str) : bool :=
  match p, s with
  | [], _ => true
  | _ :: _, [] => false
  | a :: p', b :: s' => Ascii.eqb a b && HasPrefix s' p'
  end.

Definition HasSuffix (s suf : str) : bool := HasPrefix (rev s) (rev suf).

(** [strings.Index]: the offset of the first occurrence. *)
Fixpoint Index (s sub : str) : option nat :=
  if HasPrefix s sub then Some O
  else match s with
       | [] => None
       | _ :: t => option_map S (Index t sub)
       end.

(** [strings.LastIndex]: the offset of the last occurrence. *)
Fixpoint LastIndex (s sub : str) : option nat :=
  match s with
  | [] => if HasPrefix [] sub then Some O else None
  | _ :: t =>
      match LastIndex t sub with
      | Some i => Some (S i)
      | None => if HasPrefix s sub then Some O else None
      end
  end.

Definition Contains (s sub : str) : bool :=
  match Index s sub with Some _ => true | None => false end.

(** [strings.Count] and [bytes.Count] for a non-empty [sub]: the number of
    non-overlapping occurrences, scanning from the left.  [skip] is the
    number of bytes still covered by the occurrence counted last. *)
Fixpoint count_from (s sub : str) (skip : nat) : nat :=
  match s with
  | [] => O
  | _ :: t =>
      match skip with
      | S k => count_from t sub k
      | O => if HasPrefix s sub
             then S (count_from t sub (length sub - 1))
             else count_from t sub O
      end
  end.

Definition Count (s sub : str) : nat := count_from s sub O.

(** [strings.Split] with a one-byte separator, which is what every call of
    the source passes. *)
Fixpoint Split (s : str) (sep : ascii) : list str :=
  match s with
  | [] => [[]]
  | c :: t =>
      if Ascii.eqb c sep then [] :: Split t sep
      else match Split t sep with
           | w :: ws => (c :: w) :: ws
           | [] => [[c]]
           end
  end.

Fixpoint Join (elems : list str) (sep : str) : str :=
  match elems with
  | [] => []
  | e :: rest =>
      match rest with
      | [] => e
      | _ :: _ => e ++ sep ++ Join rest sep
      end
  end.

(** *** White space *)

(** The table [asciiSpace] of package strings. *)
Definition asciiSpace (c : ascii) : bool :=
  match code c with
  | 9%N | 10%N | 11%N | 12%N | 13%N | 32%N => true
  | _ => false
  end.

(** UTF-8 encodings of the other runes with [unicode.IsSpace]: U+0085 and
    U+00A0 take two bytes; U+1680, U+2000..U+200A, U+2028, U+2029, U+202F,
    U+205F and U+3000 take three. *)
Definition space2 (a b : ascii) : bool :=
  (code a =? 194)%N && ((code b =? 133)%N || (code b =? 160)%N).

Definition space3 (a b c : ascii) : bool :=
  ((code a =? 225)%N && (code b =? 154)%N && (code c =? 128)%N)
  || ((code a =? 226)%N && (code b =? 128)%N
      && (((128 <=? code c)%N && (code c <=? 138)%N)
          || (code c =? 168)%N || (code c =? 169)%N || (code c =? 175)%N))
  || ((code a =? 226)%N && (code b =? 129)%N && (code c =? 159)%N)
  || ((code a =? 227)%N && (code b =? 128)%N && (code c =? 128)%N).

(** [strings.TrimLeftFunc(s, unicode.IsSpace)]. *)
Fixpoint TrimLeftSpace (s : str) : str :=
  match s with
  | [] => []
  | a :: t =>
      if asciiSpace a then TrimLeftSpace t
      else match t with
           | [] => s
           | b :: u =>
               if space2 a b then TrimLeftSpace u
               else match u with
                    | [] => s
                    | c :: v => if space3 a b c then TrimLeftSpace v else s
                    end
           end
  end.

(** The same scan from the end, on the reversed string. *)
Fixpoint trim_rev_space (r : str) : str :=
  match r with
  | [] => []
  | c :: t =>
      if asciiSpace c then trim_rev_space t
      else match t with
           | [] => r
           | b :: u =>
               if space2 b c then trim_rev_space u
               else match u with
                    | [] => r
                    | a :: v => if space3 a b c then trim_rev_space v else r
                    end
           end
  end.

Definition TrimRightSpace (s : str) : str := rev (trim_rev_space (rev s)).

(** [strings.TrimSpace]. *)
Definition TrimSpace (s : str) : str := TrimRightSpace (TrimLeftSpace s).

(** The cut set of [removeXMLTag]: space, tab, line feed, carriage return.
    All four are single bytes, so the rune-wise scan of [TrimLeftFunc] and
    [TrimRightFunc] is a byte-wise one. *)
Definition isCut (c : ascii) : bool :=
  match code c with
  | 32%N | 9%N | 10%N | 13%N => true
  | _ => false
  end.

Fixpoint TrimLeftFunc (s : str) (f : ascii -> bool) : str :=
  match s with
  | [] => []
  | c :: t => if f c then TrimLeftFunc t f else s
  end.

Definition TrimRightFunc (s : str) (f : ascii -> bool) : str :=
  rev (TrimLeftFunc (rev s) f).

(** *** Letter case *)

Definition isUpper (c : ascii) : bool := (65 <=? code c)%N && (code c <=? 90)%N.
Definition isLower (c : ascii) : bool := (97 <=? code c)%N && (code c <=? 122)%N.

Definition lower1 (c : ascii) : ascii :=
  if isUpper c then ascii_of_N (code c + 32) else c.
Definition upper1 (c : ascii) : ascii :=
  if isLower c then ascii_of_N (code c - 32) else c.

(** [strings.ToLower].  Exact on ASCII text.  Of the other runes only
    U+0130 and U+212A have an ASCII lower case ([i] and [k]); they are
    mapped, every other byte above 127 is left in place, so the result
    equals a given ASCII string exactly when Go's does, which is all the
    source asks of it. *)
Fixpoint ToLower (s : str) : str :=
  match s with
  | [] => []
  | a :: t =>
      match t with
      | b :: u =>
          if (code a =? 196)%N && (code b =? 176)%N then L "i" ++ ToLower u
          else match u with
               | c :: v =>
                   if (code a =? 226)%N && (code b =? 132)%N && (code c =? 170)%N
                   then L "k" ++ ToLower v
                   else lower1 a :: ToLower t
               | [] => lower1 a :: ToLower t
               end
      | [] => [lower1 a]
      end
  end.

(** [strings.ToUpper], likewise: U+0131 and U+017F are the runes outside
    ASCII whose upper case is ASCII ([I] and [S]). *)
Fixpoint ToUpper (s : str) : str :=
  match s with
  | [] => []
  | a :: t =>
      match t with
      | b :: u =>
          if (code a =? 196)%N && (code b =? 177)%N then L "I" ++ ToUpper u
          else if (code a =? 197)%N && (code b =? 191)%N then L "S" ++ ToUpper u
          else upper1 a :: ToUpper t
      | [] => [upper1 a]
      end
  end.

(** [strings.EqualFold(s, t)] for an ASCII [t], which is what every call of
    the source passes.  Under simple case folding [s] and [S] also equal
    U+017F, and [k] and [K] equal U+212A. *)
Fixpoint EqualFold (s t : str) : bool :=
  match t with
  | [] => match s with [] => true | _ :: _ => false end
  | b :: t' =>
      match s with
      | [] => false
      | a :: s' =>
          if (code a <? 128)%N then
            Ascii.eqb (lower1 a) (lower1 b) && EqualFold s' t'
          else
            match s' with
            | a2 :: s2 =>
                if Ascii.eqb (lower1 b) "s"
                   && (code a =? 197)%N && (code a2 =? 191)%N
                then EqualFold s2 t'
                else match s2 with
                     | a3 :: s3 =>
                         Ascii.eqb (lower1 b) "k"
                         && (code a =? 226)%N && (code a2 =? 132)%N
                         && (code a3 =? 170)%N && EqualFold s3 t'
                     | [] => false
                     end
            | [] => false
            end
      end
  end.

(** *** strconv *)

Definition isDigit (c : ascii) : bool := (48 <=? code c)%N && (code c <=? 57)%N.

Definition digit_val (c : ascii) : Z := Z.of_N (code c) - 48.

Definition digit_char (d : Z) : ascii := ascii_of_N (Z.to_N (48 + d)).

(** The value of a string of decimal digits, [None] if another byte occurs. *)
Fixpoint digits_val (s : str) (acc : Z) : option Z :=
  match s with
  | [] => Some acc
  | c :: t => if isDigit c then digits_val t (10 * acc + digit_val c) else None
  end.

(** [strconv.Atoi]: an optional sign and at least one digit, within the
    64-bit range; [None] is the error return. *)
Definition Atoi (s : str) : option Z :=
  let '(neg, body) :=
    match s with
    | c :: t =>
        if Ascii.eqb c "-" then (true, t)
        else if Ascii.eqb c "+" then (false, t)
        else (false, s)
    | [] => (false, [])
    end in
  match body with
  | [] => None
  | _ :: _ =>
      match digits_val body 0 with
      | Some n =>
          let v := if neg then - n else n in
          if in_int64 v then Some v else None
      | None => None
      end
  end.

(** The decimal digits of [n >= 0], most significant first. *)
Fixpoint digits_fuel (fuel : nat) (n : Z) (acc : str) : str :=
  match fuel with
  | O => acc
  | S f =>
      let acc' := digit_char (n mod 10) :: acc in
      if n <? 10 then acc' else digits_fuel f (n / 10) acc'
  end.

Definition digits (n : Z) : str := digits_fuel (S (Z.to_nat (Z.log2 n))) n [].

(** [strconv.Itoa]. *)
Definition Itoa (n : Z) : str :=
  if n <? 0 then L "-" ++ digits (- n) else digits n.

(** [strconv.ParseFloat(s, 64)] on plain decimals: an optional sign, digits
    and at most one point, with a mantissa below 2^53 and at most 22
    fraction digits, where the quotient of the two exactly represented
    integers is the correctly rounded value.  A string with a byte that no
    float syntax contains is an error; the rest of Go's syntax (exponents,
    hexadecimal, infinities, longer mantissas) is [Unspec]. *)
Definition floatByte (c : ascii) : bool :=
  isDigit c || isUpper c || isLower c
  || Ascii.eqb c "+" || Ascii.eqb c "-" || Ascii.eqb c "." || Ascii.eqb c "_".

Fixpoint span_digits (s : str) : str * str :=
  match s with
  | c :: t =>
      if isDigit c then let '(d, r) := span_digits t in (c :: d, r)
      else ([], s)
  | [] => ([], [])
  end.

Definition ParseFloat (s : str) : go (result float) :=
  if negb (forallb floatByte s) then Ret Err
  else
    let '(neg, body) :=
      match s with
      | c :: t =>
          if Ascii.eqb c "-" then (true, t)
          else if Ascii.eqb c "+" then (false, t)
          else (false, s)
      | [] => (false, [])
      end in
    let '(ip, rest) := span_digits body in
    let '(fp, rest') :=
      match rest with
      | c :: t => if Ascii.eqb c "." then span_digits t else ([], rest)
      | [] => ([], [])
      end in
    match rest', ip ++ fp with
    | [], _ :: _ =>
        match digits_val (ip ++ fp) 0 with
        | Some m =>
            if (m <? 2 ^ 53) && (Nat.leb (length fp) 22) then
              let v := (float64_of_Z m / float64_of_Z (10 ^ Z.of_nat (length fp)))%float in
              Ret (Ok (if neg then (- v)%float else v))
            else Unspec
        | None => Unspec
        end
    | [], [] => if eqb_str body [] || eqb_str body (L ".") then Ret Err else Unspec
    | _ :: _, _ => Unspec
    end.

(** *** path/filepath and directory listings *)

(** [filepath.Ext] of a file name: the suffix from the last dot on. *)
Fixpoint Ext (name : str) : str :=
  match name with
  | [] => []
  | c :: t =>
      match Ext t with
      | [] => if Ascii.eqb c "." then name else []
      | e => e
      end
  end.

Definition TrimSuffix (s suf : str) : str :=
  if HasSuffix s suf then firstn (length s - length suf) s else s.

(** A directory entry as [os.ReadDir] returns it. *)
Record DirEntry := { Name : str; IsDir : bool }.

(** ** Polling scheduler (polling.go, config.go) *)

Module Polling.

Record ExponentialBackoffConfig := {
  Enabled : bool;
  Factor : float;
  MaxEmptyPolls : Z
}.

Record PollConfig := {
  Limit : Z;
  Interval : Z;
  MaxInterval : Z;
  MinInterval : Z;
  MaxJobs : Z;
  Adaptive : bool;
  RemainingJobsThreshold : Z;
  ExponentialBackoff : ExponentialBackoffConfig
}.

(** The poll section of [DefaultConfig]. *)
Definition DefaultPoll : PollConfig := {|
  Limit := 10;
  Interval := 300000;
  MaxInterval := 1800000;
  MinInterval := 300000;
  MaxJobs := 50;
  Adaptive := true;
  RemainingJobsThreshold := 3;
  ExponentialBackoff :=
    {| Enabled := true; Factor := 1.5%float; MaxEmptyPolls := 3 |}
|}.

Definition Millisecond : Z := 1000000.

(** [time.Duration(c.Poll.X) * time.Millisecond] in 64-bit arithmetic. *)
Definition GetPollInterval (c : PollConfig) : Z :=
  wrap64 (Interval c * Millisecond).

Definition GetMaxPollInterval (c : PollConfig) : Z :=
  wrap64 (MaxInterval c * Millisecond).

Definition GetMinPollInterval (c : PollConfig) : Z :=
  wrap64 (MinInterval c * Millisecond).

Record PollingOptimizer := {
  config : PollConfig;
  consecutiveEmptyPolls : Z;
  currentInterval : Z;
  totalPolls : Z;
  successfulPolls : Z
}.

Definition NewPollingOptimizer (cfg : PollConfig) : PollingOptimizer := {|
  config := cfg;
  consecutiveEmptyPolls := 0;
  currentInterval := GetPollInterval cfg;
  totalPolls := 0;
  successfulPolls := 0
|}.

Definition set_currentInterval (po : PollingOptimizer) (d : Z)
  : PollingOptimizer := {|
  config := config po;
  consecutiveEmptyPolls := consecutiveEmptyPolls po;
  currentInterval := d;
  totalPolls := totalPolls po;
  successfulPolls := successfulPolls po
|}.

(** [countJobsInFolder]: [folder] is what [os.ReadDir] returned, [None]
    when it failed. *)
Definition countJobsInFolder (folder : option (list DirEntry)) : option Z :=
  match folder with
  | None => None
  | Some entries =>
      Some (fold_left
              (fun count entry =>
                 if negb (IsDir entry) && HasSuffix (Name entry) (L ".job")
                 then wrap64 (count + 1) else count)
              entries 0)
  end.

(** The constant [1.2] of the source as a binary64 value. *)
Definition growth : float := 0x1.3333333333333p+0%float.

(** Integer division of Go truncates toward zero ([Z.quot]). *)
Definition calculateAdaptiveInterval (impl : float -> Z)
    (po : PollingOptimizer) (hasJobs : bool) (remaining : Z) : Z :=
  if hasJobs && (remaining <=? RemainingJobsThreshold (config po)) then
    GetMinPollInterval (config po)
  else if hasJobs then
    let half := Z.quot (currentInterval po) 2 in
    if half <? GetMinPollInterval (config po)
    then GetMinPollInterval (config po)
    else half
  else
    let more :=
      int64_of_float impl (float64_of_Z (currentInterval po) * growth)%float in
    if more >? GetMaxPollInterval (config po)
    then GetMaxPollInterval (config po)
    else more.

(** [CalculateOptimalInterval]: the returned duration and the receiver
    after the call.  [todo] is the listing of the jobs/to_do folder that
    [countJobsInNewFolder] reads; the [downloadsFolder] argument of the
    source is never read. *)
Definition CalculateOptimalInterval (impl : float -> Z)
    (po : PollingOptimizer) (hasJobs : bool) (remaining : Z)
    (downloadsFolder : str) (todo : option (list DirEntry))
  : Z * PollingOptimizer :=
  let suspended :=
    match countJobsInFolder todo with
    | Some jobCount => jobCount >? RemainingJobsThreshold (config po)
    | None => false
    end in
  if suspended then (0, po)
  else if hasJobs && (remaining <=? RemainingJobsThreshold (config po))
  then (GetMinPollInterval (config po), po)
  else if consecutiveEmptyPolls po >=? 3
  then (GetMaxPollInterval (config po), po)
  else
    let interval := currentInterval po in
    let interval :=
      if Adaptive (config po)
      then calculateAdaptiveInterval impl po hasJobs remaining
      else interval in
    let interval :=
      if interval <? GetMinPollInterval (config po)
      then GetMinPollInterval (config po) else interval in
    let interval :=
      if interval >? GetMaxPollInterval (config po)
      then GetMaxPollInterval (config po) else interval in
    (interval, set_currentInterval po interval).

Definition UpdateMetrics (po : PollingOptimizer) (jobCount : Z)
  : PollingOptimizer :=
  if jobCount >? 0 then
    {| config := config po;
       consecutiveEmptyPolls := 0;
       currentInterval := currentInterval po;
       totalPolls := wrap64 (totalPolls po + 1);
       successfulPolls := wrap64 (successfulPolls po + 1) |}
  else
    {| config := config po;
       consecutiveEmptyPolls := wrap64 (consecutiveEmptyPolls po + 1);
       currentInterval := currentInterval po;
       totalPolls := wrap64 (totalPolls po + 1);
       successfulPolls := successfulPolls po |}.

End Polling.

(** ** Parameter-optimization watcher (csv_uploader.go, downloader.go) *)

Module Watcher.

(** [OPTResult] (api.go): one row of a parameter-optimization table. *)
Record OPTResult := {
  Run : Z;
  ParametersJSON : str;
  ISStartDate : str;
  ISEndDate : str;
  OSStartDate : str;
  OSEndDate : str
}.

(** The fields of a cloud job record that the watcher reads. *)
Record Job := { ID : str; TaskType : str }.

Record UploadEvent := { EventType : str; FileName : str; JobID : str }.

(** What the watcher cannot decide by itself: the outcome of the upload
    request for a file, the answer of [GetJobByID] ([None] when the record
    cannot be fetched) and the zlib payload of a file ([None] when it does
    not decompress). *)
Record Env := {
  uploadOpt : str -> str -> bool;
  getJobByID : str -> option Job;
  optPayload : str -> option str
}.

(** The listings of opt/in, opt/done and opt/error, the pending upload
    events and the second-pass generations requested so far, each with the
    job id, symbol, time frame and rows passed to
    [processWFORetestGenerationWithFallback]. *)
Record State := {
  optIn : list DirEntry;
  optDone : list DirEntry;
  optError : list DirEntry;
  events : list UploadEvent;
  retests : list (str * str * str * list OPTResult)
}.

Definition named (name : str) (e : DirEntry) : bool := eqb_str (Name e) name.

Definition exists_in (folder : list DirEntry) (name : str) : bool :=
  existsb (named name) folder.

Definition without (folder : list DirEntry) (name : str) : list DirEntry :=
  filter (fun e => negb (named name e)) folder.

(** [os.Rename] of [name] from one folder into another: fails when the
    source is missing, replaces a file of the same name at the target. *)
Definition Rename (from to : list DirEntry) (name : str)
  : result (list DirEntry * list DirEntry) :=
  match find (named name) from with
  | Some e => Ok (without from name, e :: without to name)
  | None => Err
  end.

(** [GetOptFiles]: the regular files of opt/in with extension [.opt]. *)
Definition GetOptFiles (st : State) : list str :=
  map Name
    (filter (fun e => negb (IsDir e) && eqb_str (Ext (Name e)) (L ".opt"))
       (optIn st)).

(** [MoveOptFile]: from opt/in to opt/done. *)
Definition MoveOptFile (st : State) (fileName : str) : result State :=
  match Rename (optIn st) (optDone st) fileName with
  | Ok (from, to) =>
      Ok {| optIn := from; optDone := to; optError := optError st;
            events := events st; retests := retests st |}
  | Err => Err
  end.

Definition extractMetadata (fileName : str) : result (str * str * str) :=
  let name := TrimSuffix fileName (Ext fileName) in
  match Split name "_" with
  | jobID :: symbol :: timeframe :: _ =>
      let symbol := if HasPrefix symbol (L "@") then symbol else L "@" ++ symbol in
      Ok (jobID, symbol, timeframe)
  | _ => Err
  end.

Definition shouldCheckForWFO (fileName : str) : bool :=
  let fileNameUpper := ToUpper fileName in
  if Contains fileNameUpper (L "_WFO_")
     || Contains fileNameUpper (L "_WFM_")
     || Contains fileNameUpper (L "_DWFM_")
  then true
  else if Contains fileNameUpper (L "_OPT_") then false
  else false.

(** [parseCSVLineWithJSON].  The inner loops glue the parts of a field that
    the comma split took apart; each returns the field and the parts left. *)
Fixpoint merge_json (currentField : str) (rest : list str) : str * list str :=
  match rest with
  | [] => (currentField, [])
  | p :: rest' =>
      if Contains currentField (L "}") then (currentField, rest)
      else merge_json (currentField ++ L "," ++ p) rest'
  end.

Fixpoint merge_pairs (currentField : str) (rest : list str) : str * list str :=
  match rest with
  | [] => (currentField, [])
  | p :: rest' =>
      if Contains p (L "=") && negb (Contains p (L "{"))
      then merge_pairs (currentField ++ L "," ++ p) rest'
      else (currentField, rest)
  end.

(** The outer loop; it consumes at least one part per round, so [fuel] need
    not exceed the number of parts. *)
Fixpoint parse_parts (fuel : nat) (parts : list str) : list str :=
  match fuel, parts with
  | S fuel', currentField :: rest =>
      let '(field, rest') :=
        if Contains currentField (L "{") && negb (Contains currentField (L "}"))
        then merge_json currentField rest
        else if Contains currentField (L "=") && negb (Contains currentField (L "{"))
        then merge_pairs currentField rest
        else (currentField, rest) in
      TrimSpace field :: parse_parts fuel' rest'
  | _, _ => []
  end.

Definition parseCSVLineWithJSON (line : str) : list str :=
  let parts := Split line "," in
  parse_parts (length parts) parts.

Definition parseCSVWithJSONFields (csvContent : str) : list (list str) :=
  map parseCSVLineWithJSON
    (filter (fun line => negb (eqb_str (TrimSpace line) []))
       (Split csvContent nl)).

(** The header scan of [parseCSVContent]: the index of the last column
    whose trimmed, lower-cased name is one of [names]. *)
Fixpoint column_from (header : list str) (names : list str) (i : nat)
    (found : option nat) : option nat :=
  match header with
  | [] => found
  | col :: rest =>
      let colLower := ToLower (TrimSpace col) in
      column_from rest names (S i)
        (if existsb (eqb_str colLower) names then Some i else found)
  end.

Definition column (header : list str) (names : list str) : option nat :=
  column_from header names O None.

Definition field (record : list str) (index : option nat) : str :=
  match index with
  | Some i => match nth_error record i with
              | Some v => TrimSpace v
              | None => []
              end
  | None => []
  end.

(** One data row: [None] when the row is skipped. *)
Definition parseRow (record : list str) (runIndex parametersJSONIndex : nat)
    (isStartIndex isEndIndex osStartIndex osEndIndex : option nat)
  : option OPTResult :=
  if Nat.leb (length record) runIndex
     || Nat.leb (length record) parametersJSONIndex then None
  else
    match Atoi (TrimSpace (nth runIndex record [])) with
    | None => None
    | Some run =>
        let parametersJSON := TrimSpace (nth parametersJSONIndex record []) in
        if eqb_str parametersJSON [] then None
        else Some {| Run := run;
                     ParametersJSON := parametersJSON;
                     ISStartDate := field record isStartIndex;
                     ISEndDate := field record isEndIndex;
                     OSStartDate := field record osStartIndex;
                     OSEndDate := field record osEndIndex |}
    end.

Fixpoint keep_some {A} (l : list (option A)) : list A :=
  match l with
  | [] => []
  | Some a :: r => a :: keep_some r
  | None :: r => keep_some r
  end.

(** [parseCSVContent]: the rows and the [isWFO] flag.  The error result of
    the source is always [nil], since [parseCSVLineWithJSON] never fails. *)
Definition parseCSVContent (csvContent : str) (jobTaskType : str)
  : list OPTResult * bool :=
  if negb (eqb_str jobTaskType (L "WFO")) && negb (eqb_str jobTaskType (L "WFM"))
  then ([], false)
  else
    match parseCSVWithJSONFields csvContent with
    | header :: ((_ :: _) as rows) =>
        match column header [L "run"; L "run_number"],
              column header [L "parameters_json"; L "parameters json"] with
        | Some runIndex, Some parametersJSONIndex =>
            let optResults :=
              keep_some
                (map (fun record =>
                        parseRow record runIndex parametersJSONIndex
                          (column header [L "is_start_date"])
                          (column header [L "is_end_date"])
                          (column header [L "os_start_date"])
                          (column header [L "os_end_date"]))
                   rows) in
            match optResults with
            | [] => ([], false)
            | _ :: _ => (optResults, true)
            end
        | _, _ => ([], false)
        end
    | _ => ([], false)
    end.

(** [parseOPTFile]: [Err] when the file does not decompress. *)
Definition parseOPTFile (env : Env) (fileName : str) (jobTaskType : str)
  : result (list OPTResult * bool) :=
  match optPayload env fileName with
  | None => Err
  | Some csvContent =>
      let '(optResults, isWFO) := parseCSVContent csvContent jobTaskType in
      if isWFO then Ok (optResults, true) else Ok ([], false)
  end.

(** [triggerWFORetestGeneration]: the symbol and time frame are read back
    from a file name rebuilt around the job id; the generation proper never
    reports an error to its caller. *)
Definition triggerWFORetestGeneration (st : State) (jobID : str)
    (optResults : list OPTResult) : result unit * State :=
  if eqb_str jobID [] then (Err, st)
  else match optResults with
       | [] => (Err, st)
       | _ :: _ =>
           match extractMetadata (jobID ++ L "_@ES_60_WFO_Results.opt") with
           | Err => (Err, st)
           | Ok (_, symbol, timeframe) =>
               (Ok tt,
                {| optIn := optIn st; optDone := optDone st;
                   optError := optError st; events := events st;
                   retests := retests st ++ [(jobID, symbol, timeframe, optResults)] |})
           end
       end.

(** [checkAndTriggerCombinedWFO]. *)
Definition checkAndTriggerCombinedWFO (env : Env) (st : State)
    (fileName jobID : str) : result unit * State :=
  let job :=
    match getJobByID env jobID with
    | Some job => job
    | None => {| ID := jobID; TaskType := L "UNKNOWN" |}
    end in
  if negb (exists_in (optDone st) fileName) && negb (exists_in (optIn st) fileName)
  then (Err, st)
  else
    match parseOPTFile env fileName (TaskType job) with
    | Err => (Err, st)
    | Ok (optResults, isWFO) =>
        if negb isWFO then (Ok tt, st)
        else triggerWFORetestGeneration st jobID optResults
    end.

(** The event channel holds 100 events; a send to a full channel is
    dropped. *)
Definition emit (st : State) (ev : UploadEvent) : State :=
  if Nat.ltb (length (events st)) 100 then
    {| optIn := optIn st; optDone := optDone st; optError := optError st;
       events := events st ++ [ev]; retests := retests st |}
  else st.

(** [uploadOptFile].  The scan of opt/summary that it starts on a goroutine
    runs thirty seconds later and handles other files; it is left out. *)
Definition uploadOptFile (env : Env) (st : State) (fileName : str)
  : result unit * State :=
  match extractMetadata fileName with
  | Err => (Err, st)
  | Ok (jobID, _, _) =>
      if negb (uploadOpt env fileName jobID) then (Err, st)
      else
        let st := emit st {| EventType := L "opt_upload";
                             FileName := fileName; JobID := jobID |} in
        let st :=
          if shouldCheckForWFO fileName
          then snd (checkAndTriggerCombinedWFO env st fileName jobID)
          else st in
        (Ok tt, st)
  end.

(** [processOptFiles]: one tick of the watcher. *)
Definition processOptFile (env : Env) (st : State) (fileName : str) : State :=
  match uploadOptFile env st fileName with
  | (Err, st') => st'
  | (Ok _, st') =>
      match MoveOptFile st' fileName with
      | Ok st'' => st''
      | Err => st'
      end
  end.

Definition processOptFiles (env : Env) (st : State) : State :=
  fold_left (processOptFile env) (GetOptFiles st) st.

End Watcher.

(** ** Package time

    The client handles dates only: every [time.Time] it builds is a midnight
    in UTC, and is modelled by its day number, counted from 1970-01-01 in the
    proleptic Gregorian calendar that package [time] uses for all years. *)

Module Time.

Definition isLeap (year : Z) : bool :=
  (year mod 4 =? 0) && (negb (year mod 100 =? 0) || (year mod 400 =? 0)).

Definition daysIn (month year : Z) : Z :=
  match month with
  | 2 => if isLeap year then 29 else 28
  | 4 | 6 | 9 | 11 => 30
  | _ => 31
  end.

(** The day number of a calendar date.  Years are split into eras of 400
    years (146097 days) that start on March 1st; [yoe] is the year of the
    era, [doy] the day of the year, [doe] the day of the era. *)
Definition days_from_civil (year month day : Z) : Z :=
  let y := if month <=? 2 then year - 1 else year in
  let era := y / 400 in
  let yoe := y mod 400 in
  let mp := (month + 9) mod 12 in
  let doy := (153 * mp + 2) / 5 + day - 1 in
  let doe := yoe * 365 + yoe / 4 - yoe / 100 + doy in
  era * 146097 + doe - 719468.

(** The calendar date (year, month, day) of a day number. *)
Definition civil_from_days (z : Z) : Z * Z * Z :=
  let era := (z + 719468) / 146097 in
  let doe := (z + 719468) mod 146097 in
  let yoe := (doe - doe / 1460 + doe / 36524 - doe / 146096) / 365 in
  let y := yoe + era * 400 in
  let doy := doe - (365 * yoe + yoe / 4 - yoe / 100) in
  let mp := (5 * doy + 2) / 153 in
  let day := doy - (153 * mp + 2) / 5 + 1 in
  let month := if mp <? 10 then mp + 3 else mp - 9 in
  (if month <=? 2 then y + 1 else y, month, day).

(** [appendInt] of format.go: a sign, zero padding to [width], the digits. *)
Definition appendInt (x : Z) (width : nat) : str :=
  let ds := digits (Z.abs x) in
  (if x <? 0 then L "-" else [])
  ++ repeat "0"%char (width - length ds) ++ ds.

(** [t.Format("2006-01-02")]. *)
Definition Format (t : Z) : str :=
  let '(year, month, day) := civil_from_days t in
  appendInt year 4 ++ L "-" ++ appendInt month 2 ++ L "-" ++ appendInt day 2.

(** [time.Parse("2006-01-02", s)]: four, two and two digits between
    hyphens, a month from 1 to 12 and a day of that month; [None] is the
    error return. *)
Definition Parse (s : str) : option Z :=
  match s with
  | [y1; y2; y3; y4; h1; m1; m2; h2; d1; d2] =>
      if forallb isDigit [y1; y2; y3; y4; m1; m2; d1; d2]
         && Ascii.eqb h1 "-" && Ascii.eqb h2 "-" then
        let year := 1000 * digit_val y1 + 100 * digit_val y2
                    + 10 * digit_val y3 + digit_val y4 in
        let month := 10 * digit_val m1 + digit_val m2 in
        let day := 10 * digit_val d1 + digit_val d2 in
        if (1 <=? month) && (month <=? 12)
           && (1 <=? day) && (day <=? daysIn month year)
        then Some (days_from_civil year month day)
        else None
      else None
  | _ => None
  end.

(** [t.AddDate(0, 0, days)].  Package [time] counts seconds in 64 bits from
    an epoch some 292 billion years back; for offsets of up to 10^14 days
    from a date that [Parse] accepts that arithmetic is exact.  Beyond, the
    result is left open. *)
Definition AddDate (t : Z) (days : Z) : go Z :=
  if Z.abs days <=? 10 ^ 14 then Ret (t + days) else Unspec.

Definition Hour : Z := 3600 * 10 ^ 9.

(** [t.Sub(u)]: a [Duration] in nanoseconds, saturating at the 64-bit
    bounds. *)
Definition Sub (t u : Z) : Z :=
  let d := (t - u) * 24 * Hour in
  if d >? MaxInt64 then MaxInt64
  else if d <? MinInt64 then MinInt64
  else d.

(** [d.Hours()]. *)
Definition Hours (d : Z) : float :=
  (float64_of_Z (Z.quot d Hour)
   + float64_of_Z (Z.rem d Hour) / float64_of_Z Hour)%float.

End Time.

(** ** Job expansion (api.go) *)

Module Expand.

Definition startTagOf (tagName : str) : str := L "<" ++ tagName ++ L ">".
Definition endTagOf (tagName : str) : str := L "</" ++ tagName ++ L ">".

(** [fmt.Sprintf("<root>\n%s\n</root>", body)]. *)
Definition wrapRoot (body : str) : str :=
  L "<root>" ++ [nl] ++ body ++ [nl] ++ L "</root>".

(** [replaceXMLTag]. *)
Definition replaceXMLTag (xml tagName newValue : str) : str :=
  let startTag := startTagOf tagName in
  let endTag := endTagOf tagName in
  match Index xml startTag, Index xml endTag with
  | Some start, Some end_ =>
      let before := firstn start xml in
      let after := skipn (end_ + length endTag) xml in
      let replacement := startTag ++ newValue ++ endTag in
      before ++ replacement ++ after
  | _, _ => xml
  end.

(** [removeXMLTag]. *)
Definition removeXMLTag (xml tagName : str) : str :=
  let startTag := startTagOf tagName in
  let endTag := endTagOf tagName in
  match Index xml startTag, Index xml endTag with
  | Some start, Some end_ =>
      let before := firstn start xml in
      let after := skipn (end_ + length endTag) xml in
      let before := TrimRightFunc before isCut in
      let after := TrimLeftFunc after isCut in
      before ++ [nl] ++ after
  | _, _ => xml
  end.

(** [extractXMLTagValue].  The slice expression panics when the end tag
    starts before the start tag is over. *)
Definition extractXMLTagValue (xmlContent tagName : str) : go (result str) :=
  let startTag := startTagOf tagName in
  let endTag := endTagOf tagName in
  match Index xmlContent startTag, Index xmlContent endTag with
  | Some start, Some end_ =>
      if Nat.leb (start + length startTag) end_
      then Ret (Ok (TrimSpace (slice xmlContent (start + length startTag) end_)))
      else Panic
  | _, _ => Ret Err
  end.

(** [addXMLTag]: before the last [</Job>]. *)
Definition addXMLTag (xmlContent tagName value : str) : str :=
  match LastIndex xmlContent (L "</Job>") with
  | None => xmlContent
  | Some insertPoint =>
      let newTag := L "  <" ++ tagName ++ L ">" ++ value
                    ++ L "</" ++ tagName ++ L ">" ++ [nl] in
      firstn insertPoint xmlContent ++ newTag ++ skipn insertPoint xmlContent
  end.

(** *** Multi-symbol jobs *)

(** The loop of [processMMJob] over the split list. *)
Fixpoint mmJobElements (xmlContent : str) (symbols : list str) : list str :=
  match symbols with
  | [] => []
  | symbol :: rest =>
      let symbol := TrimSpace symbol in
      if eqb_str symbol [] then mmJobElements xmlContent rest
      else
        let jobXML := replaceXMLTag xmlContent (L "Symbol") symbol in
        let jobXML := removeXMLTag jobXML (L "symbols") in
        jobXML :: mmJobElements xmlContent rest
  end.

(** [processMMJob]. *)
Definition processMMJob (xmlContent : str) : go str :=
  match Index xmlContent (L "<symbols>"), Index xmlContent (L "</symbols>") with
  | Some symbolsStart, Some symbolsEnd =>
      if Nat.leb (symbolsStart + 9) symbolsEnd then
        let symbolsValue := slice xmlContent (symbolsStart + 9) symbolsEnd in
        let symbols := Split symbolsValue "," in
        if Nat.leb (length symbols) 1 then Ret (wrapRoot xmlContent)
        else Ret (wrapRoot (Join (mmJobElements xmlContent symbols) [nl]))
      else Panic
  | _, _ => Ret (wrapRoot xmlContent)
  end.

(** *** Walk-forward jobs *)

Record DateRange := {
  ISStartDate : str;
  ISEndDate : str;
  OSStartDate : str;
  OSEndDate : str
}.

(** [GetEndDate]. *)
Definition GetEndDate (dr : DateRange) : str :=
  if negb (eqb_str (OSEndDate dr) []) then OSEndDate dr else ISEndDate dr.

Definition parseDate (dateStr : str) : option Z := Time.Parse dateStr.
Definition formatDate (t : Z) : str := Time.Format t.

Section WithConversion.

Variable impl : float -> Z.

(** The day counts of [calculateWFORuns]: [totalDays], [isDays], [osDays].
    Each float operation is rounded by itself, as the amd64 port does. *)
Definition wfoDays (startTime endTime : Z) (runs : Z) (oosPercent : float)
  : Z * Z * Z :=
  let oosSamplePct := (oosPercent / 100)%float in
  let isSamplePct := (1 - oosSamplePct)%float in
  let totalDays :=
    int64_of_float impl (Time.Hours (Time.Sub endTime startTime) / 24)%float in
  let daysPerRun :=
    (float64_of_Z totalDays
     / (float64_of_Z runs * oosSamplePct + isSamplePct))%float in
  (totalDays,
   int64_of_float impl (daysPerRun * isSamplePct)%float,
   int64_of_float impl (daysPerRun * oosSamplePct)%float).

(** The body of the loop of [calculateWFORuns] for index [run], with the
    ranges built so far. *)
Definition wfoRun (startTime : Z) (endDate : str) (runs isDays osDays : Z)
    (dateRanges : list DateRange) (run : Z) : go (result DateRange) :=
  r <- (if run =? 0 then Ret (Ok (formatDate startTime))
        else
          match nth_error dateRanges (Z.to_nat (run - 1)) with
          | None => Panic
          | Some prev =>
              match parseDate (OSEndDate prev) with
              | None => Ret Err
              | Some prevOSEnd =>
                  t <- Time.AddDate prevOSEnd (wrap64 (- isDays)) ;;
                  Ret (Ok (formatDate t))
              end
          end) ;;
  match r with
  | Err => Ret Err
  | Ok isStartDate =>
      match parseDate isStartDate with
      | None => Ret Err
      | Some isStart =>
          t <- Time.AddDate isStart isDays ;;
          let isEndDate := formatDate t in
          match parseDate isEndDate with
          | None => Ret Err
          | Some isEnd =>
              t <- Time.AddDate isEnd 1 ;;
              let osStartDate := formatDate t in
              osEndDate <-
                (if run =? wrap64 (runs - 1) then Ret endDate
                 else t <- Time.AddDate isEnd (wrap64 (1 + osDays)) ;;
                      Ret (formatDate t)) ;;
              Ret (Ok {| ISStartDate := isStartDate;
                         ISEndDate := isEndDate;
                         OSStartDate := osStartDate;
                         OSEndDate := osEndDate |})
          end
      end
  end.

(** The loop [for run := 0; run < runs+1; run++], [count] rounds from
    index [run] on. *)
Fixpoint wfoLoop (startTime : Z) (endDate : str) (runs isDays osDays : Z)
    (count : nat) (run : Z) (dateRanges : list DateRange)
  : go (result (list DateRange)) :=
  match count with
  | O => Ret (Ok dateRanges)
  | S count' =>
      r <- wfoRun startTime endDate runs isDays osDays dateRanges run ;;
      match r with
      | Err => Ret Err
      | Ok dr =>
          wfoLoop startTime endDate runs isDays osDays count' (run + 1)
            (dateRanges ++ [dr])
      end
  end.

(** [calculateWFORuns]. *)
Definition calculateWFORuns (startDate endDate : str) (runs : Z)
    (oosPercent : float) : go (result (list DateRange)) :=
  match parseDate startDate with
  | None => Ret Err
  | Some startTime =>
      match parseDate endDate with
      | None => Ret Err
      | Some endTime =>
          let '(_, isDays, osDays) := wfoDays startTime endTime runs oosPercent in
          wfoLoop startTime endDate runs isDays osDays
            (Z.to_nat (wrap64 (runs + 1))) 0 []
      end
  end.

(** The job element of one run in [processWFOJob]; [total] is
    [len(dateRanges)]. *)
Definition wfoJobElement (xmlContent oosPercent : str) (total : Z)
    (runNumber : Z) (dateRange : DateRange) : str :=
  let jobXML := xmlContent in
  let jobXML := addXMLTag jobXML (L "run") (Itoa runNumber) in
  let jobXML := replaceXMLTag jobXML (L "startDate") (ISStartDate dateRange) in
  let jobXML := replaceXMLTag jobXML (L "endDate") (GetEndDate dateRange) in
  let jobXML := addXMLTag jobXML (L "is_start_date") (ISStartDate dateRange) in
  let jobXML := addXMLTag jobXML (L "is_end_date") (ISEndDate dateRange) in
  let jobXML :=
    if runNumber =? total then
      replaceXMLTag jobXML (L "oos_percent") (L "0.0")
    else
      let jobXML := addXMLTag jobXML (L "os_start_date") (OSStartDate dateRange) in
      let jobXML := addXMLTag jobXML (L "os_end_date") (OSEndDate dateRange) in
      replaceXMLTag jobXML (L "oos_percent") oosPercent in
  removeXMLTag jobXML (L "oos_runs").

Fixpoint wfoJobElements (xmlContent oosPercent : str) (total : Z)
    (runNumber : Z) (dateRanges : list DateRange) : list str :=
  match dateRanges with
  | [] => []
  | dateRange :: rest =>
      wfoJobElement xmlContent oosPercent total runNumber dateRange
      :: wfoJobElements xmlContent oosPercent total (runNumber + 1) rest
  end.

(** The parse steps of [processWFOJob]: [Ok] with the raw [oos_percent]
    text and the ranges, [Err] when the job falls back to a single job. *)
Definition wfoPlan (xmlContent : str) : go (result (str * list DateRange)) :=
  r1 <- extractXMLTagValue xmlContent (L "oos_runs") ;;
  match r1 with
  | Err => Ret Err
  | Ok oosRuns =>
  r2 <- extractXMLTagValue xmlContent (L "oos_percent") ;;
  match r2 with
  | Err => Ret Err
  | Ok oosPercent =>
  r3 <- extractXMLTagValue xmlContent (L "startDate") ;;
  match r3 with
  | Err => Ret Err
  | Ok startDate =>
  r4 <- extractXMLTagValue xmlContent (L "endDate") ;;
  match r4 with
  | Err => Ret Err
  | Ok endDate =>
  match Atoi oosRuns with
  | None => Ret Err
  | Some runs =>
  r5 <- ParseFloat oosPercent ;;
  match r5 with
  | Err => Ret Err
  | Ok oosPercentFloat =>
  r6 <- calculateWFORuns startDate endDate runs oosPercentFloat ;;
  match r6 with
  | Err => Ret Err
  | Ok dateRanges => Ret (Ok (oosPercent, dateRanges))
  end end end end end end end.

(** [processWFOJob]. *)
Definition processWFOJob (xmlContent : str) : go str :=
  r <- wfoPlan xmlContent ;;
  match r with
  | Err => Ret (wrapRoot xmlContent)
  | Ok (oosPercent, dateRanges) =>
      Ret (wrapRoot
             (Join (wfoJobElements xmlContent oosPercent
                      (Z.of_nat (length dateRanges)) 1 dateRanges)
                [nl]))
  end.

End WithConversion.

End Expand.

(** ** Second-pass descriptors (wfo_retest_integration.go, wfo_retest_buffer.go) *)

Module Retest.
Import Expand.

(** *** Package encoding/xml

    The tokens that [Decoder.Token] returns for markup without attributes:
    start tags [<name>], end tags [</name>] and the text between them.
    Everything else of XML (attributes, self-closing tags, comments,
    processing instructions, directives, CDATA sections, entity references,
    qualified names, carriage returns, bytes outside printable ASCII) is
    [Unspec]. *)
Inductive Token : Type :=
| StartElement (name : str)
| CharData (data : str)
| EndElement (name : str).

Definition isLetter (c : ascii) : bool := isUpper c || isLower c.

Definition nameStart (c : ascii) : bool := isLetter c || Ascii.eqb c "_".

Definition nameByte (c : ascii) : bool :=
  isLetter c || isDigit c || Ascii.eqb c "_" || Ascii.eqb c "-"
  || Ascii.eqb c ".".

Definition isName (s : str) : bool :=
  match s with
  | [] => false
  | c :: t => nameStart c && forallb nameByte t
  end.

(** The bytes of a document that the model reads. *)
Definition plainByte (c : ascii) : bool :=
  (((32 <=? code c)%N && (code c <=? 126)%N) || (code c =? 10)%N
   || (code c =? 9)%N)
  && negb (Ascii.eqb c "&").

(** The text up to the first [stop] byte and the text after it. *)
Fixpoint cutAt (stop : ascii) (s : str) : option (str * str) :=
  match s with
  | [] => None
  | c :: t =>
      if Ascii.eqb c stop then Some ([], t)
      else match cutAt stop t with
           | Some (a, b) => Some (c :: a, b)
           | None => None
           end
  end.

(** The text before the first [<], and the pieces that follow each [<]. *)
Fixpoint cutMarkup (s : str) : str * list str :=
  match s with
  | [] => ([], [])
  | c :: t =>
      let '(e, r) := cutMarkup t in
      if Ascii.eqb c "<" then ([], e :: r) else (c :: e, r)
  end.

Definition textToken (text : str) : list Token :=
  match text with
  | [] => []
  | _ :: _ => [CharData text]
  end.

(** The tokens of one piece: the tag that ends at the first [>] and the
    text behind it. *)
Definition pieceTokens (piece : str) : option (list Token) :=
  match cutAt ">" piece with
  | None => None
  | Some (tag, text) =>
      match tag with
      | "/"%char :: name =>
          if isName name then Some (EndElement name :: textToken text) else None
      | _ =>
          if isName tag then Some (StartElement tag :: textToken text) else None
      end
  end.

Fixpoint piecesTokens (pieces : list str) : option (list Token) :=
  match pieces with
  | [] => Some []
  | p :: rest =>
      match pieceTokens p, piecesTokens rest with
      | Some a, Some b => Some (a ++ b)
      | _, _ => None
      end
  end.

(** The decoder's stack of open elements: an end tag closes the innermost
    open element, and none is open at the end of the input. *)
Fixpoint nested (toks : list Token) (open : list str) : bool :=
  match toks with
  | [] => match open with [] => true | _ :: _ => false end
  | StartElement name :: rest => nested rest (name :: open)
  | CharData _ :: rest => nested rest open
  | EndElement name :: rest =>
      match open with
      | top :: open' => eqb_str top name && nested rest open'
      | [] => false
      end
  end.

(** All tokens of a document, or the decoder's error. *)
Definition xmlTokens (doc : str) : go (result (list Token)) :=
  if negb (forallb plainByte doc) || Contains doc (L "]]>") then Unspec
  else
    let '(head, pieces) := cutMarkup doc in
    match piecesTokens pieces with
    | None => Unspec
    | Some toks =>
        let toks := textToken head ++ toks in
        if nested toks [] then Ret (Ok toks) else Ret Err
    end.

(** *** Package encoding/json and the verb [%v]

    [json.Unmarshal] into a [map[string]interface{}], each value as
    [fmt.Sprintf("%v", value)] prints it, for objects whose members are
    strings without escapes and integers of at most six digits; the
    association list holds the members in the order of the text, and a
    lookup takes the last one, as the map does.  Everything else of JSON
    is [Unspec]. *)
Definition jsonSpace (c : ascii) : bool :=
  match code c with
  | 32%N | 9%N | 10%N | 13%N => true
  | _ => false
  end.

Definition skipSpace (s : str) : str := TrimLeftFunc s jsonSpace.

Definition jsonChar (c : ascii) : bool :=
  (32 <=? code c)%N && (code c <=? 126)%N
  && negb (Ascii.eqb c dquote) && negb (Ascii.eqb c "\").

(** A string literal at the head of [s]: its content and the rest. *)
Definition jsonString (s : str) : option (str * str) :=
  match s with
  | c :: t =>
      if Ascii.eqb c dquote then
        match cutAt dquote t with
        | Some (body, rest) =>
            if forallb jsonChar body then Some (body, rest) else None
        | None => None
        end
      else None
  | [] => None
  end.

(** An integer literal at the head of [s], as [%v] prints the [float64]
    it decodes to. *)
Definition jsonInteger (s : str) : option (str * str) :=
  let '(neg, body) :=
    match s with
    | c :: t => if Ascii.eqb c "-" then (true, t) else (false, s)
    | [] => (false, [])
    end in
  let '(ds, rest) := span_digits body in
  match ds with
  | [] => None
  | d :: more =>
      if Nat.leb (length ds) 6
         && (negb (Ascii.eqb d "0") || (eqb_str ds (L "0") && negb neg))
         && match rest with
            | c :: _ => negb (Ascii.eqb c "." || Ascii.eqb c "e"
                              || Ascii.eqb c "E")
            | [] => true
            end
      then Some ((if neg then L "-" else []) ++ ds, rest)
      else None
  end.

Definition jsonValue (s : str) : option (str * str) :=
  match jsonString s with
  | Some r => Some r
  | None => jsonInteger s
  end.

(** The members after the opening brace or after a comma. *)
Fixpoint jsonMembers (fuel : nat) (s : str) (acc : list (str * str))
  : option (list (str * str)) :=
  match fuel with
  | O => None
  | S fuel' =>
      match jsonString (skipSpace s) with
      | None => None
      | Some (key, rest) =>
          match skipSpace rest with
          | ":"%char :: rest' =>
              match jsonValue (skipSpace rest') with
              | None => None
              | Some (value, rest'') =>
                  let acc := acc ++ [(key, value)] in
                  match skipSpace rest'' with
                  | ","%char :: more => jsonMembers fuel' more acc
                  | "}"%char :: tail =>
                      match skipSpace tail with
                      | [] => Some acc
                      | _ :: _ => None
                      end
                  | _ => None
                  end
              end
          | _ => None
          end
      end
  end.

Definition Unmarshal (data : str) : go (result (list (str * str))) :=
  match skipSpace data with
  | "{"%char :: rest =>
      match skipSpace rest with
      | "}"%char :: tail =>
          match skipSpace tail with
          | [] => Ret (Ok [])
          | _ :: _ => Unspec
          end
      | _ =>
          match jsonMembers (length rest) rest [] with
          | Some members => Ret (Ok members)
          | None => Unspec
          end
      end
  | _ => Unspec
  end.

(** [m[key]] with the comma-ok form: the member written last. *)
Fixpoint lookup (m : list (str * str)) (key : str) : option str :=
  match m with
  | [] => None
  | (k, v) :: rest =>
      match lookup rest key with
      | Some v' => Some v'
      | None => if eqb_str k key then Some v else None
      end
  end.

(** *** Package regexp

    The two patterns of the source have the shape [(?s)<open>(.*?)<close>]:
    a match starts at the first [open] and ends at the first [close] after
    it, and the next match is searched behind it. *)
Definition findSection (open close s : str) : option (nat * nat) :=
  match Index s open with
  | None => None
  | Some i =>
      match Index (skipn (i + length open) s) close with
      | None => None
      | Some j => Some (i, j)
      end
  end.

(** [FindAllStringSubmatch(s, -1)]: the submatch of every match. *)
Fixpoint findAllSections (fuel : nat) (open close s : str) : list str :=
  match fuel with
  | O => []
  | S fuel' =>
      match findSection open close s with
      | None => []
      | Some (i, j) =>
          let inner := skipn (i + length open) s in
          firstn j inner
          :: findAllSections fuel' open close (skipn (j + length close) inner)
      end
  end.

(** [ReplaceAllString(s, repl)] for a replacement without [$]. *)
Fixpoint replaceAllSections (fuel : nat) (open close s repl : str) : str :=
  match fuel with
  | O => s
  | S fuel' =>
      match findSection open close s with
      | None => s
      | Some (i, j) =>
          let inner := skipn (i + length open) s in
          firstn i s ++ repl
          ++ replaceAllSections fuel' open close
               (skipn (j + length close) inner) repl
      end
  end.

Definition ReplaceAllString (open close s repl : str) : go str :=
  if existsb (Ascii.eqb "$") repl then Unspec
  else Ret (replaceAllSections (length s) open close s repl).

(** *** transformParametersToFixed *)

(** [paramBlock]; the map [Children] as the list of its writes, the last
    write first. *)
Record paramBlock := { Name : str; Children : list (str * str) }.

(** [p.Children[key]]: the empty string for a missing key. *)
Fixpoint child (children : list (str * str)) (key : str) : str :=
  match children with
  | [] => []
  | (k, v) :: rest => if eqb_str k key then v else child rest key
  end.

(** The variables of the token loop. *)
Record scan := {
  blocks : list paramBlock;
  depth : Z;
  current : option paramBlock;
  currentChildName : str;
  currentChildValue : str
}.

Definition scan0 : scan :=
  {| blocks := []; depth := 0; current := None;
     currentChildName := []; currentChildValue := [] |}.

(** One round of the loop.  Writing to [current.Children] while [current]
    is nil panics. *)
Definition scanToken (st : scan) (tok : Token) : go scan :=
  match tok with
  | StartElement name =>
      if eqb_str name (L "parameters") then Ret st
      else
        let depth := wrap64 (depth st + 1) in
        if depth =? 1 then
          Ret {| blocks := blocks st; depth := depth;
                 current := Some {| Name := name; Children := [] |};
                 currentChildName := currentChildName st;
                 currentChildValue := currentChildValue st |}
        else if depth =? 2 then
          Ret {| blocks := blocks st; depth := depth;
                 current := current st;
                 currentChildName := name;
                 currentChildValue := [] |}
        else
          Ret {| blocks := blocks st; depth := depth;
                 current := current st;
                 currentChildName := currentChildName st;
                 currentChildValue := currentChildValue st |}
  | CharData t =>
      if (depth st =? 2) && negb (eqb_str (currentChildName st) []) then
        Ret {| blocks := blocks st; depth := depth st;
               current := current st;
               currentChildName := currentChildName st;
               currentChildValue := currentChildValue st ++ t |}
      else Ret st
  | EndElement name =>
      if eqb_str name (L "parameters") then Ret st
      else
        st1 <-
          (if (depth st =? 2) && negb (eqb_str (currentChildName st) []) then
             match current st with
             | None => Panic
             | Some c =>
                 Ret {| blocks := blocks st; depth := depth st;
                        current :=
                          Some {| Name := Name c;
                                  Children :=
                                    (currentChildName st,
                                     TrimSpace (currentChildValue st))
                                    :: Children c |};
                        currentChildName := [];
                        currentChildValue := currentChildValue st |}
             end
           else Ret st) ;;
        let st2 :=
          match current st1 with
          | Some c =>
              if depth st1 =? 1 then
                {| blocks := blocks st1 ++ [c]; depth := depth st1;
                   current := None;
                   currentChildName := currentChildName st1;
                   currentChildValue := currentChildValue st1 |}
              else st1
          | None => st1
          end in
        Ret {| blocks := blocks st2; depth := wrap64 (depth st2 - 1);
               current := current st2;
               currentChildName := currentChildName st2;
               currentChildValue := currentChildValue st2 |}
  end.

Fixpoint scanTokens (st : scan) (toks : list Token) : go scan :=
  match toks with
  | [] => Ret st
  | tok :: rest => st' <- scanToken st tok ;; scanTokens st' rest
  end.

Definition element (name value : str) : str :=
  L "  <" ++ name ++ L ">" ++ value ++ L "</" ++ name ++ L ">" ++ [nl].

Definition fixedTypeOf (dataType : str) : str :=
  if EqualFold dataType (L "string") then L "FixedString"
  else if EqualFold dataType (L "bool") || EqualFold dataType (L "boolean")
       then L "FixedBool"
       else L "Fixed".

(** The text written for one block. *)
Definition renderBlock (optimizedValues : list (str * str)) (p : paramBlock)
  : str :=
  let paramType := child (Children p) (L "param_type") in
  let dataType := child (Children p) (L "data_type") in
  let optimizable :=
    EqualFold (child (Children p) (L "optimizable_ind")) (L "true") in
  let value := child (Children p) (L "value") in
  if eqb_str paramType (L "OptRange") && optimizable then
    let value :=
      match lookup optimizedValues (Name p) with
      | Some ov => ov
      | None => value
      end in
    L "<" ++ Name p ++ L ">" ++ [nl]
    ++ element (L "value") value
    ++ element (L "param_type") (fixedTypeOf dataType)
    ++ (if negb (eqb_str dataType []) then element (L "data_type") dataType
        else [])
    ++ L "  <optimizable_ind>false</optimizable_ind>" ++ [nl]
    ++ L "</" ++ Name p ++ L ">" ++ [nl]
  else
    let field (key : str) :=
      let v := child (Children p) key in
      if negb (eqb_str v []) then element key v else [] in
    L "<" ++ Name p ++ L ">" ++ [nl]
    ++ field (L "value") ++ field (L "param_type") ++ field (L "data_type")
    ++ field (L "optimizable_ind")
    ++ L "</" ++ Name p ++ L ">" ++ [nl].

(** [transformParametersToFixed]. *)
Definition transformParametersToFixed (originalParams : str)
    (optimizedValues : list (str * str)) : go (result str) :=
  let wrapped := L "<parameters>" ++ originalParams ++ L "</parameters>" in
  r <- xmlTokens wrapped ;;
  match r with
  | Err => Ret Err
  | Ok toks =>
      st <- scanTokens scan0 toks ;;
      Ret (Ok (concat (map (renderBlock optimizedValues) (blocks st))))
  end.

(** *** replaceParametersWithFixed *)

(** [strings.ReplaceAll] of two double quotes by one. *)
Fixpoint unescapeQuotes (s : str) : str :=
  match s with
  | a :: t =>
      match t with
      | b :: u =>
          if Ascii.eqb a dquote && Ascii.eqb b dquote
          then dquote :: unescapeQuotes u
          else a :: unescapeQuotes t
      | [] => s
      end
  | [] => []
  end.

Definition cleanJSON (parametersJSON : str) : str :=
  let cleanedJSON := unescapeQuotes parametersJSON in
  if Nat.leb 2 (length cleanedJSON)
     && HasPrefix cleanedJSON [dquote] && HasSuffix cleanedJSON [dquote]
  then slice cleanedJSON 1 (length cleanedJSON - 1)
  else cleanedJSON.

Definition parametersOpen : str := L "<parameters>".
Definition parametersClose : str := L "</parameters>".

(** The body of [replaceParametersWithFixed], before the deferred
    [recover]. *)
Definition replaceParameters (xmlStr parametersJSON : str) : go (result str) :=
  r <- Unmarshal (cleanJSON parametersJSON) ;;
  match r with
  | Err => Ret Err
  | Ok optimizedParams =>
      match findSection parametersOpen parametersClose xmlStr with
      | None => Ret Err
      | Some (i, j) =>
          let originalParameters :=
            firstn j (skipn (i + length parametersOpen) xmlStr) in
          r <- transformParametersToFixed originalParameters optimizedParams ;;
          match r with
          | Err => Ret Err
          | Ok newParameters =>
              out <- ReplaceAllString parametersOpen parametersClose xmlStr
                       (parametersOpen ++ newParameters ++ parametersClose) ;;
              Ret (Ok out)
          end
      end
  end.

(** [replaceParametersWithFixed]: a panic becomes the error return. *)
Definition replaceParametersWithFixed (xmlStr parametersJSON : str)
  : go (result str) :=
  match replaceParameters xmlStr parametersJSON with
  | Panic => Ret Err
  | other => other
  end.

(** *** The job elements *)

(** [WFORetestDateRange]. *)
Record WFORetestDateRange := {
  OriginalISStart : str;
  OriginalISEnd : str;
  OriginalOSStart : str;
  OriginalOSEnd : str;
  BufferedISStart : str;
  BufferedISEnd : str;
  BufferedOSStart : str;
  BufferedOSEnd : str;
  ISBufferDays : Z;
  OSBufferDays : Z
}.

(** [createWFORetestJobElement]; [row] is the parameter [result] of the
    source.  Neither the dates of the row nor [retestRange] nor [runNumber]
    are read: the source only prints them. *)
Definition createWFORetestJobElement (originalXML : str)
    (row : Watcher.OPTResult) (retestRange : WFORetestDateRange)
    (runNumber : Z) (jobID symbol timeframe : str)
    (totalRuns osPercentage : Z) : go (result str) :=
  let jobXML := originalXML in
  let jobXML := replaceXMLTag jobXML (L "task_type") (L "WFO_RETEST") in
  let wfoRetestFilename :=
    jobID ++ L "_" ++ symbol ++ L "_" ++ timeframe ++ L "_WFO_RETEST_RUN-"
    ++ Itoa totalRuns ++ L "_OS-" ++ Itoa osPercentage ++ L ".job" in
  let jobXML := replaceXMLTag jobXML (L "filename") wfoRetestFilename in
  replaceParametersWithFixed jobXML (Watcher.ParametersJSON row).

(** The submatches of [(?s)<Job>(.*?)</Job>] in the original descriptor. *)
Definition jobMatches (originalXML : str) : list str :=
  findAllSections (length originalXML) (L "<Job>") (L "</Job>") originalXML.

(** The loop [for i := 0; i < limit; i++] of [buildWFORetestXML], [count]
    rounds from index [i] on.  An index out of range panics. *)
Fixpoint retestLoop (matches : list str) (optResults : list Watcher.OPTResult)
    (retestRanges : list WFORetestDateRange) (jobID symbol timeframe : str)
    (totalRuns osPercentage : Z) (count i : nat) : go (result (list str)) :=
  match count with
  | O => Ret (Ok [])
  | S count' =>
      match nth_error optResults i, nth_error retestRanges i,
            nth_error matches i with
      | Some row, Some retestRange, Some inner =>
          let runNumber := Z.of_nat i + 1 in
          let templateJobXML := L "<Job>" ++ inner ++ L "</Job>" in
          r <- createWFORetestJobElement templateJobXML row retestRange
                 runNumber jobID symbol timeframe totalRuns osPercentage ;;
          match r with
          | Err => Ret Err
          | Ok jobXML =>
              rest <- retestLoop matches optResults retestRanges jobID symbol
                        timeframe totalRuns osPercentage count' (S i) ;;
              match rest with
              | Err => Ret Err
              | Ok jobElements => Ret (Ok (jobXML :: jobElements))
              end
          end
      | _, _, _ => Panic
      end
  end.

(** [buildWFORetestXML]. *)
Definition buildWFORetestXML (originalXML : str)
    (optResults : list Watcher.OPTResult)
    (retestRanges : list WFORetestDateRange) (jobID symbol timeframe : str)
    (totalRuns osPercentage : Z) : go (result str) :=
  let matches := jobMatches originalXML in
  if Nat.eqb (length matches) 0 then Ret Err
  else
    let limit := length optResults in
    let limit := if Nat.ltb (length matches) limit then length matches
                 else limit in
    let limit := if Nat.ltb (length retestRanges) limit
                 then length retestRanges else limit in
    if Nat.eqb limit 0 then Ret Err
    else
      r <- retestLoop matches optResults retestRanges jobID symbol timeframe
             totalRuns osPercentage limit 0 ;;
      match r with
      | Err => Ret Err
      | Ok jobElements => Ret (Ok (wrapRoot (Join jobElements [nl])))
      end.

End Retest.
(** ** File names and the filename tag
    (api.go, downloader.go, csv_uploader.go, wfo_completion_handler.go) *)

Module Names.

(** The longest prefix without [<], and the rest. *)
Fixpoint spanName (s : str) : str * str :=
  match s with
  | [] => ([], [])
  | c :: t =>
      if Ascii.eqb c "<" then ([], s)
      else let '(name, rest) := spanName t in (c :: name, rest)
  end.

(** The submatch of the leftmost match of [<filename>([^<]+)</filename>].
    After a start tag the class [[^<]+] can only end where the next [<]
    stands, so there is at most one match per start position. *)
Fixpoint filenameMatch (s : str) : option str :=
  match s with
  | [] => None
  | _ :: t =>
      if HasPrefix s (L "<filename>") then
        let '(name, rest) := spanName (skipn 10 s) in
        if negb (eqb_str name []) && HasPrefix rest (L "</filename>")
        then Some name
        else filenameMatch t
      else filenameMatch t
  end.

(** [extractFilenameFromXML] (the function of api.go and the method of
    [DownloadManager] have the same body). *)
Definition extractFilenameFromXML (xmlContent : str) : result str :=
  match filenameMatch xmlContent with
  | None => Err
  | Some filename =>
      if HasSuffix filename (L ".job")
      then Ok (TrimSuffix filename (L ".job") ++ L ".xml")
      else Ok filename
  end.


(** [OptUploadManager.extractJobIDFromDailySummary]. *)
Definition extractJobIDFromDailySummary (fileName : str) : str :=
  match Split fileName "_" with
  | jobID :: _ => jobID
  | [] => []
  end.

(** The task types that [extractTaskTypeFromFilename] knows. *)
Definition knownTaskType (taskTypeUpper : str) : bool :=
  eqb_str taskTypeUpper (L "OPT") || eqb_str taskTypeUpper (L "RETEST")
  || eqb_str taskTypeUpper (L "OOS") || eqb_str taskTypeUpper (L "MM")
  || eqb_str taskTypeUpper (L "MTF") || eqb_str taskTypeUpper (L "WFO").

(** The loop of [extractTaskTypeFromFilename]; [prev] is [parts[i-1]],
    [None] at index 0. *)
Fixpoint taskTypeLoop (prev : option str) (parts : list str) : str :=
  match parts with
  | [] => []
  | part :: rest =>
      match prev with
      | Some taskType =>
          if eqb_str part (L "Results") && knownTaskType (ToUpper taskType)
          then ToUpper taskType
          else taskTypeLoop (Some part) rest
      | None => taskTypeLoop (Some part) rest
      end
  end.

(** [OptUploadManager.extractTaskTypeFromFilename]. *)
Definition extractTaskTypeFromFilename (fileName : str) : str :=
  let name := TrimSuffix fileName (Ext fileName) in
  taskTypeLoop None (Split name "_").

(** [WFOCompletionHandler.parseTradesFileName]. *)
Definition parseTradesFileName (fileName : str) : result (str * str * str) :=
  match Split fileName "_" with
  | jobID :: symbol :: timeframe :: _ :: _ => Ok (jobID, symbol, timeframe)
  | _ => Err
  end.

End Names.

(** The method of [DailySummaryUploadManager] (csv_uploader.go) that has
    the name of the one of [OptUploadManager]. *)
Module DailySummary.

(** [extractMetadata]. *)
Definition extractMetadata (fileName : str) : result (str * str * str) :=
  let nameWithoutExt := TrimSuffix fileName (L ".rep") in
  if negb (HasSuffix nameWithoutExt (L "_Daily")) then Err
  else
    let nameWithoutDaily := TrimSuffix nameWithoutExt (L "_Daily") in
    match Split nameWithoutDaily "_" with
    | jobID :: symbol :: timeframe :: _ =>
        let symbol := if HasPrefix symbol (L "@") then symbol else L "@" ++ symbol in
        Ok (jobID, symbol, timeframe)
    | _ => Err
    end.

End DailySummary.
(** ** Date buffers and the checks of a result table
    (wfo_retest_buffer.go, wfo_retest_integration.go) *)

Module Buffer.
Import Expand Retest.

(** [DateBuffer]. *)
Record DateBuffer := {
  OriginalStart : str;
  OriginalEnd : str;
  BufferedStart : str;
  BufferedEnd : str;
  BufferDays : Z
}.

(** The constant [0.0025] of the source as a binary64 value. *)
Definition quarterPercent : float := 0x1.47ae147ae147bp-9%float.

Section WithConversion.

Variable impl : float -> Z.

(** [calculateDateBuffer]. *)
Definition calculateDateBuffer (startDate endDate : str)
  : go (result DateBuffer) :=
  match parseDate startDate with
  | None => Ret Err
  | Some start =>
      match parseDate endDate with
      | None => Ret Err
      | Some end_ =>
          let duration := Time.Sub end_ start in
          let totalDays :=
            int64_of_float impl (Time.Hours duration / 24)%float in
          let bufferDays :=
            int64_of_float impl (float64_of_Z totalDays * quarterPercent)%float in
          let bufferDays := if bufferDays <? 1 then 1 else bufferDays in
          let bufferDays := if bufferDays >? 30 then 30 else bufferDays in
          bufferedStart <- Time.AddDate start (wrap64 (- bufferDays)) ;;
          bufferedEnd <- Time.AddDate end_ bufferDays ;;
          Ret (Ok {| OriginalStart := startDate;
                     OriginalEnd := endDate;
                     BufferedStart := formatDate bufferedStart;
                     BufferedEnd := formatDate bufferedEnd;
                     BufferDays := bufferDays |})
      end
  end.

(** The body of the loop of [calculateWFORetestDateRanges] for one row. *)
Definition retestRangeOf (row : Watcher.OPTResult)
  : go (result WFORetestDateRange) :=
  r <- calculateDateBuffer (Watcher.ISStartDate row) (Watcher.ISEndDate row) ;;
  match r with
  | Err => Ret Err
  | Ok isBuffer =>
      r <- (if negb (eqb_str (Watcher.OSStartDate row) [])
               && negb (eqb_str (Watcher.OSEndDate row) [])
            then
              r <- calculateDateBuffer (Watcher.OSStartDate row)
                     (Watcher.OSEndDate row) ;;
              match r with
              | Err => Ret Err
              | Ok osBuffer => Ret (Ok (Some osBuffer))
              end
            else Ret (Ok None)) ;;
      match r with
      | Err => Ret Err
      | Ok osBuffer =>
          Ret (Ok {| OriginalISStart := Watcher.ISStartDate row;
                     OriginalISEnd := Watcher.ISEndDate row;
                     OriginalOSStart := Watcher.OSStartDate row;
                     OriginalOSEnd := Watcher.OSEndDate row;
                     BufferedISStart := BufferedStart isBuffer;
                     BufferedISEnd := BufferedEnd isBuffer;
                     BufferedOSStart :=
                       match osBuffer with
                       | Some b => BufferedStart b
                       | None => []
                       end;
                     BufferedOSEnd :=
                       match osBuffer with
                       | Some b => BufferedEnd b
                       | None => []
                       end;
                     ISBufferDays := BufferDays isBuffer;
                     OSBufferDays :=
                       match osBuffer with
                       | Some b => BufferDays b
                       | None => 0
                       end |})
      end
  end.

(** [calculateWFORetestDateRanges]. *)
Fixpoint calculateWFORetestDateRanges (optResults : list Watcher.OPTResult)
  : go (result (list WFORetestDateRange)) :=
  match optResults with
  | [] => Ret (Ok [])
  | row :: rest =>
      r <- retestRangeOf row ;;
      match r with
      | Err => Ret Err
      | Ok retestRange =>
          r <- calculateWFORetestDateRanges rest ;;
          match r with
          | Err => Ret Err
          | Ok retestRanges => Ret (Ok (retestRange :: retestRanges))
          end
      end
  end.

End WithConversion.

(** [validateDateRanges]; [t.Before(u)] is [t < u]. *)
Fixpoint validateDateRanges (ranges : list WFORetestDateRange) : result unit :=
  match ranges with
  | [] => Ok tt
  | r :: rest =>
      match parseDate (OriginalISStart r) with
      | None => Err
      | Some isStart =>
          match parseDate (OriginalISEnd r) with
          | None => Err
          | Some isEnd =>
              if isEnd <? isStart then Err
              else if negb (eqb_str (OriginalOSStart r) [])
                      && negb (eqb_str (OriginalOSEnd r) [])
              then
                match parseDate (OriginalOSStart r) with
                | None => Err
                | Some osStart =>
                    match parseDate (OriginalOSEnd r) with
                    | None => Err
                    | Some osEnd =>
                        if osEnd <? osStart then Err
                        else if osStart <? isEnd then Err
                        else validateDateRanges rest
                    end
                end
              else validateDateRanges rest
          end
      end
  end.

(** [validateDateFormat]: the pattern [^\d{4}-\d{2}-\d{2}$]. *)
Definition validateDateFormat (dateStr : str) : result unit :=
  match dateStr with
  | [y1; y2; y3; y4; h1; m1; m2; h2; d1; d2] =>
      if forallb isDigit [y1; y2; y3; y4; m1; m2; d1; d2]
         && Ascii.eqb h1 "-" && Ascii.eqb h2 "-"
      then Ok tt else Err
  | _ => Err
  end.

(** The checks of [validateOptResults] on one row. *)
Definition validRow (row : Watcher.OPTResult) : result unit :=
  if eqb_str (Watcher.ISStartDate row) [] || eqb_str (Watcher.ISEndDate row) []
  then Err
  else if eqb_str (Watcher.ParametersJSON row) [] then Err
  else
    match validateDateFormat (Watcher.ISStartDate row) with
    | Err => Err
    | Ok _ =>
        match validateDateFormat (Watcher.ISEndDate row) with
        | Err => Err
        | Ok _ =>
            match (if negb (eqb_str (Watcher.OSStartDate row) [])
                   then validateDateFormat (Watcher.OSStartDate row)
                   else Ok tt) with
            | Err => Err
            | Ok _ =>
                if negb (eqb_str (Watcher.OSEndDate row) [])
                then validateDateFormat (Watcher.OSEndDate row)
                else Ok tt
            end
        end
    end.

Fixpoint validRows (optResults : list Watcher.OPTResult) : result unit :=
  match optResults with
  | [] => Ok tt
  | row :: rest =>
      match validRow row with
      | Err => Err
      | Ok _ => validRows rest
      end
  end.

(** [validateOptResults]. *)
Definition validateOptResults (optResults : list Watcher.OPTResult)
  : result unit :=
  match optResults with
  | [] => Err
  | _ :: _ => validRows optResults
  end.

End Buffer.
(** ** Durations and the polling loop (config.go, downloader.go) *)

Module Durations.

Definition Second : Z := 10 ^ 9.
Definition Minute : Z := 60 * Second.
Definition Hour : Z := 60 * Minute.

(** [d.Seconds()]. *)
Definition Seconds (d : Z) : float :=
  (float64_of_Z (Z.quot d Second)
   + float64_of_Z (Z.rem d Second) / float64_of_Z Second)%float.

Section WithConversion.

Variable impl : float -> Z.

(** [FormatDuration]. *)
Definition FormatDuration (d : Z) : str :=
  let s := int64_of_float impl (Seconds d) in
  if s <? 60 then Itoa s ++ L "s"
  else if s <? 3600 then Itoa (Z.quot s 60) ++ L "m"
  else Itoa (Z.quot s 3600) ++ L "h".

End WithConversion.

(** [ParseDuration]: the last byte is the unit, the bytes before it the
    value. *)
Definition ParseDuration (s : str) : result Z :=
  match rev s with
  | [] => Err
  | last :: front =>
      let valStr := rev front in
      match Atoi valStr with
      | None => Err
      | Some v =>
          if Ascii.eqb last "s" then Ok (wrap64 (v * Second))
          else if Ascii.eqb last "m" then Ok (wrap64 (v * Minute))
          else if Ascii.eqb last "h" then Ok (wrap64 (v * Hour))
          else Err
      end
  end.

End Durations.

Module Daemon.
Import Polling.

(** [max] of downloader.go. *)
Definition max (a b : Z) : Z := if a >? b then a else b.

Section WithConversion.

Variable impl : float -> Z.

(** The bookkeeping of one round of [runDaemon] after a poll that returned
    [jobs] jobs: the new value of [remaining], the interval to wait and the
    optimizer after the round.  [todo] is the listing of the to-do folder
    when the interval is computed. *)
Definition pollRound (po : PollingOptimizer) (remaining jobs : Z)
    (downloadsFolder : str) (todo : option (list DirEntry))
  : Z * Z * PollingOptimizer :=
  let remaining :=
    if jobs >? 0 then max 0 (wrap64 (remaining - jobs)) else 0 in
  let po := UpdateMetrics po jobs in
  let '(next, po) :=
    CalculateOptimalInterval impl po (jobs >? 0) remaining downloadsFolder
      todo in
  (remaining, next, po).

(** The rounds of [runDaemon] for a sequence of polls, each with the number
    of jobs it returned and the listing of the to-do folder; the intervals
    are collected, latest first. *)
Fixpoint pollRounds (po : PollingOptimizer) (remaining : Z)
    (downloadsFolder : str) (polls : list (Z * option (list DirEntry)))
    (intervals : list Z) : Z * list Z * PollingOptimizer :=
  match polls with
  | [] => (remaining, intervals, po)
  | (jobs, todo) :: rest =>
      let '(remaining, next, po) :=
        pollRound po remaining jobs downloadsFolder todo in
      pollRounds po remaining downloadsFolder rest (next :: intervals)
  end.

End WithConversion.

End Daemon.

(** ** Daily-summary watcher (csv_uploader.go, downloader.go) *)

Module Summary.
Import Watcher.

(** The outcome of the upload request for a file and a job id. *)
Record Env := {
  uploadDailySummary : str -> str -> bool
}.

(** The listings of opt/summary, opt/done and opt/error, and the pending
    upload events. *)
Record State := {
  optSummary : list DirEntry;
  optDone : list DirEntry;
  optError : list DirEntry;
  events : list UploadEvent
}.




(** The event channel holds 100 events; a send to a full channel is
    dropped. *)
Definition emit (st : State) (ev : UploadEvent) : State :=
  if Nat.ltb (length (events st)) 100 then
    {| optSummary := optSummary st; optDone := optDone st;
       optError := optError st; events := events st ++ [ev] |}
  else st.




End Summary.

(** ** Multi-timeframe jobs and the choice of the expansion (api.go) *)

Module Dispatch.
Import Expand.

(** The loop of [processMTFJob] over the split list. *)
Fixpoint mtfJobElements (xmlContent : str) (timeframes : list str)
  : list str :=
  match timeframes with
  | [] => []
  | timeframe :: rest =>
      let timeframe := TrimSpace timeframe in
      if eqb_str timeframe [] then mtfJobElements xmlContent rest
      else
        let jobXML := replaceXMLTag xmlContent (L "Timeframe") timeframe in
        let jobXML := removeXMLTag jobXML (L "timeframes") in
        jobXML :: mtfJobElements xmlContent rest
  end.

(** [processMTFJob]. *)
Definition processMTFJob (xmlContent : str) : go str :=
  match Index xmlContent (L "<timeframes>"),
        Index xmlContent (L "</timeframes>") with
  | Some timeframesStart, Some timeframesEnd =>
      if Nat.leb (timeframesStart + 12) timeframesEnd then
        let timeframesValue :=
          slice xmlContent (timeframesStart + 12) timeframesEnd in
        let timeframes := Split timeframesValue "," in
        if Nat.leb (length timeframes) 1 then Ret (wrapRoot xmlContent)
        else Ret (wrapRoot (Join (mtfJobElements xmlContent timeframes) [nl]))
      else Panic
  | _, _ => Ret (wrapRoot xmlContent)
  end.

Section WithConversion.

Variable impl : float -> Z.

(** The content that [DownloadFile] writes for a downloaded descriptor. *)
Definition finalContent (xmlContent : str) : go str :=
  let isMMJob := Contains xmlContent (L "<task_type>MM</task_type>") in
  let isMTFJob := Contains xmlContent (L "<task_type>MTF</task_type>") in
  let isWFOJob :=
    Contains xmlContent (L "<task_type>WFO</task_type>")
    || Contains xmlContent (L "<task_type>WFM</task_type>")
    || Contains xmlContent (L "<task_type>DWFM</task_type>") in
  let hasSymbolsTag := Contains xmlContent (L "<symbols>") in
  let hasTimeframesTag := Contains xmlContent (L "<timeframes>") in
  let hasOOSRunsTag := Contains xmlContent (L "<oos_runs>") in
  if isMMJob && hasSymbolsTag then processMMJob xmlContent
  else if isMTFJob && hasTimeframesTag then processMTFJob xmlContent
  else if isWFOJob && hasOOSRunsTag then processWFOJob impl xmlContent
  else Ret (wrapRoot xmlContent).

End WithConversion.

End Dispatch.

(** ** Result-file watcher (csv_uploader.go, downloader.go) *)

Module Results.
Import Watcher.

(** The outcome of the upload request for a file, a symbol and a time
    frame: [true] when the request succeeds and the answer reports
    success. *)
Record Env := {
  uploadCSV : str -> str -> str -> bool
}.

(** The listings of results/to_do and results/done. *)
Record State := {
  resultsToDo : list DirEntry;
  resultsDone : list DirEntry
}.






End Results.
(** * Proofs *)

(** ** 64-bit arithmetic *)

Lemma wrap64_range z : MinInt64 <= wrap64 z <= MaxInt64.
Proof.
  unfold wrap64, MinInt64, MaxInt64.
  pose proof (Z.mod_pos_bound (z + 2 ^ 63) (2 ^ 64) ltac:(lia)). lia.
Qed.

Lemma wrap64_id z : MinInt64 <= z <= MaxInt64 -> wrap64 z = z.
Proof.
  unfold wrap64, MinInt64, MaxInt64. intros H.
  rewrite Z.mod_small; lia.
Qed.

Lemma int64_of_float_range impl f :
  MinInt64 <= int64_of_float impl f <= MaxInt64.
Proof.
  unfold int64_of_float.
  destruct (trunc_float f) as [z|]; [|apply wrap64_range].
  destruct (in_int64 z) eqn:E; [|apply wrap64_range].
  unfold in_int64 in E. apply andb_true_iff in E. lia.
Qed.

(** ** Polling scheduler *)

Module PollingFacts.
Import Polling.

(** The scheduler is not suspended: the backlog could not be read or does
    not exceed the threshold. *)
Definition not_suspended (po : PollingOptimizer) (todo : option (list DirEntry))
  : Prop :=
  match countJobsInFolder todo with
  | Some jobCount => jobCount <= RemainingJobsThreshold (config po)
  | None => True
  end.

(** What the specification asks of an empty poll in the adaptive regime:
    the current interval times the configured [Factor], clamped to the
    maximum interval. *)
Definition spec_empty_poll_interval (impl : float -> Z) (po : PollingOptimizer)
  : Z :=
  let more :=
    int64_of_float impl
      (float64_of_Z (currentInterval po) * Factor (ExponentialBackoff (config po)))%float in
  if more >? GetMaxPollInterval (config po)
  then GetMaxPollInterval (config po) else more.

(** The state of a scheduler with the default configuration that polls
    every ten minutes and has seen one empty poll. *)
Definition ten_minutes : PollingOptimizer := {|
  config := DefaultPoll;
  consecutiveEmptyPolls := 1;
  currentInterval := 600000000000;
  totalPolls := 5;
  successfulPolls := 4
|}.

(** C10. [CalculateOptimalInterval] is a total function, and whatever the
    flags, the remaining count, the backlog folder and the scheduler state,
    it returns the suspend sentinel 0 or a duration between the minimum and
    the maximum interval, provided the minimum does not exceed the maximum. *)
Theorem CalculateOptimalInterval_bounded
    (impl : float -> Z) (po : PollingOptimizer) (hasJobs : bool)
    (remaining : Z) (downloadsFolder : str) (todo : option (list DirEntry)) :
  GetMinPollInterval (config po) <= GetMaxPollInterval (config po) ->
  let d := fst (CalculateOptimalInterval impl po hasJobs remaining
                  downloadsFolder todo) in
  d = 0 \/
  GetMinPollInterval (config po) <= d <= GetMaxPollInterval (config po).
Proof.
  intros Hmm. unfold CalculateOptimalInterval.
  destruct (match countJobsInFolder todo with
            | Some jobCount => jobCount >? RemainingJobsThreshold (config po)
            | None => false end); [left; reflexivity|].
  right.
  destruct (hasJobs && (remaining <=? RemainingJobsThreshold (config po)));
    [simpl; lia|].
  destruct (consecutiveEmptyPolls po >=? 3); [simpl; lia|].
  cbn [fst].
  set (i0 := if Adaptive (config po)
             then calculateAdaptiveInterval impl po hasJobs remaining
             else currentInterval po).
  destruct (i0 <? GetMinPollInterval (config po)) eqn:E1.
  - destruct (GetMinPollInterval (config po) >? GetMaxPollInterval (config po)) eqn:E2; lia.
  - destruct (i0 >? GetMaxPollInterval (config po)) eqn:E2; lia.
Qed.

Lemma CalculateOptimalInterval_bounded_witness :
  GetMinPollInterval (config ten_minutes) <= GetMaxPollInterval (config ten_minutes)
  /\ (fst (CalculateOptimalInterval impl_amd64 ten_minutes false 0 [] (Some [])) = 0
      \/ GetMinPollInterval (config ten_minutes)
         <= fst (CalculateOptimalInterval impl_amd64 ten_minutes false 0 [] (Some []))
         <= GetMaxPollInterval (config ten_minutes)).
Proof.
  split.
  - vm_compute. discriminate.
  - apply (CalculateOptimalInterval_bounded impl_amd64 ten_minutes false 0 [] (Some [])).
    vm_compute. discriminate.
Defined.

(** C7, as the code has it.  In the adaptive regime (adaptive polling on, no
    suspension, fewer than 3 consecutive empty polls) an empty poll
    multiplies the current interval by the constant 1.2, truncates to whole
    nanoseconds and clamps the product to the interval bounds; the
    configured [Factor] is not read. *)
Theorem adaptive_empty_poll_grows_by_constant
    (impl : float -> Z) (po : PollingOptimizer)
    (remaining : Z) (downloadsFolder : str) (todo : option (list DirEntry)) :
  Adaptive (config po) = true ->
  not_suspended po todo ->
  consecutiveEmptyPolls po < 3 ->
  GetMinPollInterval (config po) <= GetMaxPollInterval (config po) ->
  fst (CalculateOptimalInterval impl po false remaining downloadsFolder todo)
  = Z.max (GetMinPollInterval (config po))
      (Z.min (GetMaxPollInterval (config po))
         (int64_of_float impl (float64_of_Z (currentInterval po) * growth)%float)).
Proof.
  intros Had Hns Hc Hmm. unfold CalculateOptimalInterval, not_suspended in *.
  replace (match countJobsInFolder todo with
           | Some jobCount => jobCount >? RemainingJobsThreshold (config po)
           | None => false end) with false
    by (destruct (countJobsInFolder todo) as [z|];
        [destruct (z >? RemainingJobsThreshold (config po)) eqn:E; [lia|reflexivity]
        |reflexivity]).
  cbn [andb]. rewrite Had.
  replace (consecutiveEmptyPolls po >=? 3) with false
    by (destruct (consecutiveEmptyPolls po >=? 3) eqn:E; [lia|reflexivity]).
  cbn [fst]. unfold calculateAdaptiveInterval. cbn [andb].
  set (more := int64_of_float impl _).
  destruct (more >? GetMaxPollInterval (config po)) eqn:E0.
  - destruct (GetMaxPollInterval (config po) <? GetMinPollInterval (config po)) eqn:E1;
      [lia|].
    destruct (GetMaxPollInterval (config po) >? GetMaxPollInterval (config po)) eqn:E2; lia.
  - destruct (more <? GetMinPollInterval (config po)) eqn:E1.
    + destruct (GetMinPollInterval (config po) >? GetMaxPollInterval (config po)) eqn:E2; lia.
    + rewrite E0. lia.
Qed.

Lemma adaptive_empty_poll_grows_by_constant_witness :
  Adaptive (config ten_minutes) = true
  /\ not_suspended ten_minutes (Some [])
  /\ consecutiveEmptyPolls ten_minutes < 3
  /\ GetMinPollInterval (config ten_minutes) <= GetMaxPollInterval (config ten_minutes)
  /\ fst (CalculateOptimalInterval impl_amd64 ten_minutes false 0 [] (Some []))
     = 720000000000.
Proof.
  split; [reflexivity|].
  split; [vm_compute; discriminate|].
  split; [vm_compute; reflexivity|].
  split; [vm_compute; discriminate|].
  rewrite (adaptive_empty_poll_grows_by_constant impl_amd64 ten_minutes 0 []
             (Some [])).
  - vm_compute. reflexivity.
  - reflexivity.
  - vm_compute. discriminate.
  - vm_compute. reflexivity.
  - vm_compute. discriminate.
Defined.

(** C7, as stated, fails.  With the default configuration ([Factor] 1.5) and
    a current interval of ten minutes, an empty poll in the adaptive regime
    yields twelve minutes, not the fifteen that the configured factor
    gives. *)
Lemma adaptive_empty_poll_ignores_factor :
  Adaptive (config ten_minutes) = true
  /\ not_suspended ten_minutes (Some [])
  /\ consecutiveEmptyPolls ten_minutes < MaxEmptyPolls (ExponentialBackoff (config ten_minutes))
  /\ spec_empty_poll_interval impl_amd64 ten_minutes = 900000000000
  /\ fst (CalculateOptimalInterval impl_amd64 ten_minutes false 0 [] (Some []))
     = 720000000000
  /\ fst (CalculateOptimalInterval impl_amd64 ten_minutes false 0 [] (Some []))
     <> spec_empty_poll_interval impl_amd64 ten_minutes.
Proof.
  split; [reflexivity|].
  split; [vm_compute; discriminate|].
  split; [vm_compute; reflexivity|].
  split; [vm_compute; reflexivity|].
  split; [vm_compute; reflexivity|].
  vm_compute. discriminate.
Qed.

End PollingFacts.

(** ** Byte strings *)

Lemma eqb_str_eq a b : eqb_str a b = true <-> a = b.
Proof.
  revert b. induction a as [|x a IH]; intros [|y b]; simpl; split;
    try discriminate; try reflexivity.
  - intros H. apply andb_true_iff in H as [H1 H2].
    apply Ascii.eqb_eq in H1. apply IH in H2. congruence.
  - intros H. injection H as -> ->. apply andb_true_iff. split.
    + apply Ascii.eqb_refl.
    + apply IH. reflexivity.
Qed.

Lemma eqb_str_refl a : eqb_str a a = true.
Proof. apply eqb_str_eq. reflexivity. Qed.

Lemma eqb_str_neq a b : eqb_str a b = false <-> a <> b.
Proof.
  split.
  - intros H E. apply eqb_str_eq in E. congruence.
  - intros H. destruct (eqb_str a b) eqn:E; [|reflexivity].
    apply eqb_str_eq in E. contradiction.
Qed.

(** ** Parameter-optimization watcher *)

Module WatcherFacts.
Import Watcher.

(** *** Folder bookkeeping *)

Lemma exists_in_without folder f g :
  f <> g -> exists_in (without folder g) f = exists_in folder f.
Proof.
  intros Hne. unfold exists_in, without, named.
  induction folder as [|e folder IH]; simpl; [reflexivity|].
  destruct (eqb_str (Name e) g) eqn:Eg; simpl.
  - rewrite IH. apply eqb_str_eq in Eg.
    replace (eqb_str (Name e) f) with false; [reflexivity|].
    symmetry. apply eqb_str_neq. congruence.
  - rewrite IH. reflexivity.
Qed.



Lemma GetOptFiles_exists st f :
  In f (GetOptFiles st) -> exists_in (optIn st) f = true.
Proof.
  unfold GetOptFiles, exists_in. intros H.
  apply in_map_iff in H as (e & <- & He). apply filter_In in He as [He _].
  apply existsb_exists. exists e. split; [exact He|].
  unfold named. apply eqb_str_refl.
Qed.

(** *** What one file's processing changes *)

Lemma emit_folders st ev :
  optIn (emit st ev) = optIn st /\ optDone (emit st ev) = optDone st
  /\ optError (emit st ev) = optError st /\ retests (emit st ev) = retests st.
Proof. unfold emit. destruct (Nat.ltb _ _); simpl; auto. Qed.

Lemma trigger_folders st jobID rows :
  let st' := snd (triggerWFORetestGeneration st jobID rows) in
  optIn st' = optIn st /\ optDone st' = optDone st /\ optError st' = optError st.
Proof.
  unfold triggerWFORetestGeneration.
  destruct (eqb_str jobID []); simpl; auto.
  destruct rows; simpl; auto.
  destruct (extractMetadata _) as [[[? ?] ?]|]; simpl; auto.
Qed.

Lemma check_folders env st fileName jobID :
  let st' := snd (checkAndTriggerCombinedWFO env st fileName jobID) in
  optIn st' = optIn st /\ optDone st' = optDone st /\ optError st' = optError st.
Proof.
  unfold checkAndTriggerCombinedWFO.
  destruct (negb _ && negb _); simpl; auto.
  destruct (parseOPTFile _ _ _) as [[rows isWFO]|]; simpl; auto.
  destruct isWFO; simpl; auto. apply trigger_folders.
Qed.

Lemma uploadOptFile_folders env st fileName :
  let st' := snd (uploadOptFile env st fileName) in
  optIn st' = optIn st /\ optDone st' = optDone st /\ optError st' = optError st.
Proof.
  unfold uploadOptFile.
  destruct (extractMetadata fileName) as [[[jobID ?] ?]|]; simpl; auto.
  destruct (uploadOpt env fileName jobID); simpl; auto.
  set (ev := {| EventType := _; FileName := _; JobID := _ |}).
  destruct (emit_folders st ev) as (E1 & E2 & E3 & _).
  destruct (shouldCheckForWFO fileName); simpl.
  - destruct (check_folders env (emit st ev) fileName jobID) as (F1 & F2 & F3).
    simpl in *. rewrite F1, F2, F3. auto.
  - auto.
Qed.

(** A file whose upload fails leaves the state as it was. *)
Lemma uploadOptFile_failed env st fileName :
  (forall jobID, uploadOpt env fileName jobID = false) ->
  uploadOptFile env st fileName = (Err, st).
Proof.
  intros Hfail. unfold uploadOptFile.
  destruct (extractMetadata fileName) as [[[jobID ?] ?]|]; [|reflexivity].
  rewrite Hfail. reflexivity.
Qed.

Lemma processOptFile_error env st g :
  optError (processOptFile env st g) = optError st.
Proof.
  unfold processOptFile.
  pose proof (uploadOptFile_folders env st g) as (_ & _ & E3). simpl in E3.
  destruct (uploadOptFile env st g) as [[[]|] st']; simpl in *; [|exact E3].
  unfold MoveOptFile. destruct (Rename _ _ _) as [[from to]|]; simpl; exact E3.
Qed.

Lemma processOptFile_keeps_failed env st f g :
  (forall jobID, uploadOpt env f jobID = false) ->
  exists_in (optIn st) f = true ->
  exists_in (optIn (processOptFile env st g)) f = true.
Proof.
  intros Hfail Hin. unfold processOptFile.
  destruct (eqb_str f g) eqn:Efg.
  - apply eqb_str_eq in Efg. subst g.
    rewrite (uploadOptFile_failed env st f Hfail). exact Hin.
  - apply eqb_str_neq in Efg.
    pose proof (uploadOptFile_folders env st g) as (E1 & _ & _). simpl in E1.
    destruct (uploadOptFile env st g) as [[[]|] st']; simpl in *;
      [|rewrite E1; exact Hin].
    unfold MoveOptFile, Rename.
    destruct (find (named g) (optIn st')); simpl; rewrite E1.
    + rewrite exists_in_without by exact Efg. exact Hin.
    + exact Hin.
Qed.

Lemma fold_processOptFile_failed env f files : forall st,
  (forall jobID, uploadOpt env f jobID = false) ->
  exists_in (optIn st) f = true ->
  let st' := fold_left (processOptFile env) files st in
  exists_in (optIn st') f = true /\ optError st' = optError st.
Proof.
  induction files as [|g files IH]; intros st Hfail Hin; simpl.
  - split; [exact Hin|reflexivity].
  - destruct (IH (processOptFile env st g) Hfail
                (processOptFile_keeps_failed env st f g Hfail Hin)) as [H1 H2].
    split; [exact H1|]. rewrite H2. apply processOptFile_error.
Qed.

(** C8, the failure half, as the code has it: an [.opt] file of opt/in whose
    upload fails is still in opt/in after the tick, and the tick puts nothing
    into opt/error (the specification asks for a move to opt/error). *)
Theorem failed_upload_stays_in_opt_in
    (env : Env) (st : State) (fileName : str) :
  In fileName (GetOptFiles st) ->
  (forall jobID, uploadOpt env fileName jobID = false) ->
  exists_in (optIn (processOptFiles env st)) fileName = true
  /\ optError (processOptFiles env st) = optError st.
Proof.
  intros Hin Hfail.
  apply (fold_processOptFile_failed env fileName (GetOptFiles st) st Hfail).
  apply GetOptFiles_exists. exact Hin.
Qed.

(** *** A successful upload *)






(** *** Concrete runs *)

(** The table of a three-run walk-forward optimization. *)
Definition wfo_table : str :=
  T "run,all_net_profit,parameters_json,is_start_date,is_end_date,os_start_date,os_end_date|1,1200.5,{'a':'10','b':'20'},2007-01-01,2010-01-01,2010-01-02,2011-01-01|2,900,{'a':'12','b':'18'},2008-01-01,2011-01-01,2011-01-02,2012-01-01|3,1100,{'a':'14','b':'22'},2009-01-01,2012-01-01,2012-01-02,2013-01-01|".

Definition opt_name : str := L "484d6b19-8a36_@ES_60_WFO_Results.opt".

Definition one_opt_file : State := {|
  optIn := [ {| Name := opt_name; IsDir := false |} ];
  optDone := [];
  optError := [];
  events := [];
  retests := []
|}.

(** The cloud accepts uploads but no longer has the job record. *)
Definition env_job_missing : Env := {|
  uploadOpt := fun _ _ => true;
  getJobByID := fun _ => None;
  optPayload := fun _ => Some wfo_table
|}.

(** The cloud accepts uploads and knows the job as a walk-forward job. *)
Definition env_job_known : Env := {|
  uploadOpt := fun _ _ => true;
  getJobByID := fun jobID => Some {| ID := jobID; TaskType := L "WFO" |};
  optPayload := fun _ => Some wfo_table
|}.

(** The upload request fails. *)
Definition env_upload_fails : Env := {|
  uploadOpt := fun _ _ => false;
  getJobByID := fun jobID => Some {| ID := jobID; TaskType := L "WFO" |};
  optPayload := fun _ => Some wfo_table
|}.

Lemma failed_upload_stays_in_opt_in_witness :
  In opt_name (GetOptFiles one_opt_file)
  /\ (forall jobID, uploadOpt env_upload_fails opt_name jobID = false)
  /\ exists_in (optIn (processOptFiles env_upload_fails one_opt_file)) opt_name = true
  /\ optError (processOptFiles env_upload_fails one_opt_file) = [].
Proof.
  split; [left; reflexivity|].
  split; [intros jobID; reflexivity|].
  apply (failed_upload_stays_in_opt_in env_upload_fails one_opt_file opt_name).
  - left. reflexivity.
  - intros jobID. reflexivity.
Defined.


(** *** The task-type gate *)

Lemma parseCSVContent_unknown csvContent :
  parseCSVContent csvContent (L "UNKNOWN") = ([], false).
Proof. reflexivity. Qed.

(** C9, as the code has it: when the job record cannot be fetched, the
    check stops at the task-type gate whatever the file holds; no second
    pass is requested and the state is left as it was (the specification
    asks for the check to go on with the file's content). *)
Theorem missing_job_record_short_circuits
    (env : Env) (st : State) (fileName jobID : str) :
  getJobByID env jobID = None ->
  snd (checkAndTriggerCombinedWFO env st fileName jobID) = st
  /\ retests (snd (checkAndTriggerCombinedWFO env st fileName jobID)) = retests st.
Proof.
  intros Hjob.
  assert (H : snd (checkAndTriggerCombinedWFO env st fileName jobID) = st).
  { unfold checkAndTriggerCombinedWFO. rewrite Hjob. cbn [TaskType].
    destruct (negb _ && negb _); [reflexivity|].
    unfold parseOPTFile. destruct (optPayload env fileName); [|reflexivity].
    rewrite parseCSVContent_unknown. reflexivity. }
  rewrite H. split; reflexivity.
Qed.

Lemma missing_job_record_short_circuits_witness :
  getJobByID env_job_missing (L "484d6b19-8a36") = None
  /\ snd (checkAndTriggerCombinedWFO env_job_missing one_opt_file opt_name
            (L "484d6b19-8a36")) = one_opt_file
  /\ retests (snd (checkAndTriggerCombinedWFO env_job_missing one_opt_file
                     opt_name (L "484d6b19-8a36"))) = [].
Proof.
  split; [reflexivity|].
  apply (missing_job_record_short_circuits env_job_missing one_opt_file opt_name
           (L "484d6b19-8a36")).
  reflexivity.
Defined.

(** The same file with the job record at hand: the three rows are parsed and
    the second pass is requested; without the record the tick requests
    none. *)
Example known_job_requests_second_pass :
  map (fun r => (fst (fst (fst r)), length (snd r)))
    (retests (processOptFiles env_job_known one_opt_file))
  = [ (L "484d6b19-8a36", 3%nat) ]
  /\ retests (processOptFiles env_job_missing one_opt_file) = [].
Proof. split; vm_compute; reflexivity. Qed.

End WatcherFacts.

(** ** Calendar dates *)

Module TimeFacts.
Import Time.

(** *** Exhaustive checks over an integer range *)

Fixpoint check_range (f : Z -> bool) (start : Z) (n : nat) : bool :=
  match n with
  | O => true
  | S k => f start && check_range f (start + 1) k
  end.

Lemma check_range_all (f : Z -> bool) (n : nat) : forall start,
  check_range f start n = true ->
  forall z, start <= z < start + Z.of_nat n -> f z = true.
Proof.
  induction n as [|n IH]; intros start H z Hz; [lia|].
  simpl in H. apply andb_true_iff in H as [H1 H2].
  destruct (Z.eq_dec z start) as [->|Hne]; [exact H1|].
  apply (IH (start + 1) H2). lia.
Qed.

(** *** Decimal digits *)

Lemma isDigit_digit_char d : 0 <= d <= 9 -> isDigit (digit_char d) = true.
Proof.
  intros H.
  assert (E : d = 0 \/ d = 1 \/ d = 2 \/ d = 3 \/ d = 4 \/ d = 5 \/ d = 6
              \/ d = 7 \/ d = 8 \/ d = 9) by lia.
  repeat (destruct E as [->|E]; [reflexivity|]). subst. reflexivity.
Qed.

Lemma digits_fuel_isDigit fuel : forall n acc,
  0 <= n -> Forall (fun c => isDigit c = true) acc ->
  Forall (fun c => isDigit c = true) (digits_fuel fuel n acc).
Proof.
  induction fuel as [|fuel IH]; intros n acc Hn Hacc; simpl; [exact Hacc|].
  assert (Hd : Forall (fun c => isDigit c = true) (digit_char (n mod 10) :: acc)).
  { constructor; [|exact Hacc]. apply isDigit_digit_char.
    pose proof (Z.mod_pos_bound n 10 ltac:(lia)). lia. }
  destruct (n <? 10); [exact Hd|].
  apply IH; [|exact Hd]. apply Z.div_pos; lia.
Qed.

Lemma digits_isDigit n : 0 <= n -> Forall (fun c => isDigit c = true) (digits n).
Proof. intros H. apply digits_fuel_isDigit; [exact H|constructor]. Qed.

Lemma digits_fuel_grows fuel : forall n acc,
  (length acc <= length (digits_fuel fuel n acc))%nat.
Proof.
  induction fuel as [|fuel IH]; intros n acc; simpl; [lia|].
  destruct (n <? 10); simpl; [lia|].
  specialize (IH (n / 10) (digit_char (n mod 10) :: acc)). simpl in IH. lia.
Qed.

Lemma digits_fuel_length k : forall fuel n acc,
  (k < fuel)%nat -> 10 ^ Z.of_nat k <= n ->
  (length acc + k < length (digits_fuel fuel n acc))%nat.
Proof.
  induction k as [|k IH]; intros fuel n acc Hf Hn;
    (destruct fuel as [|fuel]; [lia|]); simpl.
  - destruct (n <? 10); simpl; [lia|].
    pose proof (digits_fuel_grows fuel (n / 10) (digit_char (n mod 10) :: acc)) as G.
    simpl in G. lia.
  - assert (H10 : 10 ^ Z.of_nat (S k) = 10 * 10 ^ Z.of_nat k).
    { rewrite Nat2Z.inj_succ, Z.pow_succ_r by lia. reflexivity. }
    assert (Hp : 0 < 10 ^ Z.of_nat k) by (apply Z.pow_pos_nonneg; lia).
    destruct (n <? 10) eqn:E; [lia|].
    assert (Hq : 10 ^ Z.of_nat k <= n / 10)
      by (apply Z.div_le_lower_bound; lia).
    pose proof (IH fuel (n / 10) (digit_char (n mod 10) :: acc)
                  ltac:(lia) Hq) as G.
    simpl in G. lia.
Qed.

Lemma digits_long n : 10000 <= n -> (5 <= length (digits n))%nat.
Proof.
  intros H. unfold digits.
  assert (Hl : 13 <= Z.log2 n).
  { change 13 with (Z.log2 8192). apply Z.log2_le_mono. lia. }
  pose proof (digits_fuel_length 4 (S (Z.to_nat (Z.log2 n))) n []
                ltac:(lia) ltac:(change (10 ^ Z.of_nat 4) with 10000; lia)) as G.
  change (length (@nil ascii)) with 0%nat in G. lia.
Qed.

(** *** The shape of a formatted date *)

Definition two_ok (v : Z) : bool :=
  match appendInt v 2 with
  | [a; b] => isDigit a && isDigit b && (10 * digit_val a + digit_val b =? v)
  | _ => false
  end.

Definition four_ok (v : Z) : bool :=
  match appendInt v 4 with
  | [a; b; c; d] =>
      forallb isDigit [a; b; c; d]
      && (1000 * digit_val a + 100 * digit_val b + 10 * digit_val c
          + digit_val d =? v)
  | _ => false
  end.

Lemma four_ok_all : check_range four_ok 0 (Z.to_nat 10000) = true.
Proof. vm_compute. reflexivity. Qed.

Lemma two_ok_all : check_range two_ok 0 32 = true.
Proof. vm_compute. reflexivity. Qed.


(** *** Day numbers and calendar dates *)

Lemma isLeap_true y :
  isLeap y = true <-> y mod 4 = 0 /\ (y mod 100 <> 0 \/ y mod 400 = 0).
Proof.
  unfold isLeap. rewrite andb_true_iff, orb_true_iff, negb_true_iff.
  rewrite !Z.eqb_eq, Z.eqb_neq. reflexivity.
Qed.

Lemma isLeap_shift y k : isLeap (y + 400 * k) = isLeap y.
Proof.
  unfold isLeap.
  replace ((y + 400 * k) mod 4) with (y mod 4)
    by (replace (y + 400 * k) with (y + (100 * k) * 4) by ring;
        rewrite Z_mod_plus_full; reflexivity).
  replace ((y + 400 * k) mod 100) with (y mod 100)
    by (replace (y + 400 * k) with (y + (4 * k) * 100) by ring;
        rewrite Z_mod_plus_full; reflexivity).
  replace ((y + 400 * k) mod 400) with (y mod 400)
    by (replace (y + 400 * k) with (y + k * 400) by ring;
        rewrite Z_mod_plus_full; reflexivity).
  reflexivity.
Qed.

(** The year of the era and the day of that year, for a day of the era. *)
Lemma year_of_era doe :
  0 <= doe <= 146096 ->
  let yoe := (doe - doe / 1460 + doe / 36524 - doe / 146096) / 365 in
  let doy := doe - (365 * yoe + yoe / 4 - yoe / 100) in
  0 <= yoe <= 399 /\ 0 <= doy <= 365 /\ (doy = 365 -> isLeap (yoe + 1) = true).
Proof.
  intros H yoe doy. subst doy yoe.
  split; [Z.div_mod_to_equations; lia|].
  split; [Z.div_mod_to_equations; lia|].
  intros E. apply isLeap_true. Z.div_mod_to_equations. lia.
Qed.

(** The month (counted from March) and the day of the month, for a day of
    the year. *)
Lemma month_of_year doy :
  0 <= doy <= 365 ->
  let mp := (5 * doy + 2) / 153 in
  let day := doy - (153 * mp + 2) / 5 + 1 in
  let month := if mp <? 10 then mp + 3 else mp - 9 in
  0 <= mp <= 11 /\ (month + 9) mod 12 = mp /\ 1 <= month <= 12
  /\ 1 <= day
  /\ (month <> 2 -> forall y, day <= daysIn month y)
  /\ (month = 2 -> day <= 29 /\ (day = 29 -> doy = 365)).
Proof.
  intros H mp day month.
  assert (Hmp : 0 <= mp <= 11) by (subst mp; Z.div_mod_to_equations; lia).
  assert (Hdoy : 153 * mp <= 5 * doy + 2 < 153 * mp + 153)
    by (subst mp; Z.div_mod_to_equations; lia).
  assert (Hcases : mp = 0 \/ mp = 1 \/ mp = 2 \/ mp = 3 \/ mp = 4 \/ mp = 5
                   \/ mp = 6 \/ mp = 7 \/ mp = 8 \/ mp = 9 \/ mp = 10 \/ mp = 11)
    by lia.
  clearbody mp. subst day month.
  repeat (destruct Hcases as [->|Hcases]); try subst mp;
    cbn; repeat split; try lia; intros; cbn; lia.
Qed.

Lemma civil_roundtrip t :
  let '(y, m, d) := civil_from_days t in
  days_from_civil y m d = t /\ 1 <= m <= 12 /\ 1 <= d <= daysIn m y.
Proof.
  unfold civil_from_days.
  pose proof (Z.div_mod (t + 719468) 146097 ltac:(lia)) as Ht.
  pose proof (Z.mod_pos_bound (t + 719468) 146097 ltac:(lia)) as Hdoe.
  set (era := (t + 719468) / 146097) in *.
  set (doe := (t + 719468) mod 146097) in *.
  destruct (year_of_era doe ltac:(lia)) as (Hyoe & Hdoy & Hleap).
  cbv zeta in Hyoe, Hdoy, Hleap.
  set (yoe := (doe - doe / 1460 + doe / 36524 - doe / 146096) / 365) in *.
  set (doy := doe - (365 * yoe + yoe / 4 - yoe / 100)) in *.
  destruct (month_of_year doy Hdoy) as (Hmp & Hmod & Hmonth & Hday1 & Hother & Hfeb).
  cbv zeta in Hmp, Hmod, Hmonth, Hday1, Hother, Hfeb.
  set (mp := (5 * doy + 2) / 153) in *.
  set (day := doy - (153 * mp + 2) / 5 + 1) in *.
  set (month := if mp <? 10 then mp + 3 else mp - 9) in *.
  set (year := if month <=? 2 then yoe + era * 400 + 1 else yoe + era * 400).
  assert (Hy : (if month <=? 2 then year - 1 else year) = yoe + era * 400)
    by (subst year; destruct (month <=? 2); lia).
  split; [|split; [exact Hmonth|split; [exact Hday1|]]].
  - unfold days_from_civil. rewrite Hy, Hmod.
    rewrite Z.div_add, Z_mod_plus_full by lia.
    rewrite (Z.div_small yoe 400), (Z.mod_small yoe 400) by lia.
    subst day doy. lia.
  - destruct (Z.eq_dec month 2) as [E2|N2]; [|apply Hother; exact N2].
    destruct (Hfeb E2) as [H29 Hlast]. rewrite E2. unfold daysIn.
    destruct (isLeap year) eqn:El; [exact H29|].
    assert (day <> 29); [|lia].
    intros E29. specialize (Hleap (Hlast E29)).
    subst year. rewrite E2 in El. cbn in El.
    replace (yoe + era * 400 + 1) with (yoe + 1 + 400 * era) in El by ring.
    rewrite isLeap_shift in El. congruence.
Qed.

(** *** Parsing a formatted date *)

Lemma Parse_shape s t :
  Parse s = Some t ->
  (exists c r, s = c :: r /\ isDigit c = true) /\ nth_error s 4 = Some "-"%char.
Proof.
  unfold Parse.
  destruct s as [|y1 [|y2 [|y3 [|y4 [|h1 [|m1 [|m2 [|h2 [|d1 [|d2 [|? ?]]]]]]]]]]];
    try discriminate.
  destruct (forallb isDigit _ && Ascii.eqb h1 "-" && Ascii.eqb h2 "-") eqn:E;
    [|discriminate].
  intros _. apply andb_true_iff in E as [E _]. apply andb_true_iff in E as [E1 E2].
  simpl in E1. apply andb_true_iff in E1 as [E1 _].
  apply Ascii.eqb_eq in E2. subst h1.
  split; [exists y1; eexists; split; [reflexivity|exact E1]|reflexivity].
Qed.

Lemma four_ok_shape y :
  0 <= y <= 9999 ->
  exists a b c d, appendInt y 4 = [a; b; c; d]
    /\ forallb isDigit [a; b; c; d] = true
    /\ 1000 * digit_val a + 100 * digit_val b + 10 * digit_val c + digit_val d = y.
Proof.
  intros Hy.
  pose proof (check_range_all four_ok (Z.to_nat 10000) 0 four_ok_all y
                ltac:(lia)) as H.
  unfold four_ok in H.
  destruct (appendInt y 4) as [|a [|b [|c [|d [|? ?]]]]]; try discriminate.
  apply andb_true_iff in H as [H1 H2].
  exists a, b, c, d. split; [reflexivity|]. split; [exact H1|lia].
Qed.

Lemma two_ok_shape v :
  0 <= v <= 31 ->
  exists a b, appendInt v 2 = [a; b]
    /\ isDigit a = true /\ isDigit b = true
    /\ 10 * digit_val a + digit_val b = v.
Proof.
  intros Hv.
  pose proof (check_range_all two_ok 32 0 two_ok_all v ltac:(lia)) as H.
  unfold two_ok in H.
  destruct (appendInt v 2) as [|a [|b [|? ?]]]; try discriminate.
  apply andb_true_iff in H as [H H3]. apply andb_true_iff in H as [H1 H2].
  exists a, b. repeat split; try assumption. lia.
Qed.

Lemma daysIn_le_31 m y : daysIn m y <= 31.
Proof.
  unfold daysIn. destruct m as [|p|p]; try lia.
  repeat (destruct p as [p|p|]; try lia); destruct (isLeap y); lia.
Qed.

(** A formatted date parses back to the same day when its year has four
    digits, and does not parse otherwise. *)
Lemma Parse_Format t :
  let y := fst (fst (civil_from_days t)) in
  Parse (Format t) = if (0 <=? y) && (y <=? 9999) then Some t else None.
Proof.
  pose proof (civil_roundtrip t) as Hrt. unfold Format. cbn zeta.
  destruct (civil_from_days t) as [[y m] d]. cbn [fst].
  destruct Hrt as (Hdays & Hm & Hd).
  destruct ((0 <=? y) && (y <=? 9999)) eqn:Ey.
  - apply andb_true_iff in Ey as [Ey1 Ey2].
    destruct (four_ok_shape y ltac:(lia)) as (a & b & c & e & -> & Hdig & Hval).
    pose proof (daysIn_le_31 m y).
    destruct (two_ok_shape m ltac:(lia)) as (m1 & m2 & -> & Hm1 & Hm2 & Hmv).
    destruct (two_ok_shape d ltac:(lia)) as (d1 & d2 & -> & Hd1 & Hd2 & Hdv).
    cbn [app L list_ascii_of_string]. unfold Parse.
    cbn [forallb] in *.
    repeat (apply andb_true_iff in Hdig as [? Hdig]).
    repeat match goal with H : isDigit _ = true |- _ => rewrite H; clear H end.
    cbn [andb Ascii.eqb Bool.eqb]. rewrite Hval, Hmv, Hdv.
    replace ((1 <=? m) && (m <=? 12) && (1 <=? d) && (d <=? daysIn m y)) with true.
    + rewrite Hdays. reflexivity.
    + symmetry. repeat (apply andb_true_iff; split); lia.
  - destruct (Parse _) as [t'|] eqn:EP; [|reflexivity].
    exfalso. apply Parse_shape in EP as [(c0 & r & Hs & Hc) H4].
    unfold appendInt at 1 in Hs. unfold appendInt at 1 in H4.
    destruct (y <? 0) eqn:Eneg.
    + cbn [app L list_ascii_of_string] in Hs. injection Hs as <- _. discriminate.
    + assert (Hbig : 10000 <= Z.abs y).
      { apply andb_false_iff in Ey. destruct Ey as [Ey|Ey]; lia. }
      pose proof (digits_long (Z.abs y) Hbig) as Hlen.
      pose proof (digits_isDigit (Z.abs y) ltac:(lia)) as Hall.
      replace (4 - length (digits (Z.abs y)))%nat with 0%nat in H4 by lia.
      cbn [app repeat] in H4.
      rewrite nth_error_app1 in H4 by lia.
      apply nth_error_In in H4. rewrite Forall_forall in Hall.
      apply Hall in H4. discriminate.
Qed.

Lemma Parse_Format_inv t t' : Parse (Format t) = Some t' -> t' = t.
Proof.
  rewrite Parse_Format. destruct (_ && _); [|discriminate]. congruence.
Qed.

End TimeFacts.

(** ** Walk-forward date ranges *)

Module RangeFacts.
Import Expand.

Lemma nth_error_prefix {A} (n i : nat) (out acc : list A) :
  firstn n out = acc -> (i < n)%nat -> nth_error out i = nth_error acc i.
Proof.
  intros <- Hi. rewrite nth_error_firstn.
  destruct (Nat.ltb_spec i n); [reflexivity|lia].
Qed.

Lemma wrap64_opp x :
  MinInt64 <= x <= MaxInt64 -> Z.abs (wrap64 (- x)) <= 10 ^ 14 ->
  wrap64 (- x) = - x.
Proof.
  intros Hx Habs. destruct (Z.eq_dec x MinInt64) as [->|Hne].
  - exfalso. revert Habs. vm_compute. intros H. apply H. reflexivity.
  - apply wrap64_id. unfold MinInt64, MaxInt64 in *. lia.
Qed.

Lemma AddDate_ret t days t' :
  Time.AddDate t days = Ret t' -> t' = t + days /\ Z.abs days <= 10 ^ 14.
Proof.
  unfold Time.AddDate. destruct (Z.abs days <=? 10 ^ 14) eqn:E; [|discriminate].
  intros H. injection H as <-. split; [reflexivity|lia].
Qed.

Lemma parse_format t t' : parseDate (formatDate t) = Some t' -> t' = t.
Proof. apply TimeFacts.Parse_Format_inv. Qed.

Lemma formatDate_nonempty t : formatDate t <> [].
Proof.
  unfold formatDate, Time.Format.
  destruct (Time.civil_from_days t) as [[y m] d].
  destruct (Time.appendInt y 4); discriminate.
Qed.

(** What one round of the loop establishes for the range it builds. *)
Inductive run_ok (startTime : Z) (endDate : str) (runs isDays osDays : Z)
    (dateRanges : list DateRange) (run : Z) (dr : DateRange) : Prop :=
| RunOk (isStart : Z)
    (ok_parse_isStart : parseDate (ISStartDate dr) = Some isStart)
    (ok_parse_isEnd : parseDate (ISEndDate dr) = Some (isStart + isDays))
    (ok_isEnd : ISEndDate dr = formatDate (isStart + isDays))
    (ok_osStart : OSStartDate dr = formatDate (isStart + isDays + 1))
    (ok_osEnd :
       OSEndDate dr = if run =? wrap64 (runs - 1) then endDate
                      else formatDate (isStart + isDays + wrap64 (1 + osDays)))
    (ok_first : run = 0 -> isStart = startTime)
    (ok_prev : run <> 0 ->
       exists prev osEnd,
         nth_error dateRanges (Z.to_nat (run - 1)) = Some prev
         /\ parseDate (OSEndDate prev) = Some osEnd
         /\ osEnd = isStart + isDays).

Lemma wfoRun_ok startTime endDate runs isDays osDays dateRanges run dr :
  MinInt64 <= isDays <= MaxInt64 ->
  wfoRun startTime endDate runs isDays osDays dateRanges run = Ret (Ok dr) ->
  run_ok startTime endDate runs isDays osDays dateRanges run dr.
Proof.
  intros Hrange. unfold wfoRun.
  (* the start of the in-sample period *)
  set (first := if run =? 0 then Ret (Ok (formatDate startTime)) else _).
  destruct first as [[isStartDate|]| |] eqn:Efirst; cbn [bind]; try discriminate.
  destruct (parseDate isStartDate) as [isStart|] eqn:EisStart; [|discriminate].
  destruct (Time.AddDate isStart isDays) as [t1| |] eqn:E1; cbn [bind];
    try discriminate.
  apply AddDate_ret in E1 as [-> Habs1].
  destruct (parseDate (formatDate (isStart + isDays))) as [isEnd|] eqn:EisEnd;
    [|discriminate].
  pose proof (parse_format _ _ EisEnd) as ->.
  destruct (Time.AddDate (isStart + isDays) 1) as [t2| |] eqn:E2; cbn [bind];
    try discriminate.
  apply AddDate_ret in E2 as [-> _].
  assert (Hfirst : (run = 0 -> isStart = startTime) /\
                   (run <> 0 -> exists prev osEnd,
                      nth_error dateRanges (Z.to_nat (run - 1)) = Some prev
                      /\ parseDate (OSEndDate prev) = Some osEnd
                      /\ osEnd = isStart + isDays)).
  { subst first. destruct (run =? 0) eqn:Erun.
    - injection Efirst as <-. split; [|lia].
      intros _. apply parse_format in EisStart. exact EisStart.
    - split; [lia|]. intros _.
      destruct (nth_error dateRanges (Z.to_nat (run - 1))) as [prev|];
        [|discriminate].
      destruct (parseDate (OSEndDate prev)) as [prevOSEnd|] eqn:Eprev;
        [|discriminate].
      destruct (Time.AddDate prevOSEnd (wrap64 (- isDays))) as [t0| |] eqn:E0;
        cbn [bind] in Efirst; try discriminate.
      apply AddDate_ret in E0 as [-> Habs0].
      injection Efirst as <-.
      apply parse_format in EisStart.
      rewrite (wrap64_opp isDays Hrange Habs0) in EisStart.
      exists prev, prevOSEnd. split; [reflexivity|]. split; [exact Eprev|lia]. }
  destruct Hfirst as [Hf0 Hf1].
  destruct (run =? wrap64 (runs - 1)) eqn:Elast; cbn [bind].
  - intros H. injection H as <-.
    apply (RunOk _ _ _ _ _ _ _ _ isStart); cbn; try rewrite Elast; auto.
  - destruct (Time.AddDate (isStart + isDays) (wrap64 (1 + osDays)))
      as [t3| |] eqn:E3; cbn [bind]; try discriminate.
    apply AddDate_ret in E3 as [-> _].
    intros H. injection H as <-.
    apply (RunOk _ _ _ _ _ _ _ _ isStart); cbn; try rewrite Elast; auto.
Qed.

(** The loop adds [count] ranges, one per index from [run] on, and each
    satisfies [run_ok] with respect to the ranges before it. *)
Lemma wfoLoop_ok startTime endDate runs isDays osDays :
  MinInt64 <= isDays <= MaxInt64 ->
  forall count run acc out,
  run = Z.of_nat (length acc) ->
  wfoLoop startTime endDate runs isDays osDays count run acc = Ret (Ok out) ->
  length out = (length acc + count)%nat
  /\ firstn (length acc) out = acc
  /\ forall j dr, (length acc <= j)%nat -> nth_error out j = Some dr ->
       run_ok startTime endDate runs isDays osDays out (Z.of_nat j) dr.
Proof.
  intros Hrange. induction count as [|count IH]; intros run acc out Hrun; cbn.
  - intros H. injection H as <-. split; [lia|]. split; [apply firstn_all|].
    intros j dr Hj Hnth.
    assert (j < length acc)%nat by (apply nth_error_Some; congruence). lia.
  - destruct (wfoRun startTime endDate runs isDays osDays acc run)
      as [[dr0|]| |] eqn:Erun; cbn [bind]; try discriminate.
    intros Hloop.
    apply wfoRun_ok in Erun; [|exact Hrange].
    destruct (IH (run + 1) (acc ++ [dr0]) out
                ltac:(rewrite length_app; cbn; lia) Hloop) as (Hlen & Hpre & Hall).
    rewrite length_app in Hlen, Hpre. cbn in Hlen, Hpre.
    assert (Hacc : firstn (length acc) out = acc).
    { replace (firstn (length acc) out)
        with (firstn (length acc) (firstn (length acc + 1) out))
        by (rewrite firstn_firstn; f_equal; lia).
      rewrite Hpre, firstn_app, Nat.sub_diag, firstn_all. cbn.
      apply app_nil_r. }
    split; [lia|]. split; [exact Hacc|].
    intros j dr Hj Hnth.
    destruct (Nat.eq_dec j (length acc)) as [->|Hne].
    + (* the range of this round *)
      assert (dr = dr0).
      { rewrite (nth_error_prefix (length acc + 1) (length acc) out
                   (acc ++ [dr0]) Hpre ltac:(lia)) in Hnth.
        rewrite nth_error_app2, Nat.sub_diag in Hnth by lia.
        cbn in Hnth. congruence. }
      subst dr0 run. destruct Erun as [isStart H1 H2 H3 H4 H5 H6 H7].
      apply (RunOk _ _ _ _ _ _ _ _ isStart); auto.
      intros Hne0. destruct (H7 Hne0) as (prev & osEnd & Hp & Hq).
      exists prev, osEnd. split; [|exact Hq].
      rewrite (nth_error_prefix (length acc)
                 (Z.to_nat (Z.of_nat (length acc) - 1)) out acc Hacc ltac:(lia)).
      exact Hp.
    + apply Hall; [|exact Hnth]. rewrite length_app. cbn. lia.
Qed.

Lemma wfoDays_range impl startTime endTime runs p totalDays isDays osDays :
  wfoDays impl startTime endTime runs p = (totalDays, isDays, osDays) ->
  MinInt64 <= isDays <= MaxInt64 /\ MinInt64 <= osDays <= MaxInt64.
Proof.
  unfold wfoDays. intros H. injection H as _ <- <-.
  split; apply int64_of_float_range.
Qed.

(** A successful [calculateWFORuns]: both dates parse, the loop ran
    [runs + 1] times (in 64-bit arithmetic) and every range satisfies
    [run_ok]. *)
Lemma calculateWFORuns_ok impl startDate endDate runs p ranges :
  calculateWFORuns impl startDate endDate runs p = Ret (Ok ranges) ->
  exists startTime endTime totalDays isDays osDays,
    parseDate startDate = Some startTime
    /\ parseDate endDate = Some endTime
    /\ wfoDays impl startTime endTime runs p = (totalDays, isDays, osDays)
    /\ length ranges = Z.to_nat (wrap64 (runs + 1))
    /\ forall j dr, nth_error ranges j = Some dr ->
         run_ok startTime endDate runs isDays osDays ranges (Z.of_nat j) dr.
Proof.
  unfold calculateWFORuns.
  destruct (parseDate startDate) as [startTime|]; [|discriminate].
  destruct (parseDate endDate) as [endTime|]; [|discriminate].
  destruct (wfoDays impl startTime endTime runs p) as [[totalDays isDays] osDays]
    eqn:Ed.
  intros Hloop. exists startTime, endTime, totalDays, isDays, osDays.
  destruct (wfoDays_range _ _ _ _ _ _ _ _ Ed) as [Hi _].
  destruct (wfoLoop_ok startTime endDate runs isDays osDays Hi _ 0 [] ranges
              eq_refl Hloop) as (Hlen & _ & Hall).
  split; [reflexivity|]. split; [reflexivity|]. split; [exact Ed|].
  split; [exact Hlen|].
  intros j dr Hnth. apply Hall; [cbn; lia|exact Hnth].
Qed.

Lemma runs_count runs :
  0 <= runs < MaxInt64 -> Z.to_nat (wrap64 (runs + 1)) = Z.to_nat (runs + 1).
Proof.
  intros H. rewrite wrap64_id; [reflexivity|].
  unfold MinInt64, MaxInt64 in *. lia.
Qed.

(** C3. In a walk-forward expansion with [runs >= 1] cloud-specified runs,
    for every [k] from 2 to [runs + 1] the out-of-sample end of run [k - 1]
    is the in-sample start of run [k] plus [isDays] calendar days, and the
    out-of-sample end of run [runs] is the end date of the descriptor. *)
Theorem walk_forward_coverage
    (impl : float -> Z) (startDate endDate : str) (runs : Z)
    (oosPercent : float) (ranges : list DateRange) :
  1 <= runs < MaxInt64 ->
  calculateWFORuns impl startDate endDate runs oosPercent = Ret (Ok ranges) ->
  exists startTime endTime,
    parseDate startDate = Some startTime
    /\ parseDate endDate = Some endTime
    /\ (forall k, 2 <= k <= runs + 1 ->
          exists prev cur osEnd isStart,
            nth_error ranges (Z.to_nat (k - 2)) = Some prev
            /\ nth_error ranges (Z.to_nat (k - 1)) = Some cur
            /\ parseDate (OSEndDate prev) = Some osEnd
            /\ parseDate (ISStartDate cur) = Some isStart
            /\ osEnd = isStart
                       + snd (fst (wfoDays impl startTime endTime runs oosPercent)))
    /\ (exists last,
          nth_error ranges (Z.to_nat (runs - 1)) = Some last
          /\ OSEndDate last = endDate).
Proof.
  intros Hruns Hcalc.
  destruct (calculateWFORuns_ok _ _ _ _ _ _ Hcalc)
    as (startTime & endTime & totalDays & isDays & osDays
        & Hs & He & Hd & Hlen & Hall).
  rewrite runs_count in Hlen by lia.
  exists startTime, endTime. rewrite Hd. cbn [fst snd].
  split; [exact Hs|]. split; [exact He|]. split.
  - intros k Hk.
    destruct (nth_error ranges (Z.to_nat (k - 1))) as [cur|] eqn:Ecur.
    2:{ apply nth_error_None in Ecur. lia. }
    destruct (Hall _ _ Ecur) as [isStart H1 _ _ _ _ _ H7].
    destruct H7 as (prev & osEnd & Hp & Hq & Hr); [lia|].
    exists prev, cur, osEnd, isStart.
    replace (Z.to_nat (Z.of_nat (Z.to_nat (k - 1)) - 1))
      with (Z.to_nat (k - 2)) in Hp by lia.
    repeat split; assumption.
  - destruct (nth_error ranges (Z.to_nat (runs - 1))) as [last|] eqn:Elast.
    2:{ apply nth_error_None in Elast. lia. }
    exists last. split; [reflexivity|].
    destruct (Hall _ _ Elast) as [isStart _ _ _ _ H5 _ _].
    rewrite H5.
    replace (Z.of_nat (Z.to_nat (runs - 1)) =? wrap64 (runs - 1)) with true;
      [reflexivity|].
    symmetry. apply Z.eqb_eq. rewrite wrap64_id; [lia|].
    unfold MinInt64, MaxInt64 in *. lia.
Qed.

(** C2, as the code has it: the extra final run of a walk-forward expansion
    carries an out-of-sample end date of its own (its in-sample end plus
    [1 + osDays] days), so [GetEndDate], whose value replaces the [endDate]
    tag, returns that date and not the in-sample end. *)
Theorem final_run_end_date_is_os_end
    (impl : float -> Z) (startDate endDate : str) (runs : Z)
    (oosPercent : float) (ranges : list DateRange) :
  0 <= runs < MaxInt64 ->
  calculateWFORuns impl startDate endDate runs oosPercent = Ret (Ok ranges) ->
  exists startTime endTime final isEnd,
    parseDate startDate = Some startTime
    /\ parseDate endDate = Some endTime
    /\ nth_error ranges (Z.to_nat runs) = Some final
    /\ length ranges = Z.to_nat (runs + 1)
    /\ parseDate (ISEndDate final) = Some isEnd
    /\ GetEndDate final
       = formatDate
           (isEnd + wrap64 (1 + snd (wfoDays impl startTime endTime runs oosPercent))).
Proof.
  intros Hruns Hcalc.
  destruct (calculateWFORuns_ok _ _ _ _ _ _ Hcalc)
    as (startTime & endTime & totalDays & isDays & osDays
        & Hs & He & Hd & Hlen & Hall).
  rewrite runs_count in Hlen by lia.
  destruct (nth_error ranges (Z.to_nat runs)) as [final|] eqn:Efinal.
  2:{ apply nth_error_None in Efinal. lia. }
  destruct (Hall _ _ Efinal) as [isStart _ H2 _ _ H5 _ _].
  exists startTime, endTime, final, (isStart + isDays). rewrite Hd. cbn [snd].
  repeat split; try assumption.
  replace (Z.of_nat (Z.to_nat runs) =? wrap64 (runs - 1)) with false in H5.
  - unfold GetEndDate. rewrite H5.
    destruct (eqb_str _ []) eqn:E; [|reflexivity].
    apply eqb_str_eq in E. exfalso. exact (formatDate_nonempty _ E).
  - symmetry. apply Z.eqb_neq.
    destruct (Z.eq_dec runs 0) as [->|Hne]; [vm_compute; discriminate|].
    rewrite wrap64_id; [lia|]. unfold MinInt64, MaxInt64 in *. lia.
Qed.

(** The descriptor of scenario S2: 2007-01-01 to 2013-09-08, three runs,
    twenty percent out of sample. *)
Definition descriptor_s2 : str :=
  T "<Job>|  <task_type>WFO</task_type>|  <Symbol>@ES</Symbol>|  <Timeframe>60</Timeframe>|  <startDate>2007-01-01</startDate>|  <endDate>2013-09-08</endDate>|  <oos_runs>3</oos_runs>|  <oos_percent>20</oos_percent>|</Job>".

Lemma walk_forward_coverage_witness :
  exists ranges,
    calculateWFORuns impl_amd64 (L "2007-01-01") (L "2013-09-08") 3 20%float
    = Ret (Ok ranges)
    /\ map OSEndDate ranges
       = [L "2011-10-11"; L "2012-09-24"; L "2013-09-08"; L "2014-08-23"]
    /\ exists last,
         nth_error ranges 2 = Some last /\ OSEndDate last = L "2013-09-08".
Proof.
  destruct (calculateWFORuns impl_amd64 (L "2007-01-01") (L "2013-09-08") 3
              20%float) as [[ranges|]| |] eqn:E;
    try (vm_compute in E; discriminate).
  exists ranges. split; [reflexivity|].
  destruct (walk_forward_coverage impl_amd64 (L "2007-01-01") (L "2013-09-08")
              3 20%float ranges ltac:(vm_compute; split; [discriminate|reflexivity]) E)
    as (startTime & endTime & _ & _ & _ & Hlast).
  split; [|exact Hlast].
  vm_compute in E. injection E as <-. reflexivity.
Defined.

Lemma final_run_end_date_is_os_end_witness :
  exists ranges final,
    calculateWFORuns impl_amd64 (L "2007-01-01") (L "2013-09-08") 3 20%float
    = Ret (Ok ranges)
    /\ nth_error ranges 3 = Some final
    /\ ISEndDate final = L "2013-09-08"
    /\ GetEndDate final = L "2014-08-23".
Proof.
  destruct (calculateWFORuns impl_amd64 (L "2007-01-01") (L "2013-09-08") 3
              20%float) as [[ranges|]| |] eqn:E;
    try (vm_compute in E; discriminate).
  destruct (final_run_end_date_is_os_end impl_amd64 (L "2007-01-01")
              (L "2013-09-08") 3 20%float ranges
              ltac:(vm_compute; split; [discriminate|reflexivity]) E)
    as (startTime & endTime & final & isEnd & _ & _ & Hfinal & _).
  exists ranges, final. split; [reflexivity|].
  split; [exact Hfinal|].
  vm_compute in E. injection E as <-.
  cbn in Hfinal. injection Hfinal as <-. split; reflexivity.
Defined.

(** The expansion of S2: four job elements; in the last one the [endDate]
    tag holds 2014-08-23, the out-of-sample end, while the in-sample end of
    that run is 2013-09-08. *)
Example s2_final_job_end_date :
  exists p ranges,
    wfoPlan impl_amd64 descriptor_s2 = Ret (Ok (p, ranges))
    /\ let jobs := wfoJobElements descriptor_s2 p 4 1 ranges in
       length jobs = 4%nat
       /\ extractXMLTagValue (last jobs []) (L "endDate")
          = Ret (Ok (L "2014-08-23"))
       /\ extractXMLTagValue (last jobs []) (L "is_end_date")
          = Ret (Ok (L "2013-09-08")).
Proof.
  destruct (wfoPlan impl_amd64 descriptor_s2) as [[[p ranges]|]| |] eqn:E;
    try (vm_compute in E; discriminate).
  exists p, ranges. split; [reflexivity|].
  vm_compute in E. injection E as <- <-. vm_compute. repeat split.
Qed.

End RangeFacts.

(** ** Texts as chunks

    The tag edits of the expander search for patterns that start with [<].
    A text is cut at every [<] into a head chunk and the chunks that follow
    a [<]; a pattern [<q] with no further [<] occurs exactly at the chunks
    that start with [q].  The edits are then edits of the chunk list. *)

Module Chunks.
Import Expand.

Definition lt : ascii := "<"%char.

Definition noltb (s : str) : bool := forallb (fun c => negb (Ascii.eqb c lt)) s.

(** The text with head chunk [e] and chunks [r]. *)
Fixpoint glue (e : str) (r : list str) : str :=
  match r with
  | [] => e
  | a :: r' => e ++ lt :: glue a r'
  end.

(** The chunks of a text. *)
Fixpoint chunk (s : str) : str * list str :=
  match s with
  | [] => ([], [])
  | c :: t =>
      let '(e, r) := chunk t in
      if Ascii.eqb c lt then ([], e :: r) else (c :: e, r)
  end.

Lemma glue_chunk s : glue (fst (chunk s)) (snd (chunk s)) = s.
Proof.
  induction s as [|c t IH]; [reflexivity|]. cbn.
  destruct (chunk t) as [e r]. cbn in *.
  destruct (Ascii.eqb c lt) eqn:E; cbn.
  - apply Ascii.eqb_eq in E. subst c. rewrite IH. reflexivity.
  - destruct r; cbn in *; rewrite IH; reflexivity.
Qed.

Lemma chunk_nolt s :
  noltb (fst (chunk s)) = true /\ forallb noltb (snd (chunk s)) = true.
Proof.
  induction s as [|c t IH]; [split; reflexivity|]. cbn.
  destruct (chunk t) as [e r]. cbn [fst snd] in *. destruct IH as [IH1 IH2].
  destruct (Ascii.eqb c lt) eqn:E; cbn [fst snd].
  - split; [reflexivity|]. cbn [forallb]. rewrite IH1, IH2. reflexivity.
  - split; [|exact IH2]. unfold noltb in *. cbn [forallb].
    rewrite E, IH1. reflexivity.
Qed.

(** *** Prefixes *)

Lemma HasPrefix_app s p : HasPrefix (p ++ s) p = true.
Proof.
  induction p as [|a p IH]; cbn; [destruct s; reflexivity|].
  rewrite Ascii.eqb_refl. exact IH.
Qed.

Lemma HasPrefix_split s p : HasPrefix s p = true -> s = p ++ skipn (length p) s.
Proof.
  revert s. induction p as [|a p IH]; intros s H; [reflexivity|].
  destruct s as [|b s]; [discriminate|]. cbn in H.
  apply andb_true_iff in H as [H1 H2]. apply Ascii.eqb_eq in H1. subst b.
  cbn. f_equal. apply IH. exact H2.
Qed.

Lemma HasPrefix_nil s : HasPrefix s [] = true.
Proof. destruct s; reflexivity. Qed.

(** Appending after a byte that the pattern does not contain does not
    change whether the pattern is a prefix. *)
Lemma HasPrefix_app_other t x w q :
  ~ In x q -> HasPrefix (t ++ x :: w) q = HasPrefix t q.
Proof.
  revert q. induction t as [|b t IH]; intros q Hx.
  - destruct q as [|a q]; [reflexivity|]. cbn.
    destruct (Ascii.eqb a x) eqn:E; [|reflexivity].
    apply Ascii.eqb_eq in E. subst a. exfalso. apply Hx. left. reflexivity.
  - destruct q as [|a q]; [reflexivity|]. cbn.
    rewrite IH; [reflexivity|]. intros H. apply Hx. right. exact H.
Qed.

Lemma nolt_not_In q : noltb q = true -> ~ In lt q.
Proof.
  unfold noltb. intros H Hin. rewrite forallb_forall in H.
  specialize (H lt Hin). rewrite Ascii.eqb_refl in H. discriminate.
Qed.

Lemma HasPrefix_glue a r q :
  noltb q = true -> HasPrefix (glue a r) q = HasPrefix a q.
Proof.
  intros Hq. destruct r as [|b r]; [reflexivity|]. cbn.
  apply HasPrefix_app_other. apply nolt_not_In. exact Hq.
Qed.

(** Two patterns that are prefixes of one text are comparable. *)
Lemma HasPrefix_comparable c q1 q2 :
  HasPrefix c q1 = true -> HasPrefix c q2 = true ->
  HasPrefix q1 q2 = true \/ HasPrefix q2 q1 = true.
Proof.
  revert q1 q2. induction c as [|b c IH]; intros q1 q2 H1 H2.
  - destruct q1; [|discriminate]. right. apply HasPrefix_nil.
  - destruct q1 as [|a1 q1]; [right; apply HasPrefix_nil|].
    destruct q2 as [|a2 q2]; [left; reflexivity|].
    cbn in *. apply andb_true_iff in H1 as [E1 H1].
    apply andb_true_iff in H2 as [E2 H2].
    apply Ascii.eqb_eq in E1, E2. subst a1 a2. rewrite Ascii.eqb_refl. cbn.
    apply IH; assumption.
Qed.

Lemma HasPrefix_other c q1 q2 :
  HasPrefix q1 q2 = false -> HasPrefix q2 q1 = false ->
  HasPrefix c q1 = true -> HasPrefix c q2 = false.
Proof.
  intros N1 N2 H1. destruct (HasPrefix c q2) eqn:H2; [|reflexivity].
  destruct (HasPrefix_comparable c q1 q2 H1 H2); congruence.
Qed.

(** *** Searching a text that starts with a head chunk *)

Lemma nolt_cons c e :
  noltb (c :: e) = true -> Ascii.eqb lt c = false /\ noltb e = true.
Proof.
  unfold noltb. cbn [forallb]. intros H.
  apply andb_true_iff in H as [H1 H2]. split; [|exact H2].
  rewrite Ascii.eqb_sym. destruct (Ascii.eqb c lt); [discriminate|reflexivity].
Qed.

Lemma Index_nolt e q : noltb e = true -> Index e (lt :: q) = None.
Proof.
  induction e as [|c e IH]; intros H; [reflexivity|].
  apply nolt_cons in H as [H1 H2]. cbn [Index HasPrefix].
  rewrite H1. cbn [andb]. rewrite (IH H2). reflexivity.
Qed.

Lemma Index_peel e X q :
  noltb e = true ->
  Index (e ++ lt :: X) (lt :: q)
  = if HasPrefix X q then Some (length e)
    else option_map (fun i => (length e + 1 + i)%nat) (Index X (lt :: q)).
Proof.
  induction e as [|c e IH]; intros H.
  - cbn [app Index HasPrefix length]. rewrite Ascii.eqb_refl. cbn [andb].
    destruct (HasPrefix X q); [reflexivity|].
    destruct (Index X (lt :: q)); reflexivity.
  - apply nolt_cons in H as [H1 H2].
    cbn [app Index HasPrefix length]. rewrite H1. cbn [andb].
    rewrite (IH H2). destruct (HasPrefix X q); [reflexivity|].
    destruct (Index X (lt :: q)); reflexivity.
Qed.

Lemma LastIndex_nolt e q : noltb e = true -> LastIndex e (lt :: q) = None.
Proof.
  induction e as [|c e IH]; intros H; [reflexivity|].
  apply nolt_cons in H as [H1 H2]. cbn [LastIndex HasPrefix].
  rewrite (IH H2), H1. reflexivity.
Qed.

Lemma LastIndex_peel e X q :
  noltb e = true ->
  LastIndex (e ++ lt :: X) (lt :: q)
  = match LastIndex X (lt :: q) with
    | Some i => Some (length e + 1 + i)%nat
    | None => if HasPrefix X q then Some (length e) else None
    end.
Proof.
  induction e as [|c e IH]; intros H.
  - cbn [app LastIndex HasPrefix length].
    destruct (LastIndex X (lt :: q)); [reflexivity|].
    rewrite Ascii.eqb_refl. reflexivity.
  - apply nolt_cons in H as [H1 H2].
    cbn [app LastIndex length]. rewrite (IH H2).
    destruct (LastIndex X (lt :: q)); [reflexivity|].
    destruct (HasPrefix X q); [reflexivity|].
    cbn [HasPrefix]. rewrite H1. reflexivity.
Qed.

Lemma count_from_nolt e q Y k :
  noltb e = true -> (k <= length e)%nat ->
  count_from (e ++ Y) (lt :: q) k = count_from Y (lt :: q) 0.
Proof.
  revert k. induction e as [|c e IH]; intros k H Hk.
  - cbn in Hk. replace k with 0%nat by lia. reflexivity.
  - apply nolt_cons in H as [H1 H2].
    cbn [app count_from]. cbn [length] in Hk. destruct k as [|k].
    + cbn [HasPrefix]. rewrite H1. cbn [andb].
      apply IH; [exact H2|lia].
    + apply IH; [exact H2|lia].
Qed.

Lemma Count_peel e X q :
  noltb e = true -> noltb q = true ->
  Count (e ++ lt :: X) (lt :: q)
  = ((if HasPrefix X q then 1 else 0) + Count X (lt :: q))%nat.
Proof.
  intros He Hq. unfold Count.
  rewrite (count_from_nolt e q (lt :: X) 0 He ltac:(lia)).
  cbn [count_from HasPrefix]. rewrite Ascii.eqb_refl. cbn [andb].
  destruct (HasPrefix X q) eqn:E; [|reflexivity].
  cbn [length Nat.sub]. rewrite Nat.sub_0_r.
  pose proof (HasPrefix_split X q E) as HX.
  set (Y := skipn (length q) X) in *. rewrite HX.
  rewrite (count_from_nolt q q Y (length q) Hq ltac:(lia)).
  rewrite (count_from_nolt q q Y 0 Hq ltac:(lia)). reflexivity.
Qed.

(** *** Slices of a text that starts with a head chunk *)

Lemma skipn_peel (e X : str) k :
  skipn (length e + 1 + k) (e ++ lt :: X) = skipn k X.
Proof.
  replace (length e + 1 + k)%nat with (length e + S k)%nat by lia.
  rewrite skipn_app, skipn_all2 by lia.
  replace (length e + S k - length e)%nat with (S k) by lia. reflexivity.
Qed.

Lemma firstn_peel (e X : str) k :
  firstn (length e + 1 + k) (e ++ lt :: X) = e ++ lt :: firstn k X.
Proof.
  replace (length e + 1 + k)%nat with (length e + S k)%nat by lia.
  rewrite firstn_app, firstn_all2 by lia.
  replace (length e + S k - length e)%nat with (S k) by lia. reflexivity.
Qed.

Lemma firstn_head (e X : str) : firstn (length e) (e ++ X) = e.
Proof.
  rewrite firstn_app, Nat.sub_diag, firstn_all. cbn. apply app_nil_r.
Qed.

Lemma skipn_head (e X : str) : skipn (length e) (e ++ X) = X.
Proof. rewrite skipn_app, Nat.sub_diag, skipn_all. reflexivity. Qed.

Lemma HasPrefix_length s p : HasPrefix s p = true -> (length p <= length s)%nat.
Proof.
  intros H. rewrite (HasPrefix_split s p H), length_app. lia.
Qed.

(** *** Tags *)

(** The chunks that the start tag and the end tag of [tagName] begin. *)
Definition qO (tagName : str) : str := tagName ++ L ">".
Definition qC (tagName : str) : str := "/"%char :: tagName ++ L ">".

Lemma startTagOf_q T : startTagOf T = lt :: qO T.
Proof. reflexivity. Qed.

Lemma endTagOf_q T : endTagOf T = lt :: qC T.
Proof. reflexivity. Qed.

(** A tag name for which the chunk view applies: no [<] in it, and a chunk
    cannot begin both its start and its end tag. *)
Definition tagName_ok (T : str) : bool :=
  noltb T && negb (HasPrefix (qO T) (qC T)) && negb (HasPrefix (qC T) (qO T)).

Lemma tagName_ok_nolt T :
  tagName_ok T = true -> noltb (qO T) = true /\ noltb (qC T) = true.
Proof.
  unfold tagName_ok, qO, qC, noltb. intros H.
  apply andb_true_iff in H as [H _]. apply andb_true_iff in H as [H _].
  cbn [forallb]. rewrite !forallb_app, H. split; reflexivity.
Qed.

Lemma tagName_ok_open T c :
  tagName_ok T = true -> HasPrefix c (qO T) = true -> HasPrefix c (qC T) = false.
Proof.
  unfold tagName_ok. intros H. apply andb_true_iff in H as [H H2].
  apply andb_true_iff in H as [_ H1].
  apply negb_true_iff in H1, H2. apply HasPrefix_other; assumption.
Qed.

(** *** The edits on a text that starts with a head chunk *)

Lemma replace_peel e X T v :
  noltb e = true ->
  HasPrefix X (qO T) = false -> HasPrefix X (qC T) = false ->
  replaceXMLTag (e ++ lt :: X) T v = e ++ lt :: replaceXMLTag X T v.
Proof.
  intros He HO HC. unfold replaceXMLTag.
  rewrite startTagOf_q, endTagOf_q.
  rewrite (Index_peel e X (qO T) He), HO, (Index_peel e X (qC T) He), HC.
  destruct (Index X (lt :: qO T)) as [i|]; [|reflexivity].
  destruct (Index X (lt :: qC T)) as [j|]; [|reflexivity].
  cbn [option_map]. rewrite firstn_peel.
  replace (length e + 1 + j + length (lt :: qC T))%nat
    with (length e + 1 + (j + length (lt :: qC T)))%nat by lia.
  rewrite skipn_peel. rewrite <- app_assoc. reflexivity.
Qed.

Lemma replace_head e a Y T v :
  noltb e = true -> noltb a = true -> tagName_ok T = true ->
  HasPrefix a (qO T) = true -> HasPrefix Y (qC T) = true ->
  replaceXMLTag (e ++ lt :: a ++ lt :: Y) T v
  = e ++ lt :: (qO T ++ v) ++ lt :: Y.
Proof.
  intros He Ha HT HO HC. unfold replaceXMLTag.
  destruct (tagName_ok_nolt T HT) as [NO NC].
  assert (HXO : HasPrefix (a ++ lt :: Y) (qO T) = true)
    by (rewrite HasPrefix_app_other; [exact HO|apply nolt_not_In; exact NO]).
  assert (HXC : HasPrefix (a ++ lt :: Y) (qC T) = false)
    by (apply (tagName_ok_open T _ HT HXO)).
  rewrite startTagOf_q, endTagOf_q.
  rewrite (Index_peel e (a ++ lt :: Y) (qO T) He), HXO.
  rewrite (Index_peel e (a ++ lt :: Y) (qC T) He), HXC.
  rewrite (Index_peel a Y (qC T) Ha), HC. cbn [option_map].
  rewrite firstn_head.
  replace (length e + 1 + length a + length (lt :: qC T))%nat
    with (length e + 1 + (length a + 1 + length (qC T)))%nat
    by (cbn [length]; lia).
  rewrite skipn_peel, skipn_peel.
  rewrite (HasPrefix_split Y (qC T) HC) at 2.
  cbn [app]. rewrite <- !app_assoc. reflexivity.
Qed.

(** *** Trimming *)

Lemma TrimLeftFunc_stop (f : ascii -> bool) u x w :
  f x = false -> TrimLeftFunc (u ++ x :: w) f = TrimLeftFunc u f ++ x :: w.
Proof.
  intros Hx. induction u as [|c u IH]; cbn [app TrimLeftFunc].
  - rewrite Hx. reflexivity.
  - destruct (f c); [exact IH|reflexivity].
Qed.

Lemma TrimRightFunc_stop (f : ascii -> bool) u x w :
  f x = false -> TrimRightFunc (u ++ x :: w) f = u ++ x :: TrimRightFunc w f.
Proof.
  intros Hx. unfold TrimRightFunc.
  rewrite rev_app_distr. cbn [rev]. rewrite <- app_assoc. cbn [app].
  rewrite TrimLeftFunc_stop by exact Hx.
  rewrite rev_app_distr. cbn [rev]. rewrite rev_involutive.
  rewrite <- app_assoc. reflexivity.
Qed.

Lemma isCut_lt : isCut lt = false.
Proof. reflexivity. Qed.

(** A trimmed text is a part of the text. *)
Lemma TrimLeftFunc_suffix (f : ascii -> bool) s :
  exists u, s = u ++ TrimLeftFunc s f /\ forallb f u = true.
Proof.
  induction s as [|c s (u & IH1 & IH2)]; [exists []; split; reflexivity|].
  cbn [TrimLeftFunc]. destruct (f c) eqn:E.
  - exists (c :: u). cbn [app forallb]. rewrite <- IH1, E, IH2.
    split; reflexivity.
  - exists []. split; reflexivity.
Qed.

Lemma TrimRightFunc_prefix (f : ascii -> bool) s :
  exists u, s = TrimRightFunc s f ++ u /\ forallb f u = true.
Proof.
  unfold TrimRightFunc.
  destruct (TrimLeftFunc_suffix f (rev s)) as (u & H1 & H2).
  exists (rev u). split.
  - rewrite <- rev_app_distr, <- H1, rev_involutive. reflexivity.
  - rewrite forallb_forall in *. intros x Hx. apply H2. apply in_rev. exact Hx.
Qed.

Lemma noltb_app a b : noltb (a ++ b) = noltb a && noltb b.
Proof. unfold noltb. apply forallb_app. Qed.

Lemma noltb_TrimLeftFunc f s : noltb s = true -> noltb (TrimLeftFunc s f) = true.
Proof.
  intros H. destruct (TrimLeftFunc_suffix f s) as (u & H1 & _).
  rewrite H1, noltb_app in H. apply andb_true_iff in H as [_ H]. exact H.
Qed.

Lemma noltb_TrimRightFunc f s : noltb s = true -> noltb (TrimRightFunc s f) = true.
Proof.
  intros H. destruct (TrimRightFunc_prefix f s) as (u & H1 & _).
  rewrite H1, noltb_app in H. apply andb_true_iff in H as [H _]. exact H.
Qed.

Lemma noltb_skipn n s : noltb s = true -> noltb (skipn n s) = true.
Proof.
  intros H. rewrite <- (firstn_skipn n s), noltb_app in H.
  apply andb_true_iff in H as [_ H]. exact H.
Qed.

(** Trimming a chunk on the right and appending after a byte that the
    pattern does not contain keeps the chunk's tag. *)
Lemma HasPrefix_trim_app c x w q :
  (forall y, In y q -> isCut y = false) -> ~ In x q ->
  HasPrefix (TrimRightFunc c isCut ++ x :: w) q = HasPrefix c q.
Proof.
  intros Hq Hx. rewrite HasPrefix_app_other by exact Hx.
  destruct (TrimRightFunc_prefix isCut c) as (u & H1 & H2).
  rewrite H1 at 2. destruct u as [|y u]; [rewrite app_nil_r; reflexivity|].
  symmetry. apply HasPrefix_app_other.
  intros Hy. cbn [forallb] in H2. apply andb_true_iff in H2 as [H2 _].
  rewrite (Hq y Hy) in H2. discriminate.
Qed.

(** *** Removing and adding, on a text that starts with a head chunk *)

Lemma remove_peel e X T :
  noltb e = true ->
  HasPrefix X (qO T) = false -> HasPrefix X (qC T) = false ->
  removeXMLTag (e ++ lt :: X) T = e ++ lt :: removeXMLTag X T.
Proof.
  intros He HO HC. unfold removeXMLTag.
  rewrite startTagOf_q, endTagOf_q.
  rewrite (Index_peel e X (qO T) He), HO, (Index_peel e X (qC T) He), HC.
  destruct (Index X (lt :: qO T)) as [i|]; [|reflexivity].
  destruct (Index X (lt :: qC T)) as [j|]; [|reflexivity].
  cbn [option_map]. rewrite firstn_peel.
  replace (length e + 1 + j + length (lt :: qC T))%nat
    with (length e + 1 + (j + length (lt :: qC T)))%nat by lia.
  rewrite skipn_peel, TrimRightFunc_stop by apply isCut_lt.
  rewrite <- app_assoc. reflexivity.
Qed.

Lemma remove_head e a Y T :
  noltb e = true -> noltb a = true -> tagName_ok T = true ->
  HasPrefix a (qO T) = true -> HasPrefix Y (qC T) = true ->
  removeXMLTag (e ++ lt :: a ++ lt :: Y) T
  = TrimRightFunc e isCut ++ nl
    :: TrimLeftFunc (skipn (length (qC T)) Y) isCut.
Proof.
  intros He Ha HT HO HC. unfold removeXMLTag.
  destruct (tagName_ok_nolt T HT) as [NO NC].
  assert (HXO : HasPrefix (a ++ lt :: Y) (qO T) = true)
    by (rewrite HasPrefix_app_other; [exact HO|apply nolt_not_In; exact NO]).
  assert (HXC : HasPrefix (a ++ lt :: Y) (qC T) = false)
    by (apply (tagName_ok_open T _ HT HXO)).
  rewrite startTagOf_q, endTagOf_q.
  rewrite (Index_peel e (a ++ lt :: Y) (qO T) He), HXO.
  rewrite (Index_peel e (a ++ lt :: Y) (qC T) He), HXC.
  rewrite (Index_peel a Y (qC T) Ha), HC. cbn [option_map].
  rewrite firstn_head.
  replace (length e + 1 + length a + length (lt :: qC T))%nat
    with (length e + 1 + (length a + 1 + length (qC T)))%nat
    by (cbn [length]; lia).
  rewrite skipn_peel, skipn_peel. reflexivity.
Qed.

Definition qJ : str := L "/Job>".

(** The text that [addXMLTag] inserts, as two chunks after two blanks. *)
Lemma newTag_chunks tagName value :
  L "  <" ++ tagName ++ L ">" ++ value ++ L "</" ++ tagName ++ L ">" ++ [nl]
  = L "  " ++ lt :: (qO tagName ++ value) ++ lt :: (qC tagName ++ [nl]).
Proof.
  unfold qO, qC. cbn [L list_ascii_of_string app].
  rewrite <- !app_assoc. reflexivity.
Qed.

Lemma add_peel e X tagName value i :
  noltb e = true -> LastIndex X (lt :: qJ) = Some i ->
  addXMLTag (e ++ lt :: X) tagName value = e ++ lt :: addXMLTag X tagName value.
Proof.
  intros He Hi. unfold addXMLTag.
  change (L "</Job>") with (lt :: qJ).
  rewrite (LastIndex_peel e X qJ He), Hi.
  rewrite firstn_peel, skipn_peel, <- app_assoc. reflexivity.
Qed.

Lemma add_here e X tagName value :
  noltb e = true -> LastIndex X (lt :: qJ) = None -> HasPrefix X qJ = true ->
  addXMLTag (e ++ lt :: X) tagName value
  = (e ++ L "  ") ++ lt :: (qO tagName ++ value) ++ lt :: (qC tagName ++ [nl])
    ++ lt :: X.
Proof.
  intros He Hi HJ. unfold addXMLTag.
  change (L "</Job>") with (lt :: qJ).
  rewrite (LastIndex_peel e X qJ He), Hi, HJ.
  rewrite firstn_head, skipn_head, newTag_chunks.
  repeat (rewrite <- ?app_assoc; progress cbn [app]).
  rewrite <- ?app_assoc. reflexivity.
Qed.

Lemma add_none e X tagName value :
  noltb e = true -> LastIndex X (lt :: qJ) = None -> HasPrefix X qJ = false ->
  addXMLTag (e ++ lt :: X) tagName value = e ++ lt :: X.
Proof.
  intros He Hi HJ. unfold addXMLTag.
  change (L "</Job>") with (lt :: qJ).
  rewrite (LastIndex_peel e X qJ He), Hi, HJ. reflexivity.
Qed.

End Chunks.

(** ** The tag edits on chunk lists *)

Module Edits.
Import Expand Chunks.

(** The text between the first start tag and the first end tag of
    [tagName]: what [extractXMLTagValue] trims and returns. *)
Definition tagValue (xml tagName : str) : option str :=
  match Index xml (startTagOf tagName), Index xml (endTagOf tagName) with
  | Some i, Some j =>
      if Nat.leb (i + length (startTagOf tagName)) j
      then Some (slice xml (i + length (startTagOf tagName)) j)
      else None
  | _, _ => None
  end.

Lemma extract_tagValue xml T raw :
  tagValue xml T = Some raw ->
  extractXMLTagValue xml T = Ret (Ok (TrimSpace raw)).
Proof.
  unfold tagValue, extractXMLTagValue.
  destruct (Index xml (startTagOf T)) as [i|]; [|discriminate].
  destruct (Index xml (endTagOf T)) as [j|]; [|discriminate].
  destruct (Nat.leb _ j); [|discriminate].
  intros H. injection H as <-. reflexivity.
Qed.

Lemma tagValue_extract xml T v :
  extractXMLTagValue xml T = Ret (Ok v) ->
  exists raw, tagValue xml T = Some raw /\ v = TrimSpace raw.
Proof.
  unfold tagValue, extractXMLTagValue.
  destruct (Index xml (startTagOf T)) as [i|]; [|discriminate].
  destruct (Index xml (endTagOf T)) as [j|]; [|discriminate].
  destruct (Nat.leb _ j); [|discriminate].
  intros H. injection H as <-. eexists. split; reflexivity.
Qed.

Lemma tagValue_peel e X T :
  noltb e = true ->
  HasPrefix X (qO T) = false -> HasPrefix X (qC T) = false ->
  tagValue (e ++ lt :: X) T = tagValue X T.
Proof.
  intros He HO HC. unfold tagValue.
  rewrite startTagOf_q, endTagOf_q.
  rewrite (Index_peel e X (qO T) He), HO, (Index_peel e X (qC T) He), HC.
  destruct (Index X (lt :: qO T)) as [i|]; [|reflexivity].
  destruct (Index X (lt :: qC T)) as [j|]; [|reflexivity].
  cbn [option_map].
  replace (Nat.leb (length e + 1 + i + length (lt :: qO T)) (length e + 1 + j))
    with (Nat.leb (i + length (lt :: qO T)) j)
    by (destruct (Nat.leb_spec (i + length (lt :: qO T)) j);
        destruct (Nat.leb_spec (length e + 1 + i + length (lt :: qO T))
                    (length e + 1 + j)); try reflexivity; lia).
  destruct (Nat.leb _ j); [|reflexivity].
  unfold slice.
  replace (length e + 1 + i + length (lt :: qO T))%nat
    with (length e + 1 + (i + length (lt :: qO T)))%nat by lia.
  rewrite skipn_peel.
  replace (length e + 1 + j - (length e + 1 + (i + length (lt :: qO T))))%nat
    with (j - (i + length (lt :: qO T)))%nat by lia.
  reflexivity.
Qed.

(** The slice from the end of the start tag that chunk [a] begins. *)
Lemma slice_open (e a Z : str) qo n :
  (length qo <= length a)%nat ->
  slice (e ++ lt :: a ++ Z) (length e + length (lt :: qo)) (length e + 1 + n)
  = firstn (n - length qo) (skipn (length qo) a ++ Z).
Proof.
  intros Hlen. unfold slice.
  replace (length e + length (lt :: qo))%nat
    with (length e + 1 + length qo)%nat by (cbn [length]; lia).
  rewrite skipn_peel.
  replace (length e + 1 + n - (length e + 1 + length qo))%nat
    with (n - length qo)%nat by lia.
  rewrite skipn_app.
  replace (length qo - length a)%nat with 0%nat by lia.
  reflexivity.
Qed.

Lemma tagValue_head e a Y T :
  noltb e = true -> noltb a = true -> tagName_ok T = true ->
  HasPrefix a (qO T) = true -> HasPrefix Y (qC T) = true ->
  tagValue (e ++ lt :: a ++ lt :: Y) T = Some (skipn (length (qO T)) a).
Proof.
  intros He Ha HT HO HC. unfold tagValue.
  destruct (tagName_ok_nolt T HT) as [NO NC].
  assert (HXO : HasPrefix (a ++ lt :: Y) (qO T) = true)
    by (rewrite HasPrefix_app_other; [exact HO|apply nolt_not_In; exact NO]).
  assert (HXC : HasPrefix (a ++ lt :: Y) (qC T) = false)
    by (apply (tagName_ok_open T _ HT HXO)).
  rewrite startTagOf_q, endTagOf_q.
  rewrite (Index_peel e (a ++ lt :: Y) (qO T) He), HXO.
  rewrite (Index_peel e (a ++ lt :: Y) (qC T) He), HXC.
  rewrite (Index_peel a Y (qC T) Ha), HC. cbn [option_map].
  pose proof (HasPrefix_length a (qO T) HO) as Hlen.
  replace (Nat.leb (length e + length (lt :: qO T)) (length e + 1 + length a))
    with true
    by (symmetry; apply Nat.leb_le; cbn [length]; lia).
  rewrite (slice_open e a (lt :: Y) (qO T) (length a) Hlen).
  rewrite firstn_app.
  rewrite length_skipn, Nat.sub_diag. cbn [firstn].
  rewrite app_nil_r. f_equal. apply firstn_all2. rewrite length_skipn. lia.
Qed.

Lemma noltb_firstn_lt (u Z : str) n :
  (length u < n)%nat -> noltb (firstn n (u ++ lt :: Z)) = false.
Proof.
  intros H. rewrite firstn_app, firstn_all2 by lia.
  destruct (n - length u)%nat as [|m] eqn:E; [lia|].
  cbn [firstn]. rewrite noltb_app. unfold noltb at 2. cbn [forallb].
  rewrite Ascii.eqb_refl. cbn. apply andb_false_r.
Qed.

(** A start tag whose end tag is not in the next chunk: the value between
    them holds a [<]. *)
Lemma tagValue_far e a Y T v :
  noltb e = true -> noltb a = true -> tagName_ok T = true ->
  HasPrefix a (qO T) = true -> HasPrefix Y (qC T) = false ->
  tagValue (e ++ lt :: a ++ lt :: Y) T = Some v -> noltb v = false.
Proof.
  intros He Ha HT HO HC. unfold tagValue.
  destruct (tagName_ok_nolt T HT) as [NO NC].
  assert (HXO : HasPrefix (a ++ lt :: Y) (qO T) = true)
    by (rewrite HasPrefix_app_other; [exact HO|apply nolt_not_In; exact NO]).
  assert (HXC : HasPrefix (a ++ lt :: Y) (qC T) = false)
    by (apply (tagName_ok_open T _ HT HXO)).
  rewrite startTagOf_q, endTagOf_q.
  rewrite (Index_peel e (a ++ lt :: Y) (qO T) He), HXO.
  rewrite (Index_peel e (a ++ lt :: Y) (qC T) He), HXC.
  rewrite (Index_peel a Y (qC T) Ha), HC.
  destruct (Index Y (lt :: qC T)) as [j|]; [|discriminate].
  cbn [option_map].
  destruct (Nat.leb _ _); [|discriminate].
  intros H. injection H as <-.
  pose proof (HasPrefix_length a (qO T) HO) as Hlen.
  change (S (length (qO T))) with (length (lt :: qO T)).
  rewrite (slice_open e a (lt :: Y) (qO T) (length a + 1 + j) Hlen).
  apply noltb_firstn_lt. rewrite length_skipn. lia.
Qed.

Lemma tagValue_lone e a T :
  noltb e = true -> noltb a = true -> tagName_ok T = true ->
  HasPrefix a (qO T) = true -> tagValue (e ++ lt :: a) T = None.
Proof.
  intros He Ha HT HO. unfold tagValue.
  rewrite startTagOf_q, endTagOf_q.
  rewrite (Index_peel e a (qO T) He), HO.
  rewrite (Index_peel e a (qC T) He), (tagName_ok_open T a HT HO).
  rewrite (Index_nolt a (qC T) Ha). reflexivity.
Qed.

Lemma tagValue_closed e X T :
  noltb e = true ->
  HasPrefix X (qO T) = false -> HasPrefix X (qC T) = true ->
  tagValue (e ++ lt :: X) T = None.
Proof.
  intros He HO HC. unfold tagValue.
  rewrite startTagOf_q, endTagOf_q.
  rewrite (Index_peel e X (qO T) He), HO, (Index_peel e X (qC T) He), HC.
  destruct (Index X (lt :: qO T)) as [i|]; [|reflexivity].
  cbn [option_map].
  replace (Nat.leb _ _) with false; [reflexivity|].
  symmetry. apply Nat.leb_gt. lia.
Qed.

(** *** Chunk lists *)

Definition hd_is (q : str) (r : list str) : bool :=
  match r with
  | b :: _ => HasPrefix b q
  | [] => false
  end.

(** The value of the element that the first chunk with a start or end tag
    opens, when the next chunk closes it. *)
Fixpoint valof (qo qc : str) (r : list str) : option str :=
  match r with
  | [] => None
  | a :: r' =>
      if HasPrefix a qo then
        if hd_is qc r' then Some (skipn (length qo) a) else None
      else if HasPrefix a qc then None
      else valof qo qc r'
  end.

Fixpoint cnt (q : str) (r : list str) : nat :=
  match r with
  | [] => O
  | c :: r' => ((if HasPrefix c q then 1 else 0) + cnt q r')%nat
  end.

Definition has_chunk (q : str) (r : list str) : bool :=
  existsb (fun c => HasPrefix c q) r.

Lemma glue_app (x e : str) r : glue (x ++ e) r = x ++ glue e r.
Proof. destruct r; cbn [glue]; [reflexivity|]. apply eq_sym, app_assoc. Qed.

Lemma glue_app_cons (x e : str) c r : glue (x ++ c :: e) r = x ++ c :: glue e r.
Proof.
  destruct r; cbn [glue]; [reflexivity|]. rewrite <- app_assoc. reflexivity.
Qed.

Lemma glue_cons e a r : glue e (a :: r) = e ++ lt :: glue a r.
Proof. reflexivity. Qed.

Lemma wf_cons a r :
  forallb noltb (a :: r) = true -> noltb a = true /\ forallb noltb r = true.
Proof. cbn [forallb]. intros H. apply andb_true_iff in H. exact H. Qed.

Lemma tagValue_valof T v : tagName_ok T = true -> noltb v = true ->
  forall r e, noltb e = true -> forallb noltb r = true ->
  tagValue (glue e r) T = Some v -> valof (qO T) (qC T) r = Some v.
Proof.
  intros HT Hv. destruct (tagName_ok_nolt T HT) as [NO NC].
  induction r as [|a r IH]; intros e He Hr H.
  - cbn [glue] in H. unfold tagValue in H.
    rewrite startTagOf_q, (Index_nolt e (qO T) He) in H. discriminate.
  - apply wf_cons in Hr as [Ha Hr]. rewrite glue_cons in H. cbn [valof].
    destruct (HasPrefix a (qO T)) eqn:HO.
    + destruct r as [|b r].
      * cbn [glue] in H. rewrite (tagValue_lone e a T He Ha HT HO) in H.
        discriminate.
      * rewrite glue_cons in H. cbn [hd_is].
        destruct (HasPrefix b (qC T)) eqn:HC.
        -- rewrite tagValue_head in H; try assumption.
           rewrite HasPrefix_glue by exact NC. exact HC.
        -- exfalso.
           assert (HY : HasPrefix (glue b r) (qC T) = false)
             by (rewrite HasPrefix_glue by exact NC; exact HC).
           pose proof (tagValue_far e a (glue b r) T v He Ha HT HO HY H).
           congruence.
    + assert (HXO : HasPrefix (glue a r) (qO T) = false)
        by (rewrite HasPrefix_glue by exact NO; exact HO).
      destruct (HasPrefix a (qC T)) eqn:HC.
      * assert (HXC : HasPrefix (glue a r) (qC T) = true)
          by (rewrite HasPrefix_glue by exact NC; exact HC).
        rewrite (tagValue_closed e _ T He HXO HXC) in H. discriminate.
      * assert (HXC : HasPrefix (glue a r) (qC T) = false)
          by (rewrite HasPrefix_glue by exact NC; exact HC).
        rewrite (tagValue_peel e _ T He HXO HXC) in H.
        apply (IH a Ha Hr H).
Qed.

Lemma valof_tagValue T v : tagName_ok T = true ->
  forall r e, noltb e = true -> forallb noltb r = true ->
  valof (qO T) (qC T) r = Some v -> tagValue (glue e r) T = Some v.
Proof.
  intros HT. destruct (tagName_ok_nolt T HT) as [NO NC].
  induction r as [|a r IH]; intros e He Hr H; [discriminate|].
  apply wf_cons in Hr as [Ha Hr]. rewrite glue_cons. cbn [valof] in H.
  destruct (HasPrefix a (qO T)) eqn:HO.
  - destruct r as [|b r]; [discriminate|]. cbn [hd_is] in H.
    destruct (HasPrefix b (qC T)) eqn:HC; [|discriminate].
    injection H as <-. rewrite glue_cons. apply tagValue_head; try assumption.
    rewrite HasPrefix_glue by exact NC. exact HC.
  - destruct (HasPrefix a (qC T)) eqn:HC; [discriminate|].
    rewrite tagValue_peel; [apply (IH a Ha Hr H)|exact He| |];
      rewrite HasPrefix_glue; assumption.
Qed.

Lemma Count_nolt_app e Y q :
  noltb e = true -> Count (e ++ Y) (lt :: q) = Count Y (lt :: q).
Proof.
  intros He. unfold Count. apply count_from_nolt; [exact He|lia].
Qed.

Lemma Count_nolt e q : noltb e = true -> Count e (lt :: q) = 0%nat.
Proof.
  intros He. rewrite <- (app_nil_r e). rewrite Count_nolt_app by exact He.
  reflexivity.
Qed.

Lemma Count_glue q : noltb q = true ->
  forall r e, noltb e = true -> forallb noltb r = true ->
  Count (glue e r) (lt :: q) = cnt q r.
Proof.
  intros Hq. induction r as [|a r IH]; intros e He Hr.
  - apply Count_nolt. exact He.
  - apply wf_cons in Hr as [Ha Hr]. rewrite glue_cons, Count_peel by assumption.
    rewrite HasPrefix_glue by exact Hq. cbn [cnt]. rewrite (IH a Ha Hr).
    reflexivity.
Qed.

(** A separator byte that is not in the pattern splits the count. *)
Lemma Count_sep q x : noltb q = true -> Ascii.eqb x lt = false -> ~ In x q ->
  forall A B, Count (A ++ x :: B) (lt :: q)
              = (Count A (lt :: q) + Count B (lt :: q))%nat.
Proof.
  intros Hq Hx Hn A B.
  rewrite <- (glue_chunk A). destruct (chunk_nolt A) as [He Hr].
  revert He Hr. generalize (fst (chunk A)) as e. generalize (snd (chunk A)) as r.
  induction r as [|a r IH]; intros e He Hr.
  - cbn [glue]. rewrite Count_nolt_app, (Count_nolt e q He) by exact He.
    change (x :: B) with ([x] ++ B). apply Count_nolt_app.
    unfold noltb. cbn [forallb]. rewrite Hx. reflexivity.
  - apply wf_cons in Hr as [Ha Hr]. rewrite glue_cons.
    rewrite <- app_assoc. cbn [app].
    rewrite !Count_peel by assumption.
    rewrite (IH a Ha Hr), HasPrefix_app_other by exact Hn. lia.
Qed.

(** *** The edits *)

(** [replaceXMLTag]: the first chunk with the start tag becomes [new]. *)
Fixpoint replace_c (qo new : str) (r : list str) : list str :=
  match r with
  | [] => []
  | a :: r' => if HasPrefix a qo then new :: r' else a :: replace_c qo new r'
  end.

(** [removeXMLTag]: the chunk with the start tag and the one with the end
    tag go; what follows the end tag joins the chunk before them. *)
Fixpoint remove_c (qo qc : str) (e : str) (r : list str) : str * list str :=
  match r with
  | [] => (e, [])
  | a :: r' =>
      if HasPrefix a qo then
        match r' with
        | b :: r'' =>
            if HasPrefix b qc then
              (TrimRightFunc e isCut ++ nl
                 :: TrimLeftFunc (skipn (length qc) b) isCut, r'')
            else (e, r)
        | [] => (e, r)
        end
      else (e, fst (remove_c qo qc a r') :: snd (remove_c qo qc a r'))
  end.

(** [addXMLTag]: the chunks [n1] and [n2] come before the last chunk that
    starts with [/Job>], after two blanks. *)
Fixpoint add_c (n1 n2 : str) (e : str) (r : list str) : str * list str :=
  match r with
  | [] => (e, [])
  | a :: r' =>
      if has_chunk qJ r'
      then (e, fst (add_c n1 n2 a r') :: snd (add_c n1 n2 a r'))
      else if HasPrefix a qJ then (e ++ L "  ", n1 :: n2 :: a :: r')
      else (e, r)
  end.

Lemma replace_glue T v old : tagName_ok T = true ->
  forall r e, noltb e = true -> forallb noltb r = true ->
  valof (qO T) (qC T) r = Some old ->
  replaceXMLTag (glue e r) T v = glue e (replace_c (qO T) (qO T ++ v) r).
Proof.
  intros HT. destruct (tagName_ok_nolt T HT) as [NO NC].
  induction r as [|a r IH]; intros e He Hr H; [discriminate|].
  apply wf_cons in Hr as [Ha Hr]. rewrite glue_cons. cbn [valof replace_c] in *.
  destruct (HasPrefix a (qO T)) eqn:HO.
  - destruct r as [|b r]; [discriminate|]. cbn [hd_is] in H.
    destruct (HasPrefix b (qC T)) eqn:HC; [|discriminate].
    rewrite !glue_cons. apply replace_head; try assumption.
    rewrite HasPrefix_glue by exact NC. exact HC.
  - destruct (HasPrefix a (qC T)) eqn:HC; [discriminate|].
    rewrite replace_peel; [|exact He| |]; try (rewrite HasPrefix_glue; assumption).
    rewrite (IH a Ha Hr H). reflexivity.
Qed.

Lemma skipn_glue n b r :
  (n <= length b)%nat -> skipn n (glue b r) = glue (skipn n b) r.
Proof.
  intros H. destruct r as [|c r]; [reflexivity|]. cbn [glue].
  rewrite skipn_app. replace (n - length b)%nat with 0%nat by lia. reflexivity.
Qed.

Lemma TrimLeftFunc_glue b r :
  TrimLeftFunc (glue b r) isCut = glue (TrimLeftFunc b isCut) r.
Proof.
  destruct r as [|c r]; [reflexivity|]. cbn [glue].
  apply TrimLeftFunc_stop. apply isCut_lt.
Qed.

Lemma remove_glue T v : tagName_ok T = true ->
  forall r e, noltb e = true -> forallb noltb r = true ->
  valof (qO T) (qC T) r = Some v ->
  removeXMLTag (glue e r) T
  = glue (fst (remove_c (qO T) (qC T) e r)) (snd (remove_c (qO T) (qC T) e r)).
Proof.
  intros HT. destruct (tagName_ok_nolt T HT) as [NO NC].
  induction r as [|a r IH]; intros e He Hr H; [discriminate|].
  apply wf_cons in Hr as [Ha Hr]. rewrite glue_cons. cbn [valof remove_c] in *.
  destruct (HasPrefix a (qO T)) eqn:HO.
  - destruct r as [|b r]; [discriminate|]. cbn [hd_is] in H.
    destruct (HasPrefix b (qC T)) eqn:HC; [|discriminate].
    cbn [fst snd]. rewrite glue_cons, remove_head; try assumption.
    + rewrite skipn_glue by (apply HasPrefix_length; exact HC).
      rewrite TrimLeftFunc_glue.
      rewrite glue_app_cons. reflexivity.
    + rewrite HasPrefix_glue by exact NC. exact HC.
  - destruct (HasPrefix a (qC T)) eqn:HC; [discriminate|].
    rewrite remove_peel; [|exact He| |]; try (rewrite HasPrefix_glue; assumption).
    rewrite (IH a Ha Hr H). reflexivity.
Qed.

Lemma LastIndex_glue q : noltb q = true ->
  forall r a, noltb a = true -> forallb noltb r = true ->
  match LastIndex (glue a r) (lt :: q) with Some _ => true | None => false end
  = has_chunk q r.
Proof.
  intros Hq. induction r as [|b r IH]; intros a Ha Hr.
  - cbn [glue]. rewrite LastIndex_nolt by exact Ha. reflexivity.
  - apply wf_cons in Hr as [Hb Hr]. rewrite glue_cons, LastIndex_peel by exact Ha.
    specialize (IH b Hb Hr). unfold has_chunk in *. cbn [existsb].
    rewrite HasPrefix_glue by exact Hq.
    destruct (LastIndex (glue b r) (lt :: q)).
    + rewrite <- IH. rewrite orb_true_r. reflexivity.
    + rewrite <- IH, orb_false_r. destruct (HasPrefix b q); reflexivity.
Qed.

Lemma add_glue tag v :
  forall r e, noltb e = true -> forallb noltb r = true ->
  addXMLTag (glue e r) tag v
  = glue (fst (add_c (qO tag ++ v) (qC tag ++ [nl]) e r))
         (snd (add_c (qO tag ++ v) (qC tag ++ [nl]) e r)).
Proof.
  assert (HJ : noltb qJ = true) by reflexivity.
  induction r as [|a r IH]; intros e He Hr.
  - cbn [glue add_c fst snd]. unfold addXMLTag.
    change (L "</Job>") with (lt :: qJ).
    rewrite LastIndex_nolt by exact He. reflexivity.
  - apply wf_cons in Hr as [Ha Hr]. rewrite glue_cons. cbn [add_c].
    pose proof (LastIndex_glue qJ HJ r a Ha Hr) as HL.
    destruct (has_chunk qJ r) eqn:E.
    + destruct (LastIndex (glue a r) (lt :: qJ)) as [i|] eqn:EL; [|discriminate].
      rewrite (add_peel e _ tag v i He EL), (IH a Ha Hr). reflexivity.
    + destruct (LastIndex (glue a r) (lt :: qJ)) as [i|] eqn:EL; [discriminate|].
      destruct (HasPrefix a qJ) eqn:EJ.
      * rewrite add_here; [reflexivity|exact He|exact EL|].
        rewrite HasPrefix_glue by exact HJ. exact EJ.
      * rewrite add_none; [reflexivity|exact He|exact EL|].
        rewrite HasPrefix_glue by exact HJ. exact EJ.
Qed.

(** *** What an edit leaves alone *)

(** A pattern with no blank and no [<]. *)
Definition quiet (q : str) : bool :=
  forallb (fun c => negb (isCut c) && negb (Ascii.eqb c lt)) q.

(** Two patterns of which neither is a prefix of the other: no chunk starts
    with both. *)
Definition apart (p q : str) : bool :=
  negb (HasPrefix p q) && negb (HasPrefix q p).

Lemma quiet_nolt q : quiet q = true -> noltb q = true.
Proof.
  unfold quiet, noltb. rewrite !forallb_forall. intros H x Hx.
  specialize (H x Hx). apply andb_true_iff in H as [_ H]. exact H.
Qed.

Lemma quiet_cut q : quiet q = true -> forall y, In y q -> isCut y = false.
Proof.
  unfold quiet. rewrite forallb_forall. intros H x Hx.
  specialize (H x Hx). apply andb_true_iff in H as [H _].
  apply negb_true_iff in H. exact H.
Qed.

Lemma quiet_not_In q x : quiet q = true -> isCut x = true -> ~ In x q.
Proof.
  intros H Hx Hin. rewrite (quiet_cut q H x Hin) in Hx. discriminate.
Qed.

Lemma apart_sym p q : apart p q = apart q p.
Proof. unfold apart. apply andb_comm. Qed.

Lemma apart_other p q c :
  apart p q = true -> HasPrefix c p = true -> HasPrefix c q = false.
Proof.
  unfold apart. intros H. apply andb_true_iff in H as [H1 H2].
  apply negb_true_iff in H1, H2. apply HasPrefix_other; assumption.
Qed.

Lemma apart_app p q w : apart p q = true -> HasPrefix (p ++ w) q = false.
Proof. intros H. apply (apart_other p q _ H). apply HasPrefix_app. Qed.

Lemma HasPrefix_blanks e q :
  quiet q = true -> HasPrefix (e ++ L "  ") q = HasPrefix e q.
Proof.
  intros H. change (L "  ") with (" "%char :: [" "%char]).
  apply HasPrefix_app_other. apply quiet_not_In; [exact H|reflexivity].
Qed.

Lemma HasPrefix_merged e w q :
  quiet q = true -> HasPrefix (TrimRightFunc e isCut ++ nl :: w) q = HasPrefix e q.
Proof.
  intros H. apply HasPrefix_trim_app.
  - apply quiet_cut. exact H.
  - apply quiet_not_In; [exact H|reflexivity].
Qed.

Lemma remove_fst qo qc q e r :
  quiet q = true -> HasPrefix (fst (remove_c qo qc e r)) q = HasPrefix e q.
Proof.
  intros Hq. destruct r as [|a r]; [reflexivity|]. cbn [remove_c].
  destruct (HasPrefix a qo); [|reflexivity].
  destruct r as [|b r]; [reflexivity|].
  destruct (HasPrefix b qc); [|reflexivity].
  cbn [fst]. apply HasPrefix_merged. exact Hq.
Qed.

Lemma add_fst n1 n2 q e r :
  quiet q = true -> HasPrefix (fst (add_c n1 n2 e r)) q = HasPrefix e q.
Proof.
  intros Hq. destruct r as [|a r]; [reflexivity|]. cbn [add_c].
  destruct (has_chunk qJ r); [reflexivity|].
  destruct (HasPrefix a qJ); [|reflexivity].
  cbn [fst]. apply HasPrefix_blanks. exact Hq.
Qed.

(** Well-formed chunk lists stay well formed. *)
Lemma replace_wf qo new r :
  noltb new = true -> forallb noltb r = true ->
  forallb noltb (replace_c qo new r) = true.
Proof.
  intros Hn. induction r as [|a r IH]; intros Hr; [reflexivity|].
  apply wf_cons in Hr as [Ha Hr]. cbn [replace_c].
  destruct (HasPrefix a qo); cbn [forallb].
  - rewrite Hn, Hr. reflexivity.
  - rewrite Ha, (IH Hr). reflexivity.
Qed.

Lemma remove_wf qo qc r : forall e,
  noltb e = true -> forallb noltb r = true ->
  noltb (fst (remove_c qo qc e r)) = true
  /\ forallb noltb (snd (remove_c qo qc e r)) = true.
Proof.
  induction r as [|a r IH]; intros e He Hr; [split; assumption|].
  pose proof Hr as Hr0. apply wf_cons in Hr as [Ha Hr]. cbn [remove_c].
  destruct (HasPrefix a qo).
  - destruct r as [|b r]; [split; assumption|].
    destruct (HasPrefix b qc); [|split; assumption].
    apply wf_cons in Hr as [Hb Hr]. cbn [fst snd]. split; [|exact Hr].
    change (nl :: TrimLeftFunc (skipn (length qc) b) isCut)
      with ([nl] ++ TrimLeftFunc (skipn (length qc) b) isCut).
    rewrite !noltb_app, noltb_TrimRightFunc, noltb_TrimLeftFunc;
      [reflexivity| |exact He].
    apply noltb_skipn. exact Hb.
  - destruct (IH a Ha Hr) as [H1 H2]. cbn [fst snd forallb].
    rewrite H1, H2. split; [exact He|reflexivity].
Qed.

Lemma add_wf n1 n2 r : noltb n1 = true -> noltb n2 = true -> forall e,
  noltb e = true -> forallb noltb r = true ->
  noltb (fst (add_c n1 n2 e r)) = true
  /\ forallb noltb (snd (add_c n1 n2 e r)) = true.
Proof.
  intros H1 H2. induction r as [|a r IH]; intros e He Hr; [split; assumption|].
  pose proof Hr as Hr0. apply wf_cons in Hr as [Ha Hr]. cbn [add_c].
  destruct (has_chunk qJ r).
  - destruct (IH a Ha Hr) as [G1 G2]. cbn [fst snd forallb].
    rewrite G1, G2. split; [exact He|reflexivity].
  - destruct (HasPrefix a qJ); [|split; assumption].
    cbn [fst snd forallb]. rewrite noltb_app, He, H1, H2, Ha, Hr.
    split; reflexivity.
Qed.

(** Counts of a pattern that the edited tag is apart from. *)
Lemma replace_cnt qo new q r :
  apart qo q = true -> HasPrefix new q = false ->
  cnt q (replace_c qo new r) = cnt q r.
Proof.
  intros Ha Hn. induction r as [|a r IH]; [reflexivity|]. cbn [replace_c].
  destruct (HasPrefix a qo) eqn:E; cbn [cnt].
  - rewrite Hn, (apart_other qo q a Ha E). reflexivity.
  - rewrite IH. reflexivity.
Qed.

Lemma remove_cnt qo qc q r :
  quiet q = true -> apart qo q = true -> apart qc q = true ->
  forall e, cnt q (snd (remove_c qo qc e r)) = cnt q r.
Proof.
  intros Hq Ho Hc. induction r as [|a r IH]; intros e; [reflexivity|].
  cbn [remove_c]. destruct (HasPrefix a qo) eqn:E.
  - destruct r as [|b r]; [reflexivity|].
    destruct (HasPrefix b qc) eqn:F; [|reflexivity].
    cbn [snd cnt].
    rewrite (apart_other qo q a Ho E), (apart_other qc q b Hc F). reflexivity.
  - cbn [snd cnt]. rewrite remove_fst by exact Hq. rewrite IH. reflexivity.
Qed.

Lemma remove_cnt_same qo qc v r :
  quiet qo = true -> apart qc qo = true ->
  forall e, valof qo qc r = Some v ->
  S (cnt qo (snd (remove_c qo qc e r))) = cnt qo r.
Proof.
  intros Hq Hc. induction r as [|a r IH]; intros e H; [discriminate|].
  cbn [remove_c valof] in *. destruct (HasPrefix a qo) eqn:E.
  - destruct r as [|b r]; [discriminate|]. cbn [hd_is] in H.
    destruct (HasPrefix b qc) eqn:F; [|discriminate].
    cbn [snd cnt]. rewrite E, (apart_other qc qo b Hc F). reflexivity.
  - destruct (HasPrefix a qc); [discriminate|].
    cbn [snd cnt]. rewrite remove_fst by exact Hq. rewrite E.
    cbn [Nat.add]. apply (IH a H).
Qed.

Lemma add_cnt n1 n2 q r :
  quiet q = true -> apart qJ q = true ->
  HasPrefix n1 q = false -> HasPrefix n2 q = false ->
  forall e, cnt q (snd (add_c n1 n2 e r)) = cnt q r.
Proof.
  intros Hq HJ H1 H2. induction r as [|a r IH]; intros e; [reflexivity|].
  cbn [add_c]. destruct (has_chunk qJ r).
  - cbn [snd cnt]. rewrite add_fst by exact Hq. rewrite IH. reflexivity.
  - destruct (HasPrefix a qJ); [|reflexivity].
    cbn [snd cnt]. rewrite H1, H2. reflexivity.
Qed.

(** Values of an element that the edited tag is apart from. *)
Lemma replace_hd qo new q r :
  apart qo q = true -> HasPrefix new q = false ->
  hd_is q (replace_c qo new r) = hd_is q r.
Proof.
  intros Ha Hn. destruct r as [|b r]; [reflexivity|]. cbn [replace_c].
  destruct (HasPrefix b qo) eqn:E; [|reflexivity].
  cbn [hd_is]. rewrite Hn, (apart_other qo q b Ha E). reflexivity.
Qed.

Lemma replace_valof qo' new qo qc r :
  apart qo' qo = true -> apart qo' qc = true ->
  HasPrefix new qo = false -> HasPrefix new qc = false ->
  valof qo qc (replace_c qo' new r) = valof qo qc r.
Proof.
  intros Ao Ac No Nc. induction r as [|a r IH]; [reflexivity|].
  cbn [replace_c]. destruct (HasPrefix a qo') eqn:E.
  - cbn [valof]. rewrite No, Nc.
    rewrite (apart_other qo' qo a Ao E), (apart_other qo' qc a Ac E).
    reflexivity.
  - cbn [valof]. rewrite IH, replace_hd by assumption. reflexivity.
Qed.

Lemma replace_valof_same qo qc v old r :
  valof qo qc r = Some old ->
  valof qo qc (replace_c qo (qo ++ v) r) = Some v.
Proof.
  induction r as [|a r IH]; intros H; [discriminate|].
  cbn [replace_c valof] in *. destruct (HasPrefix a qo) eqn:E.
  - destruct (hd_is qc r) eqn:F; [|discriminate].
    cbn [valof]. rewrite HasPrefix_app, F, skipn_head. reflexivity.
  - destruct (HasPrefix a qc) eqn:F; [discriminate|].
    cbn [valof]. rewrite E, F. apply IH. exact H.
Qed.

Lemma remove_valof qo' qc' qo qc v r :
  quiet qo = true -> quiet qc = true ->
  apart qo' qo = true -> apart qo' qc = true ->
  apart qc' qo = true -> apart qc' qc = true ->
  forall e, valof qo qc r = Some v ->
  valof qo qc (snd (remove_c qo' qc' e r)) = Some v.
Proof.
  intros Qo Qc Aoo Aoc Aco Acc.
  induction r as [|a r IH]; intros e H; [discriminate|].
  cbn [valof] in H. cbn [remove_c].
  destruct (HasPrefix a qo') eqn:E.
  - rewrite (apart_other qo' qo a Aoo E), (apart_other qo' qc a Aoc E) in H.
    destruct r as [|b r]; [discriminate|].
    destruct (HasPrefix b qc') eqn:F.
    + cbn [snd]. cbn [valof] in H.
      rewrite (apart_other qc' qo b Aco F), (apart_other qc' qc b Acc F) in H.
      exact H.
    + cbn [snd valof].
      rewrite (apart_other qo' qo a Aoo E), (apart_other qo' qc a Aoc E).
      exact H.
  - cbn [snd valof]. rewrite !remove_fst by assumption.
    destruct (HasPrefix a qo) eqn:G.
    + destruct r as [|b r]; [discriminate|]. cbn [hd_is] in H.
      destruct (HasPrefix b qc) eqn:F; [|discriminate].
      cbn [remove_c].
      destruct (HasPrefix b qo') eqn:F'.
      { rewrite (apart_other qo' qc b Aoc F') in F. discriminate. }
      cbn [snd hd_is]. rewrite remove_fst by exact Qc. rewrite F. exact H.
    + destruct (HasPrefix a qc); [discriminate|]. apply (IH a H).
Qed.

Lemma has_chunk_cons q b r :
  has_chunk q (b :: r) = HasPrefix b q || has_chunk q r.
Proof. reflexivity. Qed.

Lemma add_valof n1 n2 qo qc v r :
  quiet qo = true -> quiet qc = true ->
  apart qJ qo = true -> apart qJ qc = true ->
  HasPrefix n1 qo = false -> HasPrefix n1 qc = false ->
  HasPrefix n2 qo = false -> HasPrefix n2 qc = false ->
  forall e, valof qo qc r = Some v ->
  valof qo qc (snd (add_c n1 n2 e r)) = Some v.
Proof.
  intros Qo Qc Jo Jc N1o N1c N2o N2c.
  induction r as [|a r IH]; intros e H; [discriminate|].
  cbn [add_c]. destruct (has_chunk qJ r) eqn:E.
  - cbn [snd valof]. cbn [valof] in H. rewrite !add_fst by assumption.
    destruct (HasPrefix a qo) eqn:G.
    + destruct r as [|b r]; [discriminate|]. cbn [hd_is] in H.
      destruct (HasPrefix b qc) eqn:F; [|discriminate].
      rewrite has_chunk_cons in E. cbn [add_c].
      destruct (HasPrefix b qJ) eqn:F'.
      { rewrite (apart_other qJ qc b Jc F') in F. discriminate. }
      cbn [orb] in E. rewrite E. cbn [snd hd_is].
      rewrite add_fst by exact Qc. rewrite F. exact H.
    + destruct (HasPrefix a qc); [discriminate|]. apply (IH a H).
  - destruct (HasPrefix a qJ) eqn:F; [|exact H].
    cbn [snd valof]. rewrite N1o, N1c, N2o, N2c. exact H.
Qed.

(** *** Texts with known elements and counts *)

(** [inv vals pats s]: in the text [s] every tag of [vals] is an element
    with the given value, and every pattern [<q] of [pats] occurs the given
    number of times. *)
Definition inv (vals : list (str * str)) (pats : list (str * nat)) (s : str)
  : Prop :=
  exists e r, glue e r = s /\ noltb e = true /\ forallb noltb r = true
    /\ Forall (fun tv => valof (qO (fst tv)) (qC (fst tv)) r = Some (snd tv)) vals
    /\ Forall (fun qn => cnt (fst qn) r = snd qn) pats.

(** An edit whose chunks start with one of [ps] leaves the pattern [q], or
    the element [T], alone. *)
Definition clear_of (ps : list str) (q : str) : bool :=
  quiet q && forallb (fun p => apart p q) ps.

Definition clear_tag (ps : list str) (T : str) : bool :=
  tagName_ok T && clear_of ps (qO T) && clear_of ps (qC T).

Definition add_ok (tag : str) (vals : list (str * str))
    (pats : list (str * nat)) : bool :=
  let ps := [qO tag; qC tag; qJ] in
  noltb tag
  && forallb (fun tv => clear_tag ps (fst tv)) vals
  && forallb (fun qn => clear_of ps (fst qn)) pats.

Definition replace_ok (T : str) (vals : list (str * str))
    (pats : list (str * nat)) : bool :=
  tagName_ok T
  && existsb (fun tv => eqb_str (fst tv) T) vals
  && forallb (fun tv => eqb_str (fst tv) T || clear_tag [qO T] (fst tv)) vals
  && forallb (fun qn => clear_of [qO T] (fst qn)) pats.

Definition remove_ok (T : str) (vals : list (str * str))
    (pats : list (str * nat)) : bool :=
  tagName_ok T && quiet (qO T)
  && existsb (fun tv => eqb_str (fst tv) T) vals
  && forallb (fun tv => eqb_str (fst tv) T || clear_tag [qO T; qC T] (fst tv))
       vals
  && forallb (fun qn => eqb_str (fst qn) (qO T)
                        || clear_of [qO T; qC T] (fst qn)) pats.

Definition upd (T v : str) (vals : list (str * str)) : list (str * str) :=
  map (fun tv => if eqb_str (fst tv) T then (fst tv, v) else tv) vals.

Definition drop (T : str) (vals : list (str * str)) : list (str * str) :=
  filter (fun tv => negb (eqb_str (fst tv) T)) vals.

Definition dec (q : str) (pats : list (str * nat)) : list (str * nat) :=
  map (fun qn => if eqb_str (fst qn) q then (fst qn, pred (snd qn)) else qn)
    pats.

Lemma clear_of_quiet ps q : clear_of ps q = true -> quiet q = true.
Proof. unfold clear_of. intros H. apply andb_true_iff in H as [H _]. exact H. Qed.

Lemma clear_of_apart ps q p :
  clear_of ps q = true -> In p ps -> apart p q = true.
Proof.
  unfold clear_of. intros H Hp. apply andb_true_iff in H as [_ H].
  rewrite forallb_forall in H. apply H. exact Hp.
Qed.

Lemma clear_tag_inv ps T :
  clear_tag ps T = true ->
  tagName_ok T = true /\ clear_of ps (qO T) = true /\ clear_of ps (qC T) = true.
Proof.
  unfold clear_tag. intros H. apply andb_true_iff in H as [H H3].
  apply andb_true_iff in H as [H1 H2]. repeat split; assumption.
Qed.

Lemma tagName_ok_apart T : tagName_ok T = true -> apart (qC T) (qO T) = true.
Proof.
  unfold tagName_ok, apart. intros H. apply andb_true_iff in H as [H H2].
  apply andb_true_iff in H as [_ H1]. rewrite H1, H2. reflexivity.
Qed.

Lemma noltb_open tag v :
  noltb tag = true -> noltb v = true -> noltb (qO tag ++ v) = true.
Proof.
  intros H1 H2. unfold qO. rewrite !noltb_app, H1, H2. reflexivity.
Qed.

Lemma noltb_close tag : noltb tag = true -> noltb (qC tag ++ [nl]) = true.
Proof.
  intros H1. unfold qC. change ("/"%char :: tag ++ L ">")
    with (L "/" ++ tag ++ L ">").
  rewrite !noltb_app, H1. reflexivity.
Qed.

Lemma tagName_ok_noltb T : tagName_ok T = true -> noltb T = true.
Proof.
  unfold tagName_ok. intros H. apply andb_true_iff in H as [H _].
  apply andb_true_iff in H as [H _]. exact H.
Qed.

Lemma add_inv vals pats s tag v :
  inv vals pats s -> add_ok tag vals pats = true -> noltb v = true ->
  inv vals pats (addXMLTag s tag v).
Proof.
  intros (e & r & <- & He & Hr & Hv & Hp) Hok Hn.
  unfold add_ok in Hok. apply andb_true_iff in Hok as [Hok Hok3].
  apply andb_true_iff in Hok as [Ht Hok2].
  rewrite forallb_forall in Hok2, Hok3.
  rewrite add_glue by assumption.
  destruct (add_wf (qO tag ++ v) (qC tag ++ [nl]) r
              (noltb_open tag v Ht Hn) (noltb_close tag Ht) e He Hr) as [W1 W2].
  eexists _, _. split; [reflexivity|]. split; [exact W1|]. split; [exact W2|].
  split.
  - rewrite Forall_forall in *. intros tv Htv.
    destruct (clear_tag_inv _ _ (Hok2 tv Htv)) as (_ & Co & Cc).
    apply add_valof.
    + apply (clear_of_quiet _ _ Co).
    + apply (clear_of_quiet _ _ Cc).
    + apply (clear_of_apart _ _ qJ Co). cbn [In]. tauto.
    + apply (clear_of_apart _ _ qJ Cc). cbn [In]. tauto.
    + apply apart_app. apply (clear_of_apart _ _ _ Co). cbn [In]. tauto.
    + apply apart_app. apply (clear_of_apart _ _ _ Cc). cbn [In]. tauto.
    + apply apart_app. apply (clear_of_apart _ _ _ Co). cbn [In]. tauto.
    + apply apart_app. apply (clear_of_apart _ _ _ Cc). cbn [In]. tauto.
    + apply Hv. exact Htv.
  - rewrite Forall_forall in *. intros qn Hqn.
    pose proof (Hok3 qn Hqn) as C.
    rewrite add_cnt; [apply Hp; exact Hqn| | | |].
    + apply (clear_of_quiet _ _ C).
    + apply (clear_of_apart _ _ qJ C). cbn [In]. tauto.
    + apply apart_app. apply (clear_of_apart _ _ _ C). cbn [In]. tauto.
    + apply apart_app. apply (clear_of_apart _ _ _ C). cbn [In]. tauto.
Qed.

Lemma known_tag T vals r :
  existsb (fun tv : str * str => eqb_str (fst tv) T) vals = true ->
  Forall (fun tv => valof (qO (fst tv)) (qC (fst tv)) r = Some (snd tv)) vals ->
  exists old, valof (qO T) (qC T) r = Some old.
Proof.
  intros Hex Hv. apply existsb_exists in Hex as (tv & Hin & Heq).
  apply eqb_str_eq in Heq. subst T. rewrite Forall_forall in Hv.
  exists (snd tv). apply Hv. exact Hin.
Qed.

Lemma replace_inv vals pats s T v :
  inv vals pats s -> replace_ok T vals pats = true -> noltb v = true ->
  inv (upd T v vals) pats (replaceXMLTag s T v).
Proof.
  intros (e & r & <- & He & Hr & Hv & Hp) Hok Hn.
  unfold replace_ok in Hok. apply andb_true_iff in Hok as [Hok Hok4].
  apply andb_true_iff in Hok as [Hok Hok3].
  apply andb_true_iff in Hok as [HT Hex].
  rewrite forallb_forall in Hok3, Hok4.
  destruct (known_tag T vals r Hex Hv) as [old Hold].
  rewrite (replace_glue T v old HT r e He Hr Hold).
  eexists _, _. split; [reflexivity|]. split; [exact He|]. split.
  { apply replace_wf; [|exact Hr].
    apply noltb_open; [apply tagName_ok_noltb; exact HT|exact Hn]. }
  split.
  - rewrite Forall_forall in *. intros tv' Htv'. unfold upd in Htv'.
    apply in_map_iff in Htv' as (tv & <- & Htv).
    destruct (eqb_str (fst tv) T) eqn:E.
    + apply eqb_str_eq in E. cbn [fst snd]. rewrite E.
      apply (replace_valof_same _ _ v old). exact Hold.
    + pose proof (Hok3 tv Htv) as C. rewrite E in C. cbn [orb] in C.
      destruct (clear_tag_inv _ _ C) as (_ & Co & Cc).
      rewrite replace_valof; [apply Hv; exact Htv| | | |].
      * apply (clear_of_apart _ _ _ Co). cbn [In]. tauto.
      * apply (clear_of_apart _ _ _ Cc). cbn [In]. tauto.
      * apply apart_app. apply (clear_of_apart _ _ _ Co). cbn [In]. tauto.
      * apply apart_app. apply (clear_of_apart _ _ _ Cc). cbn [In]. tauto.
  - rewrite Forall_forall in *. intros qn Hqn.
    pose proof (Hok4 qn Hqn) as C.
    rewrite replace_cnt; [apply Hp; exact Hqn| |].
    + apply (clear_of_apart _ _ _ C). cbn [In]. tauto.
    + apply apart_app. apply (clear_of_apart _ _ _ C). cbn [In]. tauto.
Qed.

Lemma remove_inv vals pats s T :
  inv vals pats s -> remove_ok T vals pats = true ->
  inv (drop T vals) (dec (qO T) pats) (removeXMLTag s T).
Proof.
  intros (e & r & <- & He & Hr & Hv & Hp) Hok.
  unfold remove_ok in Hok. apply andb_true_iff in Hok as [Hok Hok4].
  apply andb_true_iff in Hok as [Hok Hok3].
  apply andb_true_iff in Hok as [Hok Hex].
  apply andb_true_iff in Hok as [HT HQ].
  rewrite forallb_forall in Hok3, Hok4.
  destruct (known_tag T vals r Hex Hv) as [old Hold].
  rewrite (remove_glue T old HT r e He Hr Hold).
  destruct (remove_wf (qO T) (qC T) r e He Hr) as [W1 W2].
  eexists _, _. split; [reflexivity|]. split; [exact W1|]. split; [exact W2|].
  split.
  - rewrite Forall_forall in *. intros tv Htv. unfold drop in Htv.
    apply filter_In in Htv as [Htv E]. apply negb_true_iff in E.
    pose proof (Hok3 tv Htv) as C. rewrite E in C. cbn [orb] in C.
    destruct (clear_tag_inv _ _ C) as (_ & Co & Cc).
    apply remove_valof.
    + apply (clear_of_quiet _ _ Co).
    + apply (clear_of_quiet _ _ Cc).
    + apply (clear_of_apart _ _ _ Co). cbn [In]. tauto.
    + apply (clear_of_apart _ _ _ Cc). cbn [In]. tauto.
    + apply (clear_of_apart _ _ _ Co). cbn [In]. tauto.
    + apply (clear_of_apart _ _ _ Cc). cbn [In]. tauto.
    + apply Hv. exact Htv.
  - rewrite Forall_forall in *. intros qn' Hqn'. unfold dec in Hqn'.
    apply in_map_iff in Hqn' as (qn & <- & Hqn).
    destruct (eqb_str (fst qn) (qO T)) eqn:E.
    + apply eqb_str_eq in E. cbn [fst snd]. rewrite E.
      rewrite <- (Hp qn Hqn), E.
      rewrite <- (remove_cnt_same (qO T) (qC T) old r HQ
                    (tagName_ok_apart T HT) e Hold).
      reflexivity.
    + pose proof (Hok4 qn Hqn) as C. rewrite E in C. cbn [orb] in C.
      rewrite remove_cnt; [apply Hp; exact Hqn| | |].
      * apply (clear_of_quiet _ _ C).
      * apply (clear_of_apart _ _ _ C). cbn [In]. tauto.
      * apply (clear_of_apart _ _ _ C). cbn [In]. tauto.
Qed.

(** From a text to its chunks, and back. *)
Lemma inv_intro vals pats s :
  Forall (fun tv => tagName_ok (fst tv) = true /\ noltb (snd tv) = true
                    /\ tagValue s (fst tv) = Some (snd tv)) vals ->
  Forall (fun qn => noltb (fst qn) = true
                    /\ Count s (lt :: fst qn) = snd qn) pats ->
  inv vals pats s.
Proof.
  intros Hv Hp. destruct (chunk_nolt s) as [He Hr].
  exists (fst (chunk s)), (snd (chunk s)).
  split; [apply glue_chunk|]. split; [exact He|]. split; [exact Hr|].
  split.
  - rewrite Forall_forall in *.
    intros tv Htv. destruct (Hv tv Htv) as (H1 & H2 & H3).
    apply (tagValue_valof _ _ H1 H2 _ _ He Hr).
    rewrite glue_chunk. exact H3.
  - rewrite Forall_forall in *.
    intros qn Hqn. destruct (Hp qn Hqn) as (H1 & H2).
    rewrite <- (Count_glue _ H1 _ _ He Hr), glue_chunk. exact H2.
Qed.

Lemma inv_Count vals pats s q n :
  inv vals pats s -> In (q, n) pats -> noltb q = true ->
  Count s (lt :: q) = n.
Proof.
  intros (e & r & <- & He & Hr & Hv & Hp) Hin Hq.
  rewrite Forall_forall in Hp. rewrite (Count_glue q Hq r e He Hr).
  apply (Hp (q, n) Hin).
Qed.

Lemma inv_tagValue vals pats s T v :
  inv vals pats s -> In (T, v) vals -> tagName_ok T = true ->
  tagValue s T = Some v.
Proof.
  intros (e & r & <- & He & Hr & Hv & Hp) Hin HT.
  rewrite Forall_forall in Hv.
  apply (valof_tagValue T v HT r e He Hr). apply (Hv (T, v) Hin).
Qed.

Lemma HasPrefix_app_app p s q : HasPrefix (p ++ s) (p ++ q) = HasPrefix s q.
Proof.
  induction p as [|c p IH]; [reflexivity|]. cbn [app HasPrefix].
  rewrite Ascii.eqb_refl. exact IH.
Qed.

Lemma valof_Contains qo qc v : noltb qc = true ->
  forall r e, noltb e = true -> forallb noltb r = true ->
  valof qo qc r = Some v ->
  Contains (glue e r) (lt :: qo ++ v ++ lt :: qc) = true.
Proof.
  intros NC. unfold Contains.
  induction r as [|a r IH]; intros e He Hr H; [discriminate|].
  apply wf_cons in Hr as [Ha Hr]. rewrite glue_cons, Index_peel by exact He.
  destruct (HasPrefix (glue a r) (qo ++ v ++ lt :: qc)) eqn:E; [reflexivity|].
  cbn [valof] in H. destruct (HasPrefix a qo) eqn:HO.
  - exfalso. destruct r as [|b r]; [discriminate|]. cbn [hd_is] in H.
    destruct (HasPrefix b qc) eqn:HC; [|discriminate].
    injection H as <-. rewrite glue_cons in E.
    rewrite (HasPrefix_split a qo HO) in E at 1.
    rewrite <- !app_assoc, HasPrefix_app_app, HasPrefix_app_app in E.
    cbn [HasPrefix] in E. rewrite Ascii.eqb_refl in E. cbn [andb] in E.
    rewrite HasPrefix_glue in E by exact NC. congruence.
  - destruct (HasPrefix a qc); [discriminate|].
    specialize (IH a Ha Hr H).
    destruct (Index (glue a r) (lt :: qo ++ v ++ lt :: qc)); [reflexivity|].
    discriminate.
Qed.

Lemma inv_Contains vals pats s T v :
  inv vals pats s -> In (T, v) vals -> tagName_ok T = true ->
  Contains s (startTagOf T ++ v ++ endTagOf T) = true.
Proof.
  intros (e & r & <- & He & Hr & Hv & Hp) Hin HT.
  rewrite Forall_forall in Hv.
  destruct (tagName_ok_nolt T HT) as [NO NC].
  change (startTagOf T ++ v ++ endTagOf T)
    with (lt :: (T ++ L ">") ++ v ++ lt :: qC T).
  apply valof_Contains; try assumption. apply (Hv (T, v) Hin).
Qed.

(** Counts in joined texts. *)
Lemma Count_Join q n : noltb q = true -> ~ In nl q ->
  forall elems, Forall (fun s => Count s (lt :: q) = n) elems ->
  Count (Join elems [nl]) (lt :: q) = (length elems * n)%nat.
Proof.
  intros Hq Hn. induction elems as [|s rest IH]; intros H; [reflexivity|].
  inversion H as [|? ? H1 H2]; subst. cbn [Join].
  destruct rest as [|s' rest'].
  - cbn [length]. lia.
  - cbn [app]. rewrite Count_sep by (try assumption; reflexivity).
    rewrite (IH H2). cbn [length]. lia.
Qed.

Lemma Count_wrapRoot q body : noltb q = true -> ~ In nl q ->
  Count (wrapRoot body) (lt :: q)
  = (Count (L "<root>") (lt :: q) + Count body (lt :: q)
     + Count (L "</root>") (lt :: q))%nat.
Proof.
  intros Hq Hn. unfold wrapRoot. cbn [app].
  change (lt :: "r"%char :: "o"%char :: "o"%char :: "t"%char :: ">"%char
          :: nl :: body ++ nl :: L "</root>")
    with (L "<root>" ++ nl :: body ++ nl :: L "</root>").
  rewrite Count_sep by (try assumption; reflexivity).
  rewrite Count_sep by (try assumption; reflexivity). lia.
Qed.

End Edits.
(** ** The expansions of multi-symbol and walk-forward jobs *)

Module ExpandFacts.
Import Expand Chunks Edits.

(** *** Results of the library functions hold no [<] *)

Lemma noltb_forallb (f : ascii -> bool) s :
  f lt = false -> forallb f s = true -> noltb s = true.
Proof.
  intros Hf H. unfold noltb. rewrite forallb_forall in *. intros x Hx.
  destruct (Ascii.eqb_spec x lt) as [->|]; [|reflexivity].
  rewrite (H lt Hx) in Hf. discriminate.
Qed.

Lemma noltb_Forall (f : ascii -> bool) s :
  f lt = false -> Forall (fun c => f c = true) s -> noltb s = true.
Proof.
  intros Hf H. apply (noltb_forallb f); [exact Hf|].
  apply forallb_forall. apply Forall_forall. exact H.
Qed.

Lemma noltb_cons c s :
  noltb (c :: s) = negb (Ascii.eqb c lt) && noltb s.
Proof. reflexivity. Qed.

Lemma asciiSpace_nolt a : asciiSpace a = true -> negb (Ascii.eqb a lt) = true.
Proof.
  intros H. destruct (Ascii.eqb_spec a lt) as [->|]; [discriminate|reflexivity].
Qed.

Lemma space2_nolt a b :
  space2 a b = true -> negb (Ascii.eqb a lt) && negb (Ascii.eqb b lt) = true.
Proof.
  intros H. destruct (Ascii.eqb_spec a lt) as [->|]; [discriminate|].
  destruct (Ascii.eqb_spec b lt) as [->|]; [|reflexivity].
  unfold space2 in H. destruct (code a =? 194)%N; discriminate.
Qed.

Lemma space3_nolt a b c :
  space3 a b c = true ->
  negb (Ascii.eqb a lt) && negb (Ascii.eqb b lt) && negb (Ascii.eqb c lt) = true.
Proof.
  intros H. destruct (Ascii.eqb_spec a lt) as [->|]; [discriminate|].
  destruct (Ascii.eqb_spec b lt) as [->|].
  { unfold space3 in H.
    destruct (code a =? 225)%N, (code a =? 226)%N, (code a =? 227)%N;
      discriminate. }
  destruct (Ascii.eqb_spec c lt) as [->|]; [|reflexivity].
  unfold space3 in H.
  destruct (code a =? 225)%N, (code a =? 226)%N, (code a =? 227)%N,
    (code b =? 154)%N, (code b =? 128)%N, (code b =? 129)%N; discriminate.
Qed.

(** What [TrimLeftSpace] cuts off holds no [<]. *)
Lemma TrimLeftSpace_cut n : forall s, (length s <= n)%nat ->
  exists u, s = u ++ TrimLeftSpace s /\ noltb u = true.
Proof.
  induction n as [|n IH]; intros s Hn.
  - destruct s; [|cbn in Hn; lia]. exists []. split; reflexivity.
  - destruct s as [|a t]; [exists []; split; reflexivity|].
    cbn [length] in Hn. cbn [TrimLeftSpace].
    destruct (asciiSpace a) eqn:Ea.
    { destruct (IH t ltac:(lia)) as (u & H1 & H2). exists (a :: u).
      cbn [app]. rewrite <- H1, noltb_cons, (asciiSpace_nolt a Ea), H2.
      split; reflexivity. }
    destruct t as [|b u]; [exists []; split; reflexivity|].
    cbn [length] in Hn.
    destruct (space2 a b) eqn:E2.
    { destruct (IH u ltac:(lia)) as (w & H1 & H2). exists (a :: b :: w).
      cbn [app]. rewrite <- H1, !noltb_cons, H2.
      pose proof (space2_nolt a b E2) as G. apply andb_true_iff in G as [-> ->].
      split; reflexivity. }
    destruct u as [|c v]; [exists []; split; reflexivity|].
    cbn [length] in Hn.
    destruct (space3 a b c) eqn:E3; [|exists []; split; reflexivity].
    destruct (IH v ltac:(lia)) as (w & H1 & H2). exists (a :: b :: c :: w).
    cbn [app]. rewrite <- H1, !noltb_cons, H2.
    pose proof (space3_nolt a b c E3) as G. apply andb_true_iff in G as [G ->].
    apply andb_true_iff in G as [-> ->]. split; reflexivity.
Qed.

Lemma trim_rev_space_cut n : forall r, (length r <= n)%nat ->
  exists u, r = u ++ trim_rev_space r /\ noltb u = true.
Proof.
  induction n as [|n IH]; intros s Hn.
  - destruct s; [|cbn in Hn; lia]. exists []. split; reflexivity.
  - destruct s as [|c t]; [exists []; split; reflexivity|].
    cbn [length] in Hn. cbn [trim_rev_space].
    destruct (asciiSpace c) eqn:Ea.
    { destruct (IH t ltac:(lia)) as (u & H1 & H2). exists (c :: u).
      cbn [app]. rewrite <- H1, noltb_cons, (asciiSpace_nolt c Ea), H2.
      split; reflexivity. }
    destruct t as [|b u]; [exists []; split; reflexivity|].
    cbn [length] in Hn.
    destruct (space2 b c) eqn:E2.
    { destruct (IH u ltac:(lia)) as (w & H1 & H2). exists (c :: b :: w).
      cbn [app]. rewrite <- H1, !noltb_cons, H2.
      pose proof (space2_nolt b c E2) as G. apply andb_true_iff in G as [-> ->].
      split; reflexivity. }
    destruct u as [|a v]; [exists []; split; reflexivity|].
    cbn [length] in Hn.
    destruct (space3 a b c) eqn:E3; [|exists []; split; reflexivity].
    destruct (IH v ltac:(lia)) as (w & H1 & H2). exists (c :: b :: a :: w).
    cbn [app]. rewrite <- H1, !noltb_cons, H2.
    pose proof (space3_nolt a b c E3) as G. apply andb_true_iff in G as [G ->].
    apply andb_true_iff in G as [-> ->]. split; reflexivity.
Qed.

Lemma noltb_rev s : noltb (rev s) = noltb s.
Proof.
  induction s as [|c s IH]; [reflexivity|]. cbn [rev].
  rewrite noltb_app, IH, !noltb_cons. cbn. rewrite andb_true_r. apply andb_comm.
Qed.

(** A text holds a [<] exactly when the trimmed text does. *)
Lemma noltb_TrimSpace s : noltb (TrimSpace s) = noltb s.
Proof.
  unfold TrimSpace, TrimRightSpace.
  destruct (TrimLeftSpace_cut _ s (le_n _)) as (u & H1 & H2).
  destruct (trim_rev_space_cut _ (rev (TrimLeftSpace s)) (le_n _))
    as (w & H3 & H4).
  apply (f_equal noltb) in H1, H3.
  rewrite noltb_app, H2 in H1. rewrite noltb_app, H4, noltb_rev in H3.
  cbn [andb] in H1, H3. rewrite noltb_rev, H1, H3. reflexivity.
Qed.

Lemma noltb_Split s sep :
  noltb s = true -> Forall (fun w => noltb w = true) (Split s sep).
Proof.
  induction s as [|c t IH]; intros H; [repeat constructor|].
  rewrite noltb_cons in H. apply andb_true_iff in H as [Hc Ht].
  specialize (IH Ht). cbn [Split].
  destruct (Ascii.eqb c sep); [constructor; [reflexivity|exact IH]|].
  destruct (Split t sep) as [|w ws].
  - repeat constructor. rewrite noltb_cons, Hc. reflexivity.
  - inversion IH; subst. constructor; [|assumption].
    rewrite noltb_cons, Hc. assumption.
Qed.

Lemma isDigit_lt : isDigit lt = false.
Proof. reflexivity. Qed.

Lemma digits_val_isDigit s : forall acc n,
  digits_val s acc = Some n -> forallb isDigit s = true.
Proof.
  induction s as [|c t IH]; intros acc n H; [reflexivity|].
  cbn [digits_val forallb] in *. destruct (isDigit c); [|discriminate].
  apply (IH _ _ H).
Qed.

Lemma noltb_Atoi s n : Atoi s = Some n -> noltb s = true.
Proof.
  unfold Atoi. destruct s as [|c t]; [discriminate|].
  destruct (Ascii.eqb c "-") eqn:E1; [|destruct (Ascii.eqb c "+") eqn:E2].
  - apply Ascii.eqb_eq in E1. subst c.
    destruct t as [|d t']; [discriminate|].
    destruct (digits_val (d :: t') 0) eqn:E; [|discriminate]. intros _.
    rewrite noltb_cons. apply (noltb_forallb isDigit _ isDigit_lt).
    apply (digits_val_isDigit _ _ _ E).
  - apply Ascii.eqb_eq in E2. subst c.
    destruct t as [|d t']; [discriminate|].
    destruct (digits_val (d :: t') 0) eqn:E; [|discriminate]. intros _.
    rewrite noltb_cons. apply (noltb_forallb isDigit _ isDigit_lt).
    apply (digits_val_isDigit _ _ _ E).
  - destruct (digits_val (c :: t) 0) eqn:E; [|discriminate]. intros _.
    apply (noltb_forallb isDigit _ isDigit_lt).
    apply (digits_val_isDigit _ _ _ E).
Qed.

Lemma noltb_ParseFloat s f : ParseFloat s = Ret (Ok f) -> noltb s = true.
Proof.
  unfold ParseFloat. destruct (forallb floatByte s) eqn:E; [|discriminate].
  intros _. apply (noltb_forallb floatByte); [reflexivity|exact E].
Qed.

Lemma isDigit_nolt c : isDigit c = true -> negb (Ascii.eqb c lt) = true.
Proof.
  intros H. destruct (Ascii.eqb_spec c lt) as [->|]; [discriminate|reflexivity].
Qed.

Lemma noltb_Parse s t : Time.Parse s = Some t -> noltb s = true.
Proof.
  unfold Time.Parse.
  destruct s as [|y1 [|y2 [|y3 [|y4 [|h1 [|m1 [|m2 [|h2 [|d1 [|d2 [|? ?]]]]]]]]]]];
    try discriminate.
  destruct (forallb isDigit [y1; y2; y3; y4; m1; m2; d1; d2]
            && Ascii.eqb h1 "-" && Ascii.eqb h2 "-") eqn:E; [|discriminate].
  intros _. apply andb_true_iff in E as [E E2]. apply andb_true_iff in E as [E E1].
  apply Ascii.eqb_eq in E1, E2. subst h1 h2. cbn [forallb] in E.
  repeat (apply andb_true_iff in E as [?H E]).
  rewrite !noltb_cons.
  repeat match goal with
         | H : isDigit ?c = true |- _ => rewrite (isDigit_nolt c H); clear H
         end.
  reflexivity.
Qed.

Lemma noltb_digits n : 0 <= n -> noltb (digits n) = true.
Proof.
  intros H. apply (noltb_Forall isDigit); [reflexivity|].
  apply TimeFacts.digits_isDigit. exact H.
Qed.

Lemma noltb_Itoa n : noltb (Itoa n) = true.
Proof.
  unfold Itoa. destruct (n <? 0) eqn:E.
  - apply Z.ltb_lt in E. rewrite noltb_app, noltb_digits by lia. reflexivity.
  - apply Z.ltb_ge in E. apply noltb_digits. exact E.
Qed.

Lemma noltb_appendInt x width : noltb (Time.appendInt x width) = true.
Proof.
  unfold Time.appendInt. rewrite !noltb_app, noltb_digits by lia.
  assert (R : forall k, noltb (repeat "0"%char k) = true)
    by (induction k as [|k IH]; [reflexivity|exact IH]).
  rewrite R. destruct (x <? 0); reflexivity.
Qed.

Lemma noltb_formatDate t : noltb (formatDate t) = true.
Proof.
  unfold formatDate, Time.Format.
  destruct (Time.civil_from_days t) as [[y m] d].
  rewrite !noltb_app, !noltb_appendInt. reflexivity.
Qed.

(** *** Multi-symbol jobs *)

(** The job element that [processMMJob] builds for one symbol. *)
Definition mmJobElement (xmlContent symbol : str) : str :=
  removeXMLTag (replaceXMLTag xmlContent (L "Symbol") (TrimSpace symbol))
    (L "symbols").

Lemma mmJobElements_map xml symbols :
  Forall (fun s => TrimSpace s <> []) symbols ->
  mmJobElements xml symbols = map (mmJobElement xml) symbols.
Proof.
  induction 1 as [|s rest Hs Hrest IH]; [reflexivity|].
  cbn [mmJobElements map]. apply eqb_str_neq in Hs. rewrite Hs, IH.
  reflexivity.
Qed.

Lemma mmJobElement_inv xml symbolValue symbolsValue s :
  inv [(L "Symbol", symbolValue); (L "symbols", symbolsValue)]
      [(L "Job>", 1%nat); (L "symbols>", 1%nat)] xml ->
  noltb s = true ->
  inv [(L "Symbol", TrimSpace s)] [(L "Job>", 1%nat); (L "symbols>", 0%nat)]
      (mmJobElement xml s).
Proof.
  intros I0 Hs. rewrite <- noltb_TrimSpace in Hs.
  pose proof (replace_inv _ _ _ (L "Symbol") (TrimSpace s) I0 eq_refl Hs) as I1.
  exact (remove_inv _ _ _ (L "symbols") I1 eq_refl).
Qed.

Lemma Forall2_map_l {A B} (R : B -> A -> Prop) (f : A -> B) l :
  Forall (fun a => R (f a) a) l -> Forall2 R (map f l) l.
Proof. induction 1; constructor; assumption. Qed.

(** C6. For an MM descriptor with one [<Job>] tag, a [Symbol] element and
    one [symbols] element whose value is a comma-separated list of [k >= 2]
    non-blank symbols, the expansion has exactly [k] [<Job>] opening tags
    and no [<symbols>], and the [Symbol] value of the i-th job element is
    the (trimmed) i-th symbol of the list. *)
Theorem multi_symbol_expansion
    (xml symbolValue symbolsValue : str) (symbols : list str) :
  Count xml (L "<Job>") = 1%nat ->
  Count xml (L "<symbols>") = 1%nat ->
  tagValue xml (L "Symbol") = Some symbolValue -> noltb symbolValue = true ->
  tagValue xml (L "symbols") = Some symbolsValue -> noltb symbolsValue = true ->
  Split symbolsValue "," = symbols ->
  (2 <= length symbols)%nat ->
  Forall (fun s => TrimSpace s <> []) symbols ->
  exists jobs,
    processMMJob xml = Ret (wrapRoot (Join jobs [nl]))
    /\ length jobs = length symbols
    /\ Count (wrapRoot (Join jobs [nl])) (L "<Job>") = length symbols
    /\ Count (wrapRoot (Join jobs [nl])) (L "<symbols>") = 0%nat
    /\ Forall2 (fun job s => tagValue job (L "Symbol") = Some (TrimSpace s))
         jobs symbols.
Proof.
  intros HJ HS HV1 HN1 HV2 HN2 Hsplit Hk Hne.
  assert (I0 : inv [(L "Symbol", symbolValue); (L "symbols", symbolsValue)]
                   [(L "Job>", 1%nat); (L "symbols>", 1%nat)] xml).
  { apply inv_intro; repeat constructor; assumption. }
  assert (Hnolt : Forall (fun s => noltb s = true) symbols)
    by (rewrite <- Hsplit; apply noltb_Split; exact HN2).
  assert (Hjobs : Forall (fun s =>
            inv [(L "Symbol", TrimSpace s)]
                [(L "Job>", 1%nat); (L "symbols>", 0%nat)] (mmJobElement xml s))
            symbols).
  { rewrite Forall_forall in *. intros s Hs.
    apply (mmJobElement_inv _ _ _ _ I0). apply Hnolt. exact Hs. }
  exists (map (mmJobElement xml) symbols).
  split; [|split; [apply length_map|split; [|split]]].
  - unfold processMMJob. unfold tagValue in HV2.
    change (startTagOf (L "symbols")) with (L "<symbols>") in HV2.
    change (endTagOf (L "symbols")) with (L "</symbols>") in HV2.
    destruct (Index xml (L "<symbols>")) as [i|]; [|discriminate].
    destruct (Index xml (L "</symbols>")) as [j|]; [|discriminate].
    change (length (L "<symbols>")) with 9%nat in HV2.
    destruct (Nat.leb (i + 9) j); [|discriminate].
    injection HV2 as ->. rewrite Hsplit.
    destruct (Nat.leb_spec (length symbols) 1) as [Hle|_]; [lia|].
    rewrite mmJobElements_map by exact Hne. reflexivity.
  - change (L "<Job>") with (lt :: L "Job>").
    rewrite (Count_wrapRoot (L "Job>") _ eq_refl
               (quiet_not_In (L "Job>") nl eq_refl eq_refl)).
    rewrite (Count_Join (L "Job>") 1%nat eq_refl
               (quiet_not_In (L "Job>") nl eq_refl eq_refl)).
    + rewrite length_map.
      change (Count (L "<root>") (lt :: L "Job>")) with 0%nat.
      change (Count (L "</root>") (lt :: L "Job>")) with 0%nat. lia.
    + apply Forall_map. rewrite Forall_forall in *. intros s Hs.
      apply (inv_Count _ _ _ _ _ (Hjobs s Hs)); [cbn [In]; tauto|reflexivity].
  - change (L "<symbols>") with (lt :: L "symbols>").
    rewrite (Count_wrapRoot (L "symbols>") _ eq_refl
               (quiet_not_In (L "symbols>") nl eq_refl eq_refl)).
    rewrite (Count_Join (L "symbols>") 0%nat eq_refl
               (quiet_not_In (L "symbols>") nl eq_refl eq_refl)).
    + change (Count (L "<root>") (lt :: L "symbols>")) with 0%nat.
      change (Count (L "</root>") (lt :: L "symbols>")) with 0%nat. lia.
    + apply Forall_map. rewrite Forall_forall in *. intros s Hs.
      apply (inv_Count _ _ _ _ _ (Hjobs s Hs)); [cbn [In]; tauto|reflexivity].
  - apply Forall2_map_l. rewrite Forall_forall in *. intros s Hs.
    apply (inv_tagValue _ _ _ _ _ (Hjobs s Hs)); [cbn [In]; tauto|reflexivity].
Qed.

(** A descriptor with three symbols. *)
Definition descriptor_mm : str :=
  T "<Job>|  <task_type>MM</task_type>|  <Symbol>@ES</Symbol>|  <symbols>@ES, @NQ,@YM</symbols>|  <startDate>2020-01-01</startDate>|</Job>".

Lemma multi_symbol_expansion_witness :
  exists jobs,
    processMMJob descriptor_mm = Ret (wrapRoot (Join jobs [nl]))
    /\ length jobs = 3%nat
    /\ Count (wrapRoot (Join jobs [nl])) (L "<Job>") = 3%nat
    /\ Count (wrapRoot (Join jobs [nl])) (L "<symbols>") = 0%nat
    /\ Forall2 (fun job s => tagValue job (L "Symbol") = Some (TrimSpace s))
         jobs [L "@ES"; L " @NQ"; L "@YM"].
Proof.
  apply (multi_symbol_expansion descriptor_mm (L "@ES") (L "@ES, @NQ,@YM")
           [L "@ES"; L " @NQ"; L "@YM"]);
    try reflexivity.
  - cbn. lia.
  - repeat constructor; intros H; vm_compute in H; discriminate.
Defined.

(** *** Walk-forward jobs *)

Import RangeFacts.

(** The dates of a range hold no [<]. *)
Definition range_nolt (dr : DateRange) : Prop :=
  noltb (ISStartDate dr) = true /\ noltb (ISEndDate dr) = true
  /\ noltb (OSStartDate dr) = true /\ noltb (OSEndDate dr) = true.

Lemma run_ok_nolt startTime endDate runs isDays osDays ranges run dr :
  noltb endDate = true ->
  run_ok startTime endDate runs isDays osDays ranges run dr -> range_nolt dr.
Proof.
  intros He [isStart H1 H2 H3 H4 H5 _ _]. unfold range_nolt.
  split; [apply (noltb_Parse _ _ H1)|].
  split; [rewrite H3; apply noltb_formatDate|].
  split; [rewrite H4; apply noltb_formatDate|].
  rewrite H5. destruct (run =? wrap64 (runs - 1));
    [exact He|apply noltb_formatDate].
Qed.

Lemma GetEndDate_nolt dr : range_nolt dr -> noltb (GetEndDate dr) = true.
Proof.
  intros (_ & H2 & _ & H4). unfold GetEndDate.
  destruct (negb (eqb_str (OSEndDate dr) [])); assumption.
Qed.

Definition wfo_vals (v1 v2 v3 v4 : str) : list (str * str) :=
  [(L "startDate", v1); (L "endDate", v2); (L "oos_percent", v3);
   (L "oos_runs", v4)].

Definition final_pats : list (str * nat) :=
  [(L "Job>", 1%nat); (L "os_start_date>", 0%nat); (L "os_end_date>", 0%nat)].

(** The job element of the extra final run. *)
Lemma wfoJobElement_final xml pct total dr v1 v2 v3 v4 :
  inv (wfo_vals v1 v2 v3 v4) final_pats xml -> range_nolt dr ->
  inv [(L "startDate", ISStartDate dr); (L "endDate", GetEndDate dr);
       (L "oos_percent", L "0.0")] final_pats
      (wfoJobElement xml pct total total dr).
Proof.
  intros I0 Hdr. pose proof (GetEndDate_nolt dr Hdr) as HG.
  destruct Hdr as (H1 & H2 & H3 & H4).
  unfold wfoJobElement. rewrite Z.eqb_refl.
  pose proof (add_inv _ _ _ (L "run") (Itoa total) I0 eq_refl
                (noltb_Itoa total)) as I1.
  pose proof (replace_inv _ _ _ (L "startDate") (ISStartDate dr) I1 eq_refl H1)
    as I2.
  pose proof (replace_inv _ _ _ (L "endDate") (GetEndDate dr) I2 eq_refl HG)
    as I3.
  pose proof (add_inv _ _ _ (L "is_start_date") (ISStartDate dr) I3 eq_refl H1)
    as I4.
  pose proof (add_inv _ _ _ (L "is_end_date") (ISEndDate dr) I4 eq_refl H2)
    as I5.
  pose proof (replace_inv _ _ _ (L "oos_percent") (L "0.0") I5 eq_refl eq_refl)
    as I6.
  exact (remove_inv _ _ _ (L "oos_runs") I6 eq_refl).
Qed.

(** The job element of a run with an out-of-sample period. *)
Lemma wfoJobElement_other xml pct total n dr v1 v2 v3 v4 :
  n <> total ->
  inv (wfo_vals v1 v2 v3 v4) [(L "Job>", 1%nat)] xml -> range_nolt dr ->
  noltb pct = true ->
  inv [(L "startDate", ISStartDate dr); (L "endDate", GetEndDate dr);
       (L "oos_percent", pct)] [(L "Job>", 1%nat)]
      (wfoJobElement xml pct total n dr).
Proof.
  intros Hn I0 Hdr Hp. pose proof (GetEndDate_nolt dr Hdr) as HG.
  destruct Hdr as (H1 & H2 & H3 & H4).
  unfold wfoJobElement. apply Z.eqb_neq in Hn. rewrite Hn.
  pose proof (add_inv _ _ _ (L "run") (Itoa n) I0 eq_refl (noltb_Itoa n)) as I1.
  pose proof (replace_inv _ _ _ (L "startDate") (ISStartDate dr) I1 eq_refl H1)
    as I2.
  pose proof (replace_inv _ _ _ (L "endDate") (GetEndDate dr) I2 eq_refl HG)
    as I3.
  pose proof (add_inv _ _ _ (L "is_start_date") (ISStartDate dr) I3 eq_refl H1)
    as I4.
  pose proof (add_inv _ _ _ (L "is_end_date") (ISEndDate dr) I4 eq_refl H2)
    as I5.
  pose proof (add_inv _ _ _ (L "os_start_date") (OSStartDate dr) I5 eq_refl H3)
    as I6.
  pose proof (add_inv _ _ _ (L "os_end_date") (OSEndDate dr) I6 eq_refl H4)
    as I7.
  pose proof (replace_inv _ _ _ (L "oos_percent") pct I7 eq_refl Hp) as I8.
  exact (remove_inv _ _ _ (L "oos_runs") I8 eq_refl).
Qed.

Lemma wfoJobElements_length xml pct total ranges : forall k,
  length (wfoJobElements xml pct total k ranges) = length ranges.
Proof.
  induction ranges as [|dr rest IH]; intros k; [reflexivity|].
  cbn [wfoJobElements length]. rewrite IH. reflexivity.
Qed.

Lemma wfoJobElements_nth xml pct total ranges : forall k i dr,
  nth_error ranges i = Some dr ->
  nth_error (wfoJobElements xml pct total k ranges) i
  = Some (wfoJobElement xml pct total (k + Z.of_nat i) dr).
Proof.
  induction ranges as [|dr0 rest IH]; intros k i dr H.
  - destruct i; discriminate.
  - destruct i as [|i]; cbn [nth_error wfoJobElements] in *.
    + injection H as <-. rewrite Z.add_0_r. reflexivity.
    + rewrite (IH (k + 1) i dr H). do 2 f_equal. lia.
Qed.

Lemma wfoJobElements_Forall (P : str -> Prop) xml pct total ranges : forall k,
  (forall i dr, nth_error ranges i = Some dr ->
                P (wfoJobElement xml pct total (k + Z.of_nat i) dr)) ->
  Forall P (wfoJobElements xml pct total k ranges).
Proof.
  induction ranges as [|dr0 rest IH]; intros k H; [constructor|].
  cbn [wfoJobElements]. constructor.
  - specialize (H 0%nat dr0 eq_refl). rewrite Z.add_0_r in H. exact H.
  - apply IH. intros i dr Hi. specialize (H (S i) dr Hi).
    replace (k + 1 + Z.of_nat i) with (k + Z.of_nat (S i)) by lia. exact H.
Qed.

(** The element that a successful extraction found, when the trimmed value
    holds no [<]. *)
Lemma extract_element xml T v :
  extractXMLTagValue xml T = Ret (Ok v) -> noltb v = true ->
  exists raw, tagValue xml T = Some raw /\ noltb raw = true.
Proof.
  intros H Hv. destruct (tagValue_extract xml T v H) as (raw & H1 & H2).
  exists raw. split; [exact H1|]. rewrite <- noltb_TrimSpace, <- H2. exact Hv.
Qed.

(** C1, with the conditions under which it holds.  For a descriptor whose
    [oos_runs] value is an integer [N] with [0 <= N < 2^63 - 1], whose
    [oos_percent] value is a float, for whose dates the run computation
    succeeds, and which has exactly one [<Job>] tag and no [<os_start_date>]
    or [<os_end_date>] tag, the expansion has [N + 1] job elements and
    [N + 1] [<Job>] tags; the last element holds
    [<oos_percent>0.0</oos_percent>] and neither of the two tags. *)
Theorem walk_forward_job_count
    (impl : float -> Z) (xml runsText pctText startDate endDate : str)
    (N : Z) (pct : float) (ranges : list DateRange) :
  extractXMLTagValue xml (L "oos_runs") = Ret (Ok runsText) ->
  Atoi runsText = Some N ->
  extractXMLTagValue xml (L "oos_percent") = Ret (Ok pctText) ->
  ParseFloat pctText = Ret (Ok pct) ->
  extractXMLTagValue xml (L "startDate") = Ret (Ok startDate) ->
  extractXMLTagValue xml (L "endDate") = Ret (Ok endDate) ->
  calculateWFORuns impl startDate endDate N pct = Ret (Ok ranges) ->
  0 <= N < MaxInt64 ->
  Count xml (L "<Job>") = 1%nat ->
  Count xml (L "<os_start_date>") = 0%nat ->
  Count xml (L "<os_end_date>") = 0%nat ->
  exists jobs lastJob,
    processWFOJob impl xml = Ret (wrapRoot (Join jobs [nl]))
    /\ Z.of_nat (length jobs) = N + 1
    /\ Z.of_nat (Count (wrapRoot (Join jobs [nl])) (L "<Job>")) = N + 1
    /\ nth_error jobs (Z.to_nat N) = Some lastJob
    /\ Contains lastJob (L "<oos_percent>0.0</oos_percent>") = true
    /\ Count lastJob (L "<os_start_date>") = 0%nat
    /\ Count lastJob (L "<os_end_date>") = 0%nat.
Proof.
  intros Hruns Hatoi Hpct Hfloat Hsd Hed Hcalc HN HJ HS HE.
  destruct (calculateWFORuns_ok _ _ _ _ _ _ Hcalc)
    as (startTime & endTime & totalDays & isDays & osDays
        & Hs & He & Hd & Hlen & Hall).
  rewrite runs_count in Hlen by lia.
  pose proof (noltb_Parse _ _ Hs) as Nsd. pose proof (noltb_Parse _ _ He) as Ned.
  pose proof (noltb_Atoi _ _ Hatoi) as Nruns.
  pose proof (noltb_ParseFloat _ _ Hfloat) as Npct.
  destruct (extract_element _ _ _ Hsd Nsd) as (v1 & V1 & N1).
  destruct (extract_element _ _ _ Hed Ned) as (v2 & V2 & N2).
  destruct (extract_element _ _ _ Hpct Npct) as (v3 & V3 & N3).
  destruct (extract_element _ _ _ Hruns Nruns) as (v4 & V4 & N4).
  assert (IF : inv (wfo_vals v1 v2 v3 v4) final_pats xml).
  { apply inv_intro; repeat constructor; assumption. }
  assert (IO : inv (wfo_vals v1 v2 v3 v4) [(L "Job>", 1%nat)] xml).
  { apply inv_intro; repeat constructor; assumption. }
  assert (Hdr : forall i dr, nth_error ranges i = Some dr -> range_nolt dr).
  { intros i dr Hi. apply (run_ok_nolt _ _ _ _ _ _ _ _ Ned (Hall i dr Hi)). }
  set (total := Z.of_nat (length ranges)).
  assert (Htotal : total = N + 1) by (unfold total; lia).
  set (jobs := wfoJobElements xml pctText total 1 ranges).
  assert (Hjobs : Forall (fun job => Count job (lt :: L "Job>") = 1%nat) jobs).
  { apply wfoJobElements_Forall. intros i dr Hi.
    destruct (Z.eq_dec (1 + Z.of_nat i) total) as [->|Hne].
    - apply (inv_Count _ _ _ _ _
               (wfoJobElement_final xml pctText total dr _ _ _ _ IF
                  (Hdr i dr Hi))); [cbv [final_pats In]; tauto|reflexivity].
    - apply (inv_Count _ _ _ _ _
               (wfoJobElement_other xml pctText total _ dr _ _ _ _ Hne IO
                  (Hdr i dr Hi) Npct)); [cbv [final_pats In]; tauto|reflexivity]. }
  destruct (nth_error ranges (Z.to_nat N)) as [final|] eqn:Efinal.
  2:{ apply nth_error_None in Efinal. lia. }
  pose proof (wfoJobElements_nth xml pctText total ranges 1 _ _ Efinal) as Hlast.
  replace (1 + Z.of_nat (Z.to_nat N)) with total in Hlast by lia.
  pose proof (wfoJobElement_final xml pctText total final _ _ _ _ IF
                (Hdr _ _ Efinal)) as Ilast.
  exists jobs, (wfoJobElement xml pctText total total final).
  split; [|split; [|split; [|split; [exact Hlast|split; [|split]]]]].
  - unfold processWFOJob, wfoPlan.
    rewrite Hruns. cbn [bind]. rewrite Hpct. cbn [bind].
    rewrite Hsd. cbn [bind]. rewrite Hed. cbn [bind].
    rewrite Hatoi, Hfloat. cbn [bind]. rewrite Hcalc. cbn [bind]. reflexivity.
  - unfold jobs. rewrite wfoJobElements_length. lia.
  - change (L "<Job>") with (lt :: L "Job>").
    rewrite (Count_wrapRoot (L "Job>") _ eq_refl
               (quiet_not_In (L "Job>") nl eq_refl eq_refl)).
    rewrite (Count_Join (L "Job>") 1%nat eq_refl
               (quiet_not_In (L "Job>") nl eq_refl eq_refl) jobs Hjobs).
    unfold jobs. rewrite wfoJobElements_length.
    change (Count (L "<root>") (lt :: L "Job>")) with 0%nat.
    change (Count (L "</root>") (lt :: L "Job>")) with 0%nat. lia.
  - change (L "<oos_percent>0.0</oos_percent>")
      with (startTagOf (L "oos_percent") ++ L "0.0" ++ endTagOf (L "oos_percent")).
    apply (inv_Contains _ _ _ _ _ Ilast); [cbv [final_pats In]; tauto|reflexivity].
  - change (L "<os_start_date>") with (lt :: L "os_start_date>").
    apply (inv_Count _ _ _ _ _ Ilast); [cbv [final_pats In]; tauto|reflexivity].
  - change (L "<os_end_date>") with (lt :: L "os_end_date>").
    apply (inv_Count _ _ _ _ _ Ilast); [cbv [final_pats In]; tauto|reflexivity].
Qed.

Lemma walk_forward_job_count_witness :
  exists jobs lastJob,
    processWFOJob impl_amd64 descriptor_s2 = Ret (wrapRoot (Join jobs [nl]))
    /\ Z.of_nat (length jobs) = 3 + 1
    /\ Z.of_nat (Count (wrapRoot (Join jobs [nl])) (L "<Job>")) = 3 + 1
    /\ nth_error jobs (Z.to_nat 3) = Some lastJob
    /\ Contains lastJob (L "<oos_percent>0.0</oos_percent>") = true
    /\ Count lastJob (L "<os_start_date>") = 0%nat
    /\ Count lastJob (L "<os_end_date>") = 0%nat.
Proof.
  destruct (calculateWFORuns impl_amd64 (L "2007-01-01") (L "2013-09-08") 3
              20%float) as [[ranges|]| |] eqn:E;
    try (vm_compute in E; discriminate).
  apply (walk_forward_job_count impl_amd64 descriptor_s2 (L "3") (L "20")
           (L "2007-01-01") (L "2013-09-08") 3 20%float ranges);
    try (vm_compute; reflexivity).
  - exact E.
  - vm_compute. split; [discriminate|reflexivity].
Defined.

(** A descriptor whose [oos_runs] value is the integer -2. *)
Definition descriptor_negative_runs : str :=
  T "<Job>|  <task_type>WFO</task_type>|  <Symbol>@ES</Symbol>|  <startDate>2007-01-01</startDate>|  <endDate>2013-09-08</endDate>|  <oos_runs>-2</oos_runs>|  <oos_percent>20</oos_percent>|</Job>".

(** C1 as stated fails for a negative run count: every value of the
    descriptor parses and there is one [<Job>] tag, [N = -2], and the
    expansion has no job element at all, not [N + 1]. *)
Lemma negative_run_count_has_no_job :
  extractXMLTagValue descriptor_negative_runs (L "oos_runs") = Ret (Ok (L "-2"))
  /\ Atoi (L "-2") = Some (-2)
  /\ extractXMLTagValue descriptor_negative_runs (L "oos_percent")
     = Ret (Ok (L "20"))
  /\ ParseFloat (L "20") = Ret (Ok 20%float)
  /\ extractXMLTagValue descriptor_negative_runs (L "startDate")
     = Ret (Ok (L "2007-01-01"))
  /\ parseDate (L "2007-01-01") <> None
  /\ extractXMLTagValue descriptor_negative_runs (L "endDate")
     = Ret (Ok (L "2013-09-08"))
  /\ parseDate (L "2013-09-08") <> None
  /\ Count descriptor_negative_runs (L "<Job>") = 1%nat
  /\ processWFOJob impl_amd64 descriptor_negative_runs
     = Ret (wrapRoot (Join [] [nl]))
  /\ Count (wrapRoot (Join [] [nl])) (L "<Job>") = 0%nat
  /\ Z.of_nat 0 <> -2 + 1.
Proof.
  repeat split; try (vm_compute; reflexivity); vm_compute; discriminate.
Qed.

End ExpandFacts.
(** ** Second-pass descriptors *)

Module RetestFacts.
Import Expand Retest.

(** *** The parameters section as the decoder reads it

    A parameter is an element whose children hold text; [Gap] is the text
    (white space, as a rule) behind an end tag, [Lead] the text before the
    first child. *)
Record Field := { fieldName : str; fieldText : str; fieldGap : str }.

Record Param := {
  paramName : str;
  paramLead : str;
  paramFields : list Field;
  paramGap : str
}.

Definition fieldTokens (f : Field) : list Token :=
  StartElement (fieldName f) :: textToken (fieldText f)
  ++ EndElement (fieldName f) :: textToken (fieldGap f).

Definition paramTokens (p : Param) : list Token :=
  StartElement (paramName p) :: textToken (paramLead p)
  ++ flat_map fieldTokens (paramFields p)
  ++ EndElement (paramName p) :: textToken (paramGap p).

(** The tokens of [<parameters>lead p1 ... pn</parameters>]. *)
Definition sectionTokens (lead : str) (ps : list Param) : list Token :=
  StartElement (L "parameters") :: textToken lead
  ++ flat_map paramTokens ps ++ [EndElement (L "parameters")].

(** An element name other than [parameters]. *)
Definition named (n : str) : bool :=
  isName n && negb (eqb_str n (L "parameters")).

Definition wellNamed (p : Param) : bool :=
  named (paramName p) && forallb (fun f => named (fieldName f)) (paramFields p).

(** The value of a field of a parameter: the trimmed text of the last child
    of that name, empty when there is none. *)
Fixpoint fieldOf (fields : list Field) (key : str) : str :=
  match fields with
  | [] => []
  | f :: rest =>
      if existsb (fun g => eqb_str (fieldName g) key) rest then fieldOf rest key
      else if eqb_str (fieldName f) key then TrimSpace (fieldText f)
      else []
  end.

(** *** What the second pass is to emit, in the words of the claim *)

Definition optimizable (p : Param) : bool :=
  eqb_str (fieldOf (paramFields p) (L "param_type")) (L "OptRange")
  && EqualFold (fieldOf (paramFields p) (L "optimizable_ind")) (L "true").

Definition fixedKind (dataType : str) : str :=
  if EqualFold dataType (L "string") then L "FixedString"
  else if EqualFold dataType (L "bool") || EqualFold dataType (L "boolean")
       then L "FixedBool"
       else L "Fixed".

(** The element of a parameter that has become fixed. *)
Definition fixedText (name value dataType : str) : str :=
  L "<" ++ name ++ L ">" ++ [nl]
  ++ L "  <value>" ++ value ++ L "</value>" ++ [nl]
  ++ L "  <param_type>" ++ fixedKind dataType ++ L "</param_type>" ++ [nl]
  ++ (if eqb_str dataType [] then []
      else L "  <data_type>" ++ dataType ++ L "</data_type>" ++ [nl])
  ++ L "  <optimizable_ind>false</optimizable_ind>" ++ [nl]
  ++ L "</" ++ name ++ L ">" ++ [nl].

(** The element of any other parameter: its four core fields, those that
    are not empty. *)
Definition keptField (p : Param) (key : str) : str :=
  let v := fieldOf (paramFields p) key in
  if eqb_str v [] then []
  else L "  <" ++ key ++ L ">" ++ v ++ L "</" ++ key ++ L ">" ++ [nl].

Definition keptText (p : Param) : str :=
  L "<" ++ paramName p ++ L ">" ++ [nl]
  ++ keptField p (L "value") ++ keptField p (L "param_type")
  ++ keptField p (L "data_type") ++ keptField p (L "optimizable_ind")
  ++ L "</" ++ paramName p ++ L ">" ++ [nl].

(** The optimized value of the row when it has one, else the value of the
    descriptor. *)
Definition fixedValue (optimizedValues : list (str * str)) (p : Param) : str :=
  match lookup optimizedValues (paramName p) with
  | Some ov => ov
  | None => fieldOf (paramFields p) (L "value")
  end.

Definition emit (optimizedValues : list (str * str)) (p : Param) : str :=
  if optimizable p
  then fixedText (paramName p) (fixedValue optimizedValues p)
         (fieldOf (paramFields p) (L "data_type"))
  else keptText p.

(** *** The token loop *)

Definition blockOf (p : Param) : paramBlock :=
  {| Name := paramName p;
     Children := rev (map (fun f => (fieldName f, TrimSpace (fieldText f)))
                        (paramFields p)) |}.

Lemma scanTokens_app st a b :
  scanTokens st (a ++ b) = (st' <- scanTokens st a ;; scanTokens st' b).
Proof.
  revert st. induction a as [|tok a IH]; intros st; [reflexivity|].
  cbn [app scanTokens]. destruct (scanToken st tok); cbn [bind];
    [apply IH|reflexivity|reflexivity].
Qed.

Lemma named_inv n :
  named n = true -> eqb_str n (L "parameters") = false /\ eqb_str n [] = false.
Proof.
  unfold named. intros H. apply andb_true_iff in H as [H1 H2].
  apply negb_true_iff in H2. split; [exact H2|].
  destruct n; [discriminate|reflexivity].
Qed.

(** A text token outside the children of a parameter changes nothing. *)
Lemma scan_text st t :
  depth st <> 2 -> scanTokens st (textToken t) = Ret st.
Proof.
  intros H. destruct t as [|c t]; [reflexivity|].
  cbn [textToken scanTokens scanToken].
  apply Z.eqb_neq in H. rewrite H. reflexivity.
Qed.

(** The rounds of the loop, state by state. *)
Lemma step_start_param bs cur ccn ccv n :
  eqb_str n (L "parameters") = false ->
  scanToken {| blocks := bs; depth := 0; current := cur;
               currentChildName := ccn; currentChildValue := ccv |}
    (StartElement n)
  = Ret {| blocks := bs; depth := 1;
           current := Some {| Name := n; Children := [] |};
           currentChildName := ccn; currentChildValue := ccv |}.
Proof. intros H. cbn [scanToken]. rewrite H. reflexivity. Qed.

Lemma step_start_field bs c ccn ccv n :
  eqb_str n (L "parameters") = false ->
  scanToken {| blocks := bs; depth := 1; current := Some c;
               currentChildName := ccn; currentChildValue := ccv |}
    (StartElement n)
  = Ret {| blocks := bs; depth := 2; current := Some c;
           currentChildName := n; currentChildValue := [] |}.
Proof. intros H. cbn [scanToken]. rewrite H. reflexivity. Qed.

Lemma step_text_field bs c n t :
  eqb_str n [] = false ->
  scanTokens {| blocks := bs; depth := 2; current := Some c;
                currentChildName := n; currentChildValue := [] |}
    (textToken t)
  = Ret {| blocks := bs; depth := 2; current := Some c;
           currentChildName := n; currentChildValue := t |}.
Proof.
  intros H. destruct t as [|x t]; [reflexivity|].
  cbn [textToken scanTokens scanToken depth currentChildName].
  rewrite H. reflexivity.
Qed.

Lemma step_end_field bs c n v m :
  eqb_str m (L "parameters") = false -> eqb_str n [] = false ->
  scanToken {| blocks := bs; depth := 2; current := Some c;
               currentChildName := n; currentChildValue := v |}
    (EndElement m)
  = Ret {| blocks := bs; depth := 1;
           current := Some {| Name := Name c;
                              Children := (n, TrimSpace v) :: Children c |};
           currentChildName := []; currentChildValue := v |}.
Proof.
  intros Hm Hn. cbn [scanToken depth currentChildName current].
  rewrite Hm, Hn. reflexivity.
Qed.

Lemma step_end_param bs c ccn ccv m :
  eqb_str m (L "parameters") = false ->
  scanToken {| blocks := bs; depth := 1; current := Some c;
               currentChildName := ccn; currentChildValue := ccv |}
    (EndElement m)
  = Ret {| blocks := bs ++ [c]; depth := 0; current := None;
           currentChildName := ccn; currentChildValue := ccv |}.
Proof. intros Hm. cbn [scanToken]. rewrite Hm. reflexivity. Qed.

(** The state inside a parameter element, between two children. *)
Definition inside (bs : list paramBlock) (c : paramBlock) (st : scan) : Prop :=
  exists ccn ccv,
    st = {| blocks := bs; depth := 1; current := Some c;
            currentChildName := ccn; currentChildValue := ccv |}.

(** The state between two parameter elements. *)
Definition between (bs : list paramBlock) (st : scan) : Prop :=
  exists cur ccn ccv,
    st = {| blocks := bs; depth := 0; current := cur;
            currentChildName := ccn; currentChildValue := ccv |}.

Lemma scan_field bs c st f :
  inside bs c st -> named (fieldName f) = true ->
  exists st',
    scanTokens st (fieldTokens f) = Ret st'
    /\ inside bs {| Name := Name c;
                    Children := (fieldName f, TrimSpace (fieldText f))
                                :: Children c |} st'.
Proof.
  intros (ccn & ccv & ->) Hn. destruct (named_inv _ Hn) as [Np Ne].
  unfold fieldTokens. cbn [scanTokens].
  rewrite (step_start_field _ _ _ _ _ Np). cbn [bind].
  rewrite scanTokens_app, (step_text_field _ _ _ _ Ne). cbn [bind scanTokens].
  rewrite (step_end_field _ _ _ _ _ Np Ne). cbn [bind].
  rewrite scan_text by (cbn; lia).
  eexists. split; [reflexivity|]. eexists _, _. reflexivity.
Qed.

Lemma scan_fields fields : forall bs c st,
  inside bs c st ->
  forallb (fun f => named (fieldName f)) fields = true ->
  exists st',
    scanTokens st (flat_map fieldTokens fields) = Ret st'
    /\ inside bs {| Name := Name c;
                    Children :=
                      rev (map (fun f => (fieldName f, TrimSpace (fieldText f)))
                             fields) ++ Children c |} st'.
Proof.
  induction fields as [|f rest IH]; intros bs c st Hin Hn.
  - exists st. split; [reflexivity|]. destruct c. exact Hin.
  - cbn [forallb] in Hn. apply andb_true_iff in Hn as [Hf Hrest].
    destruct (scan_field bs c st f Hin Hf) as (st1 & E1 & I1).
    destruct (IH _ _ _ I1 Hrest) as (st2 & E2 & I2).
    exists st2. cbn [flat_map]. rewrite scanTokens_app, E1. cbn [bind].
    split; [exact E2|]. cbn [map rev Name Children] in *.
    rewrite <- app_assoc. exact I2.
Qed.

Lemma scan_param bs st p :
  between bs st -> wellNamed p = true ->
  exists st',
    scanTokens st (paramTokens p) = Ret st' /\ between (bs ++ [blockOf p]) st'.
Proof.
  intros (cur & ccn & ccv & ->) Hw. unfold wellNamed in Hw.
  apply andb_true_iff in Hw as [Hn Hf]. destruct (named_inv _ Hn) as [Np _].
  unfold paramTokens. cbn [scanTokens].
  rewrite (step_start_param _ _ _ _ _ Np). cbn [bind].
  rewrite scanTokens_app, scan_text by (cbn; lia). cbn [bind].
  rewrite scanTokens_app.
  destruct (scan_fields (paramFields p) bs
              {| Name := paramName p; Children := [] |} _
              (ex_intro _ ccn (ex_intro _ ccv eq_refl)) Hf)
    as (st2 & E2 & (ccn2 & ccv2 & ->)).
  rewrite E2. cbn [bind scanTokens].
  rewrite (step_end_param _ _ _ _ _ Np). cbn [bind].
  rewrite scan_text by (cbn; lia).
  eexists. split; [reflexivity|]. eexists _, _, _.
  cbn [Name Children]. rewrite app_nil_r. reflexivity.
Qed.

Lemma scan_params ps : forall bs st,
  between bs st -> forallb wellNamed ps = true ->
  exists st',
    scanTokens st (flat_map paramTokens ps) = Ret st'
    /\ between (bs ++ map blockOf ps) st'.
Proof.
  induction ps as [|p rest IH]; intros bs st Hin Hw.
  - exists st. split; [reflexivity|]. rewrite app_nil_r. exact Hin.
  - cbn [forallb] in Hw. apply andb_true_iff in Hw as [Hp Hrest].
    destruct (scan_param bs st p Hin Hp) as (st1 & E1 & I1).
    destruct (IH _ _ I1 Hrest) as (st2 & E2 & I2).
    exists st2. cbn [flat_map]. rewrite scanTokens_app, E1. cbn [bind].
    split; [exact E2|]. cbn [map]. rewrite <- app_assoc in I2. exact I2.
Qed.

(** The loop collects one block per parameter, in the order of the text. *)
Lemma scan_section lead ps :
  forallb wellNamed ps = true ->
  exists st,
    scanTokens scan0 (sectionTokens lead ps) = Ret st
    /\ blocks st = map blockOf ps.
Proof.
  intros Hw. unfold sectionTokens. cbn [scanTokens].
  change (scanToken scan0 (StartElement (L "parameters"))) with (Ret scan0).
  cbn [bind]. rewrite scanTokens_app, scan_text by (cbn; lia). cbn [bind].
  rewrite scanTokens_app.
  destruct (scan_params ps [] scan0
              (ex_intro _ None (ex_intro _ [] (ex_intro _ [] eq_refl))) Hw)
    as (st & E & (cur & ccn & ccv & ->)).
  rewrite E. cbn [bind scanTokens].
  eexists. split; [reflexivity|]. reflexivity.
Qed.

(** *** The text written for a block *)

Lemma child_app a b key :
  child (a ++ b) key
  = if existsb (fun kv => eqb_str (fst kv) key) a then child a key
    else child b key.
Proof.
  induction a as [|[k v] a IH]; [reflexivity|]. cbn [app child existsb fst].
  destruct (eqb_str k key); [reflexivity|exact IH].
Qed.

Lemma has_key_rev (fields : list Field) key :
  existsb (fun kv : str * str => eqb_str (fst kv) key)
    (rev (map (fun f => (fieldName f, TrimSpace (fieldText f))) fields))
  = existsb (fun g => eqb_str (fieldName g) key) fields.
Proof.
  induction fields as [|f rest IH]; [reflexivity|].
  cbn [map rev existsb]. rewrite existsb_app, IH. cbn [existsb fst].
  rewrite orb_false_r. apply orb_comm.
Qed.

Lemma child_fieldOf fields key :
  child (rev (map (fun f => (fieldName f, TrimSpace (fieldText f))) fields)) key
  = fieldOf fields key.
Proof.
  induction fields as [|f rest IH]; [reflexivity|].
  cbn [map rev fieldOf]. rewrite child_app, IH, has_key_rev. cbn [fst child].
  destruct (existsb _ rest); [reflexivity|].
  destruct (eqb_str (fieldName f) key); reflexivity.
Qed.

Lemma renderBlock_emit optimizedValues p :
  renderBlock optimizedValues (blockOf p) = emit optimizedValues p.
Proof.
  unfold renderBlock, emit, optimizable, fixedText, keptText, keptField,
    fixedValue, element.
  cbn [blockOf Name Children]. rewrite !child_fieldOf.
  change fixedTypeOf with fixedKind.
  destruct (eqb_str (fieldOf (paramFields p) (L "param_type")) (L "OptRange")
            && EqualFold (fieldOf (paramFields p) (L "optimizable_ind"))
                 (L "true")).
  - destruct (eqb_str (fieldOf (paramFields p) (L "data_type")) []);
      cbn [negb]; rewrite <- ?app_assoc; reflexivity.
  - destruct (eqb_str (fieldOf (paramFields p) (L "value")) []),
      (eqb_str (fieldOf (paramFields p) (L "param_type")) []),
      (eqb_str (fieldOf (paramFields p) (L "data_type")) []),
      (eqb_str (fieldOf (paramFields p) (L "optimizable_ind")) []);
      cbn [negb]; rewrite <- ?app_assoc; reflexivity.
Qed.

(** *** The parameters section of the second pass *)

Lemma replaceAll_none fuel s repl :
  findSection parametersOpen parametersClose s = None ->
  replaceAllSections fuel parametersOpen parametersClose s repl = s.
Proof. intros H. destruct fuel; cbn [replaceAllSections]; [|rewrite H]; reflexivity. Qed.

Lemma replaceAll_single s repl i j :
  findSection parametersOpen parametersClose s = Some (i, j) ->
  findSection parametersOpen parametersClose
    (skipn (j + length parametersClose) (skipn (i + length parametersOpen) s))
  = None ->
  replaceAllSections (length s) parametersOpen parametersClose s repl
  = firstn i s ++ repl
    ++ skipn (j + length parametersClose) (skipn (i + length parametersOpen) s).
Proof.
  intros H1 H2. destruct s as [|c s]; [discriminate|].
  cbn [length replaceAllSections]. rewrite H1, replaceAll_none by exact H2.
  reflexivity.
Qed.

Lemma concat_In {A} (f : A -> str) (x : A) l :
  In x l -> exists pre post, concat (map f l) = pre ++ f x ++ post.
Proof.
  intros H. apply in_split in H as (l1 & l2 & ->).
  exists (concat (map f l1)), (concat (map f l2)).
  rewrite map_app, concat_app. reflexivity.
Qed.

(** C4. Let the decoder read the parameters section of a descriptor as the
    parameter elements [ps] (elements with text children, none named
    [parameters]), let the row's JSON parse, and let the descriptor have one
    parameters section.  The second pass then replaces the section by the
    elements [emit] of the parameters, in order; a parameter whose
    [param_type] is [OptRange] and whose [optimizable_ind] is true (in any
    case of letters) is emitted with [param_type] [Fixed], [FixedString]
    for data type string, [FixedBool] for data type bool or boolean, and
    with [optimizable_ind] false. *)
Theorem second_pass_parameters_fixed
    (xmlStr parametersJSON lead : str) (optimizedValues : list (str * str))
    (i j : nat) (ps : list Param) :
  Unmarshal (cleanJSON parametersJSON) = Ret (Ok optimizedValues) ->
  findSection parametersOpen parametersClose xmlStr = Some (i, j) ->
  findSection parametersOpen parametersClose
    (skipn (j + length parametersClose)
       (skipn (i + length parametersOpen) xmlStr)) = None ->
  xmlTokens (parametersOpen
             ++ firstn j (skipn (i + length parametersOpen) xmlStr)
             ++ parametersClose)
  = Ret (Ok (sectionTokens lead ps)) ->
  forallb wellNamed ps = true ->
  existsb (Ascii.eqb "$") (concat (map (emit optimizedValues) ps)) = false ->
  replaceParametersWithFixed xmlStr parametersJSON
  = Ret (Ok (firstn i xmlStr
             ++ (parametersOpen ++ concat (map (emit optimizedValues) ps)
                 ++ parametersClose)
             ++ skipn (j + length parametersClose)
                  (skipn (i + length parametersOpen) xmlStr)))
  /\ forall p, In p ps -> optimizable p = true ->
       exists pre post,
         concat (map (emit optimizedValues) ps)
         = pre
           ++ fixedText (paramName p) (fixedValue optimizedValues p)
                (fieldOf (paramFields p) (L "data_type"))
           ++ post.
Proof.
  intros HJ Hfind Hone Htok Hw Hdollar. split.
  - unfold replaceParametersWithFixed, replaceParameters.
    rewrite HJ. cbn [bind]. rewrite Hfind.
    unfold transformParametersToFixed.
    change (L "<parameters>") with parametersOpen.
    change (L "</parameters>") with parametersClose.
    rewrite Htok. cbn [bind].
    destruct (scan_section lead ps Hw) as (st & E & Hb).
    rewrite E. cbn [bind]. rewrite Hb, map_map.
    rewrite (map_ext _ _ (renderBlock_emit optimizedValues)).
    unfold ReplaceAllString.
    replace (existsb (Ascii.eqb "$")
               (parametersOpen ++ concat (map (emit optimizedValues) ps)
                ++ parametersClose)) with false
      by (rewrite !existsb_app, Hdollar; reflexivity).
    cbn [bind]. rewrite (replaceAll_single _ _ i j Hfind Hone). reflexivity.
  - intros p Hp Hopt.
    destruct (concat_In (emit optimizedValues) p ps Hp) as (pre & post & E).
    exists pre, post. rewrite E. unfold emit. rewrite Hopt. reflexivity.
Qed.

(** A job element of a walk-forward descriptor: an integer parameter and a
    string parameter that are optimized, and one that is fixed. *)
Definition retest_template : str :=
  T "<Job>|  <task_type>WFO</task_type>|  <filename>j1_@ES_60_WFO.job</filename>|  <run>2</run>|  <startDate>2008-05-04</startDate>|  <endDate>2015-01-10</endDate>|  <parameters><len><value>5</value><start>1</start><end>20</end><param_type>OptRange</param_type><data_type>int</data_type><optimizable_ind>true</optimizable_ind></len><mode><value>fast</value><param_type>OptRange</param_type><data_type>String</data_type><optimizable_ind>True</optimizable_ind></mode><stop><value>7</value><param_type>Fixed</param_type><optimizable_ind>false</optimizable_ind></stop></parameters>|</Job>".

Definition retest_json : str := T "{'len':10,'mode':'slow'}".

Definition retest_field (n t : str) : Field :=
  {| fieldName := n; fieldText := t; fieldGap := [] |}.

Definition retest_len : Param :=
  {| paramName := L "len"; paramLead := [];
     paramFields :=
       [retest_field (L "value") (L "5"); retest_field (L "start") (L "1");
        retest_field (L "end") (L "20");
        retest_field (L "param_type") (L "OptRange");
        retest_field (L "data_type") (L "int");
        retest_field (L "optimizable_ind") (L "true")];
     paramGap := [] |}.

Definition retest_mode : Param :=
  {| paramName := L "mode"; paramLead := [];
     paramFields :=
       [retest_field (L "value") (L "fast");
        retest_field (L "param_type") (L "OptRange");
        retest_field (L "data_type") (L "String");
        retest_field (L "optimizable_ind") (L "True")];
     paramGap := [] |}.

Definition retest_stop : Param :=
  {| paramName := L "stop"; paramLead := [];
     paramFields :=
       [retest_field (L "value") (L "7");
        retest_field (L "param_type") (L "Fixed");
        retest_field (L "optimizable_ind") (L "false")];
     paramGap := [] |}.

Definition retest_params : list Param :=
  [retest_len; retest_mode; retest_stop].

Lemma second_pass_parameters_fixed_witness :
  replaceParametersWithFixed retest_template retest_json
  = Ret (Ok (T "<Job>|  <task_type>WFO</task_type>|  <filename>j1_@ES_60_WFO.job</filename>|  <run>2</run>|  <startDate>2008-05-04</startDate>|  <endDate>2015-01-10</endDate>|  <parameters><len>|  <value>10</value>|  <param_type>Fixed</param_type>|  <data_type>int</data_type>|  <optimizable_ind>false</optimizable_ind>|</len>|<mode>|  <value>slow</value>|  <param_type>FixedString</param_type>|  <data_type>String</data_type>|  <optimizable_ind>false</optimizable_ind>|</mode>|<stop>|  <value>7</value>|  <param_type>Fixed</param_type>|  <optimizable_ind>false</optimizable_ind>|</stop>|</parameters>|</Job>"))
  /\ exists pre post,
       concat (map (emit [(L "len", L "10"); (L "mode", L "slow")])
                 retest_params)
       = pre
         ++ T "<mode>|  <value>slow</value>|  <param_type>FixedString</param_type>|  <data_type>String</data_type>|  <optimizable_ind>false</optimizable_ind>|</mode>|"
         ++ post.
Proof.
  destruct (second_pass_parameters_fixed retest_template retest_json []
              [(L "len", L "10"); (L "mode", L "slow")] 161 386 retest_params)
    as [H1 H2]; try (vm_compute; reflexivity).
  split.
  - rewrite H1. vm_compute. reflexivity.
  - destruct (H2 retest_mode) as (pre & post & E).
    + cbn [retest_params In]. tauto.
    + vm_compute. reflexivity.
    + exists pre, post. rewrite E. reflexivity.
Defined.

(** *** The job elements of the second pass *)

Lemma retestLoop_rows matches rows rows' ranges ranges' jobID symbol timeframe
    totalRuns osPercentage :
  map Watcher.ParametersJSON rows = map Watcher.ParametersJSON rows' ->
  length ranges = length ranges' ->
  forall count i,
    retestLoop matches rows ranges jobID symbol timeframe totalRuns
      osPercentage count i
    = retestLoop matches rows' ranges' jobID symbol timeframe totalRuns
        osPercentage count i.
Proof.
  intros Hrows Hlen. induction count as [|count IH]; intros i; [reflexivity|].
  cbn [retestLoop].
  pose proof (f_equal (fun l => nth_error l i) Hrows) as Hi.
  cbn beta in Hi. rewrite !nth_error_map in Hi.
  assert (Hr : match nth_error ranges i, nth_error ranges' i with
               | Some _, Some _ | None, None => True
               | _, _ => False
               end).
  { destruct (nth_error ranges i) eqn:E1, (nth_error ranges' i) eqn:E2;
      try exact I.
    - apply nth_error_None in E2.
      assert (i < length ranges)%nat by (apply nth_error_Some; congruence). lia.
    - apply nth_error_None in E1.
      assert (i < length ranges')%nat by (apply nth_error_Some; congruence).
      lia. }
  destruct (nth_error rows i) as [row|], (nth_error rows' i) as [row'|];
    try discriminate;
    destruct (nth_error ranges i), (nth_error ranges' i);
    try contradiction; try reflexivity.
  cbn [option_map] in Hi. injection Hi as Hi.
  destruct (nth_error matches i) as [inner|]; [|reflexivity].
  unfold createWFORetestJobElement. rewrite Hi, IH. reflexivity.
Qed.

Lemma retestLoop_jobs matches rows ranges jobID symbol timeframe
    totalRuns osPercentage :
  forall count i jobs,
    retestLoop matches rows ranges jobID symbol timeframe totalRuns
      osPercentage count i = Ret (Ok jobs) ->
    length jobs = count
    /\ forall k job, nth_error jobs k = Some job ->
         exists inner row range,
           nth_error matches (i + k) = Some inner
           /\ nth_error rows (i + k) = Some row
           /\ createWFORetestJobElement (L "<Job>" ++ inner ++ L "</Job>")
                row range (Z.of_nat (i + k) + 1) jobID symbol timeframe
                totalRuns osPercentage
              = Ret (Ok job).
Proof.
  induction count as [|count IH]; intros i jobs H; cbn [retestLoop] in H.
  - injection H as <-. split; [reflexivity|]. intros [|k] job Hk; discriminate.
  - destruct (nth_error rows i) as [row|] eqn:Erow; [|discriminate].
    destruct (nth_error ranges i) as [range|] eqn:Erange; [|discriminate].
    destruct (nth_error matches i) as [inner|] eqn:Einner; [|discriminate].
    destruct (createWFORetestJobElement _ row range _ _ _ _ _ _)
      as [[job0|]| |] eqn:Ejob; cbn [bind] in H; try discriminate.
    destruct (retestLoop matches rows ranges jobID symbol timeframe totalRuns
                osPercentage count (S i)) as [[rest|]| |] eqn:Erest;
      cbn [bind] in H; try discriminate.
    injection H as <-. destruct (IH _ _ Erest) as [Hlen Hnth].
    split; [cbn [length]; rewrite Hlen; reflexivity|].
    intros [|k] job Hk; cbn [nth_error] in Hk.
    + injection Hk as <-. exists inner, row, range.
      rewrite Nat.add_0_r. repeat split; assumption.
    + destruct (Hnth k job Hk) as (inner' & row' & range' & H1 & H2 & H3).
      exists inner', row', range'.
      replace (i + S k)%nat with (S i + k)%nat by lia.
      repeat split; assumption.
Qed.

Lemma limit_min (a b c : nat) :
  (if Nat.ltb c (if Nat.ltb b a then b else a) then c
   else if Nat.ltb b a then b else a)
  = Nat.min (Nat.min a b) c.
Proof.
  destruct (Nat.ltb_spec b a) as [H1|H1];
    [destruct (Nat.ltb_spec c b)|destruct (Nat.ltb_spec c a)]; lia.
Qed.

(** C5, as the code has it.  The second-pass descriptor has as many job
    elements as the shortest of the rows, the job elements of the original
    descriptor and the date ranges; the k-th element is built from the k-th
    job element of the original descriptor and the [parameters_json] of the
    k-th row alone.  The [startDate] and [endDate] tags are not rewritten,
    for no run: two tables whose rows differ in their dates only (with any
    date ranges of the same number) give the same descriptor. *)
Theorem second_pass_dates_from_template
    (originalXML : str) (rows rows' : list Watcher.OPTResult)
    (ranges ranges' : list WFORetestDateRange) (jobID symbol timeframe : str)
    (totalRuns osPercentage : Z) (out : str) :
  map Watcher.ParametersJSON rows = map Watcher.ParametersJSON rows' ->
  length ranges = length ranges' ->
  buildWFORetestXML originalXML rows ranges jobID symbol timeframe totalRuns
    osPercentage = Ret (Ok out) ->
  buildWFORetestXML originalXML rows' ranges' jobID symbol timeframe totalRuns
    osPercentage = Ret (Ok out)
  /\ exists jobs,
       out = wrapRoot (Join jobs [nl])
       /\ length jobs
          = Nat.min (Nat.min (length rows) (length (jobMatches originalXML)))
              (length ranges)
       /\ forall k job, nth_error jobs k = Some job ->
            exists inner row,
              nth_error (jobMatches originalXML) k = Some inner
              /\ nth_error rows k = Some row
              /\ replaceParametersWithFixed
                   (replaceXMLTag
                      (replaceXMLTag (L "<Job>" ++ inner ++ L "</Job>")
                         (L "task_type") (L "WFO_RETEST"))
                      (L "filename")
                      (jobID ++ L "_" ++ symbol ++ L "_" ++ timeframe
                       ++ L "_WFO_RETEST_RUN-" ++ Itoa totalRuns ++ L "_OS-"
                       ++ Itoa osPercentage ++ L ".job"))
                   (Watcher.ParametersJSON row)
                 = Ret (Ok job).
Proof.
  intros Hrows Hlen Hbuild. split.
  - rewrite <- Hbuild. unfold buildWFORetestXML.
    pose proof (f_equal (@length _) Hrows) as Hl. rewrite !length_map in Hl.
    rewrite <- Hl, <- Hlen.
    rewrite (retestLoop_rows _ rows rows' ranges ranges' _ _ _ _ _ Hrows Hlen).
    reflexivity.
  - unfold buildWFORetestXML in Hbuild.
    destruct (Nat.eqb (length (jobMatches originalXML)) 0); [discriminate|].
    set (limit := if Nat.ltb (length ranges)
                       (if Nat.ltb (length (jobMatches originalXML))
                             (length rows)
                        then length (jobMatches originalXML) else length rows)
                  then length ranges
                  else if Nat.ltb (length (jobMatches originalXML))
                            (length rows)
                       then length (jobMatches originalXML) else length rows)
      in *.
    assert (Hlimit : limit
                     = Nat.min (Nat.min (length rows)
                                  (length (jobMatches originalXML)))
                         (length ranges)).
    { apply limit_min. }
    destruct (Nat.eqb limit 0); [discriminate|].
    destruct (retestLoop _ rows ranges _ _ _ _ _ limit 0)
      as [[jobs|]| |] eqn:E; cbn [bind] in Hbuild; try discriminate.
    injection Hbuild as <-. destruct (retestLoop_jobs _ _ _ _ _ _ _ _ _ _ _ E)
      as [Hl Hnth].
    exists jobs. split; [reflexivity|]. split; [lia|].
    intros k job Hk.
    destruct (Hnth k job Hk) as (inner & row & range & H1 & H2 & H3).
    exists inner, row. cbn [Nat.add] in H1, H2. repeat split; assumption.
Qed.

(** A walk-forward descriptor of two runs (each job element spans the IS
    start through the OS end of its run) and the two rows of its
    parameter-optimization table. *)
Definition retest_first_job : str :=
  T "<Job>|  <task_type>WFO</task_type>|  <filename>j1_@ES_60_WFO.job</filename>|  <run>1</run>|  <startDate>2007-01-01</startDate>|  <endDate>2013-09-08</endDate>|  <parameters><len><value>5</value><start>1</start><end>20</end><param_type>OptRange</param_type><data_type>int</data_type><optimizable_ind>true</optimizable_ind></len></parameters>|</Job>".

Definition retest_original : str :=
  wrapRoot (Join [retest_first_job; retest_template] [nl]).

Definition retest_row1 : Watcher.OPTResult :=
  {| Watcher.Run := 1; Watcher.ParametersJSON := T "{'len':12}";
     Watcher.ISStartDate := L "2007-01-01";
     Watcher.ISEndDate := L "2012-05-06";
     Watcher.OSStartDate := L "2012-05-07";
     Watcher.OSEndDate := L "2013-09-08" |}.

Definition retest_row2 : Watcher.OPTResult :=
  {| Watcher.Run := 2; Watcher.ParametersJSON := retest_json;
     Watcher.ISStartDate := L "2008-05-04";
     Watcher.ISEndDate := L "2013-09-08";
     Watcher.OSStartDate := L "2013-09-09";
     Watcher.OSEndDate := L "2015-01-10" |}.

(** The date range of a row, without buffer days. *)
Definition retest_range (r : Watcher.OPTResult) : WFORetestDateRange :=
  {| OriginalISStart := Watcher.ISStartDate r;
     OriginalISEnd := Watcher.ISEndDate r;
     OriginalOSStart := Watcher.OSStartDate r;
     OriginalOSEnd := Watcher.OSEndDate r;
     BufferedISStart := Watcher.ISStartDate r;
     BufferedISEnd := Watcher.ISEndDate r;
     BufferedOSStart := Watcher.OSStartDate r;
     BufferedOSEnd := Watcher.OSEndDate r;
     ISBufferDays := 0; OSBufferDays := 0 |}.

(** The same row with every date moved to one day in 1999. *)
Definition retest_redated (r : Watcher.OPTResult) : Watcher.OPTResult :=
  {| Watcher.Run := Watcher.Run r;
     Watcher.ParametersJSON := Watcher.ParametersJSON r;
     Watcher.ISStartDate := L "1999-01-01";
     Watcher.ISEndDate := L "1999-01-01";
     Watcher.OSStartDate := L "1999-01-01";
     Watcher.OSEndDate := L "1999-01-01" |}.

Definition retest_second_job : str :=
  T "<Job>|  <task_type>WFO_RETEST</task_type>|  <filename>j1_@ES_60_WFO_RETEST_RUN-2_OS-20.job</filename>|  <run>2</run>|  <startDate>2008-05-04</startDate>|  <endDate>2015-01-10</endDate>|  <parameters><len>|  <value>10</value>|  <param_type>Fixed</param_type>|  <data_type>int</data_type>|  <optimizable_ind>false</optimizable_ind>|</len>|<mode>|  <value>slow</value>|  <param_type>FixedString</param_type>|  <data_type>String</data_type>|  <optimizable_ind>false</optimizable_ind>|</mode>|<stop>|  <value>7</value>|  <param_type>Fixed</param_type>|  <optimizable_ind>false</optimizable_ind>|</stop>|</parameters>|</Job>".

Definition retest_second_pass : str :=
  wrapRoot
    (Join
       [T "<Job>|  <task_type>WFO_RETEST</task_type>|  <filename>j1_@ES_60_WFO_RETEST_RUN-2_OS-20.job</filename>|  <run>1</run>|  <startDate>2007-01-01</startDate>|  <endDate>2013-09-08</endDate>|  <parameters><len>|  <value>12</value>|  <param_type>Fixed</param_type>|  <data_type>int</data_type>|  <optimizable_ind>false</optimizable_ind>|</len>|</parameters>|</Job>";
        retest_second_job]
       [nl]).

Lemma second_pass_dates_from_template_witness :
  buildWFORetestXML retest_original
    [retest_redated retest_row1; retest_redated retest_row2]
    [retest_range retest_row2; retest_range retest_row1]
    (L "j1") (L "@ES") (L "60") 2 20
  = Ret (Ok retest_second_pass)
  /\ exists jobs,
       retest_second_pass = wrapRoot (Join jobs [nl])
       /\ length jobs = 2%nat
       /\ forall k job, nth_error jobs k = Some job ->
            exists inner row,
              nth_error (jobMatches retest_original) k = Some inner
              /\ nth_error [retest_row1; retest_row2] k = Some row
              /\ replaceParametersWithFixed
                   (replaceXMLTag
                      (replaceXMLTag (L "<Job>" ++ inner ++ L "</Job>")
                         (L "task_type") (L "WFO_RETEST"))
                      (L "filename")
                      (L "j1" ++ L "_" ++ L "@ES" ++ L "_" ++ L "60"
                       ++ L "_WFO_RETEST_RUN-" ++ Itoa 2 ++ L "_OS-"
                       ++ Itoa 20 ++ L ".job"))
                   (Watcher.ParametersJSON row)
                 = Ret (Ok job).
Proof.
  apply (second_pass_dates_from_template retest_original
           [retest_row1; retest_row2]
           [retest_redated retest_row1; retest_redated retest_row2]
           [retest_range retest_row1; retest_range retest_row2]
           [retest_range retest_row2; retest_range retest_row1]
           (L "j1") (L "@ES") (L "60") 2 20 retest_second_pass);
    vm_compute; reflexivity.
Defined.

(** C5 as stated fails for the second run.  The second row of the table
    has its OS period from 2013-09-09 to 2015-01-10; the second job element
    of the second-pass descriptor keeps the [startDate] of the original
    job element, 2008-05-04 (the IS start of that run), so it spans IS and
    OS, not the OS period only. *)
Lemma second_run_keeps_template_start_date :
  buildWFORetestXML retest_original [retest_row1; retest_row2]
    [retest_range retest_row1; retest_range retest_row2]
    (L "j1") (L "@ES") (L "60") 2 20
  = Ret (Ok retest_second_pass)
  /\ extractXMLTagValue retest_second_job (L "startDate")
     = Ret (Ok (L "2008-05-04"))
  /\ extractXMLTagValue retest_second_job (L "endDate")
     = Ret (Ok (L "2015-01-10"))
  /\ Watcher.OSStartDate retest_row2 = L "2013-09-09"
  /\ Watcher.OSEndDate retest_row2 = L "2015-01-10"
  /\ extractXMLTagValue retest_second_job (L "startDate")
     <> Ret (Ok (Watcher.OSStartDate retest_row2)).
Proof.
  repeat split; try (vm_compute; reflexivity).
  vm_compute. discriminate.
Qed.

End RetestFacts.
(** ** Searching and editing descriptor text *)

Module XmlFacts.
Import Expand Chunks Edits.

(** *** [strings.Index] *)

Lemma HasPrefix_short (x b p : str) :
  (length p <= length x)%nat -> HasPrefix (x ++ b) p = HasPrefix x p.
Proof.
  revert x. induction p as [|a p IH]; intros x H.
  - rewrite !HasPrefix_nil. reflexivity.
  - destruct x as [|c x]; cbn in *; [lia|].
    rewrite IH by lia. reflexivity.
Qed.

(** Two texts with a common prefix [a] agree on every occurrence that lies
    inside [a]. *)
Lemma HasPrefix_window (a b c p : str) j :
  (j + length p <= length a)%nat ->
  HasPrefix (skipn j (a ++ b)) p = HasPrefix (skipn j (a ++ c)) p.
Proof.
  intros H. rewrite !skipn_app.
  replace (j - length a)%nat with O by lia. cbn [skipn].
  rewrite !HasPrefix_short by (rewrite length_skipn; lia). reflexivity.
Qed.

Lemma Index_some (p : str) : forall s i,
  Index s p = Some i ->
  (i <= length s)%nat /\ HasPrefix (skipn i s) p = true
  /\ forall j, (j < i)%nat -> HasPrefix (skipn j s) p = false.
Proof.
  induction s as [|c s IH]; intros i H.
  - cbn [Index] in H. destruct (HasPrefix [] p) eqn:E; [|discriminate].
    injection H as <-. repeat split; [lia|exact E|intros; lia].
  - cbn [Index] in H. destruct (HasPrefix (c :: s) p) eqn:E.
    + injection H as <-. repeat split; [cbn; lia|exact E|intros; lia].
    + destruct (Index s p) as [k|] eqn:Ek; [|discriminate].
      injection H as <-. destruct (IH k eq_refl) as (H1 & H2 & H3).
      repeat split; [cbn; lia|exact H2|].
      intros [|j] Hj; [exact E|]. apply H3. lia.
Qed.

Lemma Index_intro (p : str) : forall s i,
  (i <= length s)%nat -> HasPrefix (skipn i s) p = true ->
  (forall j, (j < i)%nat -> HasPrefix (skipn j s) p = false) ->
  Index s p = Some i.
Proof.
  induction s as [|c s IH]; intros i Hi Hp Hj.
  - cbn in Hi. assert (i = O) by lia. subst. cbn [Index skipn] in *.
    rewrite Hp. reflexivity.
  - cbn [Index]. destruct i as [|i].
    + cbn [skipn] in Hp. rewrite Hp. reflexivity.
    + pose proof (Hj O ltac:(lia)) as H0. cbn [skipn] in H0. rewrite H0.
      rewrite (IH i); [reflexivity|cbn in Hi; lia|exact Hp|].
      intros j H. apply (Hj (S j)). lia.
Qed.

Lemma Index_none (p : str) : forall s,
  Index s p = None -> forall j, HasPrefix (skipn j s) p = false.
Proof.
  induction s as [|c s IH]; intros H j.
  - cbn [Index] in H. destruct (HasPrefix [] p) eqn:E; [discriminate|].
    rewrite skipn_nil. exact E.
  - cbn [Index] in H. destruct (HasPrefix (c :: s) p) eqn:E; [discriminate|].
    destruct (Index s p) eqn:Ek; [discriminate|].
    destruct j as [|j]; [exact E|]. apply IH. reflexivity.
Qed.

Lemma Index_none_intro (p : str) : forall s,
  (forall j, (j <= length s)%nat -> HasPrefix (skipn j s) p = false) ->
  Index s p = None.
Proof.
  induction s as [|c s IH]; intros H.
  - pose proof (H O ltac:(cbn; lia)) as H0. cbn [skipn] in H0.
    cbn [Index]. rewrite H0. reflexivity.
  - pose proof (H O ltac:(cbn; lia)) as H0. cbn [skipn] in H0.
    cbn [Index]. rewrite H0.
    rewrite IH; [reflexivity|].
    intros j Hj. apply (H (S j)). cbn. lia.
Qed.

(** An end tag never starts where its start tag starts. *)
Lemma close_not_open (c : ascii) : forall (name X : str),
  Ascii.eqb c ">" = false ->
  HasPrefix (name ++ ">"%char :: X) (c :: name ++ L ">") = false.
Proof.
  induction name as [|t name IH]; intros X Hc; cbn.
  - rewrite Hc. reflexivity.
  - destruct (Ascii.eqb c t) eqn:E; [|reflexivity]. cbn.
    apply Ascii.eqb_eq in E. subst t. apply IH. exact Hc.
Qed.

Lemma HasPrefix_first_lt (s q : str) :
  noltb s = true -> s <> [] -> HasPrefix (s) (lt :: q) = false.
Proof.
  destruct s as [|c s]; intros H Hne; [contradiction|].
  unfold noltb in H. cbn [forallb HasPrefix] in *. apply andb_prop in H as [H _].
  apply negb_true_iff in H. rewrite (Ascii.eqb_sym lt c), H. reflexivity.
Qed.

Lemma HasPrefix_first_lt_app (s R q : str) :
  noltb s = true -> s <> [] -> HasPrefix (s ++ R) (lt :: q) = false.
Proof.
  destruct s as [|c s]; intros H Hne; [contradiction|].
  unfold noltb in H. cbn [forallb HasPrefix app] in *.
  apply andb_prop in H as [H _].
  apply negb_true_iff in H. rewrite (Ascii.eqb_sym lt c), H. reflexivity.
Qed.

Lemma Index_split (s p : str) i :
  Index s p = Some i -> s = firstn i s ++ p ++ skipn (i + length p) s.
Proof.
  intros H. destruct (Index_some p s i H) as (_ & Hp & _).
  apply HasPrefix_split in Hp. rewrite skipn_skipn in Hp.
  rewrite (Nat.add_comm (length p) i) in Hp.
  rewrite <- Hp. symmetry. apply firstn_skipn.
Qed.

(** *** Where the tags are after an edit *)

(** The text [before ++ startTag ++ ...] has its first start tag where the
    original has it. *)
Lemma Index_open_kept (xml T Y : str) i :
  Index xml (startTagOf T) = Some i ->
  Index (firstn i xml ++ startTagOf T ++ Y) (startTagOf T) = Some i.
Proof.
  intros H. destruct (Index_some _ _ _ H) as (Hi & Hp & Hj).
  assert (Hlen : length (firstn i xml) = i) by (rewrite length_firstn; lia).
  apply Index_intro.
  - rewrite length_app. lia.
  - rewrite skipn_app, Hlen, Nat.sub_diag. cbn [skipn].
    rewrite skipn_all2 by lia. cbn [app]. apply HasPrefix_app.
  - intros j Hlt. rewrite app_assoc.
    rewrite (HasPrefix_window _ _ (skipn (i + length (startTagOf T)) xml))
      by (rewrite length_app; lia).
    rewrite <- app_assoc, <- (Index_split _ _ _ H). apply Hj. exact Hlt.
Qed.

(** With a new value without [<], the first end tag is the one behind the
    value. *)
Lemma Index_close_moved (xml T v Z : str) i k :
  noltb T = true -> noltb v = true ->
  Index xml (startTagOf T) = Some i -> Index xml (endTagOf T) = Some k ->
  (i + length (startTagOf T) <= k)%nat ->
  Index (firstn i xml ++ startTagOf T ++ v ++ endTagOf T ++ Z) (endTagOf T)
  = Some (i + length (startTagOf T) + length v)%nat.
Proof.
  intros HT Hv Ho Hc Hle.
  destruct (Index_some _ _ _ Ho) as (Hi & _ & _).
  destruct (Index_some _ _ _ Hc) as (_ & _ & Hj).
  assert (Hlen : length (firstn i xml) = i) by (rewrite length_firstn; lia).
  assert (Hm : noltb (qO T ++ v) = true).
  { unfold qO. rewrite !noltb_app, HT, Hv. reflexivity. }
  assert (Hshape : startTagOf T ++ v ++ endTagOf T ++ Z
                   = lt :: (qO T ++ v) ++ endTagOf T ++ Z).
  { rewrite startTagOf_q. cbn [app]. rewrite <- app_assoc. reflexivity. }
  assert (Hol : length (startTagOf T) = S (S (length T))).
  { rewrite startTagOf_q. unfold qO, L. cbn [length list_ascii_of_string].
    rewrite length_app. cbn [length]. lia. }
  assert (Hcl : length (endTagOf T) = S (S (S (length T)))).
  { rewrite endTagOf_q. unfold qC, L. cbn [length list_ascii_of_string].
    rewrite length_app. cbn [length]. lia. }
  apply Index_intro.
  - rewrite !length_app. lia.
  - rewrite <- Nat.add_assoc, <- (length_app (startTagOf T) v).
    rewrite skipn_app, Hlen.
    rewrite skipn_all2 by lia. cbn [app].
    replace (i + length (startTagOf T ++ v) - i)%nat
      with (length (startTagOf T ++ v)) by lia.
    rewrite (app_assoc (startTagOf T) v), skipn_head. apply HasPrefix_app.
  - intros j Hlt. destruct (Nat.lt_ge_cases j i) as [Hji|Hji].
    + rewrite app_assoc.
      rewrite (HasPrefix_window _ _ (skipn (i + length (startTagOf T)) xml))
        by (rewrite length_app; lia).
      rewrite <- app_assoc, <- (Index_split _ _ _ Ho). apply Hj. lia.
    + rewrite skipn_app, Hlen, skipn_all2 by lia. cbn [app].
      rewrite Hshape. remember (j - i)%nat as d eqn:Ed.
      destruct d as [|d]; cbn [skipn].
      * rewrite endTagOf_q at 2. cbn [HasPrefix]. rewrite Ascii.eqb_refl.
        cbn [andb]. unfold qC, qO. rewrite <- !app_assoc. cbn [app].
        apply close_not_open. reflexivity.
      * rewrite skipn_app.
        assert (Hd : (d < length (qO T ++ v))%nat).
        { unfold qO. rewrite !length_app.
          change (length (L ">")) with 1%nat. lia. }
        rewrite endTagOf_q at 2. apply HasPrefix_first_lt_app.
        -- apply noltb_skipn. exact Hm.
        -- intros E. apply (f_equal (@length _)) in E.
           rewrite length_skipn in E. cbn in E. lia.
Qed.

Lemma extract_indices (xml T old : str) :
  extractXMLTagValue xml T = Ret (Ok old) ->
  exists i k,
    Index xml (startTagOf T) = Some i /\ Index xml (endTagOf T) = Some k
    /\ (i + length (startTagOf T) <= k)%nat.
Proof.
  unfold extractXMLTagValue. intros H.
  destruct (Index xml (startTagOf T)) as [i|]; [|discriminate].
  destruct (Index xml (endTagOf T)) as [k|]; [|discriminate].
  destruct (Nat.leb (i + length (startTagOf T)) k) eqn:E; [|discriminate].
  exists i, k. repeat split. apply Nat.leb_le. exact E.
Qed.

Lemma replace_shape (xml T v : str) i k :
  Index xml (startTagOf T) = Some i -> Index xml (endTagOf T) = Some k ->
  replaceXMLTag xml T v
  = firstn i xml ++ startTagOf T ++ v ++ endTagOf T
    ++ skipn (k + length (endTagOf T)) xml.
Proof.
  intros Ho Hc. unfold replaceXMLTag. rewrite Ho, Hc.
  rewrite <- !app_assoc. reflexivity.
Qed.

(** X1. A value written with [replaceXMLTag] is the value that
    [extractXMLTagValue] reads back (trimmed, as it always is), whenever the
    tag could be read before and neither the tag name nor the new value
    holds a [<]. *)
Theorem replace_then_extract (xml tagName old newValue : str) :
  noltb tagName = true -> noltb newValue = true ->
  extractXMLTagValue xml tagName = Ret (Ok old) ->
  extractXMLTagValue (replaceXMLTag xml tagName newValue) tagName
  = Ret (Ok (TrimSpace newValue)).
Proof.
  intros HT Hv Hold.
  destruct (extract_indices _ _ _ Hold) as (i & k & Ho & Hc & Hle).
  destruct (Index_some _ _ _ Ho) as (Hi & _ & _).
  rewrite (replace_shape _ _ _ _ _ Ho Hc). unfold extractXMLTagValue.
  rewrite (Index_open_kept _ _ _ _ Ho).
  rewrite (Index_close_moved _ _ _ _ _ _ HT Hv Ho Hc Hle).
  replace (Nat.leb (i + length (startTagOf tagName))
             (i + length (startTagOf tagName) + length newValue))
    with true by (symmetry; apply Nat.leb_le; lia).
  unfold slice.
  replace (i + length (startTagOf tagName) + length newValue
           - (i + length (startTagOf tagName)))%nat
    with (length newValue) by lia.
  rewrite app_assoc, skipn_app.
  rewrite skipn_all2 by (rewrite length_app, length_firstn; lia).
  rewrite length_app, length_firstn.
  replace (i + length (startTagOf tagName)
           - (Nat.min i (length xml) + length (startTagOf tagName)))%nat
    with O by lia.
  cbn [app skipn]. rewrite firstn_head. reflexivity.
Qed.

Lemma replace_then_extract_witness :
  extractXMLTagValue
    (replaceXMLTag RangeFacts.descriptor_s2 (L "Symbol") (L " @NQ "))
    (L "Symbol")
  = Ret (Ok (L "@NQ")).
Proof.
  apply (replace_then_extract RangeFacts.descriptor_s2 (L "Symbol") (L "@ES")
           (L " @NQ ")); reflexivity.
Defined.

(** X2. Of two [replaceXMLTag] calls on the same tag the later one wins:
    the result is the same as that of the second call alone.  The start tag
    must not come behind the end tag (which is when [extractXMLTagValue]
    panics), and the first value must hold no [<]. *)
Theorem replace_twice (xml tagName v1 v2 : str) :
  noltb tagName = true -> noltb v1 = true ->
  extractXMLTagValue xml tagName <> Panic ->
  replaceXMLTag (replaceXMLTag xml tagName v1) tagName v2
  = replaceXMLTag xml tagName v2.
Proof.
  intros HT Hv Hnp.
  destruct (Index xml (startTagOf tagName)) as [i|] eqn:Ho.
  2: { unfold replaceXMLTag at 2. rewrite Ho. reflexivity. }
  destruct (Index xml (endTagOf tagName)) as [k|] eqn:Hc.
  2: { unfold replaceXMLTag at 2. rewrite Ho, Hc. reflexivity. }
  assert (Hle : (i + length (startTagOf tagName) <= k)%nat).
  { unfold extractXMLTagValue in Hnp. rewrite Ho, Hc in Hnp.
    destruct (Nat.leb (i + length (startTagOf tagName)) k) eqn:E;
      [apply Nat.leb_le; exact E|contradiction]. }
  destruct (Index_some _ _ _ Ho) as (Hi & _ & _).
  rewrite (replace_shape xml _ v1 _ _ Ho Hc).
  rewrite (replace_shape _ _ v2 _ _
             (Index_open_kept _ _ _ _ Ho)
             (Index_close_moved _ _ _ _ _ _ HT Hv Ho Hc Hle)).
  rewrite (replace_shape xml _ v2 _ _ Ho Hc).
  rewrite firstn_app, firstn_firstn, Nat.min_id.
  rewrite length_firstn.
  replace (i - Nat.min i (length xml))%nat with O by lia.
  cbn [firstn]. rewrite app_nil_r.
  do 4 f_equal.
  rewrite !app_assoc.
  rewrite skipn_app, skipn_all2; [cbn [app]|rewrite !length_app, length_firstn; lia].
  rewrite !length_app, length_firstn.
  replace (i + length (startTagOf tagName) + length v1
           + length (endTagOf tagName)
           - (Nat.min i (length xml) + length (startTagOf tagName)
              + length v1 + length (endTagOf tagName)))%nat with O by lia.
  reflexivity.
Qed.

Lemma replace_twice_witness :
  replaceXMLTag (replaceXMLTag RangeFacts.descriptor_s2 (L "Symbol") (L "@NQ"))
    (L "Symbol") (L "@CL")
  = replaceXMLTag RangeFacts.descriptor_s2 (L "Symbol") (L "@CL").
Proof.
  apply replace_twice; [reflexivity|reflexivity|].
  vm_compute. discriminate.
Defined.

(** *** Adding a tag *)

Lemma Contains_LastIndex (q : str) : forall s,
  Contains s q = true -> exists p, LastIndex s q = Some p /\ (p <= length s)%nat.
Proof.
  unfold Contains. induction s as [|c s IH]; intros H.
  - cbn [Index LastIndex] in *. destruct (HasPrefix [] q); [|discriminate].
    exists O. split; [reflexivity|lia].
  - cbn [LastIndex]. destruct (LastIndex s q) as [p|] eqn:E.
    + destruct (Index s q) eqn:Ei.
      * destruct (IH eq_refl) as (p' & Hp & Hle). injection Hp as <-.
        exists (S p). split; [reflexivity|cbn; lia].
      * exists (S p). split; [reflexivity|].
        assert (Hs : forall t, LastIndex t q = Some p -> (p <= length t)%nat).
        { clear. intros t. revert p. induction t as [|x t IHt]; intros p H.
          - cbn [LastIndex] in H. destruct (HasPrefix [] q); [|discriminate].
            injection H as <-. lia.
          - cbn [LastIndex] in H. destruct (LastIndex t q) as [p'|].
            + injection H as <-. specialize (IHt p' eq_refl). cbn. lia.
            + destruct (HasPrefix (x :: t) q); [|discriminate].
              injection H as <-. lia. }
        specialize (Hs s E). cbn. lia.
    + cbn [Index] in H. destruct (HasPrefix (c :: s) q).
      * exists O. split; [reflexivity|lia].
      * destruct (Index s q) eqn:Ei; [|discriminate].
        destruct (IH eq_refl) as (p' & Hp & _). discriminate.
Qed.

Lemma Contains_false (s q : str) :
  Contains s q = false -> forall j, HasPrefix (skipn j s) q = false.
Proof.
  unfold Contains. intros H. apply Index_none.
  destruct (Index s q); [discriminate|reflexivity].
Qed.

Lemma quiet_inv (c : ascii) (q : str) :
  quiet (c :: q) = true ->
  isCut c = false /\ Ascii.eqb c lt = false /\ quiet q = true.
Proof.
  unfold quiet. cbn [forallb]. intros H.
  apply andb_prop in H as [H1 H2]. apply andb_prop in H1 as [H0 H1].
  apply negb_true_iff in H0, H1. repeat split; assumption.
Qed.

Lemma quiet_no_space (q : str) : quiet q = true -> ~ In " "%char q.
Proof.
  induction q as [|c q IH]; intros H Hin; [contradiction|].
  destruct Hin as [E|E].
  - subst c. apply quiet_inv in H as (H & _). discriminate.
  - apply quiet_inv in H as (_ & _ & H). exact (IH H E).
Qed.

(** A pattern without blanks does not straddle a blank. *)
Lemma HasPrefix_straddle (a w q : str) (x : ascii) :
  ~ In x q -> (length a < length q)%nat -> HasPrefix (a ++ x :: w) q = false.
Proof.
  intros Hx Hlen. rewrite (HasPrefix_app_other _ _ _ _ Hx).
  destruct (HasPrefix a q) eqn:E; [|reflexivity].
  apply HasPrefix_length in E. lia.
Qed.

(** In front of an inserted blank, a pattern without blanks that does not
    occur in the original is not found. *)
Lemma no_match_before (xml W q : str) p j :
  (p <= length xml)%nat -> ~ In " "%char q ->
  Contains xml (lt :: q) = false -> (j < p)%nat ->
  HasPrefix (skipn j (firstn p xml ++ " "%char :: W)) (lt :: q) = false.
Proof.
  intros Hp Hq Hno Hjp.
  assert (Hlen : length (firstn p xml) = p) by (rewrite length_firstn; lia).
  destruct (Nat.le_gt_cases (j + length (lt :: q)) p) as [Hin|Hout].
  - rewrite (HasPrefix_window _ _ (skipn p xml)) by lia.
    rewrite firstn_skipn. apply Contains_false. exact Hno.
  - rewrite skipn_app, Hlen. replace (j - p)%nat with O by lia.
    cbn [skipn]. apply HasPrefix_straddle.
    + intros [E|E]; [discriminate|exact (Hq E)].
    + rewrite length_skipn. lia.
Qed.

Lemma Index_added_open (xml tail q : str) p :
  (p <= length xml)%nat -> ~ In " "%char q ->
  Contains xml (lt :: q) = false -> HasPrefix tail q = true ->
  Index (firstn p xml ++ L "  " ++ lt :: tail) (lt :: q) = Some (p + 2)%nat.
Proof.
  intros Hp Hq Hno Hat.
  assert (Hlen : length (firstn p xml) = p) by (rewrite length_firstn; lia).
  change (L "  " ++ lt :: tail) with (" "%char :: " "%char :: lt :: tail).
  apply Index_intro.
  - rewrite length_app, Hlen. cbn [length]. lia.
  - rewrite skipn_app, Hlen, skipn_all2 by lia. cbn [app].
    replace (p + 2 - p)%nat with 2%nat by lia. cbn [skipn HasPrefix].
    rewrite Ascii.eqb_refl. exact Hat.
  - intros j Hj. destruct (Nat.lt_ge_cases j p) as [Hjp|Hjp].
    + apply no_match_before; assumption.
    + rewrite skipn_app, Hlen, skipn_all2 by lia. cbn [app].
      remember (j - p)%nat as e eqn:Ee.
      destruct e as [|[|e]]; cbn [skipn]; try reflexivity. lia.
Qed.

(** The same for a pattern found [d] bytes into the new tag, when the
    bytes before it hold no [<]. *)
Lemma Index_added_close (xml tail q : str) p d :
  (p <= length xml)%nat -> ~ In " "%char q ->
  Contains xml (lt :: q) = false ->
  noltb (firstn d tail) = true -> (d <= length tail)%nat ->
  HasPrefix tail q = false ->
  HasPrefix (skipn d tail) (lt :: q) = true ->
  Index (firstn p xml ++ L "  " ++ lt :: tail) (lt :: q)
  = Some (p + 3 + d)%nat.
Proof.
  intros Hp Hq Hno Hd Hdl H0 Hat.
  assert (Hlen : length (firstn p xml) = p) by (rewrite length_firstn; lia).
  change (L "  " ++ lt :: tail) with (" "%char :: " "%char :: lt :: tail).
  apply Index_intro.
  - rewrite length_app, Hlen. cbn [length]. lia.
  - rewrite skipn_app, Hlen, skipn_all2 by lia. cbn [app].
    replace (p + 3 + d - p)%nat with (3 + d)%nat by lia. exact Hat.
  - intros j Hj. destruct (Nat.lt_ge_cases j p) as [Hjp|Hjp].
    + apply no_match_before; assumption.
    + rewrite skipn_app, Hlen, skipn_all2 by lia. cbn [app].
      remember (j - p)%nat as e eqn:Ee.
      destruct e as [|[|[|e]]]; cbn [skipn]; try reflexivity.
      * cbn [HasPrefix]. rewrite Ascii.eqb_refl. exact H0.
      * assert (He : (e < d)%nat) by lia.
        rewrite <- (firstn_skipn d tail) at 1. rewrite skipn_app.
        assert (Hfl : length (firstn d tail) = d)
          by (rewrite length_firstn; lia).
        apply HasPrefix_first_lt_app.
        -- apply noltb_skipn. exact Hd.
        -- intros E. apply (f_equal (@length _)) in E.
           rewrite length_skipn in E. cbn in E. lia.
Qed.

Lemma add_shape (xml tag value : str) p :
  LastIndex xml (L "</Job>") = Some p ->
  addXMLTag xml tag value
  = firstn p xml ++ L "  "
    ++ lt :: (qO tag ++ value ++ lt :: qC tag ++ nl :: skipn p xml).
Proof.
  intros H. unfold addXMLTag. rewrite H. unfold qO, qC, L, lt.
  cbn [list_ascii_of_string app].
  repeat (rewrite <- ?app_assoc; cbn [app]). reflexivity.
Qed.

(** X3. A tag added with [addXMLTag] is read back by [extractXMLTagValue]:
    when the text has a [</Job>] and neither tag of the new name, the name
    holds no blank and no [<], and the value no [<], the value read is the
    value added (trimmed). *)
Theorem add_then_extract (xmlContent tagName value : str) :
  quiet tagName = true -> noltb value = true ->
  Contains xmlContent (L "</Job>") = true ->
  Contains xmlContent (startTagOf tagName) = false ->
  Contains xmlContent (endTagOf tagName) = false ->
  extractXMLTagValue (addXMLTag xmlContent tagName value) tagName
  = Ret (Ok (TrimSpace value)).
Proof.
  intros HT Hv HJ Hno Hnc.
  destruct (Contains_LastIndex _ _ HJ) as (p & Hp & Hle).
  assert (HTn : noltb tagName = true) by (apply quiet_nolt; exact HT).
  assert (Hsp : ~ In " "%char tagName) by (apply quiet_no_space; exact HT).
  rewrite (add_shape _ _ _ _ Hp). unfold extractXMLTagValue.
  rewrite startTagOf_q, endTagOf_q in *.
  rewrite (Index_added_open _ _ (qO tagName) _ Hle); [|
    unfold qO; intros E; apply in_app_or in E as [E|[E|[]]];
      [exact (Hsp E)|discriminate] |exact Hno|apply HasPrefix_app].
  assert (Hm : noltb (qO tagName ++ value) = true).
  { unfold qO. rewrite !noltb_app, HTn, Hv. reflexivity. }
  rewrite (Index_added_close _ _ (qC tagName) _ (length (qO tagName ++ value))
             Hle).
  - replace (Nat.leb (p + 2 + length (lt :: qO tagName))
               (p + 3 + length (qO tagName ++ value))) with true
      by (symmetry; apply Nat.leb_le; rewrite length_app; cbn [length]; lia).
    unfold slice.
    replace (p + 3 + length (qO tagName ++ value)
             - (p + 2 + length (lt :: qO tagName)))%nat
      with (length value) by (rewrite length_app; cbn [length]; lia).
    rewrite skipn_app, skipn_all2 by (rewrite length_firstn; lia).
    rewrite length_firstn.
    replace (p + 2 + length (lt :: qO tagName) - Nat.min p (length xmlContent))%nat
      with (3 + length (qO tagName))%nat by (cbn [length]; lia).
    cbn [app]. change (L "  " ++ lt :: ?x) with (" "%char :: " "%char :: lt :: x).
    cbn [skipn Nat.add]. rewrite skipn_head, firstn_head. reflexivity.
  - unfold qC. intros [E|E]; [discriminate|].
    apply in_app_or in E as [E|[E|[]]]; [exact (Hsp E)|discriminate].
  - exact Hnc.
  - rewrite app_assoc, firstn_head. exact Hm.
  - rewrite (app_assoc (qO tagName) value),
      (length_app (qO tagName ++ value)). lia.
  - unfold qC, qO. rewrite <- app_assoc. cbn [app].
    apply close_not_open. reflexivity.
  - rewrite app_assoc, skipn_head. cbn [HasPrefix].
    rewrite Ascii.eqb_refl. cbn [andb].
    apply HasPrefix_app.
Qed.

Lemma add_then_extract_witness :
  extractXMLTagValue (addXMLTag RangeFacts.descriptor_s2 (L "run") (L "2"))
    (L "run")
  = Ret (Ok (L "2")).
Proof.
  apply (add_then_extract RangeFacts.descriptor_s2 (L "run") (L "2"));
    reflexivity.
Defined.

(** *** Removing a tag, and the other tags *)

Lemma open_not_close (c : ascii) : forall (name : str),
  Ascii.eqb c ">" = false ->
  HasPrefix (c :: name ++ L ">") (name ++ L ">") = false.
Proof.
  induction name as [|t name IH]; intros Hc.
  - change (Ascii.eqb ">" c && true = false).
    rewrite (Ascii.eqb_sym ">" c), Hc. reflexivity.
  - cbn [app HasPrefix]. destruct (Ascii.eqb t c) eqn:E; [|reflexivity].
    cbn [andb]. apply Ascii.eqb_eq in E. subst t. apply IH. exact Hc.
Qed.

(** Every tag name without [<] keeps its two tags apart. *)
Lemma tagName_ok_intro (T : str) : noltb T = true -> tagName_ok T = true.
Proof.
  intros H. unfold tagName_ok. rewrite H. cbn [andb].
  assert (H1 : HasPrefix (qO T) (qC T) = false).
  { destruct (HasPrefix (qO T) (qC T)) eqn:E; [|reflexivity].
    apply HasPrefix_length in E. unfold qO, qC in E. cbn [length] in E. lia. }
  rewrite H1. unfold qC, qO. rewrite open_not_close by reflexivity.
  reflexivity.
Qed.

Lemma quiet_app (a b : str) : quiet (a ++ b) = quiet a && quiet b.
Proof. apply forallb_app. Qed.

Lemma Count_zero (q : str) : q <> [] -> forall s,
  Count s q = 0%nat -> Contains s q = false.
Proof.
  intros Hq. unfold Count, Contains.
  induction s as [|c s IH]; intros H.
  - cbn [Index]. destruct q; [contradiction|reflexivity].
  - cbn [count_from] in H. cbn [Index].
    destruct (HasPrefix (c :: s) q); [discriminate|].
    specialize (IH H). destruct (Index s q); [discriminate|reflexivity].
Qed.

(** X4. After [removeXMLTag] of a tag that occurs once, with a value
    without [<] and a name without blanks, the start tag is gone from the
    text and [extractXMLTagValue] reports the tag as missing. *)
Theorem remove_then_extract (xml tagName old : str) :
  quiet tagName = true ->
  extractXMLTagValue xml tagName = Ret (Ok old) -> noltb old = true ->
  Count xml (startTagOf tagName) = 1%nat ->
  Contains (removeXMLTag xml tagName) (startTagOf tagName) = false
  /\ extractXMLTagValue (removeXMLTag xml tagName) tagName = Ret Err.
Proof.
  intros HT Hold Hn Hc.
  destruct (tagValue_extract _ _ _ Hold) as (raw & Hraw & ->).
  rewrite ExpandFacts.noltb_TrimSpace in Hn.
  assert (Htok : tagName_ok tagName = true)
    by (apply tagName_ok_intro, quiet_nolt; exact HT).
  assert (Hq : quiet (qO tagName) = true).
  { unfold qO. rewrite quiet_app, HT. reflexivity. }
  assert (I : inv [(tagName, raw)] [(qO tagName, 1%nat)] xml).
  { apply inv_intro; repeat constructor; cbn [fst snd]; try assumption;
      apply quiet_nolt; exact Hq. }
  apply remove_inv with (T := tagName) in I.
  2: { unfold remove_ok. cbn [existsb forallb fst snd].
       rewrite !eqb_str_refl, Htok, Hq. reflexivity. }
  unfold dec in I. cbn [map fst snd] in I. rewrite eqb_str_refl in I.
  assert (H0 : Contains (removeXMLTag xml tagName) (startTagOf tagName) = false).
  { apply Count_zero; [rewrite startTagOf_q; discriminate|].
    rewrite startTagOf_q.
    apply (inv_Count _ _ _ _ _ I); [left; reflexivity|].
    apply quiet_nolt. exact Hq. }
  split; [exact H0|].
  unfold Contains in H0. unfold extractXMLTagValue.
  destruct (Index (removeXMLTag xml tagName) (startTagOf tagName));
    [discriminate|reflexivity].
Qed.

Lemma remove_then_extract_witness :
  Contains (removeXMLTag RangeFacts.descriptor_s2 (L "oos_runs"))
    (L "<oos_runs>") = false
  /\ extractXMLTagValue (removeXMLTag RangeFacts.descriptor_s2 (L "oos_runs"))
       (L "oos_runs") = Ret Err.
Proof.
  apply (remove_then_extract RangeFacts.descriptor_s2 (L "oos_runs") (L "3"));
    reflexivity.
Defined.

(** The bytes of an element name are no blanks and none of [<], [>], [/]. *)
Definition tagByte (c : ascii) : bool :=
  negb (isCut c) && negb (Ascii.eqb c lt) && negb (Ascii.eqb c ">")
  && negb (Ascii.eqb c "/").

Lemma nameByte_plain (c : ascii) :
  Retest.nameByte c = true -> tagByte c = true.
Proof.
  destruct c as [[] [] [] [] [] [] [] []]; vm_compute; intros H;
    first [reflexivity|discriminate].
Qed.

Lemma isName_plain (T : str) :
  Retest.isName T = true -> forallb tagByte T = true.
Proof.
  destruct T as [|c T]; [discriminate|]. cbn [Retest.isName forallb].
  intros H. apply andb_prop in H as [H1 H2].
  rewrite nameByte_plain.
  - cbn [andb]. apply forallb_forall. intros x Hx. apply nameByte_plain.
    rewrite forallb_forall in H2. exact (H2 x Hx).
  - unfold Retest.nameByte. unfold Retest.nameStart in H1.
    apply orb_prop in H1 as [->| ->]; cbn [orb]; [reflexivity|].
    rewrite !orb_true_r. reflexivity.
Qed.

Lemma plain_cons (c : ascii) (T : str) :
  forallb tagByte (c :: T) = true ->
  isCut c = false /\ Ascii.eqb c lt = false /\ Ascii.eqb c ">" = false
  /\ Ascii.eqb c "/" = false /\ forallb tagByte T = true.
Proof.
  cbn [forallb]. unfold tagByte at 1. intros H.
  apply andb_prop in H as [H HT]. apply andb_prop in H as [H H4].
  apply andb_prop in H as [H H3]. apply andb_prop in H as [H1 H2].
  apply negb_true_iff in H1, H2, H3, H4. repeat split; assumption.
Qed.

Lemma plain_quiet (T : str) : forallb tagByte T = true -> quiet T = true.
Proof.
  induction T as [|c T IH]; intros H; [reflexivity|].
  apply plain_cons in H as (H1 & H2 & _ & _ & HT).
  unfold quiet. cbn [forallb]. rewrite H1, H2. cbn [negb andb].
  apply IH. exact HT.
Qed.

(** Two names whose start tags begin alike are the same name. *)
Lemma plain_open_prefix : forall (U T : str),
  forallb tagByte T = true -> forallb tagByte U = true ->
  HasPrefix (T ++ L ">") (U ++ L ">") = true -> T = U.
Proof.
  induction U as [|u U IH]; intros [|t T] HT HU H.
  - reflexivity.
  - apply plain_cons in HT as (_ & _ & Ht & _).
    unfold L in H. cbn [list_ascii_of_string app HasPrefix] in H.
    rewrite (Ascii.eqb_sym ">" t), Ht in H. discriminate.
  - apply plain_cons in HU as (_ & _ & Hu & _).
    unfold L in H. cbn [list_ascii_of_string app HasPrefix] in H.
    rewrite Hu in H. discriminate.
  - cbn [app HasPrefix] in H. apply andb_prop in H as [E H].
    apply Ascii.eqb_eq in E. subst t.
    apply plain_cons in HT as (_ & _ & _ & _ & HT).
    apply plain_cons in HU as (_ & _ & _ & _ & HU).
    f_equal. apply IH; assumption.
Qed.

Lemma plain_open_close (T U : str) :
  forallb tagByte T = true ->
  HasPrefix (qO T) (qC U) = false /\ HasPrefix (qC U) (qO T) = false.
Proof.
  intros HT. unfold qO, qC. destruct T as [|t T].
  - split; reflexivity.
  - apply plain_cons in HT as (_ & _ & _ & Ht & _).
    cbn [app HasPrefix]. rewrite Ht, (Ascii.eqb_sym "/" t), Ht.
    split; reflexivity.
Qed.

Lemma plain_apart (T U : str) :
  forallb tagByte T = true -> forallb tagByte U = true -> T <> U ->
  apart (qO T) (qO U) = true /\ apart (qO T) (qC U) = true
  /\ apart (qC T) (qO U) = true /\ apart (qC T) (qC U) = true.
Proof.
  intros HT HU Hne.
  assert (H1 : HasPrefix (qO T) (qO U) = false).
  { destruct (HasPrefix (qO T) (qO U)) eqn:E; [|reflexivity].
    elim Hne. apply plain_open_prefix; assumption. }
  assert (H2 : HasPrefix (qO U) (qO T) = false).
  { destruct (HasPrefix (qO U) (qO T)) eqn:E; [|reflexivity].
    elim Hne. symmetry. apply plain_open_prefix; assumption. }
  destruct (plain_open_close T U HT) as [H3 H4].
  destruct (plain_open_close U T HU) as [H5 H6].
  unfold apart. rewrite H1, H2, H3, H4, H5, H6.
  repeat split. unfold qC. cbn [HasPrefix]. rewrite Ascii.eqb_refl.
  cbn [andb]. fold (qO T). fold (qO U). rewrite H1, H2. reflexivity.
Qed.

Lemma plain_tags_quiet (T : str) :
  forallb tagByte T = true -> quiet (qO T) = true /\ quiet (qC T) = true.
Proof.
  intros H. apply plain_quiet in H. unfold qO, qC.
  change ("/"%char :: T ++ L ">") with (L "/" ++ T ++ L ">").
  rewrite !quiet_app, H. split; reflexivity.
Qed.

(** X5. Replacing or removing one tag leaves the value of every other tag
    as it was: for two different element names whose values could be read
    and hold no [<], [extractXMLTagValue] reads the same value of the second
    tag after [replaceXMLTag] and after [removeXMLTag] of the first. *)
Theorem edit_keeps_other_tag
    (xml tagName other old kept newValue : str) :
  Retest.isName tagName = true -> Retest.isName other = true ->
  tagName <> other ->
  extractXMLTagValue xml tagName = Ret (Ok old) -> noltb old = true ->
  extractXMLTagValue xml other = Ret (Ok kept) -> noltb kept = true ->
  noltb newValue = true ->
  extractXMLTagValue (replaceXMLTag xml tagName newValue) other = Ret (Ok kept)
  /\ extractXMLTagValue (removeXMLTag xml tagName) other = Ret (Ok kept).
Proof.
  intros HT HU Hne Hold Hn Hkept Hk Hv.
  apply isName_plain in HT, HU.
  destruct (tagValue_extract _ _ _ Hold) as (rawT & HrawT & ->).
  destruct (tagValue_extract _ _ _ Hkept) as (rawU & HrawU & ->).
  rewrite ExpandFacts.noltb_TrimSpace in Hn, Hk.
  assert (HTok : tagName_ok tagName = true)
    by (apply tagName_ok_intro, quiet_nolt, plain_quiet; exact HT).
  assert (HUok : tagName_ok other = true)
    by (apply tagName_ok_intro, quiet_nolt, plain_quiet; exact HU).
  destruct (plain_apart _ _ HT HU Hne) as (A1 & A2 & A3 & A4).
  destruct (plain_tags_quiet _ HT) as [QT _].
  destruct (plain_tags_quiet _ HU) as [QU1 QU2].
  assert (Ene : eqb_str other tagName = false).
  { apply eqb_str_neq. intros E. apply Hne. symmetry. exact E. }
  assert (I : inv [(tagName, rawT); (other, rawU)] [] xml).
  { apply inv_intro; repeat constructor; cbn [fst snd]; assumption. }
  split.
  - apply replace_inv with (T := tagName) (v := newValue) in I;
      [|unfold replace_ok, clear_tag, clear_of; cbn [existsb forallb fst snd];
        rewrite !eqb_str_refl, Ene, HTok, HUok, QU1, QU2, A1, A2; reflexivity
       |exact Hv].
    apply extract_tagValue.
    apply (inv_tagValue _ _ _ _ _ I); [|exact HUok].
    unfold upd. cbn [map fst snd]. rewrite eqb_str_refl, Ene.
    right. left. reflexivity.
  - apply remove_inv with (T := tagName) in I;
      [|unfold remove_ok, clear_tag, clear_of; cbn [existsb forallb fst snd];
        rewrite !eqb_str_refl, Ene, HTok, HUok, QT, QU1, QU2, A1, A2, A3, A4;
        reflexivity].
    apply extract_tagValue.
    apply (inv_tagValue _ _ _ _ _ I); [|exact HUok].
    unfold drop. cbn [filter fst snd]. rewrite eqb_str_refl, Ene.
    left. reflexivity.
Qed.

Lemma edit_keeps_other_tag_witness :
  extractXMLTagValue
    (replaceXMLTag RangeFacts.descriptor_s2 (L "startDate") (L "2008-05-04"))
    (L "endDate") = Ret (Ok (L "2013-09-08"))
  /\ extractXMLTagValue (removeXMLTag RangeFacts.descriptor_s2 (L "startDate"))
       (L "endDate") = Ret (Ok (L "2013-09-08")).
Proof.
  apply (edit_keeps_other_tag RangeFacts.descriptor_s2 (L "startDate")
           (L "endDate") (L "2007-01-01")); try reflexivity.
  discriminate.
Defined.

End XmlFacts.
(** ** File names *)

Module NamesFacts.
Import Expand Chunks Names.

(** *** [strings.Split] *)

Lemma Split_nonempty (sep : ascii) (s : str) :
  exists w ws, Split s sep = w :: ws.
Proof.
  destruct s as [|c s]; cbn [Split]; [eauto|].
  destruct (Ascii.eqb c sep); [eauto|].
  destruct (Split s sep); eauto.
Qed.

Lemma Split_app_sep (sep : ascii) (b : str) : forall a,
  ~ In sep a -> Split (a ++ sep :: b) sep = a :: Split b sep.
Proof.
  induction a as [|c a IH]; intros H; cbn [app Split].
  - rewrite Ascii.eqb_refl. reflexivity.
  - destruct (Ascii.eqb c sep) eqn:E.
    + apply Ascii.eqb_eq in E. subst c. elim H. left. reflexivity.
    + rewrite IH; [reflexivity|]. intros Hin. apply H. right. exact Hin.
Qed.

Lemma Split_nosep (sep : ascii) : forall a,
  ~ In sep a -> Split a sep = [a].
Proof.
  induction a as [|c a IH]; intros H; cbn [Split]; [reflexivity|].
  destruct (Ascii.eqb c sep) eqn:E.
  - apply Ascii.eqb_eq in E. subst c. elim H. left. reflexivity.
  - rewrite IH; [reflexivity|]. intros Hin. apply H. right. exact Hin.
Qed.

(** No part holds the separator. *)
Lemma Split_parts (sep : ascii) : forall s,
  Forall (fun p => ~ In sep p) (Split s sep).
Proof.
  induction s as [|c s IH]; cbn [Split].
  - constructor; [intros []|constructor].
  - destruct (Ascii.eqb c sep) eqn:E.
    + constructor; [intros []|exact IH].
    + destruct (Split s sep) as [|w ws].
      * constructor; [|constructor]. intros [H|[]]. subst c.
        rewrite Ascii.eqb_refl in E. discriminate.
      * inversion IH as [|? ? Hw Hws]; subst. constructor; [|exact Hws].
        intros [H|H]; [|exact (Hw H)]. subst c.
        rewrite Ascii.eqb_refl in E. discriminate.
Qed.

(** The text is its first part, and a separator and more when there is a
    second part. *)
Lemma Split_head (sep : ascii) : forall s w ws,
  Split s sep = w :: ws ->
  match ws with
  | [] => s = w
  | _ :: _ => exists r, s = w ++ sep :: r /\ Split r sep = ws
  end.
Proof.
  induction s as [|c s IH]; intros w ws H; cbn [Split] in H.
  - injection H as <- <-. reflexivity.
  - destruct (Ascii.eqb c sep) eqn:E.
    + injection H as <- <-. apply Ascii.eqb_eq in E. subst c.
      destruct (Split_nonempty sep s) as (w' & ws' & Hs). rewrite Hs.
      exists s. split; [reflexivity|exact Hs].
    + destruct (Split s sep) as [|w' ws'] eqn:Hs.
      * destruct (Split_nonempty sep s) as (? & ? & Hs'). congruence.
      * injection H as <- <-. specialize (IH w' ws' eq_refl).
        destruct ws' as [|x ws'].
        -- subst s. reflexivity.
        -- destruct IH as (r & -> & Hr). exists r. split; [reflexivity|exact Hr].
Qed.

(** *** Suffixes *)

Lemma HasPrefix_true_iff (p : str) : forall s,
  HasPrefix s p = true <-> exists r, s = p ++ r.
Proof.
  intros s. split.
  - intros H. exists (skipn (length p) s). apply HasPrefix_split. exact H.
  - intros (r & ->). apply HasPrefix_app.
Qed.

Lemma HasSuffix_app (s suf : str) : HasSuffix (s ++ suf) suf = true.
Proof. unfold HasSuffix. rewrite rev_app_distr. apply HasPrefix_app. Qed.

Lemma TrimSuffix_app (s suf : str) : TrimSuffix (s ++ suf) suf = s.
Proof.
  unfold TrimSuffix. rewrite HasSuffix_app, length_app.
  replace (length s + length suf - length suf)%nat with (length s) by lia.
  apply firstn_head.
Qed.

(** [TrimSuffix] cuts a prefix of its argument. *)
Lemma TrimSuffix_prefix (s suf : str) : exists r, s = TrimSuffix s suf ++ r.
Proof.
  unfold TrimSuffix. destruct (HasSuffix s suf).
  - exists (skipn (length s - length suf) s). symmetry. apply firstn_skipn.
  - exists []. symmetry. apply app_nil_r.
Qed.

Lemma Ext_app (x e : str) : Ext e <> [] -> Ext (x ++ e) = Ext e.
Proof.
  intros H. induction x as [|c x IH]; [reflexivity|].
  cbn [app Ext]. rewrite IH. destruct (Ext e); [contradiction|reflexivity].
Qed.

(** *** What the readers of file names return *)

Lemma at_prefix (symbol : str) :
  HasPrefix (if HasPrefix symbol (L "@") then symbol else L "@" ++ symbol)
    (L "@") = true.
Proof.
  destruct (HasPrefix symbol (L "@")) eqn:E; [exact E|apply HasPrefix_app].
Qed.

(** The first three parts of a split: the text starts with the first and
    an underscore, and no part holds an underscore. *)
Lemma three_parts (name a b c : str) (more : list str) :
  Split name "_" = a :: b :: c :: more ->
  (exists rest, name = a ++ "_"%char :: rest)
  /\ ~ In "_"%char a /\ ~ In "_"%char b /\ ~ In "_"%char c.
Proof.
  intros H. pose proof (Split_parts "_" name) as P. rewrite H in P.
  inversion P as [|? ? Pa P1]; subst. inversion P1 as [|? ? Pb P2]; subst.
  inversion P2 as [|? ? Pc _]; subst.
  apply Split_head in H. destruct H as (r & -> & _).
  repeat split; try assumption. exists r. reflexivity.
Qed.

Lemma extractMetadata_parts (fileName jobID symbol timeframe : str) :
  Watcher.extractMetadata fileName = Ok (jobID, symbol, timeframe) ->
  (exists rest, fileName = jobID ++ L "_" ++ rest)
  /\ ~ In "_"%char jobID /\ ~ In "_"%char timeframe
  /\ HasPrefix symbol (L "@") = true.
Proof.
  unfold Watcher.extractMetadata. intros H.
  destruct (Split (TrimSuffix fileName (Ext fileName)) "_")
    as [|a [|b [|c more]]] eqn:E; try discriminate.
  injection H as <- <- <-.
  destruct (three_parts _ _ _ _ _ E) as ((rest & Hname) & Ha & _ & Hc).
  destruct (TrimSuffix_prefix fileName (Ext fileName)) as (r & Hr).
  repeat split; try assumption; [|apply at_prefix].
  exists (rest ++ r). rewrite Hr at 1. rewrite Hname.
  rewrite <- app_assoc. reflexivity.
Qed.

(** X6. [OptUploadManager.extractMetadata]: when it succeeds, the file
    name starts with the job id and an underscore, neither the job id nor
    the time frame holds an underscore, and the symbol starts with [@]. *)
Theorem extractMetadata_shape (fileName jobID symbol timeframe : str) :
  Watcher.extractMetadata fileName = Ok (jobID, symbol, timeframe) ->
  (exists rest, fileName = jobID ++ L "_" ++ rest)
  /\ ~ In "_"%char jobID /\ ~ In "_"%char timeframe
  /\ HasPrefix symbol (L "@") = true.
Proof. apply extractMetadata_parts. Qed.

(** X7. The two ways in which the client reads the job id off the name of
    a daily summary agree: whenever
    [DailySummaryUploadManager.extractMetadata] succeeds, its job id is the
    one that [extractJobIDFromDailySummary] returns. *)
Theorem summary_job_id_agrees (fileName jobID symbol timeframe : str) :
  DailySummary.extractMetadata fileName = Ok (jobID, symbol, timeframe) ->
  extractJobIDFromDailySummary fileName = jobID.
Proof.
  unfold DailySummary.extractMetadata, extractJobIDFromDailySummary.
  intros H.
  destruct (HasSuffix (TrimSuffix fileName (L ".rep")) (L "_Daily"));
    [|discriminate]. cbn [negb] in H.
  destruct (Split (TrimSuffix (TrimSuffix fileName (L ".rep")) (L "_Daily")) "_")
    as [|a [|b [|c more]]] eqn:E; try discriminate.
  injection H as <- <- <-.
  destruct (three_parts _ _ _ _ _ E) as ((rest & Hname) & Ha & _ & _).
  destruct (TrimSuffix_prefix (TrimSuffix fileName (L ".rep")) (L "_Daily"))
    as (r1 & H1).
  destruct (TrimSuffix_prefix fileName (L ".rep")) as (r2 & H2).
  rewrite H2, H1, Hname. rewrite <- !app_assoc. cbn [app].
  rewrite Split_app_sep by exact Ha. reflexivity.
Qed.

Lemma summary_job_id_agrees_witness :
  extractJobIDFromDailySummary
    (L "19974dd6-c233_@ES-@NQ_60_MM_MM_Daily.rep")
  = L "19974dd6-c233".
Proof.
  apply (summary_job_id_agrees _ _ (L "@ES-@NQ") (L "60")). reflexivity.
Defined.

Lemma extractMetadata_shape_witness :
  (exists rest, L "484d6b19-8a36_NQ_60_WFO_Results.opt"
                = L "484d6b19-8a36" ++ L "_" ++ rest)
  /\ ~ In "_"%char (L "484d6b19-8a36") /\ ~ In "_"%char (L "60")
  /\ HasPrefix (L "@NQ") (L "@") = true.
Proof.
  apply (extractMetadata_shape (L "484d6b19-8a36_NQ_60_WFO_Results.opt")).
  reflexivity.
Defined.

(** *** The task type of a result file *)

Lemma knownTaskType_In (t : str) :
  knownTaskType t = true ->
  In t [L "OPT"; L "RETEST"; L "OOS"; L "MM"; L "MTF"; L "WFO"].
Proof.
  unfold knownTaskType. intros H.
  repeat (apply orb_prop in H as [H|H]); apply eqb_str_eq in H; subst;
    cbn [In]; tauto.
Qed.

Lemma taskTypeLoop_known : forall parts prev,
  taskTypeLoop prev parts = []
  \/ knownTaskType (taskTypeLoop prev parts) = true.
Proof.
  induction parts as [|part rest IH]; intros prev; cbn [taskTypeLoop].
  - left. reflexivity.
  - destruct prev as [taskType|]; [|apply IH].
    destruct (eqb_str part (L "Results")); cbn [andb]; [|apply IH].
    destruct (knownTaskType (ToUpper taskType)) eqn:E; [|apply IH].
    right. exact E.
Qed.

(** X8. [extractTaskTypeFromFilename] returns the empty string or one of
    the six task types OPT, RETEST, OOS, MM, MTF and WFO in upper case,
    whatever the file name; it never returns WFM or DWFM, the two other
    walk-forward types of [shouldCheckForWFO]. *)
Theorem extractTaskTypeFromFilename_range (fileName : str) :
  extractTaskTypeFromFilename fileName = []
  \/ In (extractTaskTypeFromFilename fileName)
       [L "OPT"; L "RETEST"; L "OOS"; L "MM"; L "MTF"; L "WFO"].
Proof.
  unfold extractTaskTypeFromFilename.
  destruct (taskTypeLoop_known
              (Split (TrimSuffix fileName (Ext fileName)) "_") None) as [H|H].
  - left. exact H.
  - right. apply knownTaskType_In. exact H.
Qed.

(** *** The names of the second pass *)

(** X9. The ids of a second-pass name are read back: from the name that
    [createWFORetestJobElement] and [saveWFORetestXML] build around a job
    id, a symbol and a time frame without underscores,
    [parseTradesFileName] returns the three as they are (for the trades
    file of that name) and [OptUploadManager.extractMetadata] returns them
    with the symbol prefixed by [@] when it has none. *)
Theorem second_pass_name_round_trip
    (jobID symbol timeframe : str) (totalRuns osPercentage : Z) :
  ~ In "_"%char jobID -> ~ In "_"%char symbol -> ~ In "_"%char timeframe ->
  parseTradesFileName
    (jobID ++ L "_" ++ symbol ++ L "_" ++ timeframe ++ L "_WFO_RETEST_RUN-"
     ++ Itoa totalRuns ++ L "_OS-" ++ Itoa osPercentage ++ L "_trades.csv")
  = Ok (jobID, symbol, timeframe)
  /\ Watcher.extractMetadata
       (jobID ++ L "_" ++ symbol ++ L "_" ++ timeframe ++ L "_WFO_RETEST_RUN-"
        ++ Itoa totalRuns ++ L "_OS-" ++ Itoa osPercentage ++ L ".job")
     = Ok (jobID,
           if HasPrefix symbol (L "@") then symbol else L "@" ++ symbol,
           timeframe).
Proof.
  intros Hj Hs Ht. split.
  - unfold parseTradesFileName. cbn [L list_ascii_of_string app].
    rewrite !Split_app_sep by assumption.
    match goal with
    | |- context [Split ?x "_"] =>
        destruct (Split_nonempty "_" x) as (w & ws & E); rewrite E
    end.
    reflexivity.
  - unfold Watcher.extractMetadata.
    set (base := jobID ++ L "_" ++ symbol ++ L "_" ++ timeframe
                 ++ L "_WFO_RETEST_RUN-" ++ Itoa totalRuns ++ L "_OS-"
                 ++ Itoa osPercentage).
    replace (jobID ++ L "_" ++ symbol ++ L "_" ++ timeframe
             ++ L "_WFO_RETEST_RUN-" ++ Itoa totalRuns ++ L "_OS-"
             ++ Itoa osPercentage ++ L ".job") with (base ++ L ".job")
      by (subst base; rewrite <- !app_assoc; reflexivity).
    rewrite Ext_app by discriminate.
    change (Ext (L ".job")) with (L ".job"). rewrite TrimSuffix_app.
    subst base. cbn [L list_ascii_of_string app].
    rewrite !Split_app_sep by assumption. reflexivity.
Qed.

Lemma second_pass_name_round_trip_witness :
  parseTradesFileName (L "c83425d4-6741_@ES_60_WFO_RETEST_RUN-5_OS-20_trades.csv")
  = Ok (L "c83425d4-6741", L "@ES", L "60")
  /\ Watcher.extractMetadata (L "c83425d4-6741_@ES_60_WFO_RETEST_RUN-5_OS-20.job")
     = Ok (L "c83425d4-6741", L "@ES", L "60").
Proof.
  apply (second_pass_name_round_trip (L "c83425d4-6741") (L "@ES") (L "60") 5 20);
    cbn; intuition discriminate.
Defined.

(** *** The metadata of a requested second pass *)

Lemma rebuilt_name_metadata (jobID : str) :
  ~ In "_"%char jobID ->
  Watcher.extractMetadata (jobID ++ L "_@ES_60_WFO_Results.opt")
  = Ok (jobID, L "@ES", L "60").
Proof.
  intros H. unfold Watcher.extractMetadata.
  rewrite Ext_app by discriminate.
  change (Ext (L "_@ES_60_WFO_Results.opt")) with (L ".opt").
  change (L "_@ES_60_WFO_Results.opt")
    with (L "_@ES_60_WFO_Results" ++ L ".opt").
  rewrite app_assoc, TrimSuffix_app.
  change (L "_@ES_60_WFO_Results") with ("_"%char :: L "@ES_60_WFO_Results").
  rewrite Split_app_sep by exact H. reflexivity.
Qed.

(** A second pass of this kind is requested for symbol [@ES] and time
    frame [60]. *)
Definition fixedMetadata
    (r : str * str * str * list Watcher.OPTResult) : Prop :=
  snd (fst (fst r)) = L "@ES" /\ snd (fst r) = L "60".

Definition onlyFixedAdded (st0 st : Watcher.State) : Prop :=
  forall r, In r (Watcher.retests st) ->
            In r (Watcher.retests st0) \/ fixedMetadata r.

Lemma trigger_fixed (st0 st : Watcher.State) jobID rows :
  ~ In "_"%char jobID -> onlyFixedAdded st0 st ->
  onlyFixedAdded st0 (snd (Watcher.triggerWFORetestGeneration st jobID rows)).
Proof.
  intros Hj H. unfold Watcher.triggerWFORetestGeneration.
  destruct (eqb_str jobID []); [exact H|].
  destruct rows as [|row rows]; [exact H|].
  rewrite (rebuilt_name_metadata _ Hj). cbn [snd Watcher.retests].
  intros r Hr. apply in_app_or in Hr as [Hr|[<-|[]]]; [exact (H r Hr)|].
  right. split; reflexivity.
Qed.

Lemma upload_fixed env (st0 st : Watcher.State) fileName :
  onlyFixedAdded st0 st ->
  onlyFixedAdded st0 (snd (Watcher.uploadOptFile env st fileName)).
Proof.
  intros H. unfold Watcher.uploadOptFile.
  destruct (Watcher.extractMetadata fileName) as [[[jobID symbol] timeframe]|]
    eqn:E; [|exact H].
  destruct (extractMetadata_parts _ _ _ _ E) as (_ & Hj & _).
  destruct (Watcher.uploadOpt env fileName jobID); [|exact H]. cbn [negb snd].
  set (st1 := Watcher.emit st _).
  assert (H1 : onlyFixedAdded st0 st1).
  { subst st1. unfold Watcher.emit.
    destruct (Nat.ltb (length (Watcher.events st)) 100); exact H. }
  destruct (Watcher.shouldCheckForWFO fileName); [|exact H1].
  unfold Watcher.checkAndTriggerCombinedWFO.
  destruct (negb (Watcher.exists_in (Watcher.optDone st1) fileName)
            && negb (Watcher.exists_in (Watcher.optIn st1) fileName));
    [exact H1|].
  destruct (Watcher.parseOPTFile env fileName _) as [[rows isWFO]|];
    [|exact H1].
  destruct isWFO; [|exact H1]. cbn [negb].
  apply trigger_fixed; assumption.
Qed.

Lemma processOptFile_fixed env (st0 st : Watcher.State) fileName :
  onlyFixedAdded st0 st ->
  onlyFixedAdded st0 (Watcher.processOptFile env st fileName).
Proof.
  intros H. unfold Watcher.processOptFile.
  pose proof (upload_fixed env st0 st fileName H) as H1.
  destruct (Watcher.uploadOptFile env st fileName) as [[[]|] st1];
    cbn [snd] in H1; [|exact H1].
  unfold Watcher.MoveOptFile.
  destruct (Watcher.Rename (Watcher.optIn st1) (Watcher.optDone st1) fileName)
    as [[from to]|]; exact H1.
Qed.

(** X10. Every second pass that a tick of the [.opt] watcher requests is
    requested for the symbol [@ES] and the time frame [60], whatever the
    symbol and time frame in the name of the uploaded file:
    [triggerWFORetestGeneration] reads them off a name that it rebuilds
    around the job id with [@ES] and [60] written in. *)
Theorem second_pass_metadata_is_fixed
    (env : Watcher.Env) (st : Watcher.State)
    (jobID symbol timeframe : str) (rows : list Watcher.OPTResult) :
  In (jobID, symbol, timeframe, rows)
     (Watcher.retests (Watcher.processOptFiles env st)) ->
  In (jobID, symbol, timeframe, rows) (Watcher.retests st)
  \/ (symbol = L "@ES" /\ timeframe = L "60").
Proof.
  intros H.
  assert (G : forall files st1, onlyFixedAdded st st1 ->
              onlyFixedAdded st (fold_left (Watcher.processOptFile env) files st1)).
  { induction files as [|f files IH]; intros st1 H1; [exact H1|].
    cbn [fold_left]. apply IH. apply processOptFile_fixed. exact H1. }
  exact (G (Watcher.GetOptFiles st) st (fun r Hr => or_introl Hr) _ H).
Qed.

(** An [.opt] file of another symbol and time frame. *)
Definition nq_opt_file : Watcher.State := {|
  Watcher.optIn :=
    [ {| Name := L "484d6b19-8a36_@NQ_240_WFO_Results.opt"; IsDir := false |} ];
  Watcher.optDone := [];
  Watcher.optError := [];
  Watcher.events := [];
  Watcher.retests := []
|}.

Lemma second_pass_metadata_is_fixed_witness :
  In (L "484d6b19-8a36", L "@ES", L "60",
      fst (Watcher.parseCSVContent WatcherFacts.wfo_table (L "WFO")))
     (Watcher.retests
        (Watcher.processOptFiles WatcherFacts.env_job_known nq_opt_file))
  /\ (In (L "484d6b19-8a36", L "@ES", L "60",
          fst (Watcher.parseCSVContent WatcherFacts.wfo_table (L "WFO")))
         (Watcher.retests nq_opt_file)
      \/ (L "@ES" = L "@ES" /\ L "60" = L "60")).
Proof.
  split; [vm_compute; left; reflexivity|].
  apply (second_pass_metadata_is_fixed WatcherFacts.env_job_known nq_opt_file).
  vm_compute. left. reflexivity.
Defined.

(** *** The filename tag *)

Lemma spanName_stop (R : str) : forall v,
  noltb v = true -> spanName (v ++ lt :: R) = (v, lt :: R).
Proof.
  induction v as [|c v IH]; intros H; cbn [app spanName].
  - reflexivity.
  - apply nolt_cons in H as [Hc Hv]. rewrite Ascii.eqb_sym in Hc.
    unfold lt in Hc. rewrite Hc, (IH Hv). reflexivity.
Qed.

(** The first start tag with a name and an end tag behind it is the
    match. *)
Lemma filenameMatch_at (name rest : str) : forall i s,
  (forall j, (j < i)%nat -> HasPrefix (skipn j s) (L "<filename>") = false) ->
  HasPrefix (skipn i s) (L "<filename>") = true ->
  spanName (skipn 10 (skipn i s)) = (name, rest) ->
  name <> [] -> HasPrefix rest (L "</filename>") = true ->
  filenameMatch s = Some name.
Proof.
  induction i as [|i IH]; intros s Hj Hp Hs Hn Hr.
  - destruct s as [|c s]; [discriminate|].
    change (skipn 0 (c :: s)) with (c :: s) in *.
    cbn [filenameMatch]. rewrite Hp, Hs, Hr.
    destruct name; [contradiction|reflexivity].
  - destruct s as [|c s]; [discriminate|].
    change (skipn (S i) (c :: s)) with (skipn i s) in *.
    cbn [filenameMatch]. pose proof (Hj O ltac:(lia)) as H0.
    change (skipn 0 (c :: s)) with (c :: s) in H0.
    rewrite H0. apply (IH s); try assumption.
    intros j Hlt. apply (Hj (S j)). lia.
Qed.

(** X11. The file name written into a descriptor with [replaceXMLTag] is
    the one [extractFilenameFromXML] reads, with the extension [.job]
    turned into [.xml]: for a descriptor whose filename tag could be read
    and a new name without [<]. *)
Theorem filename_written_is_read (xml old base : str) :
  noltb base = true ->
  extractXMLTagValue xml (L "filename") = Ret (Ok old) ->
  extractFilenameFromXML (replaceXMLTag xml (L "filename") (base ++ L ".job"))
  = Ok (base ++ L ".xml").
Proof.
  intros Hb Hold.
  destruct (XmlFacts.extract_indices _ _ _ Hold) as (i & k & Ho & Hc & Hle).
  destruct (XmlFacts.Index_some _ _ _ Ho) as (Hi & _ & Hj).
  rewrite (XmlFacts.replace_shape _ _ _ _ _ Ho Hc).
  assert (Hlen : length (firstn i xml) = i) by (rewrite length_firstn; lia).
  change (startTagOf (L "filename")) with (L "<filename>") in *.
  change (endTagOf (L "filename")) with (L "</filename>") in *.
  unfold extractFilenameFromXML.
  rewrite (filenameMatch_at (base ++ L ".job")
             (L "</filename>" ++ skipn (k + length (L "</filename>")) xml) i).
  - rewrite HasSuffix_app, TrimSuffix_app. reflexivity.
  - intros j Hlt. rewrite app_assoc.
    rewrite (XmlFacts.HasPrefix_window _ _
               (skipn (i + length (L "<filename>")) xml))
      by (rewrite length_app; lia).
    rewrite <- app_assoc, <- (XmlFacts.Index_split _ _ _ Ho).
    apply Hj. exact Hlt.
  - rewrite skipn_app, Hlen, Nat.sub_diag, skipn_all2 by lia.
    cbn [app skipn]. apply HasPrefix_app.
  - rewrite skipn_app, Hlen, Nat.sub_diag.
    rewrite (skipn_all2 (firstn i xml)) by lia.
    rewrite app_nil_l, skipn_O.
    change 10%nat with (length (L "<filename>")).
    rewrite (skipn_head (L "<filename>")).
    rewrite app_assoc.
    change (L "</filename>") with (lt :: L "/filename>") at 1.
    rewrite <- app_assoc. cbn [app].
    apply spanName_stop.
    rewrite noltb_app, Hb. reflexivity.
  - destruct base; discriminate.
  - apply HasPrefix_app.
Qed.

Lemma filename_written_is_read_witness :
  extractFilenameFromXML
    (replaceXMLTag RetestFacts.retest_template (L "filename")
       (L "j1_@ES_60_WFO_RETEST_RUN-2_OS-20" ++ L ".job"))
  = Ok (L "j1_@ES_60_WFO_RETEST_RUN-2_OS-20" ++ L ".xml").
Proof.
  apply (filename_written_is_read RetestFacts.retest_template
           (L "j1_@ES_60_WFO.job")); reflexivity.
Defined.

End NamesFacts.
(** ** Date buffers *)

Module BufferFacts.
Import Expand Retest Buffer.

(** *** Integers as floats, by the primitive conversion *)

(** [float64(z)] computed with the primitive conversion of 63-bit
    integers. *)
Definition fastFloat (z : Z) : float :=
  if z <? 0 then (- PrimFloat.of_uint63 (Uint63.of_Z (- z)))%float
  else PrimFloat.of_uint63 (Uint63.of_Z z).

Lemma normalize_opp (p : positive) :
  binary_normalize prec emax (Z.neg p) 0 false
  = SFopp (binary_normalize prec emax (Z.pos p) 0 false).
Proof.
  unfold binary_normalize, binary_round.
  destruct (shl_align p 0 (fexp prec emax (Z.pos (digits2_pos p) + 0)))
    as [mz ez].
  unfold binary_round_aux.
  destruct (shr_fexp prec emax (Z.pos mz) ez loc_Exact) as [mrs' e'].
  destruct (shr_fexp prec emax
              (round_nearest_even (shr_m mrs') (loc_of_shr_record mrs')) e'
              loc_Exact) as [mrs'' e''].
  destruct (shr_m mrs''); [reflexivity| |reflexivity].
  destruct (e'' <=? emax - prec); reflexivity.
Qed.

Lemma float64_of_Z_pos (z : Z) :
  0 <= z < 2 ^ 63 -> float64_of_Z z = PrimFloat.of_uint63 (Uint63.of_Z z).
Proof.
  intros H. unfold float64_of_Z.
  rewrite <- (SF2Prim_Prim2SF (PrimFloat.of_uint63 (Uint63.of_Z z))).
  rewrite of_uint63_spec, Uint63.of_Z_spec.
  rewrite Z.mod_small; [reflexivity|].
  change Uint63.wB with (2 ^ 63). exact H.
Qed.

Lemma float64_of_Z_fast (z : Z) :
  - 2 ^ 63 < z < 2 ^ 63 -> float64_of_Z z = fastFloat z.
Proof.
  intros H. unfold fastFloat. destruct (Z.ltb_spec z 0) as [Hneg|Hpos].
  - rewrite <- float64_of_Z_pos by lia.
    destruct z as [|p|p]; try lia. unfold float64_of_Z.
    change (- Z.neg p) with (Z.pos p).
    rewrite normalize_opp.
    rewrite <- (SF2Prim_Prim2SF
                  (- SF2Prim (binary_normalize prec emax (Z.pos p) 0 false))).
    rewrite FloatAxioms.opp_spec.
    rewrite Prim2SF_SF2Prim; [reflexivity|].
    pose proof (of_uint63_spec (Uint63.of_Z (Z.pos p))) as E.
    rewrite Uint63.of_Z_spec, Z.mod_small in E
      by (change Uint63.wB with (2 ^ 63); lia).
    rewrite <- E. apply Prim2SF_valid.
  - apply float64_of_Z_pos. lia.
Qed.

(** *** The day counts of [calculateDateBuffer] *)

(** [bufferDays] after the two comparisons. *)
Definition clampDays (z : Z) : Z :=
  let z := if z <? 1 then 1 else z in
  if z >? 30 then 30 else z.

(** [trunc_float] with shifts in the place of powers and quotients. *)
Definition fastTrunc (f : float) : option Z :=
  match Prim2SF f with
  | S754_zero _ => Some 0
  | S754_finite s m e =>
      let a := match e with
               | Z0 => Zpos m
               | Zpos p => Z.shiftl (Zpos m) (Zpos p)
               | Zneg p => Z.shiftr (Zpos m) (Zpos p)
               end in
      Some (if s then - a else a)
  | S754_infinity _ => None
  | S754_nan => None
  end.

Lemma fastTrunc_ok f : fastTrunc f = trunc_float f.
Proof.
  unfold fastTrunc, trunc_float.
  destruct (Prim2SF f) as [| | |s m [|p|p]]; try reflexivity.
  - rewrite Z.shiftl_mul_pow2 by lia. reflexivity.
  - rewrite Z.shiftr_div_pow2 by lia. reflexivity.
Qed.

(** For a span of [d] days without saturation of the duration: the float
    quotient truncates to [d], and 0.25 % of it to a value that the
    comparisons take where they take [d / 400]. *)
Definition days_ok (d : Z) : bool :=
  match fastTrunc
          ((fastFloat (24 * d) + fastFloat 0 / fastFloat Time.Hour) / 24)%float
  with
  | Some z =>
      (z =? d)
      && match fastTrunc (fastFloat d * quarterPercent)%float with
         | Some b => in_int64 b && (clampDays b =? clampDays (d / 400))
         | None => false
         end
  | None => false
  end.

Lemma days_ok_all :
  TimeFacts.check_range days_ok (-106751) (Z.to_nat 213503) = true.
Proof. vm_cast_no_check (eq_refl true). Qed.

Lemma int64_of_float_trunc impl f z :
  trunc_float f = Some z -> in_int64 z = true -> int64_of_float impl f = z.
Proof. intros H1 H2. unfold int64_of_float. rewrite H1, H2. reflexivity. Qed.

Lemma in_int64_small z : -106751 <= z <= 106751 -> in_int64 z = true.
Proof.
  intros H. unfold in_int64, MinInt64, MaxInt64.
  apply andb_true_intro. split; apply Z.leb_le; lia.
Qed.

Lemma Sub_days d :
  -106751 <= d <= 106751 -> Time.Sub d 0 = d * 24 * Time.Hour.
Proof.
  intros H. unfold Time.Sub. rewrite Z.sub_0_r.
  unfold MaxInt64, MinInt64, Time.Hour.
  destruct (Z.gtb_spec (d * 24 * (3600 * 10 ^ 9)) (2 ^ 63 - 1)); [lia|].
  destruct (Z.ltb_spec (d * 24 * (3600 * 10 ^ 9)) (- 2 ^ 63)); [lia|].
  reflexivity.
Qed.

Lemma Sub_shift t u : Time.Sub t u = Time.Sub (t - u) 0.
Proof. unfold Time.Sub. rewrite Z.sub_0_r. reflexivity. Qed.

(** The two conversions of [calculateDateBuffer] for a span of [d] days. *)
Lemma buffer_days impl d :
  -106751 <= d <= 106751 ->
  int64_of_float impl (Time.Hours (Time.Sub d 0) / 24)%float = d
  /\ clampDays (int64_of_float impl (float64_of_Z d * quarterPercent)%float)
     = clampDays (d / 400).
Proof.
  intros H.
  pose proof (TimeFacts.check_range_all days_ok _ _ days_ok_all d) as Hok.
  specialize (Hok ltac:(lia)). unfold days_ok in Hok.
  rewrite !fastTrunc_ok in Hok.
  assert (EH : (Time.Hours (Time.Sub d 0) / 24)%float
               = ((fastFloat (24 * d) + fastFloat 0 / fastFloat Time.Hour)
                  / 24)%float).
  { rewrite Sub_days by exact H. unfold Time.Hours.
    replace (Z.quot (d * 24 * Time.Hour) Time.Hour) with (24 * d)
      by (rewrite Z.quot_mul by (unfold Time.Hour; lia); lia).
    replace (Z.rem (d * 24 * Time.Hour) Time.Hour) with 0
      by (symmetry; apply Z.rem_mul; unfold Time.Hour; lia).
    rewrite !float64_of_Z_fast by (unfold Time.Hour; lia). reflexivity. }
  rewrite EH.
  destruct (trunc_float _) as [z|] eqn:Ez in Hok; [|discriminate].
  apply andb_prop in Hok as [Hz Hb]. apply Z.eqb_eq in Hz. subst z.
  split.
  - apply int64_of_float_trunc; [exact Ez|apply in_int64_small; exact H].
  - rewrite float64_of_Z_fast by lia.
    destruct (trunc_float (fastFloat d * quarterPercent)) as [b|] eqn:Eb;
      [|discriminate].
    apply andb_prop in Hb as [Hin Hb]. apply Z.eqb_eq in Hb.
    rewrite (int64_of_float_trunc impl _ b Eb Hin). exact Hb.
Qed.

Lemma clampDays_range z : 1 <= clampDays z <= 30.
Proof.
  unfold clampDays. destruct (Z.ltb_spec z 1).
  - cbn. lia.
  - destruct (Z.gtb_spec z 30); lia.
Qed.

Lemma clampDays_max_min z : clampDays z = Z.max 1 (Z.min 30 z).
Proof.
  unfold clampDays. destruct (Z.ltb_spec z 1).
  - cbn. lia.
  - destruct (Z.gtb_spec z 30); lia.
Qed.

(** Beyond 292 years the duration saturates; the day count is then 106751
    or -106751 and the buffer 30 days or 1 day. *)
Lemma buffer_days_saturated impl :
  (int64_of_float impl (Time.Hours MaxInt64 / 24)%float = 106751
   /\ clampDays (int64_of_float impl (float64_of_Z 106751 * quarterPercent)%float)
      = 30)
  /\ (int64_of_float impl (Time.Hours MinInt64 / 24)%float = -106751
      /\ clampDays (int64_of_float impl (float64_of_Z (-106751) * quarterPercent)%float)
         = 1).
Proof.
  split; split.
  - apply int64_of_float_trunc; vm_compute; reflexivity.
  - rewrite (int64_of_float_trunc impl _ 266); vm_compute; reflexivity.
  - apply int64_of_float_trunc; vm_compute; reflexivity.
  - rewrite (int64_of_float_trunc impl _ (-266)); vm_compute; reflexivity.
Qed.

(** The buffer of a span of [d] days, whatever its length. *)
Lemma buffer_of_span impl d :
  clampDays
    (int64_of_float impl
       (float64_of_Z
          (int64_of_float impl (Time.Hours (Time.Sub d 0) / 24)%float)
        * quarterPercent)%float)
  = clampDays (d / 400).
Proof.
  destruct (buffer_days_saturated impl) as ((P1 & P2) & (N1 & N2)).
  destruct (Z_le_gt_dec d 106751) as [Hhi|Hhi].
  - destruct (Z_le_gt_dec (-106751) d) as [Hlo|Hlo].
    + destruct (buffer_days impl d (conj Hlo Hhi)) as [E1 E2].
      rewrite E1. exact E2.
    + assert (ES : Time.Sub d 0 = MinInt64).
      { unfold Time.Sub, MaxInt64, MinInt64, Time.Hour. rewrite Z.sub_0_r.
        destruct (Z.gtb_spec (d * 24 * (3600 * 10 ^ 9)) (2 ^ 63 - 1)); [lia|].
        destruct (Z.ltb_spec (d * 24 * (3600 * 10 ^ 9)) (- 2 ^ 63)); [|lia].
        reflexivity. }
      rewrite ES, N1, N2. symmetry. rewrite clampDays_max_min.
      assert (d / 400 < 0) by (apply Z.div_lt_upper_bound; lia). lia.
  - assert (ES : Time.Sub d 0 = MaxInt64).
    { unfold Time.Sub, MaxInt64, MinInt64, Time.Hour. rewrite Z.sub_0_r.
      destruct (Z.gtb_spec (d * 24 * (3600 * 10 ^ 9)) (2 ^ 63 - 1)); [|lia].
      reflexivity. }
    rewrite ES, P1, P2. symmetry. rewrite clampDays_max_min.
    assert (30 <= d / 400) by (apply Z.div_le_lower_bound; lia). lia.
Qed.

Lemma calculateDateBuffer_eq
    (impl : float -> Z) (startDate endDate : str) (start end_ : Z) :
  parseDate startDate = Some start -> parseDate endDate = Some end_ ->
  calculateDateBuffer impl startDate endDate
  = Ret (Ok {| OriginalStart := startDate;
               OriginalEnd := endDate;
               BufferedStart :=
                 formatDate (start - Z.max 1 (Z.min 30 ((end_ - start) / 400)));
               BufferedEnd :=
                 formatDate (end_ + Z.max 1 (Z.min 30 ((end_ - start) / 400)));
               BufferDays := Z.max 1 (Z.min 30 ((end_ - start) / 400)) |}).
Proof.
  intros Hs He. set (days := Z.max 1 (Z.min 30 ((end_ - start) / 400))).
  unfold calculateDateBuffer. rewrite Hs, He.
  rewrite Sub_shift.
  change (if (if ?b <? 1 then 1 else ?b) >? 30 then 30
          else (if ?b <? 1 then 1 else ?b)) with (clampDays b).
  rewrite buffer_of_span, clampDays_max_min. fold days.
  assert (Hd : 1 <= days <= 30) by (subst days; lia).
  rewrite wrap64_id by (unfold MinInt64, MaxInt64; lia).
  unfold Time.AddDate.
  replace (Z.abs (- days) <=? 10 ^ 14) with true by (symmetry; apply Z.leb_le; lia).
  replace (Z.abs days <=? 10 ^ 14) with true by (symmetry; apply Z.leb_le; lia).
  cbn [bind]. replace (start + - days) with (start - days) by lia.
  reflexivity.
Qed.

(** X12. [calculateDateBuffer] on two dates that parse, in closed form: it
    succeeds; the buffer is the whole number of 400 days in the span
    (0.25 %), at least 1 and at most 30 days, also when the end lies before
    the start; the buffered dates are the start minus and the end plus that
    many days, and the original strings are kept. *)
Theorem calculateDateBuffer_closed_form
    (impl : float -> Z) (startDate endDate : str) (start end_ : Z) :
  parseDate startDate = Some start -> parseDate endDate = Some end_ ->
  let days := Z.max 1 (Z.min 30 ((end_ - start) / 400)) in
  calculateDateBuffer impl startDate endDate
  = Ret (Ok {| OriginalStart := startDate;
               OriginalEnd := endDate;
               BufferedStart := formatDate (start - days);
               BufferedEnd := formatDate (end_ + days);
               BufferDays := days |}).
Proof. intros Hs He days. apply calculateDateBuffer_eq; assumption. Qed.

Lemma calculateDateBuffer_closed_form_witness :
  calculateDateBuffer impl_amd64 (L "2007-01-01") (L "2013-09-08")
  = Ret (Ok {| OriginalStart := L "2007-01-01";
               OriginalEnd := L "2013-09-08";
               BufferedStart := L "2006-12-26";
               BufferedEnd := L "2013-09-14";
               BufferDays := 6 |}).
Proof.
  apply (calculateDateBuffer_closed_form impl_amd64 (L "2007-01-01")
           (L "2013-09-08") 13514 15956); reflexivity.
Defined.

(** *** The ranges of a result table *)

(** The dates of a row that [calculateWFORetestDateRanges] parses. *)
Definition rowDates (row : Watcher.OPTResult) (isStart isEnd : Z) : Prop :=
  parseDate (Watcher.ISStartDate row) = Some isStart
  /\ parseDate (Watcher.ISEndDate row) = Some isEnd
  /\ (Watcher.OSStartDate row <> [] -> Watcher.OSEndDate row <> [] ->
      parseDate (Watcher.OSStartDate row) <> None
      /\ parseDate (Watcher.OSEndDate row) <> None).

(** What the range of a row holds. *)
Definition rangeOfRow (row : Watcher.OPTResult) (r : WFORetestDateRange)
  : Prop :=
  OriginalISStart r = Watcher.ISStartDate row
  /\ OriginalISEnd r = Watcher.ISEndDate row
  /\ OriginalOSStart r = Watcher.OSStartDate row
  /\ OriginalOSEnd r = Watcher.OSEndDate row
  /\ (exists isStart isEnd,
        parseDate (Watcher.ISStartDate row) = Some isStart
        /\ parseDate (Watcher.ISEndDate row) = Some isEnd
        /\ ISBufferDays r = Z.max 1 (Z.min 30 ((isEnd - isStart) / 400))
        /\ BufferedISStart r = formatDate (isStart - ISBufferDays r)
        /\ BufferedISEnd r = formatDate (isEnd + ISBufferDays r))
  /\ (if eqb_str (Watcher.OSStartDate row) []
         || eqb_str (Watcher.OSEndDate row) []
      then OSBufferDays r = 0 /\ BufferedOSStart r = []
           /\ BufferedOSEnd r = []
      else exists osStart osEnd,
        parseDate (Watcher.OSStartDate row) = Some osStart
        /\ parseDate (Watcher.OSEndDate row) = Some osEnd
        /\ OSBufferDays r = Z.max 1 (Z.min 30 ((osEnd - osStart) / 400))
        /\ BufferedOSStart r = formatDate (osStart - OSBufferDays r)
        /\ BufferedOSEnd r = formatDate (osEnd + OSBufferDays r)).

Lemma retestRangeOf_ok impl row isStart isEnd :
  rowDates row isStart isEnd ->
  exists r, retestRangeOf impl row = Ret (Ok r) /\ rangeOfRow row r.
Proof.
  intros (Hs & He & Hos). unfold retestRangeOf.
  rewrite (calculateDateBuffer_eq impl _ _ _ _ Hs He). cbn [bind].
  destruct (eqb_str (Watcher.OSStartDate row) []) eqn:E1.
  - cbn [negb andb bind]. eexists. split; [reflexivity|].
    unfold rangeOfRow. cbn. rewrite E1. cbn [orb].
    repeat split. exists isStart, isEnd. repeat split; assumption.
  - destruct (eqb_str (Watcher.OSEndDate row) []) eqn:E2.
    + cbn [negb andb bind]. eexists. split; [reflexivity|].
      unfold rangeOfRow. cbn. rewrite E1, E2. cbn [orb].
      repeat split. exists isStart, isEnd. repeat split; assumption.
    + cbn [negb andb]. apply eqb_str_neq in E1 as N1.
      apply eqb_str_neq in E2 as N2. destruct (Hos N1 N2) as [P1 P2].
      destruct (parseDate (Watcher.OSStartDate row)) as [osStart|] eqn:Eo1;
        [|contradiction].
      destruct (parseDate (Watcher.OSEndDate row)) as [osEnd|] eqn:Eo2;
        [|contradiction].
      rewrite (calculateDateBuffer_eq impl _ _ _ _ Eo1 Eo2). cbn [bind].
      eexists. split; [reflexivity|].
      unfold rangeOfRow. cbn. rewrite E1, E2, Eo1, Eo2. cbn [orb].
      repeat split.
      * exists isStart, isEnd. repeat split; assumption.
      * exists osStart, osEnd. repeat split.
Qed.

(** X13. [calculateWFORetestDateRanges] on a table whose IS dates parse
    (and whose OS dates parse where both are given): it succeeds with one
    range per row, in the order of the rows; each range keeps the four
    dates of its row as they are written, carries the 0.25 % buffer of the
    IS period (1 to 30 days) with the buffered IS dates, and the same for
    the OS period, or no OS buffer when an OS date is missing. *)
Theorem retest_ranges_follow_rows
    (impl : float -> Z) (rows : list Watcher.OPTResult) :
  Forall (fun row => exists isStart isEnd, rowDates row isStart isEnd) rows ->
  exists ranges,
    calculateWFORetestDateRanges impl rows = Ret (Ok ranges)
    /\ Forall2 rangeOfRow rows ranges.
Proof.
  induction rows as [|row rows IH]; intros H.
  - exists []. split; [reflexivity|constructor].
  - inversion H as [|? ? (isStart & isEnd & Hrow) Hrest]; subst.
    destruct (retestRangeOf_ok impl row isStart isEnd Hrow) as (r & Er & Hr).
    destruct (IH Hrest) as (ranges & Eranges & Hranges).
    exists (r :: ranges). cbn [calculateWFORetestDateRanges].
    rewrite Er. cbn [bind]. rewrite Eranges. cbn [bind].
    split; [reflexivity|constructor; assumption].
Qed.

Lemma retest_ranges_follow_rows_witness :
  exists ranges,
    calculateWFORetestDateRanges impl_amd64
      [RetestFacts.retest_row1; RetestFacts.retest_row2] = Ret (Ok ranges)
    /\ Forall2 rangeOfRow [RetestFacts.retest_row1; RetestFacts.retest_row2]
         ranges.
Proof.
  apply (retest_ranges_follow_rows impl_amd64
           [RetestFacts.retest_row1; RetestFacts.retest_row2]).
  repeat constructor.
  - exists 13514, 15466. repeat split; try reflexivity;
      intros C; vm_compute in C; discriminate.
  - exists 14003, 15956. repeat split; try reflexivity;
      intros C; vm_compute in C; discriminate.
Defined.

(** *** The checks on dates *)

(** The order that [validateDateRanges] asks of one range. *)
Definition ordered (r : WFORetestDateRange) : Prop :=
  exists isStart isEnd,
    parseDate (OriginalISStart r) = Some isStart
    /\ parseDate (OriginalISEnd r) = Some isEnd
    /\ isStart <= isEnd
    /\ (OriginalOSStart r <> [] -> OriginalOSEnd r <> [] ->
        exists osStart osEnd,
          parseDate (OriginalOSStart r) = Some osStart
          /\ parseDate (OriginalOSEnd r) = Some osEnd
          /\ isEnd <= osStart /\ osStart <= osEnd).

(** X14. A list of ranges passes [validateDateRanges] exactly when in
    every range the IS dates parse with the start not after the end and,
    where both OS dates are given, they parse too with the IS end not after
    the OS start and the OS start not after the OS end. *)
Theorem validateDateRanges_ordered (ranges : list WFORetestDateRange) :
  validateDateRanges ranges = Ok tt <-> Forall ordered ranges.
Proof.
  induction ranges as [|r rest IH]; cbn [validateDateRanges].
  - split; [constructor|reflexivity].
  - destruct (parseDate (OriginalISStart r)) as [isStart|] eqn:E1.
    2: { split; [discriminate|]. intros H. inversion H as [|? ? (a & b & P & _) _].
         congruence. }
    destruct (parseDate (OriginalISEnd r)) as [isEnd|] eqn:E2.
    2: { split; [discriminate|].
         intros H. inversion H as [|? ? (a & b & _ & P & _) _]. congruence. }
    destruct (Z.ltb_spec isEnd isStart) as [Hlt|Hge].
    { split; [discriminate|].
      intros H. inversion H as [|? ? (a & b & P1 & P2 & P3 & _) _].
      rewrite E1 in P1. rewrite E2 in P2. injection P1 as <-.
      injection P2 as <-. lia. }
    destruct (eqb_str (OriginalOSStart r) []) eqn:N1.
    { cbn [negb andb]. apply eqb_str_eq in N1. rewrite IH. split.
      - intros H. constructor; [|exact H]. exists isStart, isEnd.
        repeat split; try assumption. intros C. contradiction.
      - intros H. inversion H. assumption. }
    destruct (eqb_str (OriginalOSEnd r) []) eqn:N2.
    { cbn [negb andb]. apply eqb_str_eq in N2. rewrite IH. split.
      - intros H. constructor; [|exact H]. exists isStart, isEnd.
        repeat split; try assumption. intros _ C. contradiction.
      - intros H. inversion H. assumption. }
    cbn [negb andb]. apply eqb_str_neq in N1, N2.
    destruct (parseDate (OriginalOSStart r)) as [osStart|] eqn:E3.
    2: { split; [discriminate|].
         intros H. inversion H as [|? ? (a & b & _ & _ & _ & P) _].
         destruct (P N1 N2) as (c & d & Q & _). congruence. }
    destruct (parseDate (OriginalOSEnd r)) as [osEnd|] eqn:E4.
    2: { split; [discriminate|].
         intros H. inversion H as [|? ? (a & b & _ & _ & _ & P) _].
         destruct (P N1 N2) as (c & d & _ & Q & _). congruence. }
    destruct (Z.ltb_spec osEnd osStart) as [H1|H1].
    { split; [discriminate|].
      intros H. inversion H as [|? ? (a & b & _ & _ & _ & P) _].
      destruct (P N1 N2) as (c & d & Q1 & Q2 & _ & Q3).
      rewrite E3 in Q1. rewrite E4 in Q2. injection Q1 as <-.
      injection Q2 as <-. lia. }
    destruct (Z.ltb_spec osStart isEnd) as [H2|H2].
    { split; [discriminate|].
      intros H. inversion H as [|? ? (a & b & _ & P2 & _ & P) _].
      destruct (P N1 N2) as (c & d & Q1 & _ & Q3 & _).
      rewrite E2 in P2. rewrite E3 in Q1. injection P2 as <-.
      injection Q1 as <-. lia. }
    rewrite IH. split.
    + intros H. constructor; [|exact H]. exists isStart, isEnd.
      repeat split; try assumption. intros _ _. exists osStart, osEnd.
      repeat split; assumption.
    + intros H. inversion H. assumption.
Qed.

(** X15. The format check of [validateOptResults] is weaker than the
    parsing of dates: every string that [parseDate] accepts passes
    [validateDateFormat], but a string of the right shape that names no
    day of the calendar passes as well, and is rejected only later, by
    [calculateDateBuffer]. *)
Theorem validateDateFormat_weaker :
  (forall dateStr t,
     parseDate dateStr = Some t -> validateDateFormat dateStr = Ok tt)
  /\ validateDateFormat (L "2023-13-45") = Ok tt
  /\ parseDate (L "2023-13-45") = None
  /\ forall impl, calculateDateBuffer impl (L "2023-13-45") (L "2023-12-31")
                  = Ret Err.
Proof.
  split; [|repeat split].
  intros dateStr t H. unfold parseDate, Time.Parse in H.
  destruct dateStr as [|y1 [|y2 [|y3 [|y4 [|h1 [|m1 [|m2 [|h2 [|d1 [|d2 [|]]]]]]]]]]];
    try discriminate.
  unfold validateDateFormat.
  destruct (forallb isDigit [y1; y2; y3; y4; m1; m2; d1; d2]
            && Ascii.eqb h1 "-" && Ascii.eqb h2 "-"); [reflexivity|discriminate].
Qed.

End BufferFacts.
(** ** Dates and runs, once more *)

Module RunFacts.
Import Expand.

(** X16. Formatting a day and parsing the text gives the day back when its
    year has four digits (0000 to 9999); for any other year the text that
    [formatDate] writes is not accepted by [parseDate].  No formatted date
    is read back as another day. *)
Theorem format_then_parse (t : Z) :
  parseDate (formatDate t)
  = if (0 <=? fst (fst (Time.civil_from_days t)))
       && (fst (fst (Time.civil_from_days t)) <=? 9999)
    then Some t else None.
Proof. apply TimeFacts.Parse_Format. Qed.

(** X17. The layout of the runs that [calculateWFORuns] returns for
    [runs >= 0]: there are [runs + 1] of them; the first IS period starts
    on the start date; in every run the IS period has the same length
    [isDays] and the OS period starts on the day after the IS end. *)
Theorem walk_forward_run_layout
    (impl : float -> Z) (startDate endDate : str) (runs : Z)
    (oosPercent : float) (ranges : list DateRange) :
  0 <= runs < MaxInt64 ->
  calculateWFORuns impl startDate endDate runs oosPercent = Ret (Ok ranges) ->
  exists startTime endTime,
    parseDate startDate = Some startTime
    /\ parseDate endDate = Some endTime
    /\ Z.of_nat (length ranges) = runs + 1
    /\ (exists first,
          nth_error ranges 0 = Some first
          /\ parseDate (ISStartDate first) = Some startTime)
    /\ forall dr, In dr ranges ->
         exists isStart,
           parseDate (ISStartDate dr) = Some isStart
           /\ parseDate (ISEndDate dr)
              = Some (isStart
                      + snd (fst (wfoDays impl startTime endTime runs oosPercent)))
           /\ OSStartDate dr
              = formatDate
                  (isStart
                   + snd (fst (wfoDays impl startTime endTime runs oosPercent))
                   + 1).
Proof.
  intros Hruns H.
  destruct (RangeFacts.calculateWFORuns_ok _ _ _ _ _ _ H)
    as (startTime & endTime & totalDays & isDays & osDays
        & Hs & He & Hd & Hlen & Hok).
  exists startTime, endTime. rewrite Hd. cbn [fst snd].
  rewrite RangeFacts.runs_count in Hlen by exact Hruns.
  repeat split; try assumption.
  - rewrite Hlen. lia.
  - destruct ranges as [|first rest]; [cbn in Hlen; lia|].
    exists first. split; [reflexivity|].
    destruct (Hok O first eq_refl) as [isStart P1 _ _ _ _ P6 _].
    rewrite P1, (P6 eq_refl). reflexivity.
  - intros dr Hin. apply In_nth_error in Hin as (j & Hj).
    destruct (Hok j dr Hj) as [isStart P1 P2 _ P4 _ _ _].
    exists isStart. repeat split; assumption.
Qed.

Lemma walk_forward_run_layout_witness :
  exists startTime endTime,
    parseDate (L "2007-01-01") = Some startTime
    /\ parseDate (L "2013-09-08") = Some endTime
    /\ exists ranges,
         calculateWFORuns impl_amd64 (L "2007-01-01") (L "2013-09-08") 3
           20%float = Ret (Ok ranges)
         /\ Z.of_nat (length ranges) = 3 + 1.
Proof.
  destruct (calculateWFORuns impl_amd64 (L "2007-01-01") (L "2013-09-08") 3
              20%float) as [[ranges|]| |] eqn:E;
    try (vm_compute in E; discriminate).
  destruct (walk_forward_run_layout impl_amd64 (L "2007-01-01")
              (L "2013-09-08") 3 20%float ranges)
    as (startTime & endTime & H1 & H2 & H3 & _).
  - vm_compute. split; [discriminate|reflexivity].
  - exact E.
  - exists startTime, endTime. repeat split; try assumption.
    exists ranges. split; [reflexivity|exact H3].
Defined.

End RunFacts.
(** ** The polling loop and durations *)

Module DaemonFacts.
Import Polling Daemon.

(** *** The counters of the optimizer *)

(** The number of polls at the end of [polls] that found no job. *)
Fixpoint emptyRun (polls : list Z) (run : nat) : nat :=
  match polls with
  | [] => run
  | jobCount :: rest =>
      emptyRun rest (if jobCount >? 0 then O else S run)
  end.

Lemma emptyRun_le polls : forall run,
  (emptyRun polls run <= run + length polls)%nat.
Proof.
  induction polls as [|c polls IH]; intros run; cbn [emptyRun length]; [lia|].
  specialize (IH (if c >? 0 then O else S run)).
  destruct (c >? 0); lia.
Qed.

Lemma UpdateMetrics_fields po c :
  config (UpdateMetrics po c) = config po
  /\ currentInterval (UpdateMetrics po c) = currentInterval po
  /\ totalPolls (UpdateMetrics po c) = wrap64 (totalPolls po + 1)
  /\ successfulPolls (UpdateMetrics po c)
     = (if c >? 0 then wrap64 (successfulPolls po + 1)
        else successfulPolls po)
  /\ consecutiveEmptyPolls (UpdateMetrics po c)
     = (if c >? 0 then 0 else wrap64 (consecutiveEmptyPolls po + 1)).
Proof. unfold UpdateMetrics. destruct (c >? 0); repeat split. Qed.

Lemma wrap64_succ (n : nat) :
  Z.of_nat n < MaxInt64 -> wrap64 (Z.of_nat n + 1) = Z.of_nat (S n).
Proof.
  intros H. unfold MaxInt64 in H.
  rewrite wrap64_id by (unfold MinInt64, MaxInt64; lia). lia.
Qed.

Lemma UpdateMetrics_fold (polls : list Z) : forall po total ok run,
  totalPolls po = Z.of_nat total ->
  successfulPolls po = Z.of_nat ok ->
  consecutiveEmptyPolls po = Z.of_nat run ->
  (ok <= total)%nat -> (run <= total)%nat ->
  Z.of_nat (total + length polls) <= MaxInt64 ->
  let po' := fold_left UpdateMetrics polls po in
  totalPolls po' = Z.of_nat (total + length polls)
  /\ successfulPolls po'
     = Z.of_nat (ok + length (filter (fun c => c >? 0) polls))
  /\ consecutiveEmptyPolls po' = Z.of_nat (emptyRun polls run)
  /\ config po' = config po /\ currentInterval po' = currentInterval po.
Proof.
  induction polls as [|c polls IH];
    intros po total ok run Ht Hs He Hok Hrun Hmax.
  - cbn. rewrite !Nat.add_0_r. repeat split; assumption.
  - cbn [fold_left length filter emptyRun]. cbn [length] in Hmax.
    destruct (UpdateMetrics_fields po c) as (F1 & F2 & F3 & F4 & F5).
    rewrite Ht, wrap64_succ in F3 by lia.
    destruct (c >? 0) eqn:Ec.
    + rewrite Hs, wrap64_succ in F4 by lia.
      destruct (IH (UpdateMetrics po c) (S total) (S ok) O)
        as (I1 & I2 & I3 & I4 & I5); try assumption; try lia.
      cbv zeta. cbn [length]. rewrite I1, I2, I3, I4, I5, F1, F2.
      repeat split; f_equal; lia.
    + rewrite He, wrap64_succ in F5 by lia.
      destruct (IH (UpdateMetrics po c) (S total) ok (S run))
        as (I1 & I2 & I3 & I4 & I5); try assumption; try lia.
      cbv zeta. rewrite I1, I2, I3, I4, I5, F1, F2.
      repeat split; f_equal; lia.
Qed.

Lemma UpdateMetrics_counters_aux (cfg : PollConfig) (polls : list Z) :
  Z.of_nat (length polls) <= MaxInt64 ->
  let po := fold_left UpdateMetrics polls (NewPollingOptimizer cfg) in
  totalPolls po = Z.of_nat (length polls)
  /\ successfulPolls po = Z.of_nat (length (filter (fun c => c >? 0) polls))
  /\ consecutiveEmptyPolls po = Z.of_nat (emptyRun polls O)
  /\ config po = cfg /\ currentInterval po = GetPollInterval cfg.
Proof.
  intros H.
  apply (UpdateMetrics_fold polls (NewPollingOptimizer cfg) O O O);
    try reflexivity; try lia.
Qed.

(** X18. The counters after any sequence of [UpdateMetrics] calls on a new
    optimizer (fewer than 2^63 of them): [totalPolls] is the number of
    polls, [successfulPolls] the number of polls that found a job, and
    [consecutiveEmptyPolls] the number of polls since the last one that
    found a job; the configuration and the current interval are not
    touched. *)
Theorem UpdateMetrics_counters (cfg : PollConfig) (polls : list Z) :
  Z.of_nat (length polls) <= MaxInt64 ->
  let po := fold_left UpdateMetrics polls (NewPollingOptimizer cfg) in
  totalPolls po = Z.of_nat (length polls)
  /\ successfulPolls po = Z.of_nat (length (filter (fun c => c >? 0) polls))
  /\ consecutiveEmptyPolls po = Z.of_nat (emptyRun polls O)
  /\ config po = cfg /\ currentInterval po = GetPollInterval cfg.
Proof.
  exact (UpdateMetrics_counters_aux cfg polls).
Qed.

Lemma UpdateMetrics_counters_witness :
  let po := fold_left UpdateMetrics [2; 0; 5; 0; 0]
              (NewPollingOptimizer DefaultPoll) in
  totalPolls po = 5 /\ successfulPolls po = 2 /\ consecutiveEmptyPolls po = 2
  /\ config po = DefaultPoll
  /\ currentInterval po = GetPollInterval DefaultPoll.
Proof.
  apply (UpdateMetrics_counters DefaultPoll [2; 0; 5; 0; 0]).
  vm_compute. discriminate.
Defined.

(** *** The rounds of the daemon *)

(** The interval is 0 when the to-do folder holds more jobs than the
    threshold. *)
Definition suspended (cfg : PollConfig) (todo : option (list DirEntry))
  : bool :=
  match countJobsInFolder todo with
  | Some jobCount => jobCount >? RemainingJobsThreshold cfg
  | None => false
  end.

(** Two optimizers that differ in the current interval only. *)
Definition sameCounters (a b : PollingOptimizer) : Prop :=
  config a = config b
  /\ totalPolls a = totalPolls b
  /\ successfulPolls a = successfulPolls b
  /\ consecutiveEmptyPolls a = consecutiveEmptyPolls b.

Lemma sameCounters_refl a : sameCounters a a.
Proof. repeat split. Qed.

Lemma sameCounters_trans a b c :
  sameCounters a b -> sameCounters b c -> sameCounters a c.
Proof.
  intros (A1 & A2 & A3 & A4) (B1 & B2 & B3 & B4).
  repeat split; congruence.
Qed.

Lemma CalculateOptimalInterval_counters impl po hasJobs remaining dl todo :
  sameCounters
    (snd (CalculateOptimalInterval impl po hasJobs remaining dl todo)) po.
Proof.
  unfold CalculateOptimalInterval.
  repeat match goal with
         | |- context [if ?c then _ else _] =>
             lazymatch c with
             | context [if _ then _ else _] => fail
             | _ => destruct c
             end
         end; cbn [snd]; repeat split.
Qed.

Lemma UpdateMetrics_sameCounters a b c :
  sameCounters a b -> sameCounters (UpdateMetrics a c) (UpdateMetrics b c).
Proof.
  intros (A1 & A2 & A3 & A4).
  destruct (UpdateMetrics_fields a c) as (F1 & _ & F3 & F4 & F5).
  destruct (UpdateMetrics_fields b c) as (G1 & _ & G3 & G4 & G5).
  destruct (c >? 0); repeat split; congruence.
Qed.

Lemma pollRound_eq impl po remaining jobs dl todo :
  pollRound impl po remaining jobs dl todo
  = (if jobs >? 0 then max 0 (wrap64 (remaining - jobs)) else 0,
     fst (CalculateOptimalInterval impl (UpdateMetrics po jobs) (jobs >? 0)
            (if jobs >? 0 then max 0 (wrap64 (remaining - jobs)) else 0)
            dl todo),
     snd (CalculateOptimalInterval impl (UpdateMetrics po jobs) (jobs >? 0)
            (if jobs >? 0 then max 0 (wrap64 (remaining - jobs)) else 0)
            dl todo)).
Proof.
  unfold pollRound.
  destruct (CalculateOptimalInterval _ _ _ _ _ _) as [next po']. reflexivity.
Qed.

Lemma remaining_zero jobs :
  in_int64 jobs = true ->
  (if jobs >? 0 then max 0 (wrap64 (0 - jobs)) else 0) = 0.
Proof.
  unfold in_int64, MinInt64, MaxInt64. intros H.
  apply andb_true_iff in H. destruct H as [H1 H2].
  destruct (jobs >? 0) eqn:E; [|reflexivity].
  rewrite wrap64_id by (unfold MinInt64, MaxInt64; lia).
  unfold max. destruct (0 >? 0 - jobs) eqn:E'; lia.
Qed.

Lemma pollRounds_app impl polls : forall po remaining dl more acc,
  pollRounds impl po remaining dl (polls ++ more) acc
  = let '(remaining', acc', po') := pollRounds impl po remaining dl polls acc in
    pollRounds impl po' remaining' dl more acc'.
Proof.
  induction polls as [|[jobs todo] polls IH]; intros; [reflexivity|].
  cbn [app pollRounds].
  destruct (pollRound impl po remaining jobs dl todo) as [[r n] p].
  apply IH.
Qed.

(** What the rounds keep: [remaining] is 0, the counters are those of the
    [UpdateMetrics] calls, and one interval is recorded for each poll. *)
Lemma pollRounds_inv impl polls : forall po dl acc,
  Forall (fun p => in_int64 (fst p) = true) polls ->
  exists newer po',
    pollRounds impl po 0 dl polls acc = (0, newer ++ acc, po')
    /\ length newer = length polls
    /\ sameCounters po' (fold_left UpdateMetrics (map fst polls) po).
Proof.
  induction polls as [|[jobs todo] polls IH]; intros po dl acc Hint.
  - exists [], po. repeat split.
  - inversion Hint as [|? ? Hj Hrest]; subst. cbn [fst] in Hj.
    cbn [pollRounds map fst fold_left]. rewrite pollRound_eq.
    rewrite (remaining_zero jobs Hj).
    set (c := CalculateOptimalInterval impl (UpdateMetrics po jobs)
                (jobs >? 0) 0 dl todo).
    destruct (IH (snd c) dl (fst c :: acc) Hrest)
      as (newer & po' & E & Hlen & Hsame).
    exists (newer ++ [fst c]), po'. split; [|split].
    + rewrite E, <- app_assoc. reflexivity.
    + rewrite length_app. cbn [length]. lia.
    + eapply sameCounters_trans; [exact Hsame|].
      clear -c. subst c.
      pose proof (CalculateOptimalInterval_counters impl
                    (UpdateMetrics po jobs) (jobs >? 0) 0 dl todo) as S.
      revert S.
      generalize (snd (CalculateOptimalInterval impl (UpdateMetrics po jobs)
                         (jobs >? 0) 0 dl todo)).
      generalize (UpdateMetrics po jobs).
      induction (map fst polls) as [|x xs IHx]; intros a b S; [exact S|].
      cbn [fold_left]. apply IHx. apply UpdateMetrics_sameCounters. exact S.
Qed.

(** X19. In [runDaemon] the variable [remaining] starts at 0 and is 0
    after every round.  So, when the threshold of the configuration is not
    negative, a poll that returns jobs is followed by the minimum interval
    (or by 0 when the to-do folder holds more jobs than the threshold),
    whatever happened in the rounds before, and the count of empty polls is
    back at 0. *)
Theorem poll_with_jobs_waits_minimum (impl : float -> Z)
    (po : PollingOptimizer) (dl : str)
    (polls : list (Z * option (list DirEntry)))
    (jobs : Z) (todo : option (list DirEntry)) :
  Forall (fun p => in_int64 (fst p) = true) polls ->
  0 < jobs <= MaxInt64 ->
  0 <= RemainingJobsThreshold (config po) ->
  exists earlier po',
    pollRounds impl po 0 dl (polls ++ [(jobs, todo)]) []
    = (0,
       (if suspended (config po) todo then 0
        else GetMinPollInterval (config po)) :: earlier,
       po')
    /\ length earlier = length polls
    /\ consecutiveEmptyPolls po' = 0.
Proof.
  intros Hint Hjobs Hthr.
  destruct (pollRounds_inv impl polls po dl [] Hint)
    as (newer & po1 & E & Hlen & Hsame).
  rewrite pollRounds_app, E. cbn [pollRounds]. rewrite pollRound_eq.
  assert (Hj : in_int64 jobs = true).
  { unfold in_int64, MinInt64, MaxInt64 in *.
    apply andb_true_iff. split; apply Z.leb_le; lia. }
  rewrite (remaining_zero jobs Hj).
  assert (Ej : (jobs >? 0) = true) by (apply Z.gtb_lt; lia).
  rewrite Ej.
  assert (Ecfg : config (UpdateMetrics po1 jobs) = config po).
  { destruct (UpdateMetrics_fields po1 jobs) as (F1 & _).
    rewrite F1. destruct Hsame as (S1 & _). rewrite S1.
    clear. revert po.
    induction (map fst polls) as [|x xs IH]; intros po; [reflexivity|].
    cbn [fold_left]. rewrite IH.
    apply (UpdateMetrics_fields po x). }
  assert (Eempty : consecutiveEmptyPolls (UpdateMetrics po1 jobs) = 0).
  { destruct (UpdateMetrics_fields po1 jobs) as (_ & _ & _ & _ & F5).
    rewrite F5, Ej. reflexivity. }
  unfold CalculateOptimalInterval, suspended. rewrite Ecfg.
  assert (Et : (0 <=? RemainingJobsThreshold (config po)) = true)
    by (apply Z.leb_le; lia).
  rewrite Et. cbn [andb].
  exists (newer ++ []).
  destruct (countJobsInFolder todo) as [n|];
    [destruct (n >? RemainingJobsThreshold (config po))|];
    cbn [fst snd]; eexists; (split; [reflexivity|split]);
    rewrite ?app_nil_r; assumption.
Qed.

Lemma poll_with_jobs_waits_minimum_witness :
  exists earlier po',
    pollRounds impl_amd64 (NewPollingOptimizer DefaultPoll) 0 (L "dl")
      ([(12, None); (0, None)] ++ [(7, None)]) []
    = (0,
       (if suspended (config (NewPollingOptimizer DefaultPoll)) None then 0
        else GetMinPollInterval (config (NewPollingOptimizer DefaultPoll)))
       :: earlier,
       po')
    /\ length earlier = 2%nat
    /\ consecutiveEmptyPolls po' = 0.
Proof.
  apply (poll_with_jobs_waits_minimum impl_amd64
           (NewPollingOptimizer DefaultPoll) (L "dl")
           [(12, None); (0, None)] 7 None).
  - repeat constructor.
  - unfold MaxInt64. lia.
  - cbn. lia.
Defined.

(** X20. After three polls in a row that return no job, the daemon waits
    the maximum interval of the configuration (or 0 when the to-do folder
    holds more jobs than the threshold), and it keeps doing so until a poll
    returns a job: the interval is the maximum after every poll that ends a
    run of at least three empty polls. *)
Theorem three_empty_polls_wait_maximum (impl : float -> Z)
    (cfg : PollConfig) (dl : str)
    (polls : list (Z * option (list DirEntry)))
    (jobs : Z) (todo : option (list DirEntry)) :
  Forall (fun p => in_int64 (fst p) = true) polls ->
  Z.of_nat (length polls) < MaxInt64 ->
  in_int64 jobs = true -> jobs <= 0 ->
  (2 <= emptyRun (map fst polls) O)%nat ->
  exists earlier po',
    pollRounds impl (NewPollingOptimizer cfg) 0 dl (polls ++ [(jobs, todo)]) []
    = (0,
       (if suspended cfg todo then 0 else GetMaxPollInterval cfg) :: earlier,
       po')
    /\ length earlier = length polls.
Proof.
  intros Hint Hlen Hj Hjobs Hrun.
  destruct (pollRounds_inv impl polls (NewPollingOptimizer cfg) dl [] Hint)
    as (newer & po1 & E & Hl & Hsame).
  rewrite pollRounds_app, E. cbn [pollRounds]. rewrite pollRound_eq.
  rewrite (remaining_zero jobs Hj).
  assert (Ej : (jobs >? 0) = false).
  { destruct (jobs >? 0) eqn:X; [|reflexivity]. apply Z.gtb_lt in X. lia. }
  rewrite Ej.
  destruct (UpdateMetrics_counters_aux cfg (map fst polls))
    as (_ & _ & C3 & C4 & _).
  { rewrite length_map. lia. }
  destruct Hsame as (S1 & _ & _ & S4).
  destruct (UpdateMetrics_fields po1 jobs) as (F1 & _ & _ & _ & F5).
  rewrite Ej, S4, C3 in F5. rewrite S1, C4 in F1.
  assert (Hle : (emptyRun (map fst polls) O <= length polls)%nat).
  { pose proof (emptyRun_le (map fst polls) O) as B.
    rewrite length_map in B. exact B. }
  rewrite wrap64_succ in F5 by lia.
  unfold CalculateOptimalInterval, suspended. rewrite F1, F5.
  cbn [andb].
  assert (E3 : (Z.of_nat (S (emptyRun (map fst polls) O)) >=? 3) = true).
  { apply Z.geb_le. lia. }
  rewrite E3.
  exists (newer ++ []).
  destruct (countJobsInFolder todo) as [n|];
    [destruct (n >? RemainingJobsThreshold cfg)|];
    cbn [fst snd]; eexists; (split; [reflexivity|]);
    rewrite ?app_nil_r; assumption.
Qed.

Lemma three_empty_polls_wait_maximum_witness :
  exists earlier po',
    pollRounds impl_amd64 (NewPollingOptimizer DefaultPoll) 0 (L "dl")
      ([(4, None); (0, None); (0, None)] ++ [(0, None)]) []
    = (0,
       (if suspended DefaultPoll None then 0
        else GetMaxPollInterval DefaultPoll) :: earlier,
       po')
    /\ length earlier = 3%nat.
Proof.
  apply (three_empty_polls_wait_maximum impl_amd64 DefaultPoll (L "dl")
           [(4, None); (0, None); (0, None)] 0 None).
  - repeat constructor.
  - unfold MaxInt64. cbn. lia.
  - reflexivity.
  - lia.
  - cbn. lia.
Defined.

End DaemonFacts.
(** ** Durations as text *)

Module DurationFacts.
Import Durations.

(** *** Integers below 2^53 as floats *)

Lemma digits2_size p : digits2_pos p = Pos.size p.
Proof. induction p as [p IH|p IH|]; cbn; rewrite ?IH; reflexivity. Qed.

Lemma iter_xO_digits k : forall p,
  digits2_pos (Pos.iter xO p k) = (digits2_pos p + k)%positive.
Proof.
  induction k as [|k IH] using Pos.peano_ind; intros p.
  - cbn. lia.
  - rewrite Pos.iter_succ. cbn [digits2_pos]. rewrite IH. lia.
Qed.

Lemma iter_xO_pow k : forall p,
  Z.pos (Pos.iter xO p k) = Z.pos p * 2 ^ Z.pos k.
Proof.
  induction k as [|k IH] using Pos.peano_ind; intros p.
  - cbn. lia.
  - rewrite Pos.iter_succ, Pos2Z.inj_xO, IH, Pos2Z.inj_succ.
    rewrite Z.pow_succ_r by lia. lia.
Qed.

Lemma small_digits p : Z.pos p < 2 ^ 53 -> (digits2_pos p <= 53)%positive.
Proof.
  intros H. rewrite digits2_size.
  pose proof (Pos.size_le p) as L.
  destruct (Pos.leb_spec (Pos.size p) 53) as [Hle|Hgt]; [exact Hle|].
  exfalso.
  assert (L' : 2 ^ Z.pos (Pos.size p) <= 2 * Z.pos p).
  { rewrite <- (Pos2Z.inj_pow 2 (Pos.size p)). lia. }
  assert (E : 2 ^ 54 <= 2 ^ Z.pos (Pos.size p))
    by (apply Z.pow_le_mono_r; lia).
  change (2 ^ 54) with 18014398509481984 in E.
  change (2 ^ 53) with 9007199254740992 in H. lia.
Qed.

(** The float of a positive integer below 2^53 has that integer, shifted to
    53 digits, as mantissa. *)
Lemma normalize_small p :
  Z.pos p < 2 ^ 53 ->
  exists m e,
    binary_normalize prec emax (Z.pos p) 0 false = S754_finite false m e
    /\ valid_binary (S754_finite false m e) = true
    /\ -52 <= e <= 0
    /\ Z.pos m = Z.pos p * 2 ^ (- e).
Proof.
  intros H. pose proof (small_digits p H) as Hd.
  unfold binary_normalize, binary_round.
  assert (Ef : fexp prec emax (Z.pos (digits2_pos p) + 0)
               = Z.pos (digits2_pos p) - 53).
  { unfold fexp, emin, prec, emax. lia. }
  rewrite Ef. unfold shl_align.
  assert (Haux : forall m e,
            digits2_pos m = 53%positive -> -52 <= e <= 0 ->
            binary_round_aux prec emax false (Z.pos m) e loc_Exact
            = S754_finite false m e
            /\ valid_binary (S754_finite false m e) = true).
  { intros m e Hm He.
    assert (Ee : fexp prec emax (Z.pos (digits2_pos m) + e) = e).
    { rewrite Hm. unfold fexp, emin, prec, emax. lia. }
    unfold binary_round_aux, shr_fexp. cbn [Zdigits2 shr_record_of_loc].
    rewrite Ee, Z.sub_diag. cbn [shr shr_m loc_of_shr_record
                                  round_nearest_even Zdigits2
                                  shr_record_of_loc].
    rewrite Ee, Z.sub_diag. cbn [shr shr_m].
    assert (El : (e <=? emax - prec) = true)
      by (apply Z.leb_le; unfold emax, prec; lia).
    rewrite El. split; [reflexivity|].
    unfold valid_binary, SpecFloat.valid_binary, bounded,
      canonical_mantissa.
    rewrite Ee, Z.eqb_refl, El. reflexivity. }
  destruct (Z.pos (digits2_pos p) - 53 - 0) as [|q|q] eqn:Eq; try lia.
  - destruct (Haux p 0) as [A B]; [lia|lia|].
    exists p, 0. repeat split; try assumption; try lia.
  - destruct (Haux (Pos.iter xO p q) (Z.pos (digits2_pos p) - 53)) as [A B].
    + rewrite iter_xO_digits. lia.
    + lia.
    + exists (Pos.iter xO p q), (Z.pos (digits2_pos p) - 53).
      repeat split; try assumption; try lia.
      rewrite iter_xO_pow. f_equal. f_equal. lia.
Qed.

(** What [float64(z)] is for [|z| < 2^53]: the conversion is exact. *)
Lemma float64_of_Z_exact (z : Z) :
  - 2 ^ 53 < z < 2 ^ 53 ->
  trunc_float (float64_of_Z z) = Some z
  /\ (Prim2SF (float64_of_Z z) = S754_zero false
      \/ exists s m e, Prim2SF (float64_of_Z z) = S754_finite s m e).
Proof.
  intros H. unfold float64_of_Z.
  destruct z as [|p|p].
  - split; [reflexivity|left; reflexivity].
  - destruct (normalize_small p) as (m & e & E & V & He & Hm); [lia|].
    rewrite E. unfold trunc_float. rewrite Prim2SF_SF2Prim by exact V.
    split; [|right; eauto].
    f_equal. destruct e as [|q|q]; try lia.
    rewrite Hm. change (- Z.neg q) with (Z.pos q).
    apply Z.div_mul. apply Z.pow_nonzero; lia.
  - destruct (normalize_small p) as (m & e & E & V & He & Hm); [lia|].
    rewrite BufferFacts.normalize_opp, E. cbn [SFopp negb].
    unfold trunc_float. rewrite Prim2SF_SF2Prim by exact V.
    split; [|right; eauto].
    f_equal. destruct e as [|q|q]; try lia.
    rewrite Hm. change (- Z.neg q) with (Z.pos q).
    rewrite Z.div_mul by (apply Z.pow_nonzero; lia). reflexivity.
Qed.

(** [float64(z) + 0/1e9] is [float64(z)], and [int] of it is [z]. *)
Lemma Seconds_whole (impl : float -> Z) (k : Z) :
  - 2 ^ 53 < k < 2 ^ 53 ->
  int64_of_float impl (Seconds (k * Second)) = k.
Proof.
  intros H. unfold Seconds.
  rewrite Z.quot_mul, Z.rem_mul by (unfold Second; lia).
  destruct (float64_of_Z_exact k H) as [Ht Hs].
  assert (Ez : Prim2SF (float64_of_Z 0 / float64_of_Z Second)
               = S754_zero false) by (vm_compute; reflexivity).
  assert (E : (float64_of_Z k + float64_of_Z 0 / float64_of_Z Second)%float
              = float64_of_Z k).
  { rewrite <- (SF2Prim_Prim2SF (_ + _)%float).
    rewrite <- (SF2Prim_Prim2SF (float64_of_Z k)) at 2.
    f_equal. rewrite add_spec, Ez.
    destruct Hs as [-> | (s & m & e & ->)]; reflexivity. }
  rewrite E. apply BufferFacts.int64_of_float_trunc; [exact Ht|].
  unfold in_int64, MinInt64, MaxInt64.
  apply andb_true_intro. split; apply Z.leb_le; lia.
Qed.

(** *** [Atoi] reads what [Itoa] writes *)

Lemma digits_val_app s : forall t acc,
  digits_val (s ++ t) acc
  = match digits_val s acc with
    | Some v => digits_val t v
    | None => None
    end.
Proof.
  induction s as [|c s IH]; intros t acc; cbn [app digits_val]; [reflexivity|].
  destruct (isDigit c); [apply IH|reflexivity].
Qed.

Lemma digit_val_char d : 0 <= d <= 9 -> digit_val (digit_char d) = d.
Proof.
  intros H.
  assert (E : d = 0 \/ d = 1 \/ d = 2 \/ d = 3 \/ d = 4 \/ d = 5 \/ d = 6
              \/ d = 7 \/ d = 8 \/ d = 9) by lia.
  repeat (destruct E as [->|E]; [reflexivity|]). subst. reflexivity.
Qed.

Lemma digits_fuel_val fuel : forall n acc,
  0 <= n < 10 ^ Z.of_nat (S fuel) ->
  exists c pre,
    digits_fuel (S fuel) n acc = (c :: pre) ++ acc
    /\ isDigit c = true
    /\ forall a, digits_val (c :: pre) a
                 = Some (a * 10 ^ Z.of_nat (length (c :: pre)) + n).
Proof.
  assert (Hone : forall n acc f, 0 <= n < 10 ->
            exists c pre,
              digits_fuel (S f) n acc = (c :: pre) ++ acc
              /\ isDigit c = true
              /\ forall a, digits_val (c :: pre) a
                           = Some (a * 10 ^ Z.of_nat (length (c :: pre)) + n)).
  { intros n acc f Hn. cbn [digits_fuel].
    assert (E : (n <? 10) = true) by (apply Z.ltb_lt; lia). rewrite E.
    exists (digit_char (n mod 10)), []. split; [reflexivity|].
    rewrite Z.mod_small by lia.
    split; [apply TimeFacts.isDigit_digit_char; lia|].
    intros a. cbn [digits_val length].
    rewrite TimeFacts.isDigit_digit_char, digit_val_char by lia.
    f_equal. change (10 ^ Z.of_nat 1) with 10. lia. }
  induction fuel as [|fuel IH]; intros n acc Hn.
  - apply Hone. change (10 ^ Z.of_nat 1) with 10 in Hn. exact Hn.
  - destruct (Z.ltb_spec n 10) as [Hlt|Hge]; [apply Hone; lia|].
    assert (Hm : 0 <= n mod 10 <= 9)
      by (pose proof (Z.mod_pos_bound n 10 ltac:(lia)); lia).
    change (digits_fuel (S (S fuel)) n acc)
      with (let acc' := digit_char (n mod 10) :: acc in
            if n <? 10 then acc' else digits_fuel (S fuel) (n / 10) acc').
    cbv zeta.
    assert (E10 : (n <? 10) = false) by (apply Z.ltb_ge; lia). rewrite E10.
    rewrite (Nat2Z.inj_succ (S fuel)), Z.pow_succ_r in Hn by lia.
    destruct (IH (n / 10) (digit_char (n mod 10) :: acc))
      as (c & pre & E & Hc & Hv).
    { split; [apply Z.div_pos; lia|].
      apply Z.div_lt_upper_bound; lia. }
    exists c, (pre ++ [digit_char (n mod 10)]).
    split; [|split; [exact Hc|]].
    + rewrite E. cbn [app]. rewrite <- app_assoc. reflexivity.
    + intros a.
      change (c :: pre ++ [digit_char (n mod 10)])
        with ((c :: pre) ++ [digit_char (n mod 10)]).
      rewrite digits_val_app, Hv. cbn [digits_val].
      rewrite TimeFacts.isDigit_digit_char, digit_val_char by exact Hm.
      rewrite length_app. cbn [length].
      rewrite Nat.add_1_r, (Nat2Z.inj_succ (S (length pre))).
      rewrite Z.pow_succ_r by lia.
      f_equal. pose proof (Z.div_mod n 10 ltac:(lia)). lia.
Qed.

Lemma digits_val_digits n :
  0 <= n ->
  exists c pre,
    digits n = c :: pre /\ isDigit c = true
    /\ digits_val (c :: pre) 0 = Some n.
Proof.
  intros Hn. unfold digits.
  destruct (digits_fuel_val (Z.to_nat (Z.log2 n)) n [])
    as (c & pre & E & Hc & Hv).
  { split; [exact Hn|].
    rewrite Nat2Z.inj_succ, Z2Nat.id by apply Z.log2_nonneg.
    destruct (Z.eq_dec n 0) as [->|Hnz]; [cbn; lia|].
    pose proof (Z.log2_spec n ltac:(lia)) as [_ Hu].
    eapply Z.lt_le_trans; [exact Hu|].
    apply Z.pow_le_mono_l. lia. }
  exists c, pre. rewrite E, app_nil_r. split; [reflexivity|].
  split; [exact Hc|]. rewrite Hv. reflexivity.
Qed.

Lemma isDigit_not_sign c :
  isDigit c = true -> Ascii.eqb c "-" = false /\ Ascii.eqb c "+" = false.
Proof.
  intros H. split.
  - destruct (Ascii.eqb_spec c "-") as [->|]; [discriminate H|reflexivity].
  - destruct (Ascii.eqb_spec c "+") as [->|]; [discriminate H|reflexivity].
Qed.

Lemma Atoi_Itoa n : in_int64 n = true -> Atoi (Itoa n) = Some n.
Proof.
  intros H. unfold Itoa.
  destruct (Z.ltb_spec n 0) as [Hneg|Hpos].
  - destruct (digits_val_digits (- n)) as (c & pre & E & Hc & Hv); [lia|].
    rewrite E. unfold Atoi. cbn [L list_ascii_of_string app].
    change (Ascii.eqb "-" "-") with true. cbv iota.
    rewrite Hv, Z.opp_involutive, H. reflexivity.
  - destruct (digits_val_digits n) as (c & pre & E & Hc & Hv); [lia|].
    rewrite E. unfold Atoi.
    destruct (isDigit_not_sign c Hc) as [E1 E2]. rewrite E1, E2.
    rewrite Hv, H. reflexivity.
Qed.

Lemma ParseDuration_unit n (u : ascii) :
  in_int64 n = true ->
  ParseDuration (Itoa n ++ [u])
  = if Ascii.eqb u "s" then Ok (wrap64 (n * Second))
    else if Ascii.eqb u "m" then Ok (wrap64 (n * Minute))
    else if Ascii.eqb u "h" then Ok (wrap64 (n * Hour))
    else Err.
Proof.
  intros H. unfold ParseDuration.
  rewrite rev_app_distr. cbn [rev app]. rewrite rev_involutive.
  rewrite (Atoi_Itoa n H). reflexivity.
Qed.

(** X21. [ParseDuration] gives back the duration that [FormatDuration]
    printed when the duration is a whole number of seconds below one minute
    (negative ones included), a whole number of minutes from 1 to 59, or a
    whole number of hours from 1 on. *)
Theorem format_then_parse_duration (impl : float -> Z) (d k : Z) :
  MinInt64 <= d <= MaxInt64 ->
  (d = k * Second /\ k < 60)
  \/ (d = k * Minute /\ 1 <= k < 60)
  \/ (d = k * Hour /\ 1 <= k) ->
  ParseDuration (FormatDuration impl d) = Ok d.
Proof.
  intros Hd Hk. unfold MinInt64, MaxInt64 in Hd. unfold FormatDuration.
  assert (Hin : forall z, MinInt64 <= z <= MaxInt64 -> in_int64 z = true).
  { intros z Hz. unfold in_int64.
    apply andb_true_intro. split; apply Z.leb_le; lia. }
  destruct Hk as [[-> Hk] | [[-> Hk] | [-> Hk]]].
  - unfold Second in Hd.
    rewrite Seconds_whole by lia.
    assert (E : (k <? 60) = true) by (apply Z.ltb_lt; lia). rewrite E.
    change (L "s") with ["s"%char]. rewrite ParseDuration_unit.
    + cbn [Ascii.eqb]. change (Ascii.eqb "s" "s") with true. cbv iota.
      rewrite wrap64_id; [reflexivity|].
      unfold MinInt64, MaxInt64, Second. lia.
    + apply Hin. unfold MinInt64, MaxInt64. lia.
  - unfold Minute, Second in Hd.
    replace (k * Minute) with ((60 * k) * Second) by (unfold Minute; lia).
    rewrite Seconds_whole by lia.
    assert (E1 : (60 * k <? 60) = false) by (apply Z.ltb_ge; lia).
    assert (E2 : (60 * k <? 3600) = true) by (apply Z.ltb_lt; lia).
    rewrite E1, E2.
    replace (Z.quot (60 * k) 60) with k
      by (rewrite Z.mul_comm, Z.quot_mul; lia).
    change (L "m") with ["m"%char]. rewrite ParseDuration_unit.
    + change (Ascii.eqb "m" "s") with false.
      change (Ascii.eqb "m" "m") with true. cbv iota.
      rewrite wrap64_id; [f_equal; unfold Minute; lia|].
      unfold MinInt64, MaxInt64, Minute, Second. lia.
    + apply Hin. unfold MinInt64, MaxInt64. lia.
  - unfold Hour, Minute, Second in Hd.
    replace (k * Hour) with ((3600 * k) * Second)
      by (unfold Hour, Minute; lia).
    rewrite Seconds_whole by lia.
    assert (E1 : (3600 * k <? 60) = false) by (apply Z.ltb_ge; lia).
    assert (E2 : (3600 * k <? 3600) = false) by (apply Z.ltb_ge; lia).
    rewrite E1, E2.
    replace (Z.quot (3600 * k) 3600) with k
      by (rewrite Z.mul_comm, Z.quot_mul; lia).
    change (L "h") with ["h"%char]. rewrite ParseDuration_unit.
    + change (Ascii.eqb "h" "s") with false.
      change (Ascii.eqb "h" "m") with false.
      change (Ascii.eqb "h" "h") with true. cbv iota.
      rewrite wrap64_id; [f_equal; unfold Hour, Minute; lia|].
      unfold MinInt64, MaxInt64, Hour, Minute, Second. lia.
    + apply Hin. unfold MinInt64, MaxInt64. lia.
Qed.

Lemma format_then_parse_duration_witness :
  ParseDuration (FormatDuration impl_amd64 (5 * Minute)) = Ok (5 * Minute).
Proof.
  apply (format_then_parse_duration impl_amd64 (5 * Minute) 5).
  - vm_compute. split; discriminate.
  - right. left. split; [reflexivity|lia].
Defined.

End DurationFacts.
(** ** Daily-summary watcher *)

Module SummaryFacts.
Import Watcher Summary.















End SummaryFacts.
(** ** The table of a parameter-optimization file *)

Module CsvFacts.
Import Watcher.

(** *** [strings.Split], [strings.Join] and [strings.Contains] *)

Lemma Split_app (sep : ascii) (rest : str) : forall x,
  Split (x ++ sep :: rest) sep = Split x sep ++ Split rest sep.
Proof.
  induction x as [|c x IH]; cbn [app Split].
  - rewrite Ascii.eqb_refl. reflexivity.
  - destruct (Ascii.eqb c sep); [rewrite IH; reflexivity|].
    rewrite IH.
    destruct (NamesFacts.Split_nonempty sep x) as (w & ws & ->).
    reflexivity.
Qed.

Lemma Join_cons (e : str) (rest : list str) (sep : str) :
  rest <> [] -> Join (e :: rest) sep = e ++ sep ++ Join rest sep.
Proof. destruct rest; [congruence|reflexivity]. Qed.

(** The parts of a joined list are the parts of its elements. *)
Lemma Split_Join (sep : ascii) : forall elems,
  elems <> [] ->
  Split (Join elems [sep]) sep = concat (map (fun e => Split e sep) elems).
Proof.
  induction elems as [|e rest IH]; intros H; [congruence|].
  destruct rest as [|e' rest].
  - cbn. rewrite app_nil_r. reflexivity.
  - rewrite Join_cons by discriminate. cbn [app map concat].
    rewrite Split_app, IH by discriminate. reflexivity.
Qed.

Lemma Contains_byte (c : ascii) : forall s,
  Contains s [c] = existsb (Ascii.eqb c) s.
Proof.
  unfold Contains. induction s as [|b s IH]; [reflexivity|].
  cbn [Index HasPrefix existsb].
  destruct (Ascii.eqb c b); cbn [andb orb].
  - destruct s; reflexivity.
  - destruct (Index s [c]); cbn [option_map]; exact IH.
Qed.

Lemma Contains_byte_false (c : ascii) (s : str) :
  ~ In c s -> Contains s [c] = false.
Proof.
  intros H. rewrite Contains_byte.
  destruct (existsb (Ascii.eqb c) s) eqn:E; [|reflexivity].
  apply existsb_exists in E as (b & Hb & Eb).
  apply Ascii.eqb_eq in Eb. subst b. contradiction.
Qed.

Lemma Contains_byte_true (c : ascii) (s : str) :
  In c s -> Contains s [c] = true.
Proof.
  intros H. rewrite Contains_byte. apply existsb_exists.
  exists c. split; [exact H|apply Ascii.eqb_refl].
Qed.

(** The parts of a text that ends in a byte other than the separator. *)
Lemma Split_snoc (sep c : ascii) : forall s,
  c <> sep ->
  Split (s ++ [c]) sep
  = removelast (Split s sep) ++ [last (Split s sep) [] ++ [c]].
Proof.
  intros s Hc. induction s as [|b s IH]; cbn [app Split].
  - apply Ascii.eqb_neq in Hc. rewrite Hc. reflexivity.
  - destruct (NamesFacts.Split_nonempty sep s) as (w & ws & Es).
    destruct (Ascii.eqb b sep).
    + rewrite IH, Es. reflexivity.
    + rewrite IH, Es.
      destruct ws as [|w' ws]; [reflexivity|].
      cbn [removelast last app]. reflexivity.
Qed.

Lemma Split_In (sep c : ascii) : forall s p,
  In p (Split s sep) -> In c p -> In c s.
Proof.
  induction s as [|b s IH]; intros p Hp Hc; cbn [Split] in Hp.
  - destruct Hp as [<-|[]]. exact Hc.
  - destruct (Ascii.eqb b sep).
    + destruct Hp as [<-|Hp]; [destruct Hc|]. right. exact (IH p Hp Hc).
    + destruct (Split s sep) as [|w ws] eqn:Es.
      * destruct Hp as [<-|[]]. destruct Hc as [->|[]]. left. reflexivity.
      * destruct Hp as [<-|Hp].
        -- destruct Hc as [->|Hc]; [left; reflexivity|].
           right. apply (IH w); [left; reflexivity|exact Hc].
        -- right. apply (IH p); [right; exact Hp|exact Hc].
Qed.

(** A text is its parts, joined. *)
Lemma Join_Split (sep : ascii) : forall s, Join (Split s sep) [sep] = s.
Proof.
  induction s as [|b s IH]; [reflexivity|]. cbn [Split].
  destruct (NamesFacts.Split_nonempty sep s) as (w & ws & Es).
  rewrite Es in IH |- *.
  destruct (Ascii.eqb_spec b sep) as [->|Hb].
  - rewrite Join_cons by discriminate. rewrite IH. reflexivity.
  - destruct ws as [|w' ws].
    + cbn in IH |- *. rewrite IH. reflexivity.
    + rewrite Join_cons in IH |- * by discriminate.
      rewrite <- IH. reflexivity.
Qed.

(** *** One line *)

(** A field without comma, brace or equals sign. *)
Definition plain (f : str) : Prop :=
  ~ In ","%char f /\ ~ In "{"%char f /\ ~ In "="%char f.

(** A JSON object without objects inside: braces at the two ends only. *)
Definition flat (j : str) : Prop :=
  exists body,
    j = "{"%char :: body ++ ["}"%char]
    /\ ~ In "{"%char body /\ ~ In "}"%char body.

Lemma merge_json_glues (post : list str) :
  forall (mid : list str) (cur lst : str),
  ~ In "}"%char cur ->
  Forall (fun p : str => ~ In "}"%char p) mid ->
  In "}"%char lst ->
  merge_json cur (mid ++ lst :: post)
  = (Join (cur :: mid ++ [lst]) (L ","), post).
Proof.
  induction mid as [|p mid IH]; intros cur lst Hcur Hmid Hlst.
  - cbn [app merge_json].
    change (L "}") with ["}"%char].
    rewrite (Contains_byte_false _ _ Hcur).
    destruct post as [|q post]; [reflexivity|].
    cbn [merge_json]. change (L "}") with ["}"%char].
    rewrite Contains_byte_true; [reflexivity|].
    apply in_or_app. right. apply in_or_app. right. exact Hlst.
  - inversion Hmid as [|? ? Hp Hmid']; subst.
    cbn [app merge_json]. change (L "}") with ["}"%char].
    rewrite (Contains_byte_false _ _ Hcur).
    rewrite IH; [| |exact Hmid'|exact Hlst].
    + f_equal. rewrite (Join_cons cur) by discriminate.
      rewrite (Join_cons (cur ++ L "," ++ p)).
      * rewrite (Join_cons p); [|destruct mid; discriminate].
        rewrite <- !app_assoc. reflexivity.
      * destruct mid; discriminate.
    + intros H. apply in_app_or in H as [H|H]; [exact (Hcur H)|].
      apply in_app_or in H as [H|H]; [|exact (Hp H)].
      destruct H as [H|[]]. discriminate H.
Qed.

Lemma parse_parts_plain fuel p rest :
  ~ In "{"%char p -> ~ In "="%char p ->
  parse_parts (S fuel) (p :: rest) = TrimSpace p :: parse_parts fuel rest.
Proof.
  intros H1 H2. cbn [parse_parts].
  change (L "{") with ["{"%char]. change (L "=") with ["="%char].
  rewrite (Contains_byte_false _ _ H1), (Contains_byte_false _ _ H2).
  reflexivity.
Qed.

Lemma parse_parts_plains : forall fields fuel rest,
  Forall plain fields ->
  parse_parts (length fields + fuel) (fields ++ rest)
  = map TrimSpace fields ++ parse_parts fuel rest.
Proof.
  induction fields as [|f fields IH]; intros fuel rest H; [reflexivity|].
  inversion H as [|? ? (_ & H1 & H2) H']; subst.
  cbn [length Nat.add app map]. rewrite parse_parts_plain by assumption.
  rewrite IH by exact H'. reflexivity.
Qed.

Lemma parse_parts_nil fuel : parse_parts fuel [] = [].
Proof. destruct fuel; reflexivity. Qed.

(** The parts of a flat object: the first holds the opening brace, the
    last, and no other, the closing one. *)
Lemma flat_parts j :
  flat j ->
  (Split j "," = [j] /\ In "{"%char j /\ In "}"%char j)
  \/ exists (first : str) (mid : list str) (lst : str),
       Split j "," = first :: mid ++ [lst]
       /\ In "{"%char first /\ ~ In "}"%char first
       /\ Forall (fun p : str => ~ In "}"%char p) mid
       /\ In "}"%char lst.
Proof.
  intros (body & -> & Ho & Hc).
  change ("{"%char :: body ++ ["}"%char])
    with (("{"%char :: body) ++ ["}"%char]).
  rewrite Split_snoc by discriminate.
  assert (Hparts : forall p, In p (Split ("{"%char :: body) ",") ->
                             ~ In "}"%char p).
  { intros p Hp H.
    pose proof (Split_In "," "}" _ p Hp H) as [E|E]; [discriminate E|].
    exact (Hc E). }
  revert Hparts. cbn [Split]. change (Ascii.eqb "{" ",") with false. cbv iota.
  destruct (NamesFacts.Split_nonempty "," body) as (w & ws & Es).
  rewrite Es. intros Hparts.
  destruct ws as [|w' ws].
  - left. cbn [removelast last app]. split; [|split].
    + pose proof (Join_Split "," body) as J. rewrite Es in J.
      cbn [Join] in J. rewrite J. reflexivity.
    + left. reflexivity.
    + right. apply in_or_app. right. left. reflexivity.
  - right.
    exists ("{"%char :: w), (removelast (w' :: ws)),
           (last (w' :: ws) [] ++ ["}"%char]).
    split; [|split; [|split; [|split]]].
    + cbn [removelast last]. reflexivity.
    + left. reflexivity.
    + apply Hparts. left. reflexivity.
    + apply Forall_forall. intros p Hp. apply Hparts. right.
      clear -Hp. revert Hp. generalize (w' :: ws).
      induction l as [|a l IH]; intros Hp; [destruct Hp|].
      cbn [removelast] in Hp. destruct l as [|b l]; [destruct Hp|].
      destruct Hp as [<-|Hp]; [left; reflexivity|right; apply IH; exact Hp].
    + apply in_or_app. right. left. reflexivity.
Qed.

Lemma parse_parts_all : forall fields fuel,
  Forall plain fields -> (length fields <= fuel)%nat ->
  parse_parts fuel fields = map TrimSpace fields.
Proof.
  induction fields as [|f fields IH]; intros fuel H Hlen;
    [apply parse_parts_nil|].
  inversion H as [|? ? (_ & H1 & H2) H']; subst.
  destruct fuel as [|fuel]; [cbn [length] in Hlen; lia|].
  rewrite parse_parts_plain by assumption. cbn [map length] in *.
  rewrite IH; [reflexivity|exact H'|lia].
Qed.

Lemma concat_Split_plain : forall fields,
  Forall plain fields ->
  concat (map (fun e => Split e ",") fields) = fields.
Proof.
  induction 1 as [|f fields (Hf & _) _ IH]; [reflexivity|].
  cbn [map concat]. rewrite NamesFacts.Split_nosep by exact Hf.
  rewrite IH. reflexivity.
Qed.

(** X23. [parseCSVLineWithJSON] keeps a JSON object as one field: on a
    line of comma-separated fields of which one is an object without
    objects inside (commas and equals signs allowed) and the others hold no
    comma, brace or equals sign, it returns the fields, each trimmed. *)
Theorem json_field_kept (pre post : list str) (j : str) :
  Forall plain pre -> Forall plain post -> flat j ->
  parseCSVLineWithJSON (Join (pre ++ j :: post) (L ","))
  = map TrimSpace (pre ++ j :: post).
Proof.
  intros Hpre Hpost Hj. unfold parseCSVLineWithJSON.
  change (L ",") with [","%char].
  rewrite Split_Join by (destruct pre; discriminate).
  rewrite map_app, concat_app. cbn [map concat].
  rewrite !concat_Split_plain by assumption.
  rewrite length_app, parse_parts_plains by exact Hpre.
  rewrite map_app. f_equal. cbn [map].
  rewrite length_app.
  destruct (flat_parts j Hj)
    as [(Es & Ho & Hc) | (first & mid & lst & Es & Ho & Hnc & Hmid & Hlst)].
  - rewrite Es. cbn [length Nat.add app parse_parts].
    change (L "{") with ["{"%char]. change (L "}") with ["}"%char].
    rewrite (Contains_byte_true _ _ Ho), (Contains_byte_true _ _ Hc).
    cbn [negb andb]. rewrite andb_false_r.
    rewrite parse_parts_all by (try assumption; lia). reflexivity.
  - pose proof (Join_Split "," j) as J. rewrite Es in J.
    rewrite Es. cbn [length Nat.add app parse_parts].
    change (L "{") with ["{"%char]. change (L "}") with ["}"%char].
    rewrite (Contains_byte_true _ _ Ho), (Contains_byte_false _ _ Hnc).
    cbn [negb andb]. rewrite <- app_assoc. cbn [app].
    rewrite (merge_json_glues post mid first lst Hnc Hmid Hlst).
    change (L ",") with [","%char]. rewrite J.
    rewrite parse_parts_all by (try assumption; lia). reflexivity.
Qed.

Lemma json_field_kept_witness :
  parseCSVLineWithJSON
    (Join ([L "2"; L " 900"] ++ T "{'a':'12','b':'18'}" :: [L "2008-01-01"])
       (L ","))
  = map TrimSpace
      ([L "2"; L " 900"] ++ T "{'a':'12','b':'18'}" :: [L "2008-01-01"]).
Proof.
  apply (json_field_kept [L "2"; L " 900"] [L "2008-01-01"]
           (T "{'a':'12','b':'18'}")).
  - repeat constructor; intros H; cbn in H; intuition discriminate.
  - repeat constructor; intros H; cbn in H; intuition discriminate.
  - exists (T "'a':'12','b':'18'"). split; [reflexivity|].
    split; intros H; cbn in H; intuition discriminate.
Defined.

(** *** The rows *)

Lemma keep_some_In {A} (l : list (option A)) (a : A) :
  In a (keep_some l) <-> In (Some a) l.
Proof.
  induction l as [|[x|] l IH]; cbn [keep_some In].
  - tauto.
  - rewrite IH. split; (intros [H|H]; [left; congruence|right; exact H]).
  - rewrite IH. split; [tauto|]. intros [H|H]; [discriminate|exact H].
Qed.

Lemma keep_some_length {A} (l : list (option A)) :
  (length (keep_some l) <= length l)%nat.
Proof.
  induction l as [|[x|] l IH]; cbn [keep_some length]; lia.
Qed.

Lemma parseRow_parameters record runIndex parametersJSONIndex i1 i2 i3 i4 r :
  parseRow record runIndex parametersJSONIndex i1 i2 i3 i4 = Some r ->
  ParametersJSON r <> []
  /\ ParametersJSON r = TrimSpace (nth parametersJSONIndex record [])
  /\ Atoi (TrimSpace (nth runIndex record [])) = Some (Run r)
  /\ (runIndex < length record)%nat
  /\ (parametersJSONIndex < length record)%nat.
Proof.
  unfold parseRow.
  destruct (Nat.leb_spec (length record) runIndex) as [|H1];
    [discriminate|].
  destruct (Nat.leb_spec (length record) parametersJSONIndex) as [|H2];
    [discriminate|].
  cbn [orb].
  destruct (Atoi (TrimSpace (nth runIndex record []))) as [run|];
    [|discriminate].
  destruct (eqb_str (TrimSpace (nth parametersJSONIndex record [])) [])
    eqn:E; [discriminate|].
  intros H. injection H as <-. cbn [ParametersJSON Run].
  apply eqb_str_neq in E. repeat split; assumption.
Qed.

(** X24. What [parseCSVContent] returns: the flag is set exactly when there
    are rows; rows come only for the task types WFO and WFM; there are
    fewer rows than non-blank lines; and every row has a run number read
    by [Atoi] and a parameters text that is not empty. *)
Theorem parseCSVContent_rows (csvContent jobTaskType : str) :
  let rows := fst (parseCSVContent csvContent jobTaskType) in
  let isWFO := snd (parseCSVContent csvContent jobTaskType) in
  (isWFO = true <-> rows <> [])
  /\ (rows <> [] -> jobTaskType = L "WFO" \/ jobTaskType = L "WFM")
  /\ (rows <> [] ->
      (length rows < length (parseCSVWithJSONFields csvContent))%nat)
  /\ Forall (fun r =>
       ParametersJSON r <> []
       /\ exists record,
            In record (parseCSVWithJSONFields csvContent)
            /\ exists runText, In runText record
                 /\ Atoi (TrimSpace runText) = Some (Run r))
     rows.
Proof.
  cbv zeta. unfold parseCSVContent.
  assert (Hnone : forall records : list (list str),
            (false = true <-> @nil OPTResult <> [])
            /\ (@nil OPTResult <> [] ->
                jobTaskType = L "WFO" \/ jobTaskType = L "WFM")
            /\ (@nil OPTResult <> [] -> (0 < length records)%nat)
            /\ Forall (fun r =>
                 ParametersJSON r <> []
                 /\ exists record, In record records
                      /\ exists runText, In runText record
                           /\ Atoi (TrimSpace runText) = Some (Run r)) []).
  { intros records. split; [split; [discriminate|congruence]|].
    split; [congruence|]. split; [congruence|constructor]. }
  destruct (eqb_str jobTaskType (L "WFO")) eqn:E1;
    [|destruct (eqb_str jobTaskType (L "WFM")) eqn:E2];
    cbn [negb andb]; try exact (Hnone _).
  - apply eqb_str_eq in E1.
    destruct (parseCSVWithJSONFields csvContent) as [|header [|row rows]];
      try exact (Hnone _).
    destruct (column header [L "run"; L "run_number"]) as [runIndex|];
      [|exact (Hnone _)].
    destruct (column header [L "parameters_json"; L "parameters json"])
      as [parametersJSONIndex|]; [|exact (Hnone _)].
    set (f := fun record => parseRow record runIndex parametersJSONIndex _ _ _ _).
    destruct (keep_some (map f (row :: rows))) as [|r rs] eqn:Ek;
      [exact (Hnone _)|].
    cbn [fst snd]. split; [split; [discriminate|reflexivity]|].
    split; [intros _; left; exact E1|]. split.
    + intros _. rewrite <- Ek.
      pose proof (keep_some_length (map f (row :: rows))) as Hl.
      rewrite length_map in Hl. cbn [length] in *. lia.
    + rewrite <- Ek. apply Forall_forall. intros x Hx.
      apply keep_some_In in Hx. apply in_map_iff in Hx as (record & Hr & Hin).
      destruct (parseRow_parameters _ _ _ _ _ _ _ _ Hr)
        as (P1 & P2 & P3 & P4 & P5).
      split; [exact P1|]. exists record. split; [right; exact Hin|].
      exists (nth runIndex record []). split; [|exact P3].
      apply nth_In. exact P4.
  - apply eqb_str_eq in E2.
    destruct (parseCSVWithJSONFields csvContent) as [|header [|row rows]];
      try exact (Hnone _).
    destruct (column header [L "run"; L "run_number"]) as [runIndex|];
      [|exact (Hnone _)].
    destruct (column header [L "parameters_json"; L "parameters json"])
      as [parametersJSONIndex|]; [|exact (Hnone _)].
    set (f := fun record => parseRow record runIndex parametersJSONIndex _ _ _ _).
    destruct (keep_some (map f (row :: rows))) as [|r rs] eqn:Ek;
      [exact (Hnone _)|].
    cbn [fst snd]. split; [split; [discriminate|reflexivity]|].
    split; [intros _; right; exact E2|]. split.
    + intros _. rewrite <- Ek.
      pose proof (keep_some_length (map f (row :: rows))) as Hl.
      rewrite length_map in Hl. cbn [length] in *. lia.
    + rewrite <- Ek. apply Forall_forall. intros x Hx.
      apply keep_some_In in Hx. apply in_map_iff in Hx as (record & Hr & Hin).
      destruct (parseRow_parameters _ _ _ _ _ _ _ _ Hr)
        as (P1 & P2 & P3 & P4 & P5).
      split; [exact P1|]. exists record. split; [right; exact Hin|].
      exists (nth runIndex record []). split; [|exact P3].
      apply nth_In. exact P4.
Qed.

End CsvFacts.
(** ** Multi-timeframe jobs and the choice of the expansion *)

Module DispatchFacts.
Import Expand Chunks Edits ExpandFacts Dispatch.

(** The job element that [processMTFJob] builds for one time frame. *)
Definition mtfJobElement (xmlContent timeframe : str) : str :=
  removeXMLTag (replaceXMLTag xmlContent (L "Timeframe") (TrimSpace timeframe))
    (L "timeframes").

Lemma mtfJobElements_map xml timeframes :
  Forall (fun s => TrimSpace s <> []) timeframes ->
  mtfJobElements xml timeframes = map (mtfJobElement xml) timeframes.
Proof.
  induction 1 as [|s rest Hs Hrest IH]; [reflexivity|].
  cbn [mtfJobElements map]. apply eqb_str_neq in Hs. rewrite Hs, IH.
  reflexivity.
Qed.

Lemma mtfJobElement_inv xml timeframeValue timeframesValue s :
  inv [(L "Timeframe", timeframeValue); (L "timeframes", timeframesValue)]
      [(L "Job>", 1%nat); (L "timeframes>", 1%nat)] xml ->
  noltb s = true ->
  inv [(L "Timeframe", TrimSpace s)]
      [(L "Job>", 1%nat); (L "timeframes>", 0%nat)]
      (mtfJobElement xml s).
Proof.
  intros I0 Hs. rewrite <- noltb_TrimSpace in Hs.
  pose proof (replace_inv _ _ _ (L "Timeframe") (TrimSpace s) I0 eq_refl Hs)
    as I1.
  exact (remove_inv _ _ _ (L "timeframes") I1 eq_refl).
Qed.

(** X25. For an MTF descriptor with one [<Job>] tag, a [Timeframe] element
    and one [timeframes] element whose value is a comma-separated list of
    [k >= 2] non-blank time frames, [processMTFJob] returns [k] job
    elements in a [<root>] wrapper, with [k] [<Job>] opening tags and no
    [<timeframes>], and the [Timeframe] value of the i-th job element is the
    (trimmed) i-th time frame of the list. *)
Theorem multi_timeframe_expansion
    (xml timeframeValue timeframesValue : str) (timeframes : list str) :
  Count xml (L "<Job>") = 1%nat ->
  Count xml (L "<timeframes>") = 1%nat ->
  tagValue xml (L "Timeframe") = Some timeframeValue ->
  noltb timeframeValue = true ->
  tagValue xml (L "timeframes") = Some timeframesValue ->
  noltb timeframesValue = true ->
  Split timeframesValue "," = timeframes ->
  (2 <= length timeframes)%nat ->
  Forall (fun s => TrimSpace s <> []) timeframes ->
  exists jobs,
    processMTFJob xml = Ret (wrapRoot (Join jobs [nl]))
    /\ length jobs = length timeframes
    /\ Count (wrapRoot (Join jobs [nl])) (L "<Job>") = length timeframes
    /\ Count (wrapRoot (Join jobs [nl])) (L "<timeframes>") = 0%nat
    /\ Forall2 (fun job s => tagValue job (L "Timeframe") = Some (TrimSpace s))
         jobs timeframes.
Proof.
  intros HJ HS HV1 HN1 HV2 HN2 Hsplit Hk Hne.
  assert (I0 : inv [(L "Timeframe", timeframeValue);
                    (L "timeframes", timeframesValue)]
                   [(L "Job>", 1%nat); (L "timeframes>", 1%nat)] xml).
  { apply inv_intro; repeat constructor; assumption. }
  assert (Hnolt : Forall (fun s => noltb s = true) timeframes)
    by (rewrite <- Hsplit; apply noltb_Split; exact HN2).
  assert (Hjobs : Forall (fun s =>
            inv [(L "Timeframe", TrimSpace s)]
                [(L "Job>", 1%nat); (L "timeframes>", 0%nat)]
                (mtfJobElement xml s))
            timeframes).
  { rewrite Forall_forall in *. intros s Hs.
    apply (mtfJobElement_inv _ _ _ _ I0). apply Hnolt. exact Hs. }
  exists (map (mtfJobElement xml) timeframes).
  split; [|split; [apply length_map|split; [|split]]].
  - unfold processMTFJob. unfold tagValue in HV2.
    change (startTagOf (L "timeframes")) with (L "<timeframes>") in HV2.
    change (endTagOf (L "timeframes")) with (L "</timeframes>") in HV2.
    destruct (Index xml (L "<timeframes>")) as [i|]; [|discriminate].
    destruct (Index xml (L "</timeframes>")) as [j|]; [|discriminate].
    change (length (L "<timeframes>")) with 12%nat in HV2.
    destruct (Nat.leb (i + 12) j); [|discriminate].
    injection HV2 as ->. rewrite Hsplit.
    destruct (Nat.leb_spec (length timeframes) 1) as [Hle|_]; [lia|].
    rewrite mtfJobElements_map by exact Hne. reflexivity.
  - change (L "<Job>") with (lt :: L "Job>").
    rewrite (Count_wrapRoot (L "Job>") _ eq_refl
               (quiet_not_In (L "Job>") nl eq_refl eq_refl)).
    rewrite (Count_Join (L "Job>") 1%nat eq_refl
               (quiet_not_In (L "Job>") nl eq_refl eq_refl)).
    + rewrite length_map.
      change (Count (L "<root>") (lt :: L "Job>")) with 0%nat.
      change (Count (L "</root>") (lt :: L "Job>")) with 0%nat. lia.
    + apply Forall_map. rewrite Forall_forall in *. intros s Hs.
      apply (inv_Count _ _ _ _ _ (Hjobs s Hs)); [cbn [In]; tauto|reflexivity].
  - change (L "<timeframes>") with (lt :: L "timeframes>").
    rewrite (Count_wrapRoot (L "timeframes>") _ eq_refl
               (quiet_not_In (L "timeframes>") nl eq_refl eq_refl)).
    rewrite (Count_Join (L "timeframes>") 0%nat eq_refl
               (quiet_not_In (L "timeframes>") nl eq_refl eq_refl)).
    + change (Count (L "<root>") (lt :: L "timeframes>")) with 0%nat.
      change (Count (L "</root>") (lt :: L "timeframes>")) with 0%nat. lia.
    + apply Forall_map. rewrite Forall_forall in *. intros s Hs.
      apply (inv_Count _ _ _ _ _ (Hjobs s Hs)); [cbn [In]; tauto|reflexivity].
  - apply Forall2_map_l. rewrite Forall_forall in *. intros s Hs.
    apply (inv_tagValue _ _ _ _ _ (Hjobs s Hs)); [cbn [In]; tauto|reflexivity].
Qed.

(** A descriptor with three time frames. *)
Definition descriptor_mtf : str :=
  T "<Job>|  <task_type>MTF</task_type>|  <Symbol>@ES</Symbol>|  <Timeframe>60</Timeframe>|  <timeframes>15, 60 ,240</timeframes>|</Job>".

Lemma multi_timeframe_expansion_witness :
  exists jobs,
    processMTFJob descriptor_mtf = Ret (wrapRoot (Join jobs [nl]))
    /\ length jobs = 3%nat
    /\ Count (wrapRoot (Join jobs [nl])) (L "<Job>") = 3%nat
    /\ Count (wrapRoot (Join jobs [nl])) (L "<timeframes>") = 0%nat
    /\ Forall2 (fun job s => tagValue job (L "Timeframe") = Some (TrimSpace s))
         jobs [L "15"; L " 60 "; L "240"].
Proof.
  apply (multi_timeframe_expansion descriptor_mtf (L "60") (L "15, 60 ,240")
           [L "15"; L " 60 "; L "240"]);
    try reflexivity.
  - cbn. lia.
  - repeat constructor; intros H; vm_compute in H; discriminate.
Defined.

(** *** The choice of the expansion *)

Lemma processMMJob_rooted xml out :
  processMMJob xml = Ret out -> exists body, out = wrapRoot body.
Proof.
  unfold processMMJob.
  destruct (Index xml (L "<symbols>")) as [i|];
    [destruct (Index xml (L "</symbols>")) as [j|]|];
    try (intros H; injection H as <-; eauto).
  destruct (Nat.leb (i + 9) j); [|discriminate].
  destruct (Nat.leb _ 1); intros H; injection H as <-; eauto.
Qed.

Lemma processMTFJob_rooted xml out :
  processMTFJob xml = Ret out -> exists body, out = wrapRoot body.
Proof.
  unfold processMTFJob.
  destruct (Index xml (L "<timeframes>")) as [i|];
    [destruct (Index xml (L "</timeframes>")) as [j|]|];
    try (intros H; injection H as <-; eauto).
  destruct (Nat.leb (i + 12) j); [|discriminate].
  destruct (Nat.leb _ 1); intros H; injection H as <-; eauto.
Qed.

Lemma processWFOJob_rooted impl xml out :
  processWFOJob impl xml = Ret out -> exists body, out = wrapRoot body.
Proof.
  unfold processWFOJob.
  destruct (wfoPlan impl xml) as [[[oosPercent dateRanges]|]| |];
    cbn; try discriminate; intros H; injection H as <-; eauto.
Qed.

(** X26. The content that [DownloadFile] writes for a descriptor, when the
    expansion does not crash, is always a [<root>] element; and a descriptor
    with none of the tags [<symbols>], [<timeframes>] and [<oos_runs>] is
    written as it came, in the wrapper, whatever its task type. *)
Theorem saved_content_is_rooted (impl : float -> Z) (xml : str) :
  (forall out, finalContent impl xml = Ret out ->
               exists body, out = wrapRoot body)
  /\ (Contains xml (L "<symbols>") = false ->
      Contains xml (L "<timeframes>") = false ->
      Contains xml (L "<oos_runs>") = false ->
      finalContent impl xml = Ret (wrapRoot xml)).
Proof.
  unfold finalContent. split.
  - intros out.
    destruct (Contains xml (L "<task_type>MM</task_type>")
              && Contains xml (L "<symbols>"));
      [apply processMMJob_rooted|].
    destruct (Contains xml (L "<task_type>MTF</task_type>")
              && Contains xml (L "<timeframes>"));
      [apply processMTFJob_rooted|].
    destruct ((Contains xml (L "<task_type>WFO</task_type>")
               || Contains xml (L "<task_type>WFM</task_type>")
               || Contains xml (L "<task_type>DWFM</task_type>"))
              && Contains xml (L "<oos_runs>"));
      [apply processWFOJob_rooted|].
    intros H. injection H as <-. eauto.
  - intros -> -> ->. rewrite !andb_false_r. reflexivity.
Qed.

End DispatchFacts.
(** ** Result-file watcher *)

Module ResultsFacts.
Import Watcher Results.










End ResultsFacts.
(** ** Dates as text, the other way round *)

Module DateFacts.
Import Expand Time.

(** The months counted from March, with the days of the year before
    them. *)
Lemma month_table month :
  1 <= month <= 12 ->
  let mp := (month + 9) mod 12 in
  let base := (153 * mp + 2) / 5 in
  (if mp <? 10 then mp + 3 else mp - 9) = month
  /\ 0 <= mp <= 11
  /\ forall year day,
       1 <= day <= daysIn month year ->
       0 <= base + day - 1 <= 365
       /\ (5 * (base + day - 1) + 2) / 153 = mp
       /\ (base + day - 1 = 365 -> month = 2 /\ isLeap year = true).
Proof.
  intros Hm.
  assert (E : month = 1 \/ month = 2 \/ month = 3 \/ month = 4
              \/ month = 5 \/ month = 6 \/ month = 7 \/ month = 8
              \/ month = 9 \/ month = 10 \/ month = 11 \/ month = 12) by lia.
  repeat (destruct E as [E|E]); subst month; cbv zeta;
    (split; [reflexivity|]); (split; [cbn; lia|]);
    intros year day Hd; unfold daysIn in Hd;
    match goal with
    | |- context [(153 * ?m + 2) / 5] =>
        let v := eval vm_compute in ((153 * m + 2) / 5) in
        change ((153 * m + 2) / 5) with v
    end;
    match goal with
    | |- context [(?a + 9) mod 12] =>
        let v := eval vm_compute in ((a + 9) mod 12) in
        change ((a + 9) mod 12) with v
    end;
    try (destruct (isLeap year) eqn:El);
    (split; [lia|]); (split; [Z.div_mod_to_equations; lia|]);
    intros H; first [lia | split; reflexivity].
Qed.

(** The calendar date of the day number of a calendar date. *)
Lemma civil_of_days year month day :
  1 <= month <= 12 -> 1 <= day <= daysIn month year ->
  civil_from_days (days_from_civil year month day) = (year, month, day).
Proof.
  intros Hm Hd. unfold days_from_civil, civil_from_days.
  destruct (month_table month Hm) as (Emonth & Hmp & Htab).
  cbv zeta in Emonth, Hmp, Htab.
  destruct (Htab year day Hd) as (Hdoy & Emp & Hlast). clear Htab.
  set (y := if month <=? 2 then year - 1 else year).
  set (era := y / 400). set (yoe := y mod 400).
  set (mp := (month + 9) mod 12) in *.
  set (base := (153 * mp + 2) / 5) in *.
  replace (base + day - 1) with (base + day - 1) in * by reflexivity.
  set (doy := base + day - 1) in *.
  set (doe := yoe * 365 + yoe / 4 - yoe / 100 + doy).
  assert (Hyoe : 0 <= yoe <= 399)
    by (subst yoe; pose proof (Z.mod_pos_bound y 400 ltac:(lia)); lia).
  assert (Hy : y = 400 * era + yoe)
    by (subst era yoe; apply Z.div_mod; lia).
  assert (L4 : doy = 365 -> (yoe + 1) mod 4 = 0
                            /\ ((yoe + 1) mod 100 <> 0
                                \/ (yoe + 1) mod 400 = 0)).
  { intros E. destruct (Hlast E) as [E2 El].
    apply TimeFacts.isLeap_true.
    replace (yoe + 1) with (year + 400 * (- era)).
    - rewrite TimeFacts.isLeap_shift. exact El.
    - assert (Ey : y = year - 1) by (subst y; rewrite E2; reflexivity).
      lia. }
  assert (Hdoe : 0 <= doe <= 146096).
  { subst doe. clearbody doy yoe. Z.div_mod_to_equations. lia. }
  replace (era * 146097 + doe - 719468 + 719468)
    with (doe + era * 146097) by ring.
  rewrite Z.div_add, Z_mod_plus_full by lia.
  rewrite (Z.div_small doe), (Z.mod_small doe) by lia. cbn [Z.add].
  assert (Eyoe : (doe - doe / 1460 + doe / 36524 - doe / 146096) / 365 = yoe).
  { subst doe. clearbody doy yoe. clear -Hyoe Hdoy L4.
    destruct (Z.eq_dec doy 365) as [E|E].
    - destruct (L4 E) as [M4 M100]. clear L4. subst doy.
      Z.div_mod_to_equations. lia.
    - clear L4. Z.div_mod_to_equations. lia. }
  rewrite Eyoe.
  replace (doe - (365 * yoe + yoe / 4 - yoe / 100)) with doy
    by (subst doe; ring).
  rewrite Emp, Emonth.
  assert (Eday : doy - (153 * mp + 2) / 5 + 1 = day)
    by (subst doy base; ring).
  rewrite Eday.
  f_equal. f_equal.
  revert Hy. unfold y. destruct (month <=? 2); intros Hy; lia.
Qed.

(** *** Digits *)

Lemma digit_val_range c : isDigit c = true -> 0 <= digit_val c <= 9.
Proof.
  unfold isDigit, digit_val. intros H. apply andb_true_iff in H as [H1 H2].
  apply N.leb_le in H1, H2. lia.
Qed.

Lemma digit_val_inj a b : digit_val a = digit_val b -> a = b.
Proof.
  unfold digit_val, code. intros H.
  rewrite <- (ascii_N_embedding a), <- (ascii_N_embedding b).
  f_equal. lia.
Qed.

(** X29. A date that [parseDate] accepts is written back by [formatDate]
    as the same text: on the texts that name a day of the calendar the two
    functions are inverse to each other. *)
Theorem parse_then_format (dateStr : str) (t : Z) :
  parseDate dateStr = Some t -> formatDate t = dateStr.
Proof.
  unfold parseDate, formatDate, Parse. intros H.
  destruct dateStr
    as [|y1 [|y2 [|y3 [|y4 [|h1 [|m1 [|m2 [|h2 [|d1 [|d2 [|? ?]]]]]]]]]]];
    try discriminate.
  destruct (forallb isDigit [y1; y2; y3; y4; m1; m2; d1; d2]
            && Ascii.eqb h1 "-" && Ascii.eqb h2 "-") eqn:E; [|discriminate].
  apply andb_true_iff in E as [E E2]. apply andb_true_iff in E as [E E1].
  apply Ascii.eqb_eq in E1, E2. subst h1 h2. cbn [forallb] in E.
  repeat (apply andb_true_iff in E as [?D E]). clear E.
  set (year := 1000 * digit_val y1 + 100 * digit_val y2
               + 10 * digit_val y3 + digit_val y4) in *.
  set (month := 10 * digit_val m1 + digit_val m2) in *.
  set (day := 10 * digit_val d1 + digit_val d2) in *.
  destruct ((1 <=? month) && (month <=? 12)
            && (1 <=? day) && (day <=? daysIn month year)) eqn:V;
    [|discriminate].
  injection H as <-.
  repeat (apply andb_true_iff in V as [V ?V]).
  unfold Format. rewrite civil_of_days by lia.
  repeat match goal with
         | H : isDigit ?c = true |- _ =>
             pose proof (digit_val_range c H); clear H
         end.
  assert (Hy : 0 <= year <= 9999) by (subst year; lia).
  pose proof (TimeFacts.daysIn_le_31 month year) as H31.
  destruct (TimeFacts.four_ok_shape year Hy) as (a & b & c & e & -> & Hdig & Hval).
  destruct (TimeFacts.two_ok_shape month ltac:(lia))
    as (a1 & a2 & -> & Ha1 & Ha2 & Hmv).
  destruct (TimeFacts.two_ok_shape day ltac:(lia))
    as (b1 & b2 & -> & Hb1 & Hb2 & Hdv).
  cbn [forallb] in Hdig.
  repeat (apply andb_true_iff in Hdig as [?D Hdig]). clear Hdig.
  repeat match goal with
         | H : isDigit ?c = true |- _ =>
             pose proof (digit_val_range c H); clear H
         end.
  cbn [app L list_ascii_of_string].
  subst year month day.
  rewrite (digit_val_inj a y1), (digit_val_inj b y2), (digit_val_inj c y3),
    (digit_val_inj e y4), (digit_val_inj a1 m1), (digit_val_inj a2 m2),
    (digit_val_inj b1 d1), (digit_val_inj b2 d2) by lia.
  reflexivity.
Qed.

Lemma parse_then_format_witness :
  formatDate 19782 = L "2024-02-29".
Proof.
  apply (parse_then_format (L "2024-02-29") 19782). reflexivity.
Defined.

End DateFacts.
